(** * OpenMensa feed generator for the Zentralmensa Arnold-Bode-Strasse

    A shallow embedding of [scripts/parser.py] and the verification of the
    properties its specification states.

    Python strings are sequences of Unicode code points; they are modelled as
    lists of code points ([N]).  The library functions the script calls
    ([re], [str] methods, [float], [datetime.strptime], [str.format],
    [xml.etree.ElementTree]) are modelled as they behave in CPython 3.11
    (Unicode 14.0): [\d] is the Unicode category Nd, [\s] is the set of
    [str.isspace] characters, a float is an IEEE 754 binary64 number, and so
    on.  The current year is an argument of the functions that read the
    clock.  What [main] does with the network and the file system is kept
    out: [main] takes the plain text of the page (or the failure of the
    fetch) and returns the exit code and the text written to the feed file.

    The file has three parts: the embedding of the script and of the library
    functions it uses, the vocabulary in which the specification is stated,
    and the proofs, which end with one theorem for each claim and with
    further properties of the script. *)

From Stdlib Require Import String Ascii.
From Stdlib Require Import Bool Arith NArith ZArith Lia List Permutation.
Import ListNotations.

Set Implicit Arguments.

(* ===================================================================== *)
(** * Characters and strings *)
(* ===================================================================== *)

Definition char := N.
Definition str := list char.

(** ASCII literals. *)
Definition u (s : string) : str := map N_of_ascii (list_ascii_of_string s).

Definition LF : char := 10%N.
Definition CR : char := 13%N.
Definition euro : char := 0x20AC%N.

Definition chr_eqb (a b : char) : bool := N.eqb a b.

Fixpoint str_eqb (a b : str) : bool :=
  match a, b with
  | [], [] => true
  | x :: a', y :: b' => chr_eqb x y && str_eqb a' b'
  | _, _ => false
  end.

Definition is_empty (A : Type) (s : list A) : bool :=
  match s with [] => true | _ => false end.

(** Unicode category Nd: blocks [(first, length)]; the decimal value of a
    character is its offset in the block modulo ten. *)
Definition decimal_blocks : list (N * N) :=
  [ (0x30, 10); (0x660, 10); (0x6f0, 10); (0x7c0, 10); (0x966, 10);
    (0x9e6, 10); (0xa66, 10); (0xae6, 10); (0xb66, 10); (0xbe6, 10);
    (0xc66, 10); (0xce6, 10); (0xd66, 10); (0xde6, 10); (0xe50, 10);
    (0xed0, 10); (0xf20, 10); (0x1040, 10); (0x1090, 10); (0x17e0, 10);
    (0x1810, 10); (0x1946, 10); (0x19d0, 10); (0x1a80, 10); (0x1a90, 10);
    (0x1b50, 10); (0x1bb0, 10); (0x1c40, 10); (0x1c50, 10); (0xa620, 10);
    (0xa8d0, 10); (0xa900, 10); (0xa9d0, 10); (0xa9f0, 10); (0xaa50, 10);
    (0xabf0, 10); (0xff10, 10); (0x104a0, 10); (0x10d30, 10); (0x11066, 10);
    (0x110f0, 10); (0x11136, 10); (0x111d0, 10); (0x112f0, 10); (0x11450, 10);
    (0x114d0, 10); (0x11650, 10); (0x116c0, 10); (0x11730, 10); (0x118e0, 10);
    (0x11950, 10); (0x11c50, 10); (0x11d50, 10); (0x11da0, 10); (0x16a60, 10);
    (0x16ac0, 10); (0x16b50, 10); (0x1d7ce, 50); (0x1e140, 10); (0x1e2f0, 10);
    (0x1e950, 10); (0x1fbf0, 10) ]%N.

Fixpoint decimal_in (tbl : list (N * N)) (c : char) : option N :=
  match tbl with
  | [] => None
  | (a, n) :: t =>
      if ((a <=? c) && (c <? a + n))%N then Some ((c - a) mod 10)%N
      else decimal_in t c
  end.

(** [unicodedata.decimal]: the value of a decimal digit character. *)
Definition decimal (c : char) : option N := decimal_in decimal_blocks c.

(** [\d] of [re] on [str] patterns. *)
Definition is_digit (c : char) : bool :=
  match decimal c with Some _ => true | None => false end.

(** [0-9]. *)
Definition is_ascii_digit (c : char) : bool := ((48 <=? c) && (c <=? 57))%N.

(** [str.isspace] on one character, which is also [\s] of [re]. *)
Definition space_chars : list char :=
  [ 0x9; 0xa; 0xb; 0xc; 0xd; 0x1c; 0x1d; 0x1e; 0x1f; 0x20; 0x85; 0xa0;
    0x1680; 0x2000; 0x2001; 0x2002; 0x2003; 0x2004; 0x2005; 0x2006; 0x2007;
    0x2008; 0x2009; 0x200a; 0x2028; 0x2029; 0x202f; 0x205f; 0x3000 ]%N.

Definition is_space (c : char) : bool := existsb (chr_eqb c) space_chars.

(** The line boundaries of [str.splitlines]. *)
Definition linebreak_chars : list char :=
  [ 0xa; 0xb; 0xc; 0xd; 0x1c; 0x1d; 0x1e; 0x85; 0x2028; 0x2029 ]%N.

Definition is_linebreak (c : char) : bool := existsb (chr_eqb c) linebreak_chars.

(** The class [[A-Za-zÄÖÜäöüß]]. *)
Definition is_letter (c : char) : bool :=
  ((65 <=? c) && (c <=? 90))%N || ((97 <=? c) && (c <=? 122))%N
  || existsb (chr_eqb c) [0xC4; 0xD6; 0xDC; 0xE4; 0xF6; 0xFC; 0xDF]%N.

(** ** [str] methods *)

Fixpoint lstrip (s : str) : str :=
  match s with
  | c :: s' => if is_space c then lstrip s' else s
  | [] => []
  end.

Definition rstrip (s : str) : str := rev (lstrip (rev s)).

(** [s.strip()] *)
Definition strip (s : str) : str := rstrip (lstrip s).

(** [s.replace(c, "")] for a one-character [c]. *)
Definition remove_char (c : char) (s : str) : str :=
  filter (fun x => negb (chr_eqb x c)) s.

(** [s.replace(a, b)] for one-character [a] and [b]. *)
Definition replace_char (a b : char) (s : str) : str :=
  map (fun x => if chr_eqb x a then b else x) s.

(** [s.splitlines()]: [line] is the current line, reversed; [after_cr] says
    that the previous character was a carriage return, whose line feed
    belongs to the same boundary. *)
Fixpoint splitlines_go (line : str) (after_cr : bool) (s : str) : list str :=
  match s with
  | [] => match line with [] => [] | _ => [rev line] end
  | c :: s' =>
      if after_cr && chr_eqb c LF then splitlines_go line false s'
      else if is_linebreak c then rev line :: splitlines_go [] (chr_eqb c CR) s'
      else splitlines_go (c :: line) false s'
  end.

Definition splitlines (s : str) : list str := splitlines_go [] false s.

(** [x in l] for a list of strings. *)
Definition str_in (x : str) (l : list str) : bool := existsb (str_eqb x) l.

(** [str(n)] for an integer. *)
Fixpoint dec_digits_go (fuel : nat) (n : N) (acc : str) : str :=
  match fuel with
  | O => acc
  | S f =>
      let acc' := (48 + n mod 10)%N :: acc in
      if (n <? 10)%N then acc' else dec_digits_go f (n / 10)%N acc'
  end.

Definition dec_digits (n : N) : str := dec_digits_go (S (N.to_nat (N.log2 n))) n [].

Definition str_of_Z (z : Z) : str :=
  if (z <? 0)%Z then 45%N :: dec_digits (Z.to_N (- z)) else dec_digits (Z.to_N z).

(* ===================================================================== *)
(** * The [re] module: a backtracking matcher *)
(* ===================================================================== *)

(** The patterns of the script are sequences of greedy repetitions of one
    character class, group parentheses and the anchors [^] and [$] (no flag
    [MULTILINE] changes them: the only pattern compiled with it has no
    anchor). *)
Inductive atom : Type :=
| Rep (p : char -> bool) (lo : nat) (hi : option nat)
| GroupOpen
| GroupClose
| Bos
| Eos.

Definition regex := list atom.

Definition one (p : char -> bool) : atom := Rep p 1 (Some 1).
Definition lit (c : char) : atom := one (chr_eqb c).
Definition star (p : char -> bool) : atom := Rep p 0 None.
Definition plus (p : char -> bool) : atom := Rep p 1 None.
Definition between (p : char -> bool) (lo hi : nat) : atom := Rep p lo (Some hi).
Definition lits (s : string) : regex := map lit (u s).

Definition more_allowed (hi : option nat) : bool :=
  match hi with Some O => false | _ => true end.

Definition dec_hi (hi : option nat) : option nat :=
  match hi with Some n => Some (pred n) | None => None end.

(** Greedy repetition with backtracking: one more character is tried first,
    and stopping here (when [lo] characters have been taken) after it. [n]
    counts the characters consumed since the start of the match. *)
Fixpoint greedy (A : Type) (p : char -> bool) (lo : nat) (hi : option nat)
  (k : nat -> str -> option A) (n : nat) (s : str) : option A :=
  let stop := match lo with O => k n s | S _ => None end in
  match s with
  | c :: s' =>
      if p c && more_allowed hi then
        match greedy p (pred lo) (dec_hi hi) k (S n) s' with
        | Some r => Some r
        | None => stop
        end
      else stop
  | [] => stop
  end.

(** [bos] says that the match starts at the beginning of the string;
    [opened] are the starts of the groups still open, [spans] the closed
    groups, last closed first. *)
Fixpoint rx_run (r : regex) (bos : bool) (n : nat) (s : str)
  (opened : list nat) (spans : list (nat * nat)) : option (nat * list (nat * nat)) :=
  match r with
  | [] => Some (n, rev spans)
  | Rep p lo hi :: r' =>
      greedy p lo hi (fun n' s' => rx_run r' bos n' s' opened spans) n s
  | GroupOpen :: r' => rx_run r' bos n s (n :: opened) spans
  | GroupClose :: r' =>
      match opened with
      | a :: o' => rx_run r' bos n s o' ((a, n) :: spans)
      | [] => None
      end
  | Bos :: r' =>
      if bos && Nat.eqb n 0 then rx_run r' bos n s opened spans else None
  | Eos :: r' =>
      match s with
      | [] => rx_run r' bos n s opened spans
      | [c] => if chr_eqb c LF then rx_run r' bos n s opened spans else None
      | _ => None
      end
  end.

Definition substr (s : str) (a b : nat) : str := firstn (b - a) (skipn a s).

(** The match of [r] that starts at the head of [s], if any: its length and
    the text of its groups. *)
Definition rx_at (r : regex) (bos : bool) (s : str) : option (nat * list str) :=
  match rx_run r bos 0 s [] [] with
  | Some (n, spans) => Some (n, map (fun ab => substr s (fst ab) (snd ab)) spans)
  | None => None
  end.

(** A match object: [m_text] is [m.group(0)], [m_groups] are the groups 1,
    2, ..., and [m_rest] is the text from [m.end()] on. *)
Record rmatch : Type := { m_text : str; m_groups : list str; m_rest : str }.

Definition group (m : rmatch) (i : nat) : str := nth (pred i) (m_groups m) [].

Definition mk_match (s : str) (ng : nat * list str) : rmatch :=
  {| m_text := firstn (fst ng) s; m_groups := snd ng; m_rest := skipn (fst ng) s |}.

(** [re.match(r, s)] *)
Definition re_match (r : regex) (s : str) : option rmatch :=
  option_map (mk_match s) (rx_at r true s).

(** [re.search(r, s)]: the leftmost match. *)
Fixpoint re_search_go (r : regex) (bos : bool) (s : str) : option rmatch :=
  match rx_at r bos s with
  | Some ng => Some (mk_match s ng)
  | None =>
      match s with
      | [] => None
      | _ :: s' => re_search_go r false s'
      end
  end.

Definition re_search (r : regex) (s : str) : option rmatch := re_search_go r true s.

(** The string cut at the successive non-overlapping matches: gaps and hits
    alternate, from the first gap (maybe empty) to the last. *)
Inductive piece : Type :=
| Gap (t : str)
| Hit (t : str) (groups : list str).

(** [skip] characters still belong to the last match; [gap] is the current
    gap, reversed. *)
Fixpoint re_pieces_go (r : regex) (bos : bool) (skip : nat) (gap : str) (s : str)
  : list piece :=
  match s with
  | [] =>
      match skip, rx_at r bos [] with
      | O, Some ng => [Gap (rev gap); Hit [] (snd ng); Gap []]
      | _, _ => [Gap (rev gap)]
      end
  | c :: s' =>
      match skip with
      | S j => re_pieces_go r false j gap s'
      | O =>
          match rx_at r bos s with
          | Some (O, gs) => Gap (rev gap) :: Hit [] gs :: re_pieces_go r false 0 [c] s'
          | Some (S j, gs) => Gap (rev gap) :: Hit (firstn (S j) s) gs :: re_pieces_go r false j [] s'
          | None => re_pieces_go r false 0 (c :: gap) s'
          end
      end
  end.

Definition re_pieces (r : regex) (s : str) : list piece := re_pieces_go r true 0 [] s.

Definition gaps (ps : list piece) : list str :=
  flat_map (fun x => match x with Gap t => [t] | Hit _ _ => [] end) ps.

(** [re.split(r, s)] for a pattern without groups. *)
Definition re_split (r : regex) (s : str) : list str := gaps (re_pieces r s).

(** [re.sub(r, "", s)] *)
Definition re_sub_empty (r : regex) (s : str) : str := concat (re_split r s).

(** [re.findall(r, s)] for a pattern with one group: the texts of group 1. *)
Definition re_findall (r : regex) (s : str) : list str :=
  flat_map (fun x => match x with Gap _ => [] | Hit _ gs => [nth 0 gs []] end)
           (re_pieces r s).

(** [pattern.finditer(s)] as the script uses it: each match with the text
    between its end and the start of the next match (or the end of [s]). *)
Fixpoint hits_with_gap (ps : list piece) : list (list str * str) :=
  match ps with
  | Hit _ gs :: Gap t :: ps' => (gs, t) :: hits_with_gap ps'
  | Hit _ gs :: ps' => (gs, []) :: hits_with_gap ps'
  | Gap _ :: ps' => hits_with_gap ps'
  | [] => []
  end.

(* ===================================================================== *)
(** * [float]: IEEE 754 binary64 *)
(* ===================================================================== *)

Open Scope Z_scope.

(** A finite float is [(-1)^neg * m * 2^e] with [0 <= m < 2^53] and
    [-1074 <= e <= 971]; zero is [Finite neg 0 0]. *)
Inductive pyfloat : Type :=
| Finite (neg : bool) (m : Z) (e : Z)
| Inf (neg : bool)
| NaN.

(** [a / b] rounded to the nearest integer, ties to even ([0 <= a], [0 < b]). *)
Definition rne_div (a b : Z) : Z :=
  let q := a / b in
  let r := a mod b in
  if 2 * r <? b then q
  else if b <? 2 * r then q + 1
  else if Z.even q then q else q + 1.

(** [a / (b * 2^e)] rounded to the nearest integer, ties to even. *)
Definition scaled_rne (a b e : Z) : Z :=
  if 0 <=? e then rne_div a (b * 2 ^ e) else rne_div (a * 2 ^ (- e)) b.

(** The floor of the binary logarithm of [a / b] ([0 < a], [0 < b]). *)
Definition floor_log2_ratio (a b : Z) : Z :=
  let l := Z.log2 a - Z.log2 b in
  let above := if 0 <=? l then b * 2 ^ l <=? a else b <=? a * 2 ^ (- l) in
  if above then l else l - 1.

(** The binary64 number nearest to [a / b], ties to even, with overflow to
    infinity and gradual underflow. *)
Definition binary64_round (neg : bool) (a b : Z) : pyfloat :=
  if a =? 0 then Finite neg 0 0
  else
    let e := Z.max (floor_log2_ratio a b - 52) (-1074) in
    let m := scaled_rne a b e in
    let me := if m =? 2 ^ 53 then (2 ^ 52, e + 1) else (m, e) in
    if 971 <? snd me then Inf neg
    else if fst me =? 0 then Finite neg 0 0
    else Finite neg (fst me) (snd me).

(** The float nearest to [n * 10^ex]. *)
Definition binary64_of_decimal (neg : bool) (n ex : Z) : pyfloat :=
  if 0 <=? ex then binary64_round neg (n * 10 ^ ex) 1
  else binary64_round neg n (10 ^ (- ex)).

(** ** [float(s)] for a string *)

Fixpoint span (p : char -> bool) (s : str) : str * str :=
  match s with
  | c :: s' => if p c then let r := span p s' in (c :: fst r, snd r) else ([], s)
  | [] => ([], [])
  end.

Fixpoint map_opt (A B : Type) (f : A -> option B) (l : list A) : option (list B) :=
  match l with
  | [] => Some []
  | x :: l' =>
      match f x, map_opt f l' with
      | Some y, Some r => Some (y :: r)
      | _, _ => None
      end
  end.

(** The first pass of [float] on a string: characters below 127 stay,
    other white space becomes a blank, other decimal digits become ASCII
    digits, and any other character is an error. *)
Definition float_ascii (c : char) : option char :=
  if (c <? 127)%N then Some c
  else if is_space c then Some 32%N
  else match decimal c with Some d => Some (48 + d)%N | None => None end.

(** The white space of C's [isspace] in the C locale. *)
Definition is_c_space (c : char) : bool :=
  ((9 <=? c) && (c <=? 13))%N || chr_eqb c 32%N.

Definition c_strip (s : str) : str :=
  rev (snd (span is_c_space (rev (snd (span is_c_space s))))).

(** An underscore is allowed between two digits only. *)
Fixpoint underscores_ok (after_digit : bool) (s : str) : bool :=
  match s with
  | [] => true
  | c :: s' =>
      if chr_eqb c 95%N then
        after_digit
        && match s' with d :: _ => is_ascii_digit d | [] => false end
        && underscores_ok false s'
      else underscores_ok (is_ascii_digit c) s'
  end.

Definition ascii_lower (c : char) : char :=
  if ((65 <=? c) && (c <=? 90))%N then (c + 32)%N else c.

Definition ci_is (s : str) (word : string) : bool :=
  str_eqb (map ascii_lower s) (u word).

Definition digits_value (ds : str) : Z :=
  fold_left (fun acc c => 10 * acc + (Z.of_N c - 48)) ds 0.

(** An optional sign. *)
Definition take_sign (s : str) : bool * str :=
  match s with
  | c :: s' =>
      if chr_eqb c 45%N then (true, s')
      else if chr_eqb c 43%N then (false, s')
      else (false, s)
  | [] => (false, [])
  end.

(** The exponent part, which must end the string: [None] is a syntax error. *)
Definition parse_exponent (s : str) : option Z :=
  match s with
  | [] => Some 0
  | c :: s' =>
      if chr_eqb (ascii_lower c) 101%N then
        let (neg, s1) := take_sign s' in
        let (ds, s2) := span is_ascii_digit s1 in
        match ds, s2 with
        | _ :: _, [] => Some (if neg then - digits_value ds else digits_value ds)
        | _, _ => None
        end
      else None
  end.

Definition parse_float_body (neg : bool) (s : str) : option pyfloat :=
  if ci_is s "inf" || ci_is s "infinity" then Some (Inf neg)
  else if ci_is s "nan" then Some NaN
  else
    let (ip, s1) := span is_ascii_digit s in
    let (fp, s2) :=
      match s1 with
      | c :: t => if chr_eqb c 46%N then span is_ascii_digit t else ([], s1)
      | [] => ([], s1)
      end in
    match ip ++ fp with
    | [] => None
    | ds =>
        match parse_exponent s2 with
        | Some ex =>
            Some (binary64_of_decimal neg (digits_value ds) (ex - Z.of_nat (length fp)))
        | None => None
        end
    end.

(** [float(s)]; [None] stands for [ValueError]. *)
Definition float_of_str (s : str) : option pyfloat :=
  match map_opt float_ascii s with
  | None => None
  | Some a =>
      let t := c_strip a in
      if underscores_ok false t then
        let (neg, body) := take_sign (remove_char 95%N t) in
        parse_float_body neg body
      else None
  end.

(** ** ["{:.2f}".format(x)] *)

Definition two_digits (n : Z) : str :=
  [ (48 + Z.to_N (n / 10))%N; (48 + Z.to_N (n mod 10))%N ].

Definition format_2f (x : pyfloat) : str :=
  match x with
  | NaN => u "nan"
  | Inf neg => (if neg then u "-" else []) ++ u "inf"
  | Finite neg m e =>
      let h := scaled_rne (m * 100) 1 (- e) in
      (if neg then u "-" else [])
        ++ dec_digits (Z.to_N (h / 100)) ++ u "." ++ two_digits (h mod 100)
  end.

(* ===================================================================== *)
(** * [datetime]: [strptime(s, "%d.%m.%Y")] and [date.isoformat] *)
(* ===================================================================== *)

Definition ch (a : ascii) : char := N_of_ascii a.
Arguments ch a%_char.

Record pydate : Type := { d_year : Z; d_month : Z; d_day : Z }.

Definition is_leap (y : Z) : bool :=
  (y mod 4 =? 0) && (negb (y mod 100 =? 0) || (y mod 400 =? 0)).

Definition days_in_month (y m : Z) : Z :=
  if m =? 2 then (if is_leap y then 29 else 28)
  else if (m =? 4) || (m =? 6) || (m =? 9) || (m =? 11) then 30
  else 31.

(** The constructor [date(y, m, d)], [None] for [ValueError]. *)
Definition make_date (y m d : Z) : option pydate :=
  if (1 <=? y) && (y <=? 9999) && (1 <=? m) && (m <=? 12)
     && (1 <=? d) && (d <=? days_in_month y m)
  then Some {| d_year := y; d_month := m; d_day := d |}
  else None.

Definition in_range (lo hi : ascii) (c : char) : bool :=
  (N_of_ascii lo <=? c)%N && (c <=? N_of_ascii hi)%N.

(** [int] of a digit character. *)
Definition digit_Z (c : char) : Z :=
  match decimal c with Some d => Z.of_N d | None => 0 end.

(** The alternatives of the directive [%d], in the order in which
    [_strptime] lists them: [3[0-1]], [[1-2]\d], [0[1-9]], [[1-9]], [ [1-9]];
    each gives the value read and the rest of the string. *)
Definition alts_d (s : str) : list (Z * str) :=
  match s with
  | a :: b :: t =>
      (if chr_eqb a (ch "3") && in_range "0" "1" b then [(30 + digit_Z b, t)] else [])
      ++ (if in_range "1" "2" a && is_digit b then [(10 * digit_Z a + digit_Z b, t)] else [])
      ++ (if chr_eqb a (ch "0") && in_range "1" "9" b then [(digit_Z b, t)] else [])
      ++ (if in_range "1" "9" a then [(digit_Z a, b :: t)] else [])
      ++ (if chr_eqb a (ch " ") && in_range "1" "9" b then [(digit_Z b, t)] else [])
  | [a] => if in_range "1" "9" a then [(digit_Z a, [])] else []
  | [] => []
  end.

(** The alternatives of [%m]: [1[0-2]], [0[1-9]], [[1-9]]. *)
Definition alts_m (s : str) : list (Z * str) :=
  match s with
  | a :: b :: t =>
      (if chr_eqb a (ch "1") && in_range "0" "2" b then [(10 + digit_Z b, t)] else [])
      ++ (if chr_eqb a (ch "0") && in_range "1" "9" b then [(digit_Z b, t)] else [])
      ++ (if in_range "1" "9" a then [(digit_Z a, b :: t)] else [])
  | [a] => if in_range "1" "9" a then [(digit_Z a, [])] else []
  | [] => []
  end.

(** [%Y] is [\d\d\d\d], and nothing may follow it. *)
Definition read_Y (s : str) : option Z :=
  match s with
  | [a; b; c; d] =>
      if is_digit a && is_digit b && is_digit c && is_digit d
      then Some (1000 * digit_Z a + 100 * digit_Z b + 10 * digit_Z c + digit_Z d)
      else None
  | _ => None
  end.

Definition expect_dot (s : str) : option str :=
  match s with
  | c :: t => if chr_eqb c (ch ".") then Some t else None
  | [] => None
  end.

Fixpoint first_some (A B : Type) (f : A -> option B) (l : list A) : option B :=
  match l with
  | [] => None
  | x :: l' => match f x with Some r => Some r | None => first_some f l' end
  end.

(** The fields that the regular expression of the format reads, trying the
    alternatives in order and backtracking. *)
Definition strptime_fields (s : str) : option (Z * Z * Z) :=
  first_some (fun ds =>
    match expect_dot (snd ds) with
    | None => None
    | Some s1 =>
        first_some (fun ms =>
          match expect_dot (snd ms) with
          | None => None
          | Some s2 =>
              match read_Y s2 with
              | Some y => Some (y, fst ms, fst ds)
              | None => None
              end
          end) (alts_m s1)
    end) (alts_d s).

(** [datetime.strptime(s, "%d.%m.%Y")], [None] for [ValueError]. *)
Definition strptime_dmY (s : str) : option pydate :=
  match strptime_fields s with
  | Some (y, m, d) => make_date y m d
  | None => None
  end.

Fixpoint zero_pad (width : nat) (s : str) : str :=
  match width with
  | O => s
  | S w => if (length s <? width)%nat then ch "0" :: zero_pad w s else s
  end.

(** [d.isoformat()] *)
Definition isoformat (d : pydate) : str :=
  zero_pad 4 (str_of_Z (d_year d)) ++ u "-" ++ zero_pad 2 (str_of_Z (d_month d))
    ++ u "-" ++ zero_pad 2 (str_of_Z (d_day d)).

(* ===================================================================== *)
(** * The script: [scripts/parser.py] *)
(* ===================================================================== *)

Definition is_some (A : Type) (o : option A) : bool :=
  match o with Some _ => true | None => false end.

Definition opt_list (A : Type) (o : option A) : list A :=
  match o with Some x => [x] | None => [] end.

(** ** The patterns *)

(** [\d{1,2}\.\d{1,2}\.] *)
Definition day_month_re : regex :=
  [between is_digit 1 2; lit (ch "."); between is_digit 1 2; lit (ch ".")].

(** [\d{1,2}\.\d{1,2}\.\d{4}] *)
Definition dmy_re : regex := day_month_re ++ [between is_digit 4 4].

(** [(\d{1,2}\.\d{1,2}\.\d{4})\s*-\s*(\d{1,2}\.\d{1,2}\.\d{4})] *)
Definition year_range_re : regex :=
  [GroupOpen] ++ dmy_re ++ [GroupClose; star is_space; lit (ch "-"); star is_space; GroupOpen]
    ++ dmy_re ++ [GroupClose].

Definition not_digit_dot (c : char) : bool := negb (is_digit c || chr_eqb c (ch ".")).
Definition not_newline (c : char) : bool := negb (chr_eqb c LF).

(** [[^\d\.].*$] *)
Definition price_tail_re : regex := [one not_digit_dot; star not_newline; Eos].

(** [####\s*([A-Za-zÄÖÜäöüß]+),\s*(\d{1,2}\.\d{1,2}\.)] *)
Definition day_header_re : regex :=
  lits "####" ++ [star is_space; GroupOpen; plus is_letter; GroupClose; lit (ch ",");
                  star is_space; GroupOpen] ++ day_month_re ++ [GroupClose].

(** [\n\s*\*\s*#####\s*] *)
Definition entry_sep_re : regex :=
  [lit LF; star is_space; lit (ch "*"); star is_space] ++ lits "#####" ++ [star is_space].

(** [^([^\n]+)\n+] *)
Definition entry_header_re : regex :=
  [Bos; GroupOpen; plus not_newline; GroupClose; plus (chr_eqb LF)].

(** The characters that a letter of a pattern matches under [(?i)]. *)
Definition case_variants (c : char) : list char :=
  if chr_eqb c (ch "e") then [ch "e"; ch "E"]
  else if chr_eqb c (ch "s") then [ch "s"; ch "S"; 0x17f%N]
  else if chr_eqb c (ch "n") then [ch "n"; ch "N"]
  else [c].

Definition lit_ci (c : char) : atom := one (fun x => existsb (chr_eqb x) (case_variants c)).

(** [(?i)essen\s*\d+] *)
Definition essen_re : regex := map lit_ci (u "essen") ++ [star is_space; plus is_digit].

Definition is_comma_or_dot (c : char) : bool := chr_eqb c (ch ",") || chr_eqb c (ch ".").

(** [\d+[,\.]\d+\s*€] *)
Definition amount_re : regex :=
  [plus is_digit; one is_comma_or_dot; plus is_digit; star is_space; lit euro].

Definition not_rparen (c : char) : bool := negb (chr_eqb c (ch ")")).

(** [\(([^)]+)\)] *)
Definition paren_re : regex :=
  [lit (ch "("); GroupOpen; plus not_rparen; GroupClose; lit (ch ")")].

(** [[A-Za-zÄÖÜäöüß]] *)
Definition letter_re : regex := [one is_letter].

Definition is_slash_or_comma (c : char) : bool := chr_eqb c (ch "/") || chr_eqb c (ch ",").

(** [[\/,]] *)
Definition slash_comma_re : regex := [one is_slash_or_comma].

Definition is_noise (c : char) : bool :=
  is_digit c || chr_eqb c (ch ",") || is_space c || chr_eqb c (ch "/")
  || chr_eqb c (ch "(") || chr_eqb c (ch ")").

(** [^[\d,\s\/\(\)]+$] *)
Definition noise_re : regex := [Bos; plus is_noise; Eos].

(** [\/] *)
Definition slash_re : regex := [lit (ch "/")].

(** ** [extract_year_from_text]; [now_year] is [datetime.now().year]. *)
Definition extract_year_from_text (now_year : Z) (text : str) : Z :=
  match re_search year_range_re text with
  | Some m =>
      match strptime_dmY (group m 1) with
      | Some d => d_year d
      | None => now_year
      end
  | None => now_year
  end.

(** ** [normalize_price] *)
Definition normalize_price (s : str) : option pyfloat :=
  if is_empty s then None
  else
    let s1 := remove_char (ch " ") (remove_char euro (strip s)) in
    let s2 := replace_char (ch ",") (ch ".") s1 in
    let s3 := re_sub_empty price_tail_re s2 in
    float_of_str s3.

(** ** [parse_text_blocks] *)

(** The dictionary [{"students": .., "employees": .., "others": ..}], with
    its insertion order. *)
Definition price_dict := list (str * option pyfloat).

Record Meal : Type := {
  category : str;
  name : str;
  notes : list str;
  allergens : list str;
  prices : price_dict
}.

Record Day : Type := {
  date : option str;
  weekday : str;
  meals : list Meal
}.

(** [[ln.strip() for ln in body.splitlines() if ln.strip() != ""]] *)
Definition body_lines (body : str) : list str :=
  filter (fun ln => negb (is_empty ln)) (map strip (splitlines body)).

(** The category of a raw header. *)
Definition normalize_category (cat_raw : str) : str :=
  if is_some (re_match essen_re cat_raw) then u "Hauptgericht" else cat_raw.

(** The loop over [lines[1:6]]. *)
Definition find_price_line (lines : list str) : option str :=
  find (fun ln => is_some (re_search amount_re ln)) (firstn 5 (skipn 1 lines)).

(** The parts [p] (or [c]) of a label that pass the test [if p:]. *)
Definition label_parts (l : str) : list str :=
  filter (fun p => negb (is_empty p)) (map strip (re_split slash_comma_re l)).

(** [re.search(r'[A-Za-zÄÖÜäöüß]', l)] *)
Definition has_letter (l : str) : bool := is_some (re_search letter_re l).

(** The loop over [labels]: the notes and the allergen codes. *)
Definition label_notes (labels : list str) : list str :=
  flat_map (fun l => if has_letter l then label_parts l else []) labels.

Definition label_allergens (labels : list str) : list str :=
  flat_map (fun l => if has_letter l then [] else label_parts l) labels.

(** One turn of the loop over [lines[1:]]. *)
Definition add_residual (price_line : option str) (notes : list str) (ln : str) : list str :=
  if match price_line with Some p => str_eqb ln p | None => false end then notes
  else if is_some (re_match noise_re ln) then notes
  else if str_in ln notes then notes
  else notes ++ [ln].

(** [[p.strip() for p in re.split(r'\/', price_line) if p.strip() != ""]] *)
Definition price_parts (price_line : str) : list str :=
  filter (fun p => negb (is_empty p)) (map strip (re_split slash_re price_line)).

(** [normalize_price(parts[i])] under the test [len(parts) >= i + 1], the
    initial [None] otherwise. *)
Definition nth_price (parts : list str) (i : nat) : option pyfloat :=
  match nth_error parts i with
  | Some p => normalize_price p
  | None => None
  end.

(** The three prices and the dictionary built from them; [if price_line:]
    is false for [None] and for the empty string. *)
Definition parse_prices (price_line : option str) : price_dict :=
  let parts :=
    match price_line with
    | Some pl => if is_empty pl then [] else price_parts pl
    | None => []
    end in
  [ (u "students", nth_price parts 0);
    (u "employees", nth_price parts 1);
    (u "others", nth_price parts 2) ].

(** The body of the loop over [entries], from the category on; [None] is
    the [continue] of an entry without lines. *)
Definition build_meal (cat_raw body : str) : option Meal :=
  let cat := normalize_category cat_raw in
  let lines := body_lines body in
  match lines with
  | [] => None
  | name :: rest =>
      let price_line := find_price_line lines in
      let labels := re_findall paren_re (cat_raw ++ u " " ++ body) in
      let notes := fold_left (add_residual price_line) rest (label_notes labels) in
      Some {| category := cat;
              name := name;
              notes := notes;
              allergens := label_allergens labels;
              prices := parse_prices price_line |}
  end.

(** The body of the loop over [entries]. *)
Definition parse_entry (ent0 : str) : option Meal :=
  let ent := strip ent0 in
  if is_empty ent then None
  else
    match re_match entry_header_re ent with
    | None => None
    | Some hm => build_meal (strip (group hm 1)) (strip (m_rest hm))
    end.

(** The body of the loop over [matches]: [gs] are the groups of the header
    and [gap] is [text[start:end]]. *)
Definition parse_day (year : Z) (hg : list str * str) : Day :=
  let weekday := strip (nth 0 (fst hg) []) in
  let date_part := strip (nth 1 (fst hg) []) ++ str_of_Z year in
  let date_iso := option_map isoformat (strptime_dmY date_part) in
  let block := strip (snd hg) in
  let entries := re_split entry_sep_re block in
  {| date := date_iso;
     weekday := weekday;
     meals := flat_map (fun ent => opt_list (parse_entry ent)) entries |}.

(** [parse_text_blocks]: the loop over the matches of the day header. *)
Definition parse_text_blocks (now_year : Z) (text : str) : list Day :=
  let year := extract_year_from_text now_year text in
  map (parse_day year) (hits_with_gap (re_pieces day_header_re text)).

(* ===================================================================== *)
(** * [xml.etree.ElementTree] and [build_openmensa_xml] *)
(* ===================================================================== *)

(** An element: its local name in the OpenMensa namespace, its attributes
    in insertion order, its text ([[]] when none was set) and its children. *)
#[warnings="-register-all"]
Inductive element : Type :=
| Element (tag : str) (attrib : list (str * str)) (text : str) (children : list element).

Definition el_tag (e : element) : str := match e with Element t _ _ _ => t end.
Definition el_attrib (e : element) : list (str * str) := match e with Element _ a _ _ => a end.
Definition el_text (e : element) : str := match e with Element _ _ t _ => t end.
Definition el_children (e : element) : list element := match e with Element _ _ _ c => c end.

Definition NAMESPACE : str := u "http://openmensa.org/open-mensa-v2".

Definition dquote : char := 34%N.

(** [_escape_cdata] *)
Definition escape_cdata (s : str) : str :=
  flat_map (fun c =>
    if chr_eqb c (ch "&") then u "&amp;"
    else if chr_eqb c (ch "<") then u "&lt;"
    else if chr_eqb c (ch ">") then u "&gt;"
    else [c]) s.

(** [_escape_attrib] *)
Definition escape_attrib (s : str) : str :=
  flat_map (fun c =>
    if chr_eqb c (ch "&") then u "&amp;"
    else if chr_eqb c (ch "<") then u "&lt;"
    else if chr_eqb c (ch ">") then u "&gt;"
    else if chr_eqb c dquote then u "&quot;"
    else if chr_eqb c CR then u "&#13;"
    else if chr_eqb c LF then u "&#10;"
    else if chr_eqb c 9%N then u "&#09;"
    else [c]) s.

Definition write_attrib (kv : str * str) : str :=
  u " " ++ fst kv ++ u "=" ++ [dquote] ++ escape_attrib (snd kv) ++ [dquote].

(** [_serialize_xml]; [ns] is the namespace declaration that the root
    element carries before its own attributes. *)
Fixpoint serialize_xml (ns : str) (e : element) : str :=
  match e with
  | Element tag attrib text children =>
      u "<" ++ tag ++ ns ++ flat_map write_attrib attrib
        ++ (if is_empty text && is_empty children then u " />"
            else u ">" ++ escape_cdata text
                   ++ flat_map (serialize_xml []) children
                   ++ u "</" ++ tag ++ u ">")
  end.

(** The code points that UTF-8 does not encode: the surrogates. *)
Definition is_surrogate (c : char) : bool := (55296 <=? c)%N && (c <=? 57343)%N.

(** The error handler [xmlcharrefreplace] of the writer that [ET.tostring]
    puts before the encoder: a code point that the encoding refuses is
    written as its character reference, [&#N;] with [N] in decimal. *)
Definition xmlcharrefreplace (s : str) : str :=
  flat_map (fun c => if is_surrogate c then u "&#" ++ dec_digits c ++ u ";" else [c]) s.

(** [ET.tostring(root, encoding="utf-8", xml_declaration=True).decode("utf-8")],
    with the empty prefix registered for [NAMESPACE]: the declaration and
    the elements go through the writer, and the bytes it gives are decoded
    again. *)
Definition tostring (root : element) : str :=
  xmlcharrefreplace
    (u "<?xml version='1.0' encoding='utf-8'?>" ++ [LF]
       ++ serialize_xml (u " xmlns=" ++ [dquote] ++ escape_attrib NAMESPACE ++ [dquote]) root).

(** [groups.setdefault(k, []).append(m)] on a dictionary in insertion order. *)
Fixpoint setdefault_append (k : str) (m : Meal) (groups : list (str * list Meal))
  : list (str * list Meal) :=
  match groups with
  | [] => [(k, [m])]
  | (k', l) :: g =>
      if str_eqb k k' then (k', l ++ [m]) :: g
      else (k', l) :: setdefault_append k m g
  end.

Definition group_meals (ms : list Meal) : list (str * list Meal) :=
  fold_left (fun groups m => setdefault_append (category m) m groups) ms [].

Definition price_elements (ps : price_dict) : list element :=
  flat_map (fun rv =>
    match snd rv with
    | None => []
    | Some value => [Element (u "price") [(u "role", fst rv)] (format_2f value) []]
    end) ps.

Definition meal_element (m : Meal) : element :=
  Element (u "meal") [] []
    ([Element (u "name") [] (name m) []]
       ++ map (fun note => Element (u "note") [] note []) (notes m)
       ++ map (fun code => Element (u "note") [] (u "Allergene: " ++ code) []) (allergens m)
       ++ price_elements (prices m)).

Definition category_element (g : str * list Meal) : element :=
  Element (u "category") [(u "name", fst g)] [] (map meal_element (snd g)).

(** [if not d["date"]: continue] *)
Definition day_elements (d : Day) : list element :=
  match date d with
  | None => []
  | Some dt =>
      if is_empty dt then []
      else [Element (u "day") [(u "date", dt)] [] (map category_element (group_meals (meals d)))]
  end.

(** The element tree that [build_openmensa_xml] builds. *)
Definition openmensa_tree (canteen_name : str) (days : list Day) : element :=
  Element (u "openmensa") [(u "version", u "2.1")] []
    [Element (u "canteen") [] []
       (Element (u "name") [] canteen_name [] :: flat_map day_elements days)].

Definition build_openmensa_xml (canteen_name : str) (days : list Day) : str :=
  tostring (openmensa_tree canteen_name days).

(* ===================================================================== *)
(** * [main] *)
(* ===================================================================== *)

Definition canteen_title : str :=
  u "Zentralmensa Arnold-Bode-Stra" ++ [0xDF%N] ++ u "e (Studierendenwerk Kassel)".

(** [sum(1 for d in days if d["date"])] *)
Definition has_date (d : Day) : bool :=
  match date d with Some dt => negb (is_empty dt) | None => false end.

Definition dated_days (days : list Day) : nat := length (filter has_date days).

(** What a run leaves behind: the exit code and the feed written to
    [output/feed.xml], if any. *)
Record outcome : Type := { exit_code : Z; feed : option str }.

(** [main]: [page] is the plain text of the fetched page
    ([soup.get_text("\n")]), or [None] when [fetch_html] raised. *)
Definition main (now_year : Z) (page : option str) : outcome :=
  match page with
  | None => {| exit_code := 2; feed := None |}
  | Some text =>
      let days := parse_text_blocks now_year text in
      if (length days =? 0)%nat then {| exit_code := 3; feed := None |}
      else
        let xml := build_openmensa_xml canteen_title days in
        if (dated_days days <? 4)%nat then {| exit_code := 4; feed := Some xml |}
        else {| exit_code := 0; feed := Some xml |}
  end.

(* ===================================================================== *)
(** * Vocabulary of the specification *)
(* ===================================================================== *)

(** The length of the longest prefix of [s] in the class [p]. *)
Definition run (p : char -> bool) (s : str) : nat := length (fst (span p s)).

(** A repetition count capped by the upper bound of a repetition. *)
Definition cap (hi : option nat) (m : nat) : nat :=
  match hi with Some h => Nat.min h m | None => m end.

(** The fields of [s] between the characters of the class [p]. *)
Fixpoint split_on (p : char -> bool) (s : str) : list str :=
  match s with
  | [] => [[]]
  | c :: s' =>
      if p c then [] :: split_on p s'
      else match split_on p s' with
           | h :: t => (c :: h) :: t
           | [] => [[c]]
           end
  end.

(** The atoms of a pattern other than the anchor [^]. *)
Definition no_bos (r : regex) : Prop := Forall (fun a => a <> Bos) r.

Definition all_in (p : char -> bool) (s : str) : Prop := Forall (fun c => p c = true) s.

(** [c] is the letter [pat] of a pattern, in either case. *)
Definition same_letter (pat : ascii) (c : char) : Prop := In c (case_variants (ch pat)).

(** A header that starts with the word "essen" in any casing, white space
    and a digit. *)
Definition essen_numbered (h : str) : Prop :=
  exists c1 c2 c3 c4 c5 ws d rest,
    h = c1 :: c2 :: c3 :: c4 :: c5 :: ws ++ d :: rest
    /\ same_letter "e" c1 /\ same_letter "s" c2 /\ same_letter "s" c3
    /\ same_letter "e" c4 /\ same_letter "n" c5
    /\ all_in is_space ws /\ is_digit d = true.

(** What a pattern accepts at the head of [s], whatever the matcher tries:
    each repetition takes some number of characters of its class within its
    bounds. [n] is the number of characters taken so far and [depth] the
    number of open groups. *)
Fixpoint accepts (r : regex) (bos : bool) (n : nat) (s : str) (depth : nat) : Prop :=
  match r with
  | [] => True
  | Rep p lo hi :: r' =>
      exists j, (lo <= j <= cap hi (run p s))%nat
                /\ accepts r' bos (n + j)%nat (skipn j s) depth
  | GroupOpen :: r' => accepts r' bos n s (S depth)
  | GroupClose :: r' =>
      match depth with
      | S d => accepts r' bos n s d
      | O => False
      end
  | Bos :: r' => bos = true /\ n = O /\ accepts r' bos n s depth
  | Eos :: r' => (s = [] \/ s = [LF]) /\ accepts r' bos n s depth
  end.




(** Putting a text in front of the first field. *)
Definition glue (g : str) (l : list str) : list str :=
  match l with
  | h :: t => (g ++ h) :: t
  | [] => [g]
  end.

Definition is_digit_or_dot (c : char) : bool := is_digit c || chr_eqb c (ch ".").

(** The text of a piece. *)
Definition piece_text (x : piece) : str :=
  match x with Gap t => t | Hit t _ => t end.

(** An order-preserving selection of the elements of a list. *)
Inductive subseq (A : Type) : list A -> list A -> Prop :=
| subseq_nil : subseq [] []
| subseq_skip : forall x l1 l2, subseq l1 l2 -> subseq l1 (x :: l2)
| subseq_keep : forall x l1 l2, subseq l1 l2 -> subseq (x :: l1) (x :: l2).

(** A line made of digits, white space, commas, slashes and parentheses. *)
Definition is_pure_noise (ln : str) : bool := negb (is_empty ln) && forallb is_noise ln.

(** A body line after the name that is neither the price line nor noise. *)
Definition residual_candidate (price_line : option str) (ln : str) : bool :=
  negb (match price_line with Some p => str_eqb ln p | None => false end)
  && negb (is_pure_noise ln).

(** The elements of [l] that are not in [seen], each at its first
    occurrence. *)
Fixpoint first_occurrences (seen : list str) (l : list str) : list str :=
  match l with
  | [] => []
  | x :: l' =>
      if str_in x seen then first_occurrences seen l'
      else x :: first_occurrences (seen ++ [x]) l'
  end.

(** The stripped, non-empty fields of a group between slashes and commas. *)
Definition clean_parts (g : str) : list str :=
  filter (fun p => negb (is_empty p)) (map strip (split_on is_slash_or_comma g)).

Definition contains_letter (g : str) : bool := existsb is_letter g.

Definition is_plain (c : char) : bool := is_ascii_digit c || chr_eqb c (ch ".").

(** A float that is zero or positive, infinity included. *)
Definition nonnegative (x : pyfloat) : Prop :=
  x = Inf false \/ exists m e, x = Finite false m e /\ 0 <= m.

(** The stripped, non-empty fields of a price line between slashes. *)
Definition slash_parts (line : str) : list str :=
  filter (fun p => negb (is_empty p)) (map strip (split_on (chr_eqb (ch "/")) line)).

(** The float nearest to the decimal number [a.b], [a] and [b] being
    strings of ASCII digits. *)
Definition decimal_float (a b : str) : pyfloat :=
  binary64_of_decimal false (digits_value (a ++ b)) (- Z.of_nat (length b)).

(** The token [a,b€]. *)
Definition amount_token (a b : str) : str := a ++ ch "," :: b ++ [euro].

(** A rendering with exactly two decimal places: ASCII digits, a dot and
    two ASCII digits. *)
Definition two_decimals (s : str) : Prop :=
  exists ip d1 d2,
    s = ip ++ [ch "."; d1; d2] /\ ip <> [] /\ all_in is_ascii_digit ip
    /\ is_ascii_digit d1 = true /\ is_ascii_digit d2 = true.

(** An element and all the elements below it, in document order. *)
Fixpoint subtree (e : element) : list element :=
  match e with
  | Element _ _ _ children => e :: flat_map subtree children
  end.

Definition has_tag (tag : string) (e : element) : bool := str_eqb (el_tag e) (u tag).

(** The value of an attribute, the empty string when it is not there. *)
Fixpoint attribute (key : str) (attrib : list (str * str)) : str :=
  match attrib with
  | [] => []
  | (k, v) :: t => if str_eqb k key then v else attribute key t
  end.

(** The [meal] elements of a feed. *)
Definition meal_elements (root : element) : list element :=
  filter (has_tag "meal") (subtree root).

(** The [day] elements of a feed. *)
Definition day_elements_of (root : element) : list element :=
  filter (has_tag "day") (subtree root).

(** The roles of the [price] children of an element, in document order. *)
Definition price_roles (e : element) : list str :=
  flat_map (fun c => if has_tag "price" c then [attribute (u "role") (el_attrib c)] else [])
           (el_children e).

(** The texts of the [price] children of an element, in document order. *)
Definition price_texts (e : element) : list str :=
  flat_map (fun c => if has_tag "price" c then [el_text c] else []) (el_children e).

Definition role_order : list str := [u "students"; u "employees"; u "others"].

(** A page with one meal whose price has 310 digits before the comma. *)
Definition overflow_page : str :=
  u "#### Montag, 1.1." ++ [LF] ++ u "Mensa" ++ [LF] ++ u "* ##### Essen 1" ++ [LF]
    ++ u "Schnitzel" ++ [LF] ++ u "1" ++ repeat (ch "0") 309 ++ u ",00 " ++ [euro].

(** A page with four day headers, the last of which is the 30th of
    February. *)
Definition four_days_page : str :=
  u "#### Montag, 1.1." ++ [LF] ++ u "#### Dienstag, 2.1." ++ [LF]
    ++ u "#### Mittwoch, 3.1." ++ [LF] ++ u "#### Freitag, 30.2." ++ [LF].

(** Structural identity of two values, field by field. *)
Fixpoint list_identical (A : Type) (same : A -> A -> bool) (l1 l2 : list A) : bool :=
  match l1, l2 with
  | [], [] => true
  | x :: t1, y :: t2 => same x y && list_identical same t1 t2
  | _, _ => false
  end.

Definition option_identical (A : Type) (same : A -> A -> bool) (o1 o2 : option A) : bool :=
  match o1, o2 with
  | None, None => true
  | Some x, Some y => same x y
  | _, _ => false
  end.

Definition float_identical (x y : pyfloat) : bool :=
  match x, y with
  | Finite n1 m1 e1, Finite n2 m2 e2 => Bool.eqb n1 n2 && (m1 =? m2) && (e1 =? e2)
  | Inf n1, Inf n2 => Bool.eqb n1 n2
  | NaN, NaN => true
  | _, _ => false
  end.

Definition price_identical (p q : str * option pyfloat) : bool :=
  str_eqb (fst p) (fst q) && option_identical float_identical (snd p) (snd q).

Definition meal_identical (m1 m2 : Meal) : bool :=
  str_eqb (category m1) (category m2)
  && str_eqb (name m1) (name m2)
  && list_identical str_eqb (notes m1) (notes m2)
  && list_identical str_eqb (allergens m1) (allergens m2)
  && list_identical price_identical (prices m1) (prices m2).

Definition day_identical (d1 d2 : Day) : bool :=
  option_identical str_eqb (date d1) (date d2)
  && str_eqb (weekday d1) (weekday d2)
  && list_identical meal_identical (meals d1) (meals d2).

(** Between [lo] and [hi] digits. *)
Definition digits_between (lo hi : nat) (d : str) : Prop :=
  (lo <= length d <= hi)%nat /\ all_in is_digit d.

(** The text [d.m.y]. *)
Definition dmy_text (d m y : str) : str := d ++ ch "." :: m ++ ch "." :: y.

(** One or two digits, a dot, one or two digits, a dot and four digits. *)
Definition date_shaped (d m y : str) : Prop :=
  digits_between 1 2 d /\ digits_between 1 2 m /\ digits_between 4 4 y.

(** A text that starts with a date range whose first date is [d1.m1.y1]:
    two dates with a hyphen between them, white space being allowed around
    the hyphen. *)
Definition range_at (s d1 m1 y1 : str) : Prop :=
  exists ws1 ws2 d2 m2 y2 rest,
    s = dmy_text d1 m1 y1 ++ ws1 ++ ch "-" :: ws2 ++ dmy_text d2 m2 y2 ++ rest
    /\ date_shaped d1 m1 y1 /\ date_shaped d2 m2 y2
    /\ all_in is_space ws1 /\ all_in is_space ws2.

(** No date range starts at the head of the text. *)
Definition no_range_at (s : str) : Prop := forall d m y, ~ range_at s d m y.

(** The text that [normalize_price] gives to the substitution. *)
Definition price_text (s : str) : str :=
  replace_char (ch ",") (ch ".") (remove_char (ch " ") (remove_char euro (strip s))).

(** The year of the date written in [s], or the current year when [s] is
    not a date. *)
Definition year_of_date_text (now_year : Z) (s : str) : Z :=
  match strptime_dmY s with
  | Some d => d_year d
  | None => now_year
  end.

(** A date of the calendar. *)
Definition calendar_date (y m d : Z) : Prop :=
  1 <= y <= 9999 /\ 1 <= m <= 12 /\ 1 <= d <= days_in_month y m.

(** The day, month and year of a date written with ASCII digits. *)
Definition ascii_date (d m y : str) : Prop :=
  date_shaped d m y /\ all_in is_ascii_digit d /\ all_in is_ascii_digit m
  /\ all_in is_ascii_digit y.

(** The suffixes of a string, the longest first. *)
Fixpoint tails (s : str) : list str :=
  match s with
  | [] => [[]]
  | _ :: t => s :: tails t
  end.

(** No suffix of [pre ++ s] that starts in [pre] starts with a date range:
    a test by computation. *)
Definition no_range_before (pre s : str) : bool :=
  forallb (fun q => is_empty q || negb (is_some (rx_at year_range_re true (q ++ s))))
          (tails pre).

(* ===================================================================== *)
(** * Vocabulary of the further properties *)
(* ===================================================================== *)

(** A text that starts with a day header: "####", white space, a word of
    letters [wd], a comma, white space, and the day [dd] and the month [mm],
    each of one or two digits and followed by a dot; [rest] is the text after
    the header. *)
Definition header_at (s wd dd mm rest : str) : Prop :=
  exists ws1 ws2,
    s = u "####" ++ ws1 ++ wd ++ ch "," :: ws2 ++ dd ++ ch "." :: mm ++ ch "." :: rest
    /\ all_in is_space ws1 /\ wd <> [] /\ all_in is_letter wd
    /\ all_in is_space ws2 /\ digits_between 1 2 dd /\ digits_between 1 2 mm.

(** No day header starts at the head of the text. *)
Definition no_header_at (s : str) : Prop := forall wd dd mm rest, ~ header_at s wd dd mm rest.

(** No day header starts in [t], the text that follows being [post]. *)
Definition no_header_in (t post : str) : Prop :=
  forall p q, t = p ++ q -> q <> [] -> no_header_at (q ++ post).

(** [int(s)] for a string of decimal digits of any script. *)
Definition int_of_digits (ds : str) : Z :=
  fold_left (fun acc c => 10 * acc + digit_Z c) ds 0.

(** The text of the header's day and month with the year [y], as
    [parse_text_blocks] gives it to [strptime]. *)
Definition header_date_text (dd mm : str) (y : Z) : str :=
  dd ++ ch "." :: mm ++ ch "." :: str_of_Z y.

(** A page with two days: the first has two entries after a line that is
    no entry, the second is the 30th of February. *)
Definition sample_page : str :=
  u "Speiseplan 01.01.2024 - 05.01.2024" ++ [LF]
    ++ u "#### Montag, 1.1." ++ [LF] ++ u "Mensa" ++ [LF]
    ++ u "* ##### Essen 1" ++ [LF] ++ u "Schnitzel (A, C)" ++ [LF]
    ++ u "3,50 " ++ [euro] ++ u " / 5,20 " ++ [euro] ++ [LF]
    ++ u "* ##### Suppe" ++ [LF] ++ u "Linsensuppe (2,3)" ++ [LF] ++ u "mit Brot" ++ [LF]
    ++ u "2,10 " ++ [euro] ++ [LF]
    ++ u "* ##### Essen 2" ++ [LF] ++ u "Nudeln" ++ [LF]
    ++ u "#### Dienstag, 30.2." ++ [LF]
    ++ u "* ##### Essen 1" ++ [LF] ++ u "Eintopf" ++ [LF].

(** A page for the week around New Year: its date range starts in 2024,
    and its second day is in 2025. *)
Definition new_year_page : str :=
  u "Speiseplan 30.12.2024 - 03.01.2025" ++ [LF]
    ++ u "#### Montag, 30.12." ++ [LF] ++ u "#### Donnerstag, 2.1." ++ [LF].

(** A text that is not empty and has no white space at either end. *)
Definition stripped (s : str) : Prop := s <> [] /\ strip s = s.

(** The meals of the category [k], in their order. *)
Definition meals_of_category (k : str) (ms : list Meal) : list Meal :=
  filter (fun m => str_eqb (category m) k) ms.

(** The categories of the meals, each at its first occurrence. *)
Definition categories_in_order (ms : list Meal) : list str :=
  first_occurrences [] (map category ms).

(** A text that may follow a number in a price: it has no digit, no dot, no
    comma and no line feed. *)
Definition unit_text (t : str) : Prop :=
  forall c, In c t -> is_digit c = false /\ c <> ch "." /\ c <> ch "," /\ c <> LF.

(** A number written without a leading zero. *)
Definition no_leading_zero (a : str) : Prop :=
  a = u "0" \/ exists c t, a = c :: t /\ c <> ch "0".

(** [x] is a contiguous part of [s]. *)
Definition part_of (x s : str) : Prop := exists pre post, s = pre ++ x ++ post.

(** [x in s] for two strings: [x] occurs in [s]. *)
Fixpoint starts_with (x s : str) : bool :=
  match x, s with
  | [], _ => true
  | a :: x', b :: s' => chr_eqb a b && starts_with x' s'
  | _ :: _, [] => false
  end.

Fixpoint occurs_in (x s : str) : bool :=
  starts_with x s || match s with [] => false | _ :: s' => occurs_in x s' end.

(** A page with an entry whose header line ends inside a parenthesis that
    the next line closes. *)
Definition split_group_page : str :=
  u "#### Montag, 1.1." ++ [LF] ++ u "Mensa" ++ [LF]
    ++ u "* ##### Suppe (mit" ++ [LF] ++ u "Reis) Linsen" ++ [LF]
    ++ u "2,00 " ++ [euro] ++ [LF].

(** The Day that the loop of [parse_text_blocks] builds from a header with
    the weekday [wd], the day [dd] and the month [mm], and from the block of
    text that follows the header. *)
Definition day_of_header (y : Z) (wd dd mm block : str) : Day :=
  {| date := option_map isoformat (strptime_dmY (header_date_text dd mm y));
     weekday := wd;
     meals := flat_map (fun ent => opt_list (parse_entry ent))
                       (re_split entry_sep_re (strip block)) |}.

(** The Days of a page, header after header: the leftmost header of the
    text gives the first Day, with the block that goes up to the next
    header or to the end of the text, and the text from the next header on
    gives the other Days. *)
Inductive page_days (y : Z) : str -> list Day -> Prop :=
| page_days_none : forall text,
    (forall pre suf, text = pre ++ suf -> no_header_at suf) ->
    page_days y text []
| page_days_header : forall pre h wd dd mm block post days,
    no_header_in pre (h ++ block ++ post) ->
    header_at (h ++ block ++ post) wd dd mm (block ++ post) ->
    no_header_in block post ->
    (post = [] \/ exists wd' dd' mm' rest', header_at post wd' dd' mm' rest') ->
    page_days y post days ->
    page_days y (pre ++ h ++ block ++ post) (day_of_header y wd dd mm block :: days).

(** The successive matches of a pattern in a text, each with its groups
    and the text that follows it up to the next match or to the end: the
    leftmost match first, and then the matches of the text after it. *)
Inductive scanned (r : regex) : str -> list (list str * str) -> Prop :=
| scanned_none : forall s,
    (forall pre suf, s = pre ++ suf -> rx_at r true suf = None) -> scanned r s []
| scanned_hit : forall pre h gs t post l,
    (forall p q, pre = p ++ q -> q <> [] -> rx_at r true (q ++ h ++ t ++ post) = None) ->
    rx_at r true (h ++ t ++ post) = Some (length h, gs) ->
    (forall p q, t = p ++ q -> q <> [] -> rx_at r true (q ++ post) = None) ->
    (post = [] \/ rx_at r true post <> None) ->
    scanned r post l ->
    scanned r (pre ++ h ++ t ++ post) ((gs, t) :: l).

(** A text as the feed has it: escaped, and through the writer. *)
Definition written_text (t : str) : str := xmlcharrefreplace (escape_cdata t).

(** The value of an attribute as the feed has it. *)
Definition written_attribute (v : str) : str := xmlcharrefreplace (escape_attrib v).

(** The text of an element without attribute and child that has a text. *)
Definition full_text_element (tag : string) (t : str) : str :=
  u "<" ++ u tag ++ u ">" ++ written_text t ++ u "</" ++ u tag ++ u ">".

(** The text of an element without attribute and child: an empty element
    when it has no text. *)
Definition text_element (tag : string) (t : str) : str :=
  if is_empty t then u "<" ++ u tag ++ u " />" else full_text_element tag t.

(** The text of a price element. *)
Definition price_text_element (role : str) (x : pyfloat) : str :=
  u "<price role=" ++ [dquote] ++ written_attribute role ++ [dquote] ++ u ">"
    ++ format_2f x ++ u "</price>".

(** The text of a meal element, as the feed has it: the name, the notes,
    the allergen codes and the prices, in this order. *)
Definition meal_text (m : Meal) : str :=
  u "<meal>" ++ text_element "name" (name m)
    ++ flat_map (text_element "note") (notes m)
    ++ flat_map (fun c => text_element "note" (u "Allergene: " ++ c)) (allergens m)
    ++ flat_map (fun rv => match snd rv with
                           | Some x => price_text_element (fst rv) x
                           | None => []
                           end) (prices m)
    ++ u "</meal>".

(** The text of a category element: its name and its meals. *)
Definition category_text (g : str * list Meal) : str :=
  u "<category name=" ++ [dquote] ++ written_attribute (fst g) ++ [dquote] ++ u ">"
    ++ flat_map meal_text (snd g) ++ u "</category>".

(** The text of the day element of a Day: nothing for a Day without date,
    an empty element for a Day without meal, and otherwise the categories
    in the order in which they first occur among the meals of the Day. *)
Definition day_text (d : Day) : str :=
  match date d with
  | None => []
  | Some dt =>
      if is_empty dt then []
      else u "<day date=" ++ [dquote] ++ written_attribute dt ++ [dquote]
             ++ match meals d with
                | [] => u " />"
                | _ => u ">"
                         ++ flat_map (fun k => category_text (k, meals_of_category k (meals d)))
                                     (categories_in_order (meals d))
                         ++ u "</day>"
                end
  end.

(** The text of the feed: the declaration, the root element, and the
    canteen with its name and its days, in the order of the sequence. *)
Definition feed_text (canteen_name : str) (days : list Day) : str :=
  u "<?xml version='1.0' encoding='utf-8'?>" ++ [LF]
    ++ u "<openmensa xmlns=" ++ [dquote] ++ NAMESPACE ++ [dquote]
    ++ u " version=" ++ [dquote] ++ u "2.1" ++ [dquote] ++ u ">"
    ++ u "<canteen>" ++ text_element "name" canteen_name
    ++ flat_map day_text days ++ u "</canteen></openmensa>".

Unset Implicit Arguments.

(* ===================================================================== *)
(** * Characters, strings and lists *)
(* ===================================================================== *)

Lemma chr_eqb_eq (a b : char) : chr_eqb a b = true <-> a = b.
Proof. unfold chr_eqb. apply N.eqb_eq. Qed.

Lemma chr_eqb_refl (a : char) : chr_eqb a a = true.
Proof. apply chr_eqb_eq. reflexivity. Qed.

Lemma chr_eqb_neq (a b : char) : chr_eqb a b = false <-> a <> b.
Proof. unfold chr_eqb. apply N.eqb_neq. Qed.

Lemma str_eqb_eq (a b : str) : str_eqb a b = true <-> a = b.
Proof.
  revert b. induction a as [|x a IH]; intros [|y b]; simpl; split; intro H;
    try discriminate; try reflexivity.
  - apply andb_true_iff in H. destruct H as [H1 H2].
    apply chr_eqb_eq in H1. apply IH in H2. congruence.
  - injection H as -> ->. rewrite chr_eqb_refl. simpl. apply IH. reflexivity.
Qed.

Lemma str_eqb_refl (a : str) : str_eqb a a = true.
Proof. apply str_eqb_eq. reflexivity. Qed.

Lemma str_in_In (x : str) (l : list str) : str_in x l = true <-> In x l.
Proof.
  unfold str_in. rewrite existsb_exists. split.
  - intros (y & Hy & E). apply str_eqb_eq in E. subst. exact Hy.
  - intro H. exists x. split; [exact H | apply str_eqb_refl].
Qed.

Lemma existsb_chr_In (c : char) (l : list char) :
  existsb (chr_eqb c) l = true <-> In c l.
Proof.
  rewrite existsb_exists. split.
  - intros (y & Hy & E). apply chr_eqb_eq in E. subst. exact Hy.
  - intro H. exists c. split; [exact H | apply chr_eqb_refl].
Qed.

(** ** [span] *)

Lemma span_app (p : char -> bool) (s : str) : fst (span p s) ++ snd (span p s) = s.
Proof.
  induction s as [|c s IH]; simpl; [reflexivity|].
  destruct (p c); simpl; [f_equal; exact IH | reflexivity].
Qed.

Lemma span_fst_all (p : char -> bool) (s : str) : Forall (fun c => p c = true) (fst (span p s)).
Proof.
  induction s as [|c s IH]; simpl; [constructor|].
  destruct (p c) eqn:E; simpl; [constructor; assumption | constructor].
Qed.

Lemma span_snd_head (p : char -> bool) (s : str) (c : char) (t : str) :
  snd (span p s) = c :: t -> p c = false.
Proof.
  induction s as [|x s IH]; simpl; [discriminate|].
  destruct (p x) eqn:E; simpl; [exact IH | intro H; injection H as -> _; exact E].
Qed.

(** A prefix in the class followed by a character outside it (or by
    nothing) is the span. *)
Lemma span_exact (p : char -> bool) (a rest : str) :
  Forall (fun c => p c = true) a ->
  match rest with c :: _ => p c = false | [] => True end ->
  span p (a ++ rest) = (a, rest).
Proof.
  intros Ha Hr. induction Ha as [|x a Hx Ha IH]; simpl.
  - destruct rest as [|c t]; simpl; [reflexivity | rewrite Hr; reflexivity].
  - rewrite Hx, IH. reflexivity.
Qed.

Lemma run_exact (p : char -> bool) (a rest : str) :
  Forall (fun c => p c = true) a ->
  match rest with c :: _ => p c = false | [] => True end ->
  run p (a ++ rest) = length a.
Proof. intros. unfold run. rewrite span_exact by assumption. reflexivity. Qed.

Lemma skipn_run (p : char -> bool) (s : str) : skipn (run p s) s = snd (span p s).
Proof.
  unfold run. rewrite <- (span_app p s) at 2.
  rewrite skipn_app, skipn_all, Nat.sub_diag. reflexivity.
Qed.

Lemma firstn_run (p : char -> bool) (s : str) : firstn (run p s) s = fst (span p s).
Proof.
  unfold run. rewrite <- (span_app p s) at 2.
  rewrite firstn_app, firstn_all, Nat.sub_diag. simpl. apply app_nil_r.
Qed.

Lemma run_cons (p : char -> bool) (c : char) (s : str) :
  run p (c :: s) = if p c then S (run p s) else O.
Proof. unfold run. simpl. destruct (p c); reflexivity. Qed.

Lemma run_le_length (p : char -> bool) (s : str) : (run p s <= length s)%nat.
Proof.
  induction s as [|c s IH]; [apply Nat.le_refl|].
  rewrite run_cons. destruct (p c); simpl; lia.
Qed.

Lemma run_all (p : char -> bool) (s : str) :
  run p s = length s <-> Forall (fun c => p c = true) s.
Proof.
  induction s as [|c s IH]; [split; [constructor | reflexivity]|].
  rewrite run_cons. destruct (p c) eqn:E; simpl; split; intro H.
  - constructor; [exact E | apply IH; lia].
  - f_equal. apply IH. inversion H; assumption.
  - discriminate.
  - inversion H; congruence.
Qed.

Lemma firstn_run_all (p : char -> bool) (s : str) (j : nat) :
  (j <= run p s)%nat -> Forall (fun c => p c = true) (firstn j s).
Proof.
  revert j. induction s as [|c s IH]; intros j Hj.
  - rewrite firstn_nil. constructor.
  - destruct j as [|j]; [constructor|].
    rewrite run_cons in Hj. destruct (p c) eqn:E; [|lia].
    simpl. constructor; [exact E | apply IH; lia].
Qed.

(* ===================================================================== *)
(** * The library models on examples *)
(* ===================================================================== *)

(** The values on the right are those of CPython 3.11. *)

Example strip_unicode_space :
  strip ([0xA0%N; 9%N] ++ u "a b" ++ [0x2003%N; LF]) = u "a b".
Proof. reflexivity. Qed.

Example splitlines_boundaries :
  splitlines (u "a" ++ [CR; LF] ++ u "b" ++ [LF; LF] ++ u "c" ++ [11%N] ++ u "d" ++ [CR])
  = [u "a"; u "b"; []; u "c"; u "d"].
Proof. reflexivity. Qed.

Example split_keeps_empty_fields :
  re_split slash_comma_re (u "a,,b/") = [u "a"; []; u "b"; []].
Proof. reflexivity. Qed.

Example findall_leftmost_groups :
  re_findall paren_re (u "(a(b)c) () (x) ((z))") = [u "a(b"; u "x"; u "(z"].
Proof. reflexivity. Qed.

Example sub_deletes_from_first_other_character :
  re_sub_empty price_tail_re (u "3.50 EUR") = u "3.50".
Proof. reflexivity. Qed.

Example sub_dollar_before_last_newline :
  re_sub_empty price_tail_re (u "-1" ++ [LF] ++ u "2") = u "-1".
Proof. reflexivity. Qed.

Example entry_split :
  re_split entry_sep_re
    (u "Head" ++ [LF] ++ u " * ##### Essen 1" ++ [LF; LF] ++ u "foo" ++ [LF]
       ++ u "*#####Suppe" ++ [LF] ++ u "bar")
  = [u "Head"; u "Essen 1" ++ [LF; LF] ++ u "foo"; u "Suppe" ++ [LF] ++ u "bar"].
Proof. reflexivity. Qed.

Example strptime_leap_day :
  option_map isoformat (strptime_dmY (u "29.2.2024")) = Some (u "2024-02-29").
Proof. reflexivity. Qed.

Example strptime_30_february : strptime_dmY (u "30.2.2024") = None.
Proof. reflexivity. Qed.

Example strptime_year_zero : strptime_dmY (u "1.1.0000") = None.
Proof. reflexivity. Qed.

Example strptime_three_digit_year : strptime_dmY (u "1.1.999") = None.
Proof. reflexivity. Qed.

Example float_tenth : float_of_str (u "0.1") = Some (Finite false 7205759403792794 (-56)).
Proof. reflexivity. Qed.

Example float_underscore_exponent :
  option_map format_2f (float_of_str (u " 1_0.5e1 ")) = Some (u "105.00").
Proof. reflexivity. Qed.

Example float_words :
  float_of_str (u "-Infinity") = Some (Inf true) /\ float_of_str (u "nan") = Some NaN
  /\ float_of_str (u "1e") = None /\ float_of_str (u ".") = None.
Proof. repeat split; reflexivity. Qed.

Example format_rounds_the_binary_value :
  option_map format_2f (float_of_str (u "2.675")) = Some (u "2.67")
  /\ option_map format_2f (float_of_str (u "0.125")) = Some (u "0.12")
  /\ option_map format_2f (float_of_str (u "0.375")) = Some (u "0.38").
Proof. repeat split; reflexivity. Qed.

Example tostring_escapes :
  tostring (Element (u "day") [(u "date", u "a<b")] [] [Element (u "name") [] (u "x&y") []])
  = u "<?xml version='1.0' encoding='utf-8'?>" ++ [LF]
      ++ u "<day xmlns=" ++ [dquote] ++ NAMESPACE ++ [dquote] ++ u " date=" ++ [dquote]
      ++ u "a&lt;b" ++ [dquote] ++ u "><name>x&amp;y</name></day>".
Proof. reflexivity. Qed.

(** A surrogate, which UTF-8 does not encode, is written as a character
    reference, in a text and in an attribute; a character outside the
    Basic Multilingual Plane is written as it is. *)
Example tostring_surrogate :
  tostring (Element (u "day") [(u "date", [0xD800%N])] []
              [Element (u "name") [] [0x1F600%N; 0xDFFF%N] []])
  = u "<?xml version='1.0' encoding='utf-8'?>" ++ [LF]
      ++ u "<day xmlns=" ++ [dquote] ++ NAMESPACE ++ [dquote] ++ u " date=" ++ [dquote]
      ++ u "&#55296;" ++ [dquote] ++ u "><name>" ++ [0x1F600%N] ++ u "&#57343;</name></day>".
Proof. reflexivity. Qed.

(* ===================================================================== *)
(** * The matcher *)
(* ===================================================================== *)

Section Greedy.
Variable A : Type.
Variable p : char -> bool.

Lemma cap_succ (hi : option nat) (m : nat) :
  more_allowed hi = true -> cap hi (S m) = S (cap (dec_hi hi) m).
Proof.
  destruct hi as [[|h]|]; simpl; intro H; try discriminate; reflexivity.
Qed.

Lemma cap_stop (hi : option nat) (m : nat) : more_allowed hi = false -> cap hi m = O.
Proof. destruct hi as [[|h]|]; simpl; intro H; try discriminate; reflexivity. Qed.

Lemma cap_zero (hi : option nat) : cap hi 0 = O.
Proof. destruct hi as [h|]; simpl; [apply Nat.min_0_r | reflexivity]. Qed.

(** Continuations that agree give the same result. *)
Lemma greedy_ext (k k' : nat -> str -> option A) (lo : nat) (hi : option nat) (n : nat) (s : str) :
  (forall n' s', k n' s' = k' n' s') ->
  greedy p lo hi k n s = greedy p lo hi k' n s.
Proof.
  intro E. revert lo hi n. induction s as [|c s IH]; intros lo hi n; simpl.
  - destruct lo; [apply E | reflexivity].
  - rewrite IH, E. reflexivity.
Qed.

(** Exactly one character of the class. *)
Lemma greedy_one (k : nat -> str -> option A) (n : nat) (s : str) :
  greedy p 1 (Some 1%nat) k n s =
  match s with
  | c :: s' => if p c then k (S n) s' else None
  | [] => None
  end.
Proof.
  destruct s as [|c s]; simpl; [reflexivity|].
  destruct (p c); simpl; [|reflexivity].
  destruct s as [|d s]; simpl.
  - destruct (k (S n) []); reflexivity.
  - rewrite andb_false_r. destruct (k (S n) (d :: s)); reflexivity.
Qed.

(** When the continuation refuses every text that starts in the class,
    only the longest repetition can succeed. *)
Lemma greedy_det (k : nat -> str -> option A) (lo : nat) (hi : option nat) (n : nat) (s : str) :
  (forall n' c s', p c = true -> k n' (c :: s') = None) ->
  greedy p lo hi k n s =
  if (lo <=? cap hi (run p s))%nat
  then k (n + cap hi (run p s))%nat (skipn (cap hi (run p s)) s)
  else None.
Proof.
  intro Hk. revert lo hi n. induction s as [|c s IH]; intros lo hi n.
  - simpl. unfold run; simpl. rewrite cap_zero, Nat.add_0_r.
    destruct lo; reflexivity.
  - simpl greedy. rewrite run_cons.
    destruct (p c) eqn:Pc; simpl andb.
    + destruct (more_allowed hi) eqn:M.
      * rewrite IH, (cap_succ _ _ M). simpl skipn.
        replace (n + S (cap (dec_hi hi) (run p s)))%nat
          with (S n + cap (dec_hi hi) (run p s))%nat by lia.
        destruct lo as [|lo]; simpl pred.
        -- rewrite (Hk n c s Pc). simpl Nat.leb.
           destruct (k (S n + cap (dec_hi hi) (run p s))%nat _); reflexivity.
        -- change (S lo <=? S (cap (dec_hi hi) (run p s)))%nat
             with (lo <=? cap (dec_hi hi) (run p s))%nat.
           destruct (lo <=? _)%nat; [|reflexivity].
           destruct (k (S n + cap (dec_hi hi) (run p s))%nat _); reflexivity.
      * rewrite (cap_stop _ _ M), Nat.add_0_r. simpl. destruct lo; reflexivity.
    + rewrite cap_zero, Nat.add_0_r. simpl. destruct lo; reflexivity.
Qed.

(** A repetition of exactly [h] characters. *)
Lemma greedy_exact (k : nat -> str -> option A) (h n : nat) (s : str) :
  greedy p h (Some h) k n s =
  if (h <=? run p s)%nat then k (n + h)%nat (skipn h s) else None.
Proof.
  revert h n. induction s as [|c s IH]; intros h n.
  - simpl. unfold run; simpl. destruct h; simpl; [rewrite Nat.add_0_r|]; reflexivity.
  - simpl greedy. rewrite run_cons. destruct h as [|h].
    + simpl. rewrite andb_false_r, Nat.add_0_r. reflexivity.
    + destruct (p c) eqn:Pc; simpl; [|reflexivity].
      rewrite IH. replace (n + S h)%nat with (S n + h)%nat by lia.
      destruct (h <=? run p s)%nat; [destruct (k _ _); reflexivity | reflexivity].
Qed.

(** The longest repetition is tried first. *)
Lemma greedy_first (k : nat -> str -> option A) (lo : nat) (hi : option nat) (n : nat) (s : str) (r : A) :
  (lo <= cap hi (run p s))%nat ->
  k (n + cap hi (run p s))%nat (skipn (cap hi (run p s)) s) = Some r ->
  greedy p lo hi k n s = Some r.
Proof.
  revert lo hi n. induction s as [|c s IH]; intros lo hi n Hlo Hk.
  - unfold run in *; simpl in *. rewrite cap_zero in *. rewrite Nat.add_0_r in Hk.
    destruct lo; [exact Hk | lia].
  - simpl greedy. rewrite run_cons in *. destruct (p c) eqn:Pc; simpl andb.
    + destruct (more_allowed hi) eqn:M.
      * rewrite (cap_succ _ _ M) in *. simpl skipn in Hk.
        rewrite (IH (pred lo) (dec_hi hi) (S n)); [reflexivity | lia |].
        rewrite <- Hk. f_equal. lia.
      * rewrite (cap_stop _ _ M) in *. rewrite Nat.add_0_r in Hk. simpl in Hk.
        destruct lo; [exact Hk | lia].
    + rewrite cap_zero in *. rewrite Nat.add_0_r in Hk. simpl in Hk.
      destruct lo; [exact Hk | lia].
Qed.

(** A success takes some number of characters between the bounds. *)
Lemma greedy_inv (k : nat -> str -> option A) (lo : nat) (hi : option nat) (n : nat) (s : str) (r : A) :
  greedy p lo hi k n s = Some r ->
  exists j, (lo <= j <= cap hi (run p s))%nat /\ k (n + j)%nat (skipn j s) = Some r.
Proof.
  revert lo hi n. induction s as [|c s IH]; intros lo hi n H.
  - simpl in H. destruct lo; [|discriminate].
    exists O. rewrite Nat.add_0_r. split; [lia | exact H].
  - simpl greedy in H. rewrite run_cons.
    assert (Hstop : match lo with O => k n (c :: s) | S _ => None end = Some r ->
                    exists j, (lo <= j <= cap hi (if p c then S (run p s) else 0))%nat
                              /\ k (n + j)%nat (skipn j (c :: s)) = Some r).
    { destruct lo; [|discriminate]. intro E. exists O. rewrite Nat.add_0_r.
      split; [lia | exact E]. }
    destruct (p c) eqn:Pc; simpl andb in H; [|exact (Hstop H)].
    destruct (more_allowed hi) eqn:M; [|exact (Hstop H)].
    destruct (greedy p (pred lo) (dec_hi hi) k (S n) s) as [r'|] eqn:G; [|exact (Hstop H)].
    injection H as ->. apply IH in G. destruct G as (j & Hj & Hkj).
    exists (S j). rewrite (cap_succ _ _ M). split; [lia|].
    simpl skipn. rewrite <- Hkj. f_equal. lia.
Qed.

(** No repetition count succeeds. *)
Lemma greedy_none (k : nat -> str -> option A) (lo : nat) (hi : option nat) (n : nat) (s : str) :
  (forall j, (lo <= j <= cap hi (run p s))%nat -> k (n + j)%nat (skipn j s) = None) ->
  greedy p lo hi k n s = None.
Proof.
  intro H. destruct (greedy p lo hi k n s) as [r|] eqn:G; [|reflexivity].
  apply greedy_inv in G. destruct G as (j & Hj & Hk). rewrite (H j Hj) in Hk. discriminate.
Qed.
End Greedy.

(** The anchor [^] is the only atom that looks at the flag [bos]. *)
Lemma rx_run_no_bos (r : regex) (b b' : bool) (n : nat) (s : str)
  (o : list nat) (sp : list (nat * nat)) :
  no_bos r -> rx_run r b n s o sp = rx_run r b' n s o sp.
Proof.
  intro H. revert n s o sp. induction H as [|a r Ha Hr IH]; intros n s o sp; [reflexivity|].
  destruct a; simpl.
  - apply greedy_ext. intros. apply IH.
  - apply IH.
  - destruct o; [reflexivity | apply IH].
  - congruence.
  - destruct s as [|c [|d s]]; [apply IH | destruct (chr_eqb c LF); [apply IH | reflexivity] | reflexivity].
Qed.

Lemma rx_at_no_bos (r : regex) (b : bool) (s : str) :
  no_bos r -> rx_at r b s = rx_at r true s.
Proof. intro H. unfold rx_at. rewrite (rx_run_no_bos r b true 0 s [] [] H). reflexivity. Qed.

(** ** [re.search] *)

Lemma re_search_go_none (r : regex) (b : bool) (s : str) :
  no_bos r ->
  (re_search_go r b s = None <->
   forall pre suf, s = pre ++ suf -> rx_at r true suf = None).
Proof.
  intro Hr. revert b. induction s as [|c s IH]; intro b; simpl.
  - rewrite (rx_at_no_bos r b [] Hr). destruct (rx_at r true []) eqn:E; split; intro H.
    + discriminate.
    + rewrite (H [] []) in E by reflexivity. discriminate.
    + intros pre suf Hs. symmetry in Hs. apply app_eq_nil in Hs. destruct Hs as [_ ->]. exact E.
    + reflexivity.
  - rewrite (rx_at_no_bos r b (c :: s) Hr). destruct (rx_at r true (c :: s)) eqn:E; split; intro H.
    + discriminate.
    + rewrite (H [] (c :: s)) in E by reflexivity. discriminate.
    + intros [|x pre] suf Hs; simpl in Hs.
      * subst suf. exact E.
      * injection Hs as _ Hs. apply (proj1 (IH false) H pre suf Hs).
    + apply IH. intros pre suf Hs. apply (H (c :: pre) suf). simpl. rewrite Hs. reflexivity.
Qed.

Lemma re_search_go_some (r : regex) (b : bool) (s : str) (m : rmatch) :
  no_bos r ->
  re_search_go r b s = Some m ->
  exists pre suf ng,
    s = pre ++ suf /\ rx_at r true suf = Some ng /\ m = mk_match suf ng
    /\ forall p q, pre = p ++ q -> q <> [] -> rx_at r true (q ++ suf) = None.
Proof.
  intro Hr. revert b. induction s as [|c s IH]; intros b H; simpl in H.
  - rewrite (rx_at_no_bos r b [] Hr) in H. destruct (rx_at r true []) as [ng|] eqn:E; [|discriminate].
    injection H as <-. exists [], [], ng. repeat split; try assumption.
    intros p q Hpq Hq. symmetry in Hpq. apply app_eq_nil in Hpq. tauto.
  - rewrite (rx_at_no_bos r b (c :: s) Hr) in H.
    destruct (rx_at r true (c :: s)) as [ng|] eqn:E.
    + injection H as <-. exists [], (c :: s), ng. repeat split; try assumption.
      intros p q Hpq Hq. symmetry in Hpq. apply app_eq_nil in Hpq. tauto.
    + apply IH in H. destruct H as (pre & suf & ng & Hs & Hm & Hmk & Hbefore).
      exists (c :: pre), suf, ng. repeat split; try assumption.
      * simpl. rewrite Hs. reflexivity.
      * intros [|x p] q Hpq Hq; simpl in Hpq.
        -- subst q. simpl. rewrite <- Hs. exact E.
        -- injection Hpq as _ Hpq. apply (Hbefore p q Hpq Hq).
Qed.

(** The leftmost match is found. *)
Lemma re_search_go_first (r : regex) (b : bool) (pre suf : str) (ng : nat * list str) :
  no_bos r ->
  rx_at r true suf = Some ng ->
  (forall p q, pre = p ++ q -> q <> [] -> rx_at r true (q ++ suf) = None) ->
  re_search_go r b (pre ++ suf) = Some (mk_match suf ng).
Proof.
  intros Hr Hm. revert b. induction pre as [|c pre IH]; intros b Hbefore.
  - simpl. destruct suf as [|x suf]; simpl; rewrite (rx_at_no_bos r b _ Hr), Hm; reflexivity.
  - simpl. rewrite (rx_at_no_bos r b _ Hr).
    assert (E : rx_at r true ((c :: pre) ++ suf) = None)
      by (apply (Hbefore [] (c :: pre)); [reflexivity | discriminate]).
    simpl in E. rewrite E.
    apply IH. intros p q Hpq Hq. apply (Hbefore (c :: p) q); [simpl; congruence | exact Hq].
Qed.

(* ===================================================================== *)
(** * Character classes *)
(* ===================================================================== *)

Lemma space_not_digit (c : char) : is_space c = true -> is_digit c = false.
Proof.
  unfold is_space. rewrite existsb_chr_In. unfold space_chars. simpl.
  intro H. repeat (destruct H as [<- | H]; [vm_compute; reflexivity|]). contradiction.
Qed.

Lemma digit_not_space (c : char) : is_digit c = true -> is_space c = false.
Proof.
  intro H. destruct (is_space c) eqn:E; [|reflexivity].
  apply space_not_digit in E. congruence.
Qed.

(** A class has no member equal to a character outside it. *)
Lemma class_not_chr (p : char -> bool) (x c : char) :
  p x = false -> p c = true -> chr_eqb c x = false.
Proof.
  intros Hx Hc. destruct (chr_eqb c x) eqn:E; [|reflexivity].
  apply chr_eqb_eq in E. subst. congruence.
Qed.

Lemma class_not_chr' (p : char -> bool) (x c : char) :
  p x = false -> p c = true -> chr_eqb x c = false.
Proof.
  intros Hx Hc. destruct (chr_eqb x c) eqn:E; [|reflexivity].
  apply chr_eqb_eq in E. subst. congruence.
Qed.

(** ** The category pattern *)

Lemma plus_last (A : Type) (p : char -> bool) (f : nat -> A) (n : nat) (s : str) :
  greedy p 1 None (fun n' _ => Some (f n')) n s =
  if (1 <=? run p s)%nat then Some (f (n + run p s)%nat) else None.
Proof.
  destruct (1 <=? run p s)%nat eqn:E.
  - apply greedy_first; [simpl; apply Nat.leb_le; exact E | reflexivity].
  - apply greedy_none. simpl. intros j Hj. apply Nat.leb_gt in E. lia.
Qed.

Lemma essen_re_run (s : str) :
  rx_run essen_re true 0 s [] [] =
  match s with
  | c1 :: c2 :: c3 :: c4 :: c5 :: t =>
      if existsb (chr_eqb c1) (case_variants (ch "e"))
         && existsb (chr_eqb c2) (case_variants (ch "s"))
         && existsb (chr_eqb c3) (case_variants (ch "s"))
         && existsb (chr_eqb c4) (case_variants (ch "e"))
         && existsb (chr_eqb c5) (case_variants (ch "n"))
         && (1 <=? run is_digit (skipn (run is_space t) t))%nat
      then Some ((5 + run is_space t + run is_digit (skipn (run is_space t) t))%nat, [])
      else None
  | _ => None
  end.
Proof.
  unfold essen_re. simpl map. simpl app. cbn [rx_run]. unfold lit_ci, one, star, plus.
  rewrite greedy_one. destruct s as [|c1 s]; [reflexivity|].
  destruct (existsb (chr_eqb c1) _); [|destruct s as [|? [|? [|? [|? ?]]]]; reflexivity].
  rewrite greedy_one. destruct s as [|c2 s]; [reflexivity|].
  destruct (existsb (chr_eqb c2) _); [|destruct s as [|? [|? [|? ?]]]; reflexivity].
  rewrite greedy_one. destruct s as [|c3 s]; [reflexivity|].
  destruct (existsb (chr_eqb c3) _); [|destruct s as [|? [|? ?]]; reflexivity].
  rewrite greedy_one. destruct s as [|c4 s]; [reflexivity|].
  destruct (existsb (chr_eqb c4) _); [|destruct s as [|? ?]; reflexivity].
  rewrite greedy_one. destruct s as [|c5 s]; [reflexivity|].
  destruct (existsb (chr_eqb c5) _); [|reflexivity].
  rewrite greedy_det.
  - simpl cap. cbn [Nat.leb]. rewrite (plus_last _ is_digit (fun n => (n, @nil (nat * nat)))).
    simpl andb. destruct (run is_digit (skipn (run is_space s) s)); reflexivity.
  - intros n' c s' Hc. simpl. rewrite (space_not_digit _ Hc). reflexivity.
Qed.

Lemma essen_match_iff (h : str) :
  is_some (re_match essen_re h) = true <-> essen_numbered h.
Proof.
  unfold re_match, rx_at. rewrite essen_re_run. split.
  - destruct h as [|c1 [|c2 [|c3 [|c4 [|c5 t]]]]]; try discriminate.
    destruct (existsb (chr_eqb c1) _) eqn:E1; [|discriminate].
    destruct (existsb (chr_eqb c2) _) eqn:E2; [|discriminate].
    destruct (existsb (chr_eqb c3) _) eqn:E3; [|discriminate].
    destruct (existsb (chr_eqb c4) _) eqn:E4; [|discriminate].
    destruct (existsb (chr_eqb c5) _) eqn:E5; [|discriminate].
    cbn [andb].
    destruct (1 <=? run is_digit (skipn (run is_space t) t))%nat eqn:E6; [|simpl; discriminate].
    intros _.
    apply existsb_chr_In in E1, E2, E3, E4, E5. apply Nat.leb_le in E6.
    rewrite skipn_run in E6.
    destruct (snd (span is_space t)) as [|d rest] eqn:Et.
    + unfold run in E6. simpl in E6. lia.
    + exists c1, c2, c3, c4, c5, (fst (span is_space t)), d, rest.
      repeat split; try assumption.
      * rewrite <- Et, span_app. reflexivity.
      * apply span_fst_all.
      * rewrite run_cons in E6. destruct (is_digit d); [reflexivity | lia].
  - intros (c1 & c2 & c3 & c4 & c5 & ws & d & rest & -> & H1 & H2 & H3 & H4 & H5 & Hws & Hd).
    apply existsb_chr_In in H1, H2, H3, H4, H5.
    unfold same_letter in *. rewrite H1, H2, H3, H4, H5. cbn [andb].
    assert (Hrun : run is_space (ws ++ d :: rest) = length ws).
    { apply run_exact; [exact Hws | apply digit_not_space; exact Hd]. }
    rewrite Hrun, skipn_app, skipn_all, Nat.sub_diag. simpl skipn.
    rewrite app_nil_l, run_cons, Hd. reflexivity.
Qed.

(** ** The matcher accepts what the pattern accepts *)

Lemma greedy_none_inv (A : Type) (p : char -> bool) (k : nat -> str -> option A)
  (lo : nat) (hi : option nat) (n : nat) (s : str) :
  greedy p lo hi k n s = None ->
  forall j, (lo <= j <= cap hi (run p s))%nat -> k (n + j)%nat (skipn j s) = None.
Proof.
  revert lo hi n. induction s as [|c s IH]; intros lo hi n H j Hj.
  - unfold run in Hj; simpl in Hj. rewrite cap_zero in Hj.
    assert (j = O) by lia. subst j. assert (lo = O) by lia. subst lo.
    rewrite Nat.add_0_r. exact H.
  - simpl greedy in H. rewrite run_cons in Hj.
    assert (Hstop : match lo with O => k n (c :: s) | S _ => None end = None ->
                    j = O -> k (n + j)%nat (skipn j (c :: s)) = None).
    { intros E ->. assert (lo = O) by lia. subst lo. rewrite Nat.add_0_r. exact E. }
    destruct (p c) eqn:Pc; simpl andb in H.
    + destruct (more_allowed hi) eqn:M.
      * destruct (greedy p (pred lo) (dec_hi hi) k (S n) s) eqn:G; [discriminate|].
        rewrite (cap_succ _ _ M) in Hj. destruct j as [|j]; [apply Hstop; [exact H | reflexivity]|].
        simpl skipn. replace (n + S j)%nat with (S n + j)%nat by lia.
        apply (IH _ _ _ G). lia.
      * rewrite (cap_stop _ _ M) in Hj. apply Hstop; [exact H | lia].
    + rewrite cap_zero in Hj. apply Hstop; [exact H | lia].
Qed.

Lemma rx_run_accepts (r : regex) (b : bool) (n : nat) (s : str)
  (o : list nat) (sp : list (nat * nat)) :
  rx_run r b n s o sp <> None <-> accepts r b n s (length o).
Proof.
  revert n s o sp. induction r as [|a r IH]; intros n s o sp.
  - simpl. split; [trivial | discriminate].
  - destruct a; simpl.
    + split.
      * intro H. destruct (greedy p lo hi _ n s) as [res|] eqn:G; [|congruence].
        apply greedy_inv in G. destruct G as (j & Hj & Hk).
        exists j. split; [exact Hj|]. apply (IH _ _ o sp). congruence.
      * intros (j & Hj & Hacc) G. apply (IH _ _ o sp) in Hacc. apply Hacc.
        exact (@greedy_none_inv _ p (fun n' s' => rx_run r b n' s' o sp) lo hi n s G j Hj).
    + apply (IH n s (n :: o) sp).
    + destruct o as [|a o]; simpl; [tauto | apply IH].
    + destruct b; simpl.
      * destruct n; simpl.
        -- rewrite IH. tauto.
        -- split; [congruence | intros (_ & H & _); discriminate].
      * split; [congruence | intros (H & _); discriminate].
    + destruct s as [|c [|d s]].
      * rewrite IH. tauto.
      * destruct (chr_eqb c LF) eqn:E.
        -- apply chr_eqb_eq in E. subst c. rewrite IH. tauto.
        -- apply chr_eqb_neq in E. split; [congruence|].
           intros ([H|H] & _); [discriminate | injection H as H; contradiction].
      * split; [congruence | intros ([H|H] & _); discriminate].
Qed.

Lemma rx_at_accepts (r : regex) (b : bool) (s : str) :
  rx_at r b s <> None <-> accepts r b 0 s 0.
Proof.
  unfold rx_at. rewrite <- (rx_run_accepts r b 0 s [] []).
  destruct (rx_run r b 0 s [] []) as [[n sp]|]; split; congruence.
Qed.


(** ** Decomposing a text at a repetition *)

Lemma run_prefix (p : char -> bool) (a rest : str) :
  all_in p a -> (length a <= run p (a ++ rest))%nat.
Proof.
  intro H. induction H as [|c a Hc Ha IH]; simpl; [lia|].
  rewrite run_cons, Hc. lia.
Qed.

Lemma take_in_run (p : char -> bool) (s : str) (j : nat) :
  (j <= run p s)%nat ->
  s = firstn j s ++ skipn j s /\ all_in p (firstn j s) /\ length (firstn j s) = j.
Proof.
  intro H. split; [symmetry; apply firstn_skipn|]. split; [apply firstn_run_all; exact H|].
  apply firstn_length_le. pose proof (run_le_length p s). lia.
Qed.

Lemma one_in_run (p : char -> bool) (s : str) (j : nat) :
  (1 <= j <= Nat.min 1 (run p s))%nat ->
  exists c t, s = c :: t /\ p c = true /\ j = 1%nat /\ skipn j s = t.
Proof.
  intro H. destruct s as [|c t]; [unfold run in H; simpl in H; lia|].
  rewrite run_cons in H. destruct (p c) eqn:E; [|lia].
  assert (j = 1%nat) by lia. subst j. exists c, t. auto.
Qed.


(** ** The amount pattern and the price line *)

Lemma skipn_length_app (A : Type) (a b : list A) : skipn (length a) (a ++ b) = b.
Proof. rewrite skipn_app, skipn_all, Nat.sub_diag. reflexivity. Qed.










Lemma build_meal_fields (cat_raw body : str) (m : Meal) :
  build_meal cat_raw body = Some m ->
  exists nm rest,
    body_lines body = nm :: rest
    /\ category m = normalize_category cat_raw
    /\ name m = nm
    /\ notes m = fold_left (add_residual (find_price_line (body_lines body))) rest
                   (label_notes (re_findall paren_re (cat_raw ++ u " " ++ body)))
    /\ allergens m = label_allergens (re_findall paren_re (cat_raw ++ u " " ++ body))
    /\ prices m = parse_prices (find_price_line (body_lines body)).
Proof.
  unfold build_meal. destruct (body_lines body) as [|nm rest] eqn:E; [discriminate|].
  intro H. injection H as <-. exists nm, rest. simpl. repeat split; reflexivity.
Qed.

(** ** Cutting a string at the matches *)

Lemma rx_at_one (p : char -> bool) (b : bool) (s : str) :
  rx_at [one p] b s =
  match s with
  | c :: _ => if p c then Some (1%nat, []) else None
  | [] => None
  end.
Proof.
  unfold rx_at, one. cbn [rx_run]. rewrite greedy_one.
  destruct s as [|c s]; [reflexivity|]. destruct (p c); reflexivity.
Qed.

Lemma split_on_nonempty (p : char -> bool) (s : str) : split_on p s <> [].
Proof.
  induction s as [|c s IH]; simpl; [discriminate|].
  destruct (p c); [discriminate|]. destruct (split_on p s); discriminate.
Qed.

(** Splitting at a pattern of one character class gives the fields between
    the characters of the class. *)
Lemma pieces_one_class (p : char -> bool) (b : bool) (gap s : str) :
  gaps (re_pieces_go [one p] b 0 gap s) = glue (rev gap) (split_on p s).
Proof.
  revert b gap. induction s as [|c s IH]; intros b gap.
  - cbn [re_pieces_go]. rewrite rx_at_one. simpl. rewrite app_nil_r. reflexivity.
  - cbn [re_pieces_go]. rewrite rx_at_one. simpl split_on. destruct (p c).
    + cbn [gaps flat_map app]. change (flat_map _ ?l) with (gaps l).
      rewrite IH. simpl. rewrite app_nil_r.
      destruct (split_on p s) eqn:E; [exfalso; exact (split_on_nonempty p s E) | reflexivity].
    + rewrite IH. simpl rev.
      destruct (split_on p s) as [|h t] eqn:E; [exfalso; exact (split_on_nonempty p s E)|].
      simpl. rewrite <- app_assoc. reflexivity.
Qed.

Lemma re_split_one_class (p : char -> bool) (s : str) :
  re_split [one p] s = split_on p s.
Proof.
  unfold re_split, re_pieces. rewrite pieces_one_class. simpl.
  destruct (split_on p s) eqn:E; [exfalso; exact (split_on_nonempty p s E) | reflexivity].
Qed.

(** A search for one character class finds a member of the class. *)
Lemma re_search_one_class (p : char -> bool) (s : str) :
  is_some (re_search [one p] s) = existsb p s.
Proof.
  unfold re_search. generalize true as b.
  induction s as [|c s IH]; intro b; cbn [re_search_go]; rewrite rx_at_one; [reflexivity|].
  cbn [existsb]. destruct (p c); [reflexivity | apply IH].
Qed.

(** A match is not longer than the text. *)
Lemma cap_le (hi : option nat) (m : nat) : (cap hi m <= m)%nat.
Proof. destruct hi; simpl; lia. Qed.

Lemma rx_run_bound (r : regex) (b : bool) (n : nat) (s : str)
  (o : list nat) (sp : list (nat * nat)) (e : nat) (res : list (nat * nat)) :
  rx_run r b n s o sp = Some (e, res) -> (n <= e <= n + length s)%nat.
Proof.
  revert n s o sp. induction r as [|a r IH]; intros n s o sp H.
  - simpl in H. injection H as <- _. lia.
  - destruct a; simpl in H.
    + apply greedy_inv in H. destruct H as (j & Hj & Hk). apply IH in Hk.
      pose proof (cap_le hi (run p s)). pose proof (run_le_length p s).
      rewrite length_skipn in Hk. lia.
    + apply IH in H. exact H.
    + destruct o; [discriminate | apply IH in H; exact H].
    + destruct (b && Nat.eqb n 0); [apply IH in H; exact H | discriminate].
    + destruct s as [|c [|d s]]; [apply IH in H; exact H | | discriminate].
      destruct (chr_eqb c LF); [apply IH in H; exact H | discriminate].
Qed.

Lemma rx_at_bound (r : regex) (b : bool) (s : str) (n : nat) (gs : list str) :
  rx_at r b s = Some (n, gs) -> (n <= length s)%nat.
Proof.
  unfold rx_at. destruct (rx_run r b 0 s [] []) as [[e sp]|] eqn:R; [|discriminate].
  intro H. injection H as <- _. apply rx_run_bound in R. lia.
Qed.

(** The pieces are a partition of the string. *)
Lemma pieces_partition_skip (r : regex) (s : str) :
  forall b skip gap, (skip <= length s)%nat ->
    concat (map piece_text (re_pieces_go r b skip gap s)) = rev gap ++ skipn skip s.
Proof.
  induction s as [|c s IH]; intros b skip gap Hs.
  - simpl in Hs. assert (skip = O) by lia. subst skip. cbn [re_pieces_go].
    destruct (rx_at r b []); simpl; rewrite ?app_nil_r; reflexivity.
  - cbn [re_pieces_go]. destruct skip as [|j].
    + destruct (rx_at r b (c :: s)) as [[[|j] gs]|] eqn:E.
      * cbn [map concat piece_text]. rewrite IH by (simpl; lia). reflexivity.
      * cbn [map concat piece_text]. apply rx_at_bound in E. simpl in E.
        rewrite IH by lia. simpl rev. simpl app at 2.
        change (firstn (S j) (c :: s) ++ skipn j s)
          with (firstn (S j) (c :: s) ++ skipn (S j) (c :: s)).
        rewrite firstn_skipn. reflexivity.
      * rewrite IH by (simpl; lia). simpl. rewrite <- app_assoc. reflexivity.
    + simpl in Hs. rewrite IH by lia. reflexivity.
Qed.

Lemma pieces_partition (r : regex) (s : str) :
  concat (map piece_text (re_pieces r s)) = s.
Proof. unfold re_pieces. rewrite pieces_partition_skip by lia. reflexivity. Qed.

(** Each hit is a match of the pattern at its place in the string. *)
Lemma pieces_hits (r : regex) (s : str) :
  forall b skip gap t gs,
    In (Hit t gs) (re_pieces_go r b skip gap s) ->
    exists pre post b', s = pre ++ t ++ post
                        /\ rx_at r b' (t ++ post) = Some (length t, gs).
Proof.
  induction s as [|c s IH]; intros b skip gap t gs Hin.
  - cbn [re_pieces_go] in Hin. destruct skip.
    + destruct (rx_at r b []) as [[n gs']|] eqn:E.
      * simpl in Hin. destruct Hin as [H|[H|[H|[]]]]; try discriminate.
        injection H as <- <-. exists [], [], b. split; [reflexivity|].
        simpl. rewrite E. apply rx_at_bound in E. simpl in E.
        assert (n = O) by lia. subst n. reflexivity.
      * simpl in Hin. destruct Hin as [H|[]]. discriminate.
    + simpl in Hin. destruct Hin as [H|[]]. discriminate.
  - cbn [re_pieces_go] in Hin. destruct skip as [|j].
    + destruct (rx_at r b (c :: s)) as [[[|j] gs']|] eqn:E.
      * destruct Hin as [H|[H|Hin]]; [discriminate | |].
        -- injection H as <- <-. exists [], (c :: s), b. split; [reflexivity | exact E].
        -- apply IH in Hin. destruct Hin as (pre & post & b' & -> & Hm).
           exists (c :: pre), post, b'. split; [reflexivity | exact Hm].
      * destruct Hin as [H|[H|Hin]]; [discriminate | |].
        -- injection H as <- <-. exists [], (skipn (S j) (c :: s)), b.
           change (c :: firstn j s) with (firstn (S j) (c :: s)).
           rewrite firstn_skipn. split; [reflexivity|]. rewrite E.
           apply rx_at_bound in E. rewrite firstn_length_le by exact E. reflexivity.
        -- apply IH in Hin. destruct Hin as (pre & post & b' & -> & Hm).
           exists (c :: pre), post, b'. split; [reflexivity | exact Hm].
      * apply IH in Hin. destruct Hin as (pre & post & b' & -> & Hm).
        exists (c :: pre), post, b'. split; [reflexivity | exact Hm].
    + apply IH in Hin. destruct Hin as (pre & post & b' & -> & Hm).
      exists (c :: pre), post, b'. split; [reflexivity | exact Hm].
Qed.

(** ** Notes *)

Lemma noise_accepts (ln : str) :
  accepts noise_re true 0 ln 0 <-> ln <> [] /\ all_in is_noise ln.
Proof.
  unfold noise_re, plus. cbn [accepts cap]. split.
  - intros (_ & _ & j & Hj & Hend & _).
    destruct (take_in_run is_noise ln j) as (E & Hall & L); [lia|].
    split; [intro Hn; subst ln; rewrite firstn_nil in L; simpl in L; lia|].
    rewrite E. apply Forall_app. split; [exact Hall|].
    destruct Hend as [-> | ->]; [constructor | repeat constructor].
  - intros (Hn & Hall). repeat split. exists (length ln). split.
    + split; [destruct ln; [congruence | simpl; lia]|].
      apply run_all in Hall. lia.
    + rewrite skipn_all. auto.
Qed.

Lemma noise_match (ln : str) : is_some (re_match noise_re ln) = is_pure_noise ln.
Proof.
  apply eq_true_iff_eq. unfold re_match.
  assert (H : is_some (option_map (mk_match ln) (rx_at noise_re true ln)) = true
              <-> rx_at noise_re true ln <> None).
  { destruct (rx_at noise_re true ln); simpl; split; congruence. }
  rewrite H, rx_at_accepts, noise_accepts. unfold is_pure_noise.
  rewrite andb_true_iff, forallb_forall, negb_true_iff. unfold all_in.
  rewrite Forall_forall. destruct ln; simpl; split; intros [H1 H2]; split;
    congruence || assumption.
Qed.

Lemma add_residual_candidate (pl : option str) (acc : list str) (ln : str) :
  add_residual pl acc ln =
  if residual_candidate pl ln && negb (str_in ln acc) then acc ++ [ln] else acc.
Proof.
  unfold add_residual, residual_candidate. rewrite noise_match.
  destruct (match pl with Some p => str_eqb ln p | None => false end); [reflexivity|].
  destruct (is_pure_noise ln); [reflexivity|].
  destruct (str_in ln acc); reflexivity.
Qed.

(** The loop over [lines[1:]] appends the first occurrences of the
    candidates that are not noted yet. *)
Lemma fold_add_residual (pl : option str) (rest acc : list str) :
  fold_left (add_residual pl) rest acc =
  acc ++ first_occurrences acc (filter (residual_candidate pl) rest).
Proof.
  revert acc. induction rest as [|ln rest IH]; intro acc; simpl.
  - rewrite app_nil_r. reflexivity.
  - rewrite add_residual_candidate, IH.
    destruct (residual_candidate pl ln); simpl; [|reflexivity].
    destruct (str_in ln acc); simpl; [reflexivity|].
    rewrite <- app_assoc. reflexivity.
Qed.

Lemma first_occurrences_in (l seen : list str) (x : str) :
  In x (first_occurrences seen l) -> In x l /\ ~ In x seen.
Proof.
  revert seen. induction l as [|y l IH]; intros seen H; simpl in H; [contradiction|].
  destruct (str_in y seen) eqn:E.
  - apply IH in H. destruct H. split; [right|]; assumption.
  - destruct H as [<- | H].
    + split; [left; reflexivity|]. rewrite <- str_in_In. congruence.
    + apply IH in H. destruct H as [H1 H2]. split; [right; exact H1|].
      intro Hx. apply H2. apply in_or_app. left. exact Hx.
Qed.

Lemma first_occurrences_nodup (l seen : list str) : NoDup (first_occurrences seen l).
Proof.
  revert seen. induction l as [|y l IH]; intro seen; simpl; [constructor|].
  destruct (str_in y seen); [apply IH|]. constructor; [|apply IH].
  intro H. apply first_occurrences_in in H. destruct H as [_ H]. apply H.
  apply in_or_app. right. left. reflexivity.
Qed.

Lemma first_occurrences_complete (l seen : list str) (x : str) :
  In x l -> In x seen \/ In x (first_occurrences seen l).
Proof.
  revert seen. induction l as [|y l IH]; intros seen H; simpl in *; [contradiction|].
  destruct (str_in y seen) eqn:E.
  - destruct H as [<- | H]; [left; apply str_in_In; exact E | apply IH; exact H].
  - destruct H as [<- | H]; [right; left; reflexivity|].
    destruct (IH (seen ++ [y]) H) as [Hs | Hf]; [|right; right; exact Hf].
    apply in_app_or in Hs. destruct Hs as [Hs | [<- | []]]; [left; exact Hs | right; left; reflexivity].
Qed.

Lemma first_occurrences_subseq (l seen : list str) : subseq (first_occurrences seen l) l.
Proof.
  revert seen. induction l as [|y l IH]; intro seen; simpl; [constructor|].
  destruct (str_in y seen); [apply subseq_skip | apply subseq_keep]; apply IH.
Qed.

(** ** Parenthesized groups *)

Lemma chr_eqb_sym (a b : char) : chr_eqb a b = chr_eqb b a.
Proof. apply N.eqb_sym. Qed.

Lemma paren_re_run (b : bool) (s : str) :
  rx_run paren_re b 0 s [] [] =
  match s with
  | c :: t =>
      if chr_eqb (ch "(") c && (1 <=? run not_rparen t)%nat then
        match skipn (run not_rparen t) t with
        | d :: _ =>
            if chr_eqb (ch ")") d
            then Some (S (S (run not_rparen t)), [(1%nat, S (run not_rparen t))])
            else None
        | [] => None
        end
      else None
  | [] => None
  end.
Proof.
  unfold paren_re, lit, one, plus. cbn [rx_run]. rewrite greedy_one.
  destruct s as [|c t]; [reflexivity|].
  destruct (chr_eqb (ch "(") c); [|reflexivity]. cbn [andb].
  rewrite greedy_det.
  - cbn [cap]. destruct (1 <=? run not_rparen t)%nat; [|reflexivity].
    rewrite greedy_one. destruct (skipn (run not_rparen t) t) as [|d rest]; [reflexivity|].
    destruct (chr_eqb (ch ")") d); [|reflexivity].
    simpl rev. repeat f_equal; lia.
  - intros n' c' s' Hc. rewrite greedy_one. unfold not_rparen in Hc.
    rewrite chr_eqb_sym. apply negb_true_iff in Hc. rewrite Hc. reflexivity.
Qed.

(** A match of the group pattern is a parenthesis, a non-empty text
    without closing parenthesis, and a closing parenthesis; the group is
    the text between the parentheses. *)
Lemma paren_at (b : bool) (s : str) (n : nat) (gs : list str) :
  rx_at paren_re b s = Some (n, gs) ->
  exists g rest,
    s = ch "(" :: g ++ ch ")" :: rest
    /\ g <> [] /\ ~ In (ch ")") g /\ gs = [g] /\ n = S (S (length g)).
Proof.
  unfold rx_at. rewrite paren_re_run. destruct s as [|c t]; [discriminate|].
  destruct (chr_eqb (ch "(") c) eqn:Ec; [|discriminate]. cbn [andb].
  destruct (1 <=? run not_rparen t)%nat eqn:Er; [|discriminate].
  destruct (skipn (run not_rparen t) t) as [|d rest] eqn:Es; [discriminate|].
  destruct (chr_eqb (ch ")") d) eqn:Ed; [|discriminate].
  intro H. injection H as <- <-.
  apply chr_eqb_eq in Ec, Ed. subst c d. apply Nat.leb_le in Er.
  rewrite skipn_run in Es.
  exists (fst (span not_rparen t)), rest. repeat split.
  - rewrite <- Es, span_app. reflexivity.
  - intro Hn. unfold run in Er. rewrite Hn in Er. simpl in Er. lia.
  - intro Hin. pose proof (span_fst_all not_rparen t) as Hall.
    rewrite Forall_forall in Hall. apply Hall in Hin. vm_compute in Hin. discriminate.
  - simpl. unfold substr. simpl. rewrite Nat.sub_0_r, firstn_run. reflexivity.
Qed.

Lemma findall_hits (r : regex) (s : str) (g : str) :
  In g (re_findall r s) ->
  exists t gs, In (Hit t gs) (re_pieces r s) /\ g = nth 0 gs [].
Proof.
  unfold re_findall. rewrite in_flat_map. intros ([t|t gs] & Hin & Hg); simpl in Hg.
  - contradiction.
  - destruct Hg as [<- | []]. exists t, gs. split; [exact Hin | reflexivity].
Qed.

(** What [re.findall] returns for the group pattern. *)
Lemma paren_groups_found (text g : str) :
  In g (re_findall paren_re text) ->
  g <> [] /\ ~ In (ch ")") g
  /\ exists pre post, text = pre ++ ch "(" :: g ++ ch ")" :: post.
Proof.
  intro H. apply findall_hits in H. destruct H as (t & gs & Hin & ->).
  unfold re_pieces in Hin. apply pieces_hits in Hin.
  destruct Hin as (pre & post & b' & -> & Hm).
  apply paren_at in Hm. destruct Hm as (g & rest & Ht & Hne & Hno & -> & Hlen).
  simpl. split; [exact Hne|]. split; [exact Hno|].
  exists pre, rest. rewrite Ht. reflexivity.
Qed.

Lemma label_parts_clean (g : str) : label_parts g = clean_parts g.
Proof.
  unfold label_parts, clean_parts, slash_comma_re. rewrite re_split_one_class. reflexivity.
Qed.

Lemma has_letter_contains (g : str) : has_letter g = contains_letter g.
Proof. unfold has_letter, letter_re. apply re_search_one_class. Qed.

Lemma label_notes_spec (labels : list str) :
  label_notes labels =
  flat_map (fun g => if contains_letter g then clean_parts g else []) labels.
Proof.
  unfold label_notes. apply flat_map_ext. intro g.
  rewrite has_letter_contains, label_parts_clean. reflexivity.
Qed.

Lemma label_allergens_spec (labels : list str) :
  label_allergens labels =
  flat_map (fun g => if contains_letter g then [] else clean_parts g) labels.
Proof.
  unfold label_allergens. apply flat_map_ext. intro g.
  rewrite has_letter_contains, label_parts_clean. reflexivity.
Qed.

(** ** [strip] and other string methods on well-shaped strings *)

Lemma lstrip_spaces (ws s : str) : all_in is_space ws -> lstrip (ws ++ s) = lstrip s.
Proof.
  intro H. induction H as [|c ws Hc Hws IH]; simpl; [reflexivity|].
  rewrite Hc. exact IH.
Qed.

Lemma lstrip_head (c : char) (t : str) : is_space c = false -> lstrip (c :: t) = c :: t.
Proof. intro H. simpl. rewrite H. reflexivity. Qed.

Lemma all_in_rev (p : char -> bool) (s : str) : all_in p s -> all_in p (rev s).
Proof. unfold all_in. rewrite !Forall_forall. intros H x Hx. apply H, in_rev, Hx. Qed.

Lemma rstrip_spaces (s ws : str) : all_in is_space ws -> rstrip (s ++ ws) = rstrip s.
Proof.
  intro H. unfold rstrip. rewrite rev_app_distr, lstrip_spaces; [reflexivity|].
  apply all_in_rev, H.
Qed.

Lemma rstrip_last (t : str) (c : char) : is_space c = false -> rstrip (t ++ [c]) = t ++ [c].
Proof.
  intro H. unfold rstrip. rewrite rev_app_distr.
  change (rev [c] ++ rev t) with (c :: rev t).
  rewrite lstrip_head by exact H. simpl rev. rewrite rev_involutive. reflexivity.
Qed.

(** A text between two characters that are not white space, with white
    space around it, is what [strip] keeps. *)
Lemma strip_core (ws1 ws2 : str) (c : char) (t : str) (d : char) :
  all_in is_space ws1 -> all_in is_space ws2 ->
  is_space c = false -> is_space d = false ->
  strip (ws1 ++ (c :: t ++ [d]) ++ ws2) = c :: t ++ [d].
Proof.
  intros H1 H2 Hc Hd. unfold strip. rewrite lstrip_spaces by exact H1.
  simpl app at 1. rewrite lstrip_head by exact Hc.
  change (c :: (t ++ [d]) ++ ws2) with ((c :: t ++ [d]) ++ ws2).
  rewrite rstrip_spaces by exact H2.
  change (c :: t ++ [d]) with ((c :: t) ++ [d]). apply rstrip_last. exact Hd.
Qed.

Lemma lstrip_suffix (s : str) : exists ws, s = ws ++ lstrip s.
Proof.
  induction s as [|c s [ws IH]]; [exists []; reflexivity|]. simpl.
  destruct (is_space c); [exists (c :: ws); simpl; congruence | exists []; reflexivity].
Qed.

(** [strip] keeps a segment of the string. *)
Lemma strip_segment (s : str) : exists ws1 ws2, s = ws1 ++ strip s ++ ws2.
Proof.
  unfold strip, rstrip. destruct (lstrip_suffix s) as [ws1 H1].
  destruct (lstrip_suffix (rev (lstrip s))) as [ws2 H2].
  exists ws1, (rev ws2). rewrite H1 at 1. f_equal.
  rewrite <- (rev_involutive (lstrip s)) at 1. rewrite H2 at 1.
  rewrite rev_app_distr. reflexivity.
Qed.

Lemma strip_incl (s : str) (c : char) : In c (strip s) -> In c s.
Proof.
  intro H. destruct (strip_segment s) as (ws1 & ws2 & E). rewrite E.
  apply in_or_app. right. apply in_or_app. left. exact H.
Qed.

Lemma filter_all (A : Type) (f : A -> bool) (l : list A) :
  Forall (fun x => f x = true) l -> filter f l = l.
Proof.
  intro H. induction H as [|x l Hx Hl IH]; simpl; [reflexivity|].
  rewrite Hx, IH. reflexivity.
Qed.

Lemma remove_char_absent (c : char) (s : str) : ~ In c s -> remove_char c s = s.
Proof.
  intro H. unfold remove_char. apply filter_all. apply Forall_forall.
  intros x Hx. apply negb_true_iff, chr_eqb_neq. intros ->. contradiction.
Qed.

Lemma remove_char_incl (c x : char) (s : str) : In x (remove_char c s) -> In x s.
Proof. unfold remove_char. intro H. apply filter_In in H. tauto. Qed.

(** ** The fields of a string *)

Lemma split_on_none (p : char -> bool) (s : str) :
  Forall (fun c => p c = false) s -> split_on p s = [s].
Proof.
  intro H. induction H as [|c s Hc Hs IH]; simpl; [reflexivity|].
  rewrite Hc, IH. reflexivity.
Qed.

Lemma split_on_app (p : char -> bool) (a : str) (c : char) (b : str) :
  Forall (fun x => p x = false) a -> p c = true ->
  split_on p (a ++ c :: b) = a :: split_on p b.
Proof.
  intros Ha Hc. induction Ha as [|x a Hx Ha IH]; simpl.
  - rewrite Hc. reflexivity.
  - rewrite Hx, IH. reflexivity.
Qed.

Lemma split_on_incl (p : char -> bool) (s f : str) (c : char) :
  In f (split_on p s) -> In c f -> In c s.
Proof.
  revert f. induction s as [|x s IH]; intros f Hf Hc; simpl in Hf.
  - destruct Hf as [<- | []]. contradiction.
  - destruct (p x).
    + destruct Hf as [<- | Hf]; [contradiction | right; apply (IH f Hf Hc)].
    + destruct (split_on p s) as [|h t] eqn:E; simpl in Hf.
      * exfalso. exact (split_on_nonempty p s E).
      * destruct Hf as [<- | Hf].
        -- destruct Hc as [<- | Hc]; [left; reflexivity | right; apply (IH h); [left; reflexivity | exact Hc]].
        -- right. apply (IH f); [right; exact Hf | exact Hc].
Qed.

(** ** The substitution of [normalize_price] *)

Lemma pieces_skip_all (r : regex) (s : str) (gap : str) :
  rx_at r false [] = None ->
  re_pieces_go r false (length s) gap s = [Gap (rev gap)].
Proof.
  intro H. induction s as [|c s IH]; cbn [re_pieces_go length]; [rewrite H; reflexivity | exact IH].
Qed.

Lemma no_newline_run (s : str) : ~ In LF s -> run not_newline s = length s.
Proof.
  intro H. apply run_all. apply Forall_forall. intros c Hc.
  unfold not_newline. apply negb_true_iff, chr_eqb_neq. intros ->. contradiction.
Qed.

Lemma price_tail_at (b : bool) (c : char) (s : str) :
  ~ In LF s ->
  rx_at price_tail_re b (c :: s) =
  if not_digit_dot c then Some (S (length s), []) else None.
Proof.
  intro H. unfold rx_at, price_tail_re, one, star. cbn [rx_run]. rewrite greedy_one.
  destruct (not_digit_dot c); [|reflexivity].
  rewrite (greedy_first _ not_newline _ 0 None 1 s (S (length s), [])).
  - reflexivity.
  - lia.
  - cbn [cap]. rewrite no_newline_run by exact H. rewrite skipn_all. reflexivity.
Qed.

(** On a string without line feed, the substitution keeps the digits and
    dots at the beginning and deletes the rest. *)
Lemma price_tail_pieces (s : str) :
  ~ In LF s ->
  forall b gap,
    concat (gaps (re_pieces_go price_tail_re b 0 gap s))
    = rev gap ++ fst (span is_digit_or_dot s).
Proof.
  induction s as [|c s IH]; intros H b gap.
  - reflexivity.
  - cbn [re_pieces_go]. rewrite price_tail_at by (intro Hin; apply H; right; exact Hin).
    unfold not_digit_dot. simpl span. unfold is_digit_or_dot at 1.
    destruct (is_digit c || chr_eqb c (ch ".")); cbn [negb].
    + rewrite IH by (intro Hin; apply H; right; exact Hin).
      simpl. rewrite <- app_assoc. reflexivity.
    + destruct s as [|d s].
      * simpl. rewrite app_nil_r. reflexivity.
      * change (length (d :: s)) with (S (length s)).
        cbn [gaps flat_map]. change (flat_map _ ?l) with (gaps l).
        change (d :: s) with ([d] ++ s) at 2.
        cbn [re_pieces_go].
        rewrite (pieces_skip_all price_tail_re s []) by reflexivity.
        simpl. rewrite app_nil_r. reflexivity.
Qed.

Lemma price_tail_sub (s : str) :
  ~ In LF s -> re_sub_empty price_tail_re s = fst (span is_digit_or_dot s).
Proof.
  intro H. unfold re_sub_empty, re_split, re_pieces.
  rewrite price_tail_pieces by exact H. reflexivity.
Qed.

(** ** [float] on digits and dots *)

Lemma decimal_in_block (tbl : list (N * N)) (c : char) (d : N) :
  decimal_in tbl c = Some d ->
  (d < 10)%N /\ exists a n, In (a, n) tbl /\ (a <= c)%N /\ (c < a + n)%N.
Proof.
  induction tbl as [|[a n] tbl IH]; simpl; [discriminate|].
  destruct ((a <=? c)%N && (c <? a + n)%N) eqn:E.
  - intro H. injection H as <-. split; [apply N.mod_lt; discriminate|].
    apply andb_true_iff in E. destruct E as [E1 E2].
    apply N.leb_le in E1. apply N.ltb_lt in E2. exists a, n. auto.
  - intro H. apply IH in H. destruct H as (Hd & a' & n' & Hin & H1 & H2).
    split; [exact Hd|]. exists a', n'. auto.
Qed.

Lemma ascii_digit_decimal (c : char) :
  is_ascii_digit c = true -> decimal c = Some (c - 48)%N.
Proof.
  unfold is_ascii_digit. intro H. apply andb_true_iff in H. destruct H as [H1 H2].
  apply N.leb_le in H1. apply N.leb_le in H2.
  unfold decimal, decimal_blocks. cbn [decimal_in].
  assert (E : ((48 <=? c)%N && (c <? 48 + 10)%N) = true).
  { apply andb_true_iff. split; [apply N.leb_le | apply N.ltb_lt]; lia. }
  rewrite E. f_equal. apply N.mod_small. lia.
Qed.

Lemma ascii_digit_is_digit (c : char) : is_ascii_digit c = true -> is_digit c = true.
Proof. intro H. unfold is_digit. rewrite (ascii_digit_decimal c H). reflexivity. Qed.

Lemma digit_below_127 (c : char) :
  is_digit c = true -> (c <? 127)%N = true -> is_ascii_digit c = true.
Proof.
  unfold is_digit, decimal. intros H Hc. apply N.ltb_lt in Hc.
  destruct (decimal_in decimal_blocks c) as [d|] eqn:D; [|discriminate].
  apply decimal_in_block in D. destruct D as (_ & a & n & Hin & Ha & Hn).
  assert (Hlow : Forall (fun an : N * N => (1000 <= fst an)%N) (tl decimal_blocks)).
  { unfold decimal_blocks. simpl tl. repeat (constructor; [vm_compute; discriminate|]).
    constructor. }
  change decimal_blocks with ((48, 10)%N :: tl decimal_blocks) in Hin.
  destruct Hin as [Heq | Hin].
  - injection Heq as <- <-. unfold is_ascii_digit.
    apply andb_true_iff. split; apply N.leb_le; lia.
  - rewrite Forall_forall in Hlow. specialize (Hlow _ Hin). simpl in Hlow. lia.
Qed.

(** The first pass of [float] turns digits and dots into ASCII digits and
    dots. *)
Lemma float_ascii_digit_or_dot (c : char) :
  is_digit_or_dot c = true ->
  exists c', float_ascii c = Some c' /\ is_plain c' = true.
Proof.
  unfold is_digit_or_dot, float_ascii, is_plain. intro H.
  destruct (c <? 127)%N eqn:E.
  - exists c. split; [reflexivity|]. apply orb_true_iff in H. destruct H as [H|H].
    + rewrite (digit_below_127 c H E). reflexivity.
    + rewrite H. apply orb_true_r.
  - apply orb_true_iff in H. destruct H as [H|H].
    + rewrite (digit_not_space c H). unfold is_digit in H.
      destruct (decimal c) as [d|] eqn:D; [|discriminate].
      exists (48 + d)%N. split; [reflexivity|].
      apply decimal_in_block in D. destruct D as [Hd _].
      unfold is_ascii_digit. apply orb_true_iff. left.
      apply andb_true_iff. split; apply N.leb_le; lia.
    + apply chr_eqb_eq in H. subst c. vm_compute in E. discriminate.
Qed.

Lemma map_opt_plain (s : str) :
  all_in is_digit_or_dot s ->
  exists a, map_opt float_ascii s = Some a /\ all_in is_plain a.
Proof.
  intro H. induction H as [|c s Hc Hs (a & Ea & Ha)]; simpl.
  - exists []. split; [reflexivity | constructor].
  - destruct (float_ascii_digit_or_dot c Hc) as (c' & Ec & Hc').
    rewrite Ec, Ea. exists (c' :: a). split; [reflexivity | constructor; assumption].
Qed.

Lemma map_opt_ascii (s : str) :
  all_in is_plain s -> map_opt float_ascii s = Some s.
Proof.
  intro H. induction H as [|c s Hc Hs IH]; simpl; [reflexivity|].
  rewrite IH. unfold float_ascii.
  assert (E : (c <? 127)%N = true).
  { apply N.ltb_lt. unfold is_plain, is_ascii_digit in Hc.
    apply orb_true_iff in Hc. destruct Hc as [Hc|Hc].
    - apply andb_true_iff in Hc. destruct Hc as [_ Hc]. apply N.leb_le in Hc. lia.
    - apply chr_eqb_eq in Hc. subst c. reflexivity. }
  rewrite E. reflexivity.
Qed.

(** A plain character is none of the other characters that [float] reads. *)
Lemma plain_not (c x : char) :
  is_plain x = false -> is_plain c = true -> chr_eqb c x = false.
Proof. apply class_not_chr. Qed.

Lemma plain_not_c_space (c : char) : is_plain c = true -> is_c_space c = false.
Proof.
  unfold is_plain, is_ascii_digit, is_c_space, chr_eqb. intro H.
  apply orb_true_iff in H. destruct H as [H|H].
  - apply andb_true_iff in H. destruct H as [H1 H2].
    apply N.leb_le in H1. apply N.leb_le in H2.
    apply orb_false_iff. split; [apply andb_false_iff; right; apply N.leb_gt; lia|].
    apply N.eqb_neq. lia.
  - apply N.eqb_eq in H. subst c. reflexivity.
Qed.

Lemma span_none (p : char -> bool) (s : str) :
  Forall (fun c => p c = false) s -> span p s = ([], s).
Proof. intro H. destruct H as [|c s Hc _]; simpl; [reflexivity | rewrite Hc; reflexivity]. Qed.

Lemma c_strip_plain (s : str) : all_in is_plain s -> c_strip s = s.
Proof.
  intro H. unfold c_strip.
  assert (Hn : forall t, all_in is_plain t -> span is_c_space t = ([], t)).
  { intros t Ht. apply span_none. unfold all_in in Ht. rewrite Forall_forall in *.
    intros c Hc. apply plain_not_c_space, Ht, Hc. }
  rewrite (Hn s H). simpl snd. rewrite (Hn (rev s) (all_in_rev _ _ H)). simpl snd.
  apply rev_involutive.
Qed.

Lemma underscores_ok_plain (s : str) (b : bool) :
  all_in is_plain s -> underscores_ok b s = true.
Proof.
  intro H. revert b. induction H as [|c s Hc Hs IH]; intro b; simpl; [reflexivity|].
  rewrite (plain_not c 95%N) by (reflexivity || exact Hc). apply IH.
Qed.

Lemma remove_underscore_plain (s : str) : all_in is_plain s -> remove_char 95%N s = s.
Proof.
  intro H. apply remove_char_absent. intro Hin. unfold all_in in H.
  rewrite Forall_forall in H. apply H in Hin. vm_compute in Hin. discriminate.
Qed.

Lemma take_sign_plain (s : str) : all_in is_plain s -> take_sign s = (false, s).
Proof.
  intro H. destruct H as [|c s Hc _]; simpl; [reflexivity|].
  rewrite (plain_not c 45%N), (plain_not c 43%N) by (reflexivity || exact Hc).
  reflexivity.
Qed.

Lemma float_of_plain (s a : str) :
  map_opt float_ascii s = Some a -> all_in is_plain a ->
  float_of_str s = parse_float_body false a.
Proof.
  intros E H. unfold float_of_str. rewrite E, (c_strip_plain a H).
  rewrite (underscores_ok_plain a false H), (remove_underscore_plain a H).
  rewrite (take_sign_plain a H). reflexivity.
Qed.

Lemma ascii_lower_plain (c : char) : is_plain c = true -> ascii_lower c = c.
Proof.
  unfold is_plain, is_ascii_digit, ascii_lower. intro H.
  assert (E : ((65 <=? c)%N && (c <=? 90)%N) = false).
  { apply andb_false_iff. left. apply N.leb_gt.
    apply orb_true_iff in H. destruct H as [H|H].
    - apply andb_true_iff in H. destruct H as [_ H]. apply N.leb_le in H. lia.
    - apply chr_eqb_eq in H. subst c. reflexivity. }
  rewrite E. reflexivity.
Qed.

Lemma ci_is_plain (s : str) (w : string) :
  all_in is_plain s -> all_in (fun c => negb (is_plain c)) (u w) -> w <> EmptyString ->
  ci_is s w = false.
Proof.
  intros Hs Hw Hne. unfold ci_is. destruct w as [|a w]; [congruence|].
  destruct Hs as [|c s Hc Hs]; [reflexivity|].
  simpl. rewrite (ascii_lower_plain c Hc).
  inversion Hw as [|x l Hx _]. apply negb_true_iff in Hx.
  rewrite (plain_not c _ Hx Hc). reflexivity.
Qed.

(** ** Rounding keeps the sign *)

Lemma rne_div_nonneg (a b : Z) : 0 <= a -> 0 < b -> 0 <= rne_div a b.
Proof.
  intros Ha Hb. unfold rne_div. pose proof (Z.div_pos a b Ha Hb).
  destruct (2 * (a mod b) <? b); [lia|]. destruct (b <? 2 * (a mod b)); [lia|].
  destruct (Z.even (a / b)); lia.
Qed.

Lemma scaled_rne_nonneg (a b e : Z) : 0 <= a -> 0 < b -> 0 <= scaled_rne a b e.
Proof.
  intros Ha Hb. unfold scaled_rne. destruct (0 <=? e) eqn:E.
  - apply Z.leb_le in E. apply rne_div_nonneg; [exact Ha|].
    apply Z.mul_pos_pos; [exact Hb | apply Z.pow_pos_nonneg; lia].
  - apply Z.leb_gt in E. apply rne_div_nonneg; [|exact Hb].
    apply Z.mul_nonneg_nonneg; [exact Ha | apply Z.pow_nonneg; lia].
Qed.

Lemma binary64_round_nonneg (a b : Z) :
  0 <= a -> 0 < b -> nonnegative (binary64_round false a b).
Proof.
  intros Ha Hb. unfold binary64_round, nonnegative.
  destruct (a =? 0); [right; exists 0, 0; split; [reflexivity | lia]|].
  set (e := Z.max (floor_log2_ratio a b - 52) (-1074)).
  pose proof (scaled_rne_nonneg a b e Ha Hb) as Hm.
  destruct (scaled_rne a b e =? 2 ^ 53); simpl fst; simpl snd.
  - destruct (971 <? e + 1); [left; reflexivity|].
    right. exists (2 ^ 52), (e + 1). split; [reflexivity | lia].
  - destruct (971 <? e); [left; reflexivity|].
    destruct (scaled_rne a b e =? 0); right; [exists 0, 0 | exists (scaled_rne a b e), e];
      (split; [reflexivity | lia]).
Qed.

Lemma fold_digits_nonneg (ds : str) :
  all_in is_ascii_digit ds ->
  forall acc, 0 <= acc -> 0 <= fold_left (fun a c => 10 * a + (Z.of_N c - 48)) ds acc.
Proof.
  intro H. induction H as [|c ds Hc Hds IH]; intros acc Hacc; cbn [fold_left]; [exact Hacc|].
  apply IH. unfold is_ascii_digit in Hc. apply andb_true_iff in Hc.
  destruct Hc as [Hc _]. apply N.leb_le in Hc. lia.
Qed.

Lemma digits_value_nonneg (ds : str) : all_in is_ascii_digit ds -> 0 <= digits_value ds.
Proof. intro H. apply (fold_digits_nonneg ds H 0). lia. Qed.

Lemma binary64_of_decimal_nonneg (n ex : Z) :
  0 <= n -> nonnegative (binary64_of_decimal false n ex).
Proof.
  intro H. unfold binary64_of_decimal. destruct (0 <=? ex) eqn:E.
  - apply Z.leb_le in E. apply binary64_round_nonneg; [|lia].
    apply Z.mul_nonneg_nonneg; [exact H | apply Z.pow_nonneg; lia].
  - apply Z.leb_gt in E. apply binary64_round_nonneg; [exact H|].
    apply Z.pow_pos_nonneg; lia.
Qed.

Lemma inf_not_plain : all_in (fun c => negb (is_plain c)) (u "inf").
Proof. repeat constructor. Qed.

Lemma infinity_not_plain : all_in (fun c => negb (is_plain c)) (u "infinity").
Proof. repeat constructor. Qed.

Lemma nan_not_plain : all_in (fun c => negb (is_plain c)) (u "nan").
Proof. repeat constructor. Qed.

Lemma parse_float_body_words (a : str) :
  all_in is_plain a ->
  ci_is a "inf" = false /\ ci_is a "infinity" = false /\ ci_is a "nan" = false.
Proof.
  intro H. repeat split; apply ci_is_plain;
    solve [exact H | apply inf_not_plain | apply infinity_not_plain
           | apply nan_not_plain | discriminate].
Qed.

(** A string of digits and dots is a float that is not negative, or no
    float at all. *)
Lemma parse_float_body_nonneg (a : str) (x : pyfloat) :
  all_in is_plain a -> parse_float_body false a = Some x -> nonnegative x.
Proof.
  intro H. unfold parse_float_body.
  destruct (parse_float_body_words a H) as (-> & -> & ->). cbn [orb].
  pose proof (span_fst_all is_ascii_digit a) as Hip.
  destruct (span is_ascii_digit a) as [ip s1]. simpl in Hip.
  assert (Hend : forall fp s2, all_in is_ascii_digit fp ->
            match ip ++ fp with
            | [] => None
            | c :: l =>
                match parse_exponent s2 with
                | Some ex =>
                    Some (binary64_of_decimal false (digits_value (c :: l))
                            (ex - Z.of_nat (length fp)))
                | None => None
                end
            end = Some x -> nonnegative x).
  { intros fp s2 Hfp. destruct (ip ++ fp) as [|d ds] eqn:Eds; [discriminate|].
    destruct (parse_exponent s2) as [ex|]; [|discriminate].
    intro Hx. injection Hx as <-. apply binary64_of_decimal_nonneg.
    apply digits_value_nonneg. rewrite <- Eds. apply Forall_app. split; assumption. }
  destruct s1 as [|c t].
  - apply Hend. constructor.
  - destruct (chr_eqb c _).
    + pose proof (span_fst_all is_ascii_digit t) as Ht.
      destruct (span is_ascii_digit t) as [fp s2]. apply Hend. exact Ht.
    + apply Hend. constructor.
Qed.

Lemma float_of_digits_and_dots_nonneg (s : str) (x : pyfloat) :
  all_in is_digit_or_dot s -> float_of_str s = Some x -> nonnegative x.
Proof.
  intros H E. destruct (map_opt_plain s H) as (a & Ea & Ha).
  rewrite (float_of_plain s a Ea Ha) in E. apply (parse_float_body_nonneg a x Ha E).
Qed.

Lemma ascii_digits_plain (a : str) : all_in is_ascii_digit a -> all_in is_plain a.
Proof.
  unfold all_in. apply Forall_impl. intros c H. unfold is_plain. rewrite H. reflexivity.
Qed.

Lemma plain_number (a b : str) :
  all_in is_ascii_digit a -> all_in is_ascii_digit b ->
  all_in is_plain (a ++ ch "." :: b).
Proof.
  intros Ha Hb. apply Forall_app. split; [apply ascii_digits_plain, Ha|].
  constructor; [reflexivity | apply ascii_digits_plain, Hb].
Qed.

(** The float of a decimal number written with ASCII digits. *)
Lemma float_of_decimal_number (a b : str) :
  a <> [] -> all_in is_ascii_digit a -> all_in is_ascii_digit b ->
  float_of_str (a ++ ch "." :: b)
  = Some (binary64_of_decimal false (digits_value (a ++ b)) (- Z.of_nat (length b))).
Proof.
  intros Hne Ha Hb. pose proof (plain_number a b Ha Hb) as Hp.
  rewrite (float_of_plain _ _ (map_opt_ascii _ Hp) Hp).
  unfold parse_float_body.
  destruct (parse_float_body_words _ Hp) as (-> & -> & ->). cbn [orb].
  rewrite (span_exact is_ascii_digit a (ch "." :: b) Ha) by reflexivity.
  rewrite chr_eqb_refl.
  rewrite <- (app_nil_r b) at 1. rewrite (span_exact is_ascii_digit b [] Hb) by exact I.
  destruct (a ++ b) as [|d ds] eqn:E.
  - apply app_eq_nil in E. destruct E. contradiction.
  - simpl parse_exponent. rewrite Z.sub_0_l. reflexivity.
Qed.

(** ** The lines of a body *)

Lemma splitlines_go_no_break (s : str) :
  forall line after_cr ln,
    Forall (fun c => is_linebreak c = false) line ->
    In ln (splitlines_go line after_cr s) ->
    Forall (fun c => is_linebreak c = false) ln.
Proof.
  induction s as [|c s IH]; intros line after_cr ln Hline Hin; simpl in Hin.
  - destruct line as [|x line]; [contradiction|]. destruct Hin as [<- | []].
    apply Forall_rev. exact Hline.
  - destruct (after_cr && chr_eqb c LF); [apply (IH _ _ _ Hline Hin)|].
    destruct (is_linebreak c) eqn:E.
    + destruct Hin as [<- | Hin]; [apply Forall_rev; exact Hline|].
      apply (IH [] _ _ (Forall_nil _) Hin).
    + apply (IH (c :: line) false ln); [constructor; assumption | exact Hin].
Qed.

Lemma body_lines_facts (body ln : str) :
  In ln (body_lines body) -> ln <> [] /\ ~ In LF ln.
Proof.
  unfold body_lines. rewrite filter_In, in_map_iff.
  intros [(raw & <- & Hraw) Hne]. split.
  - intro E. rewrite E in Hne. discriminate.
  - intro Hin. apply strip_incl in Hin.
    apply (splitlines_go_no_break body [] false raw (Forall_nil _)) in Hraw.
    rewrite Forall_forall in Hraw. apply Hraw in Hin. vm_compute in Hin. discriminate.
Qed.

Lemma in_firstn (A : Type) (n : nat) (l : list A) (x : A) : In x (firstn n l) -> In x l.
Proof. intro H. rewrite <- (firstn_skipn n l). apply in_or_app. left. exact H. Qed.

Lemma in_skipn (A : Type) (n : nat) (l : list A) (x : A) : In x (skipn n l) -> In x l.
Proof. intro H. rewrite <- (firstn_skipn n l). apply in_or_app. right. exact H. Qed.

Lemma find_price_line_in (lines : list str) (ln : str) :
  find_price_line lines = Some ln -> In ln lines.
Proof.
  unfold find_price_line. intro H. apply find_some in H. destruct H as [H _].
  apply in_firstn in H. apply (in_skipn _ _ _ _ H).
Qed.

(** ** The parts of a price line *)

Lemma price_parts_slash (line : str) : price_parts line = slash_parts line.
Proof. unfold price_parts, slash_parts, slash_re, lit. rewrite re_split_one_class. reflexivity. Qed.

Lemma slash_parts_chars (line p : str) (c : char) :
  In p (slash_parts line) -> In c p -> In c line.
Proof.
  unfold slash_parts. rewrite filter_In, in_map_iff.
  intros [(raw & <- & Hraw) _] Hc. apply strip_incl in Hc.
  apply (split_on_incl _ _ _ _ Hraw Hc).
Qed.

Lemma parse_prices_line (line : str) :
  line <> [] ->
  parse_prices (Some line) =
  [ (u "students", nth_price (slash_parts line) 0);
    (u "employees", nth_price (slash_parts line) 1);
    (u "others", nth_price (slash_parts line) 2) ].
Proof.
  intro H. unfold parse_prices. destruct line as [|c line]; [congruence|].
  cbn [is_empty]. rewrite price_parts_slash. reflexivity.
Qed.

(** ** [normalize_price] on a part of a line *)

Lemma replace_char_in (a b x : char) (s : str) :
  In x (replace_char a b s) -> x = b \/ In x s.
Proof.
  unfold replace_char. rewrite in_map_iff. intros (y & Hy & Hin).
  destruct (chr_eqb y a); [left; congruence | right; congruence].
Qed.

Lemma price_text_chars (s : str) (x : char) :
  In x (price_text s) -> x = ch "." \/ In x s.
Proof.
  unfold price_text. intro H. apply replace_char_in in H.
  destruct H as [H|H]; [left; exact H | right].
  apply strip_incl. apply (remove_char_incl euro). apply (remove_char_incl (ch " ")). exact H.
Qed.

Lemma normalize_price_digits_dots (s : str) :
  s <> [] -> ~ In LF s ->
  normalize_price s = float_of_str (fst (span is_digit_or_dot (price_text s))).
Proof.
  intros Hne Hlf. unfold normalize_price. destruct s as [|c s]; [congruence|].
  cbn [is_empty]. fold (price_text (c :: s)). rewrite price_tail_sub; [reflexivity|].
  intro H. apply price_text_chars in H. destruct H as [H|H]; [discriminate | contradiction].
Qed.

(** A part of a line never gives a negative price. *)
Lemma normalize_price_nonneg (s : str) (x : pyfloat) :
  ~ In LF s -> normalize_price s = Some x -> nonnegative x.
Proof.
  intros Hlf H. destruct s as [|c s]; [discriminate|].
  rewrite normalize_price_digits_dots in H by (discriminate || exact Hlf).
  apply (float_of_digits_and_dots_nonneg _ x (span_fst_all _ _) H).
Qed.

Lemma all_dots_no_float (s : str) :
  Forall (fun c => c = ch ".") s -> float_of_str s = None.
Proof.
  intro H.
  assert (Hp : all_in is_plain s).
  { unfold all_in. apply (Forall_impl _ (P := fun c => c = ch ".")); [|exact H].
    intros c ->. reflexivity. }
  rewrite (float_of_plain s s (map_opt_ascii s Hp) Hp). unfold parse_float_body.
  destruct (parse_float_body_words s Hp) as (-> & -> & ->). cbn [orb].
  assert (Hd : forall t, Forall (fun c => c = ch ".") t -> span is_ascii_digit t = ([], t)).
  { intros t Ht. apply span_none. apply (Forall_impl _ (P := fun c => c = ch ".")); [|exact Ht].
    intros c ->. reflexivity. }
  rewrite (Hd s H). destruct H as [|c t Hc Ht]; [reflexivity|].
  subst c. rewrite chr_eqb_refl, (Hd t Ht). reflexivity.
Qed.

(** A part of a line without any digit gives no price. *)
Lemma normalize_price_no_digit (s : str) :
  ~ In LF s -> (forall c, In c s -> is_digit c = false) -> normalize_price s = None.
Proof.
  intros Hlf Hnd. destruct s as [|c0 s0] eqn:Es; [reflexivity|]. rewrite <- Es in *.
  rewrite normalize_price_digits_dots by (subst; discriminate || exact Hlf).
  apply all_dots_no_float. apply Forall_forall. intros c Hc.
  pose proof (span_fst_all is_digit_or_dot (price_text s)) as Hall.
  rewrite Forall_forall in Hall. pose proof (Hall c Hc) as Hdd.
  assert (Hin : In c (price_text s)).
  { rewrite <- (span_app is_digit_or_dot (price_text s)). apply in_or_app. left. exact Hc. }
  apply price_text_chars in Hin. destruct Hin as [Hin|Hin]; [exact Hin|].
  unfold is_digit_or_dot in Hdd. rewrite (Hnd c Hin) in Hdd. simpl in Hdd.
  apply chr_eqb_eq in Hdd. exact Hdd.
Qed.

(** ** The token [a,b€] *)

Lemma all_in_not_In (p : char -> bool) (x : char) (s : str) :
  p x = false -> all_in p s -> ~ In x s.
Proof.
  intros Hx Hs Hin. unfold all_in in Hs. rewrite Forall_forall in Hs.
  apply Hs in Hin. congruence.
Qed.

Lemma ascii_digit_not_space (c : char) : is_ascii_digit c = true -> is_space c = false.
Proof. intro H. apply digit_not_space, ascii_digit_is_digit, H. Qed.

Lemma amount_token_shape (a b : str) :
  a <> [] -> all_in is_ascii_digit a ->
  exists c t, amount_token a b = c :: t ++ [euro] /\ is_space c = false.
Proof.
  intros Hne Ha. destruct Ha as [|c a Hc Ha]; [congruence|].
  exists c, (a ++ ch "," :: b). split.
  - unfold amount_token. simpl. rewrite <- app_assoc. reflexivity.
  - apply ascii_digit_not_space, Hc.
Qed.

Lemma number_chars (a b : str) (sep x : char) :
  all_in is_ascii_digit a -> all_in is_ascii_digit b ->
  is_ascii_digit x = false -> x <> sep -> ~ In x (a ++ sep :: b).
Proof.
  intros Ha Hb Hx Hsep Hin. apply in_app_or in Hin.
  destruct Hin as [Hin | [Hin | Hin]].
  - apply (all_in_not_In is_ascii_digit x a Hx Ha Hin).
  - congruence.
  - apply (all_in_not_In is_ascii_digit x b Hx Hb Hin).
Qed.

Lemma strip_clean (c : char) (t : str) (d : char) :
  is_space c = false -> is_space d = false -> strip (c :: t ++ [d]) = c :: t ++ [d].
Proof.
  intros Hc Hd. pose proof (strip_core [] [] c t d (Forall_nil _) (Forall_nil _) Hc Hd) as H.
  simpl in H. rewrite app_nil_r in H. exact H.
Qed.

Lemma strip_right (c : char) (t : str) (d : char) (ws : str) :
  all_in is_space ws -> is_space c = false -> is_space d = false ->
  strip ((c :: t ++ [d]) ++ ws) = c :: t ++ [d].
Proof. intros Hw Hc Hd. apply (strip_core [] ws c t d (Forall_nil _) Hw Hc Hd). Qed.

Lemma strip_left (ws : str) (c : char) (t : str) (d : char) :
  all_in is_space ws -> is_space c = false -> is_space d = false ->
  strip (ws ++ c :: t ++ [d]) = c :: t ++ [d].
Proof.
  intros Hw Hc Hd. pose proof (strip_core ws [] c t d Hw (Forall_nil _) Hc Hd) as H.
  rewrite app_nil_r in H. exact H.
Qed.

Lemma replace_char_absent (a b : char) (s : str) : ~ In a s -> replace_char a b s = s.
Proof.
  intro H. unfold replace_char. rewrite <- (map_id s) at 2. apply map_ext_in.
  intros x Hx. destruct (chr_eqb x a) eqn:E; [|reflexivity].
  apply chr_eqb_eq in E. subst x. contradiction.
Qed.

Lemma price_text_token (a b : str) :
  a <> [] -> all_in is_ascii_digit a -> all_in is_ascii_digit b ->
  price_text (amount_token a b) = a ++ ch "." :: b.
Proof.
  intros Hne Ha Hb. unfold price_text.
  destruct (amount_token_shape a b Hne Ha) as (c & t & E & Hc).
  rewrite E, (strip_clean c t euro Hc) by reflexivity. rewrite <- E.
  unfold amount_token.
  assert (Hre : remove_char euro (a ++ ch "," :: b ++ [euro]) = a ++ ch "," :: b).
  { change (a ++ ch "," :: b ++ [euro]) with (a ++ (ch "," :: b) ++ [euro]).
    rewrite app_assoc. unfold remove_char. rewrite filter_app. simpl filter at 2.
    rewrite app_nil_r.
    apply (remove_char_absent euro). apply number_chars; try assumption; [reflexivity | discriminate]. }
  rewrite Hre, remove_char_absent
    by (apply number_chars; try assumption; [reflexivity | discriminate]).
  unfold replace_char. rewrite map_app. cbn [map]. rewrite chr_eqb_refl.
  fold (replace_char (ch ",") (ch ".") a). fold (replace_char (ch ",") (ch ".") b).
  rewrite !replace_char_absent
    by (apply (all_in_not_In is_ascii_digit); [reflexivity | assumption]).
  reflexivity.
Qed.

(** The price of the token [a,b€] is the float nearest to [a.b]. *)
Lemma normalize_price_token (a b : str) :
  a <> [] -> all_in is_ascii_digit a -> all_in is_ascii_digit b ->
  normalize_price (amount_token a b) = Some (decimal_float a b).
Proof.
  intros Hne Ha Hb.
  assert (Hlf : ~ In LF (amount_token a b)).
  { unfold amount_token. change (a ++ ch "," :: b ++ [euro]) with (a ++ (ch "," :: b) ++ [euro]).
    rewrite app_assoc. intro H. apply in_app_or in H. destruct H as [H | [H | []]]; [|discriminate].
    revert H. apply number_chars; try assumption; [reflexivity | discriminate]. }
  rewrite normalize_price_digits_dots; [|destruct a; [congruence | discriminate] | exact Hlf].
  rewrite (price_text_token a b Hne Ha Hb).
  assert (Hdd : all_in is_digit_or_dot (a ++ ch "." :: b)).
  { apply Forall_app. split; [|constructor; [reflexivity|]].
    - revert Ha. apply Forall_impl. intros c Hc. unfold is_digit_or_dot.
      rewrite (ascii_digit_is_digit c Hc). reflexivity.
    - revert Hb. apply Forall_impl. intros c Hc. unfold is_digit_or_dot.
      rewrite (ascii_digit_is_digit c Hc). reflexivity. }
  rewrite <- (app_nil_r (a ++ ch "." :: b)) at 1.
  rewrite (span_exact is_digit_or_dot _ [] Hdd I). simpl fst.
  apply (float_of_decimal_number a b Hne Ha Hb).
Qed.

(** The two parts of the line [a,b€ / c,d€]. *)
Lemma slash_parts_two_tokens (a b c d : str) :
  a <> [] -> c <> [] ->
  all_in is_ascii_digit a -> all_in is_ascii_digit b ->
  all_in is_ascii_digit c -> all_in is_ascii_digit d ->
  slash_parts (amount_token a b ++ u " / " ++ amount_token c d)
  = [amount_token a b; amount_token c d].
Proof.
  intros Ha0 Hc0 Ha Hb Hc Hd. unfold slash_parts.
  assert (Hns : forall x y, all_in is_ascii_digit x -> all_in is_ascii_digit y ->
            Forall (fun z => chr_eqb (ch "/") z = false) (amount_token x y)).
  { intros x y Hx Hy. unfold amount_token. apply Forall_app. split.
    - revert Hx. apply Forall_impl. intros z Hz. apply (class_not_chr' is_ascii_digit); [reflexivity | exact Hz].
    - constructor; [reflexivity|]. apply Forall_app. split; [|repeat constructor].
      revert Hy. apply Forall_impl. intros z Hz. apply (class_not_chr' is_ascii_digit); [reflexivity | exact Hz]. }
  change (amount_token a b ++ u " / " ++ amount_token c d)
    with (amount_token a b ++ [ch " "] ++ ch "/" :: [ch " "] ++ amount_token c d).
  rewrite app_assoc, split_on_app;
    [| apply Forall_app; split; [apply Hns; assumption | repeat constructor] | reflexivity].
  rewrite split_on_none
    by (apply Forall_app; split; [repeat constructor | apply Hns; assumption]).
  destruct (amount_token_shape a b Ha0 Ha) as (x & t & E1 & Hx).
  destruct (amount_token_shape c d Hc0 Hc) as (y & t' & E2 & Hy).
  cbn [map]. rewrite E1, E2.
  rewrite (strip_right x t euro [ch " "]) by (repeat constructor || assumption).
  rewrite (strip_left [ch " "] y t' euro) by (repeat constructor || assumption).
  reflexivity.
Qed.

(** ** The meals of a parsed page *)

Lemma parse_entry_build (ent : str) (m : Meal) :
  parse_entry ent = Some m -> exists cat_raw body, build_meal cat_raw body = Some m.
Proof.
  unfold parse_entry. destruct (is_empty (strip ent)); [discriminate|].
  destruct (re_match entry_header_re (strip ent)) as [hm|]; [|discriminate].
  intro H. exists (strip (group hm 1)), (strip (m_rest hm)). exact H.
Qed.

Lemma parsed_meal_build (now_year : Z) (text : str) (d : Day) (m : Meal) :
  In d (parse_text_blocks now_year text) -> In m (meals d) ->
  exists cat_raw body, build_meal cat_raw body = Some m.
Proof.
  unfold parse_text_blocks. rewrite in_map_iff. intros (hg & <- & _) Hm.
  unfold parse_day in Hm. cbn [meals] in Hm. apply in_flat_map in Hm.
  destruct Hm as (ent & _ & Hm). destruct (parse_entry ent) as [m'|] eqn:E; [|contradiction].
  destruct Hm as [<- | []]. apply (parse_entry_build ent m' E).
Qed.

(** The prices of a built meal are never negative. *)
Lemma build_meal_prices_nonneg (cat_raw body : str) (m : Meal) (role : str) (x : pyfloat) :
  build_meal cat_raw body = Some m -> In (role, Some x) (prices m) -> nonnegative x.
Proof.
  intros Hm Hin. destruct (build_meal_fields _ _ _ Hm) as (nm & rest & _ & _ & _ & _ & _ & Hp).
  rewrite Hp in Hin. clear Hp.
  destruct (find_price_line (body_lines body)) as [line|] eqn:E.
  - pose proof (find_price_line_in _ _ E) as Hline. apply body_lines_facts in Hline.
    destruct Hline as [Hne Hlf]. rewrite (parse_prices_line line Hne) in Hin.
    assert (Hnth : forall i, nth_price (slash_parts line) i = Some x -> nonnegative x).
    { intros i Hi. unfold nth_price in Hi.
      destruct (nth_error (slash_parts line) i) as [p|] eqn:Ep; [|discriminate].
      apply nth_error_In in Ep. apply (normalize_price_nonneg p x); [|exact Hi].
      intro Hc. apply Hlf. apply (slash_parts_chars line p LF Ep Hc). }
    destruct Hin as [H | [H | [H | []]]]; injection H as _ H; eapply Hnth; exact H.
  - simpl in Hin. destruct Hin as [H | [H | [H | []]]]; discriminate.
Qed.

(** ** The element tree *)

Lemma setdefault_append_in (k : str) (m x : Meal) (groups : list (str * list Meal)) (g : str * list Meal) :
  In g (setdefault_append k m groups) -> In x (snd g) ->
  x = m \/ exists g', In g' groups /\ In x (snd g').
Proof.
  induction groups as [|[k' l] groups IH]; simpl; intros Hg Hx.
  - destruct Hg as [<- | []]. simpl in Hx. destruct Hx as [<- | []]. left. reflexivity.
  - destruct (str_eqb k k').
    + destruct Hg as [<- | Hg].
      * simpl in Hx. apply in_app_or in Hx. destruct Hx as [Hx | [<- | []]].
        -- right. exists (k', l). split; [left; reflexivity | exact Hx].
        -- left. reflexivity.
      * right. exists g. split; [right; exact Hg | exact Hx].
    + destruct Hg as [<- | Hg].
      * right. exists (k', l). split; [left; reflexivity | exact Hx].
      * destruct (IH Hg Hx) as [-> | (g' & Hg' & Hx')]; [left; reflexivity|].
        right. exists g'. split; [right; exact Hg' | exact Hx'].
Qed.

Lemma group_meals_in (ms : list Meal) (g : str * list Meal) (x : Meal) :
  In g (group_meals ms) -> In x (snd g) -> In x ms.
Proof.
  unfold group_meals.
  assert (H : forall ms acc g, In g (fold_left (fun groups m => setdefault_append (category m) m groups) ms acc) ->
            In x (snd g) -> In x ms \/ exists g', In g' acc /\ In x (snd g')).
  { clear. induction ms as [|m ms IH]; intros acc g Hg Hx; simpl in Hg.
    - right. exists g. auto.
    - destruct (IH _ _ Hg Hx) as [H | (g' & Hg' & Hx')]; [left; right; exact H|].
      destruct (setdefault_append_in _ _ _ _ _ Hg' Hx') as [-> | H]; [left; left; reflexivity|].
      right. exact H. }
  intros Hg Hx. destruct (H ms [] g Hg Hx) as [Hin | (g' & [] & _)]. exact Hin.
Qed.

Lemma leaf_subtree (tag : str) (a : list (str * str)) (t : str) :
  subtree (Element tag a t []) = [Element tag a t []].
Proof. reflexivity. Qed.

(** The only [meal] element of the tree of a meal is its root. *)
Lemma meal_subtree_meals (m : Meal) (e : element) :
  In e (subtree (meal_element m)) -> has_tag "meal" e = true -> e = meal_element m.
Proof.
  unfold meal_element. cbn [subtree]. intros [<- | H] Ht; [reflexivity|]. exfalso.
  apply in_flat_map in H. destruct H as (c & Hc & He).
  assert (Hleaf : exists tag a t, c = Element tag a t [] /\ str_eqb tag (u "meal") = false).
  { cbn [app] in Hc. destruct Hc as [<- | Hc]; [exists (u "name"); eauto|].
    apply in_app_or in Hc. destruct Hc as [Hc | Hc].
    { apply in_map_iff in Hc. destruct Hc as (n & <- & _). exists (u "note"); eauto. }
    apply in_app_or in Hc. destruct Hc as [Hc | Hc].
    { apply in_map_iff in Hc. destruct Hc as (n & <- & _). exists (u "note"); eauto. }
    unfold price_elements in Hc. apply in_flat_map in Hc. destruct Hc as ([r [v|]] & _ & Hc);
      simpl in Hc; [|contradiction].
    destruct Hc as [<- | []]. exists (u "price"); eauto. }
  destruct Hleaf as (tag & a & t & -> & Htag). rewrite leaf_subtree in He.
  destruct He as [<- | []]. unfold has_tag in Ht. simpl in Ht. congruence.
Qed.

Lemma category_subtree_meals (g : str * list Meal) (e : element) :
  In e (subtree (category_element g)) -> has_tag "meal" e = true ->
  exists m, In m (snd g) /\ e = meal_element m.
Proof.
  unfold category_element. cbn [subtree]. intros [<- | H] Ht; [discriminate|].
  apply in_flat_map in H. destruct H as (c & Hc & He).
  apply in_map_iff in Hc. destruct Hc as (m & <- & Hm).
  exists m. split; [exact Hm | apply (meal_subtree_meals m e He Ht)].
Qed.

Lemma day_subtree_meals (d : Day) (x e : element) :
  In x (day_elements d) -> In e (subtree x) -> has_tag "meal" e = true ->
  exists m, In m (meals d) /\ e = meal_element m.
Proof.
  unfold day_elements. destruct (date d) as [dt|]; [|contradiction].
  destruct (is_empty dt); [contradiction|]. intros [<- | []].
  cbn [subtree]. intros [<- | H] Ht; [discriminate|].
  apply in_flat_map in H. destruct H as (c & Hc & He).
  apply in_map_iff in Hc. destruct Hc as (g & <- & Hg).
  destruct (category_subtree_meals g e He Ht) as (m & Hm & ->).
  exists m. split; [apply (group_meals_in _ g m Hg Hm) | reflexivity].
Qed.

(** Every [meal] element of the feed renders a meal of one of the days. *)
Lemma feed_meal_elements (canteen_name : str) (days : list Day) (e : element) :
  In e (meal_elements (openmensa_tree canteen_name days)) ->
  exists d m, In d days /\ In m (meals d) /\ e = meal_element m.
Proof.
  unfold meal_elements. rewrite filter_In. intros [H Ht].
  unfold openmensa_tree in H. cbn [subtree flat_map app] in H.
  destruct H as [<- | H]; [discriminate|]. rewrite app_nil_r in H.
  destruct H as [<- | H]; [discriminate|].
  destruct H as [<- | H]; [discriminate|].
  apply in_flat_map in H. destruct H as (x & Hx & He).
  apply in_flat_map in Hx. destruct Hx as (d & Hd & Hx).
  destruct (day_subtree_meals d x e Hx He Ht) as (m & Hm & ->).
  exists d, m. auto.
Qed.

(** The [price] children of a [meal] element are those of its price
    dictionary, in the order of the dictionary. *)
Lemma not_price_children (f : str -> element) (l : list str) (A : Type)
  (g : element -> list A) :
  (forall n, g (f n) = []) -> flat_map g (map f l) = [].
Proof.
  intro H. induction l as [|n l IH]; simpl; [reflexivity|]. rewrite H, IH. reflexivity.
Qed.

Lemma meal_price_roles (m : Meal) :
  price_roles (meal_element m)
  = flat_map (fun rv => match snd rv with Some _ => [fst rv] | None => [] end) (prices m).
Proof.
  unfold price_roles, meal_element. cbn [el_children].
  rewrite !flat_map_app. cbn [flat_map has_tag el_tag]. 
  rewrite !not_price_children by reflexivity.
  cbn [app]. unfold price_elements.
  induction (prices m) as [|[r [v|]] ps IH]; simpl; [reflexivity | | exact IH].
  f_equal. exact IH.
Qed.

Lemma meal_price_texts (m : Meal) :
  price_texts (meal_element m)
  = flat_map (fun rv => match snd rv with Some x => [format_2f x] | None => [] end) (prices m).
Proof.
  unfold price_texts, meal_element. cbn [el_children].
  rewrite !flat_map_app. cbn [flat_map has_tag el_tag].
  rewrite !not_price_children by reflexivity.
  cbn [app]. unfold price_elements.
  induction (prices m) as [|[r [v|]] ps IH]; simpl; [reflexivity | | exact IH].
  f_equal. exact IH.
Qed.

(** ** The rendering of a price *)

Lemma digit_char_ok (r : N) : (r < 10)%N -> is_ascii_digit (48 + r)%N = true.
Proof.
  intro H. unfold is_ascii_digit. apply andb_true_iff. split; apply N.leb_le; lia.
Qed.

Lemma dec_digits_go_digits (fuel : nat) :
  forall n acc, all_in is_ascii_digit acc -> all_in is_ascii_digit (dec_digits_go fuel n acc).
Proof.
  induction fuel as [|f IH]; intros n acc H; simpl; [exact H|].
  assert (H' : all_in is_ascii_digit ((48 + n mod 10)%N :: acc)).
  { constructor; [apply digit_char_ok, N.mod_lt; discriminate | exact H]. }
  destruct (n <? 10)%N; [exact H' | apply IH; exact H'].
Qed.

Lemma dec_digits_go_nonempty (fuel : nat) :
  forall n acc, acc <> [] -> dec_digits_go fuel n acc <> [].
Proof.
  induction fuel as [|f IH]; intros n acc H; simpl; [exact H|].
  destruct (n <? 10)%N; [discriminate | apply IH; discriminate].
Qed.

Lemma dec_digits_ok (n : N) : dec_digits n <> [] /\ all_in is_ascii_digit (dec_digits n).
Proof.
  unfold dec_digits. split; [|apply dec_digits_go_digits; constructor].
  simpl. destruct (n <? 10)%N; [discriminate | apply dec_digits_go_nonempty; discriminate].
Qed.

(** A finite float that is not negative is rendered with two decimal
    places. *)
Lemma format_2f_two_decimals (m e : Z) : 0 <= m -> two_decimals (format_2f (Finite false m e)).
Proof.
  intro Hm. unfold format_2f, two_digits. set (h := scaled_rne (m * 100) 1 (- e)).
  assert (Hh : 0 <= h) by (apply scaled_rne_nonneg; lia).
  pose proof (Z.mod_pos_bound h 100 ltac:(lia)) as Hr.
  destruct (dec_digits_ok (Z.to_N (h / 100))) as [Hne Hall].
  exists (dec_digits (Z.to_N (h / 100))),
         (48 + Z.to_N (h mod 100 / 10))%N, (48 + Z.to_N ((h mod 100) mod 10))%N.
  split; [reflexivity|]. split; [exact Hne|]. split; [exact Hall|].
  split; apply digit_char_ok.
  - pose proof (Z.div_lt_upper_bound (h mod 100) 10 10 ltac:(lia) ltac:(lia)).
    pose proof (Z.div_pos (h mod 100) 10 ltac:(lia) ltac:(lia)). lia.
  - pose proof (Z.mod_pos_bound (h mod 100) 10 ltac:(lia)). lia.
Qed.

Lemma inf_not_two_decimals : ~ two_decimals (u "inf").
Proof.
  intros (ip & d1 & d2 & E & Hne & Hip & _).
  apply (f_equal (@length char)) in E. rewrite length_app in E. simpl in E.
  destruct ip as [|a ip]; [|simpl in E; lia].
  clear E. contradiction.
Qed.

(** ** A part that starts with a minus sign *)

Lemma lstrip_spaces_suffix (s : str) : exists ws, s = ws ++ lstrip s /\ all_in is_space ws.
Proof.
  induction s as [|c s (ws & IH & Hws)]; [exists []; split; [reflexivity | constructor]|].
  simpl. destruct (is_space c) eqn:E.
  - exists (c :: ws). split; [simpl; congruence | constructor; assumption].
  - exists []. split; [reflexivity | constructor].
Qed.

Lemma strip_head (c : char) (t : str) :
  is_space c = false -> exists t', strip (c :: t) = c :: t'.
Proof.
  intro Hc. unfold strip. rewrite (lstrip_head c t Hc). unfold rstrip.
  destruct (lstrip_spaces_suffix (rev (c :: t))) as (ws & E & Hws).
  apply (f_equal (@rev char)) in E. rewrite rev_involutive, rev_app_distr in E.
  destruct (rev (lstrip (rev (c :: t)))) as [|x t'].
  - simpl in E. apply all_in_rev in Hws. rewrite <- E in Hws.
    inversion Hws as [|? ? Hx _]. congruence.
  - injection E as <- _. exists t'. reflexivity.
Qed.

Lemma normalize_price_minus (t : str) :
  ~ In LF t -> normalize_price (ch "-" :: t) = None.
Proof.
  intro Hlf. rewrite normalize_price_digits_dots;
    [|discriminate | intros [H | H]; [discriminate | contradiction]].
  destruct (strip_head (ch "-") t eq_refl) as (t' & E).
  unfold price_text. rewrite E. reflexivity.
Qed.

(** ** The day elements of a feed *)

Lemma filter_flat_map (A B : Type) (f : B -> bool) (g : A -> list B) (l : list A) :
  filter f (flat_map g l) = flat_map (fun x => filter f (g x)) l.
Proof.
  induction l as [|x l IH]; simpl; [reflexivity|]. rewrite filter_app, IH. reflexivity.
Qed.

Lemma filter_none (A : Type) (f : A -> bool) (l : list A) :
  (forall x, In x l -> f x = false) -> filter f l = [].
Proof.
  intro H. induction l as [|x l IH]; simpl; [reflexivity|].
  rewrite (H x) by (left; reflexivity). apply IH. intros y Hy. apply H. right. exact Hy.
Qed.

Lemma meal_subtree_no_day (m : Meal) (e : element) :
  In e (subtree (meal_element m)) -> has_tag "day" e = false.
Proof.
  unfold meal_element. cbn [subtree]. intros [<- | H]; [reflexivity|].
  apply in_flat_map in H. destruct H as (c & Hc & He).
  assert (Hleaf : exists tag a t, c = Element tag a t [] /\ str_eqb tag (u "day") = false).
  { cbn [app] in Hc. destruct Hc as [<- | Hc]; [exists (u "name"); eauto|].
    apply in_app_or in Hc. destruct Hc as [Hc | Hc].
    { apply in_map_iff in Hc. destruct Hc as (n & <- & _). exists (u "note"); eauto. }
    apply in_app_or in Hc. destruct Hc as [Hc | Hc].
    { apply in_map_iff in Hc. destruct Hc as (n & <- & _). exists (u "note"); eauto. }
    unfold price_elements in Hc. apply in_flat_map in Hc. destruct Hc as ([r [v|]] & _ & Hc);
      simpl in Hc; [|contradiction].
    destruct Hc as [<- | []]. exists (u "price"); eauto. }
  destruct Hleaf as (tag & a & t & -> & Htag). rewrite leaf_subtree in He.
  destruct He as [<- | []]. exact Htag.
Qed.

Lemma category_subtree_no_day (g : str * list Meal) (e : element) :
  In e (subtree (category_element g)) -> has_tag "day" e = false.
Proof.
  unfold category_element. cbn [subtree]. intros [<- | H]; [reflexivity|].
  apply in_flat_map in H. destruct H as (c & Hc & He).
  apply in_map_iff in Hc. destruct Hc as (m & <- & _).
  apply (meal_subtree_no_day m e He).
Qed.

Lemma has_tag_element (tag : string) (t : str) (a : list (str * str)) (x : str)
  (c : list element) :
  has_tag tag (Element t a x c) = str_eqb t (u tag).
Proof. reflexivity. Qed.

Lemma day_subtree_days (d : Day) :
  flat_map (fun x => filter (has_tag "day") (subtree x)) (day_elements d) = day_elements d.
Proof.
  unfold day_elements. destruct (date d) as [dt|]; [|reflexivity].
  destruct (is_empty dt); [reflexivity|]. cbn [flat_map subtree filter].
  rewrite has_tag_element. change (str_eqb (u "day") (u "day")) with true. cbv iota.
  rewrite app_nil_r. f_equal.
  apply filter_none. intros e He. apply in_flat_map in He. destruct He as (c & Hc & He).
  apply in_map_iff in Hc. destruct Hc as (g & <- & _).
  apply (category_subtree_no_day g e He).
Qed.

(** The day elements of the feed are those of the days that have a date. *)
Lemma feed_day_elements (canteen_name : str) (days : list Day) :
  day_elements_of (openmensa_tree canteen_name days) = flat_map day_elements days.
Proof.
  unfold day_elements_of, openmensa_tree. cbn [subtree flat_map app].
  rewrite app_nil_r. cbn [filter]. rewrite !has_tag_element.
  change (str_eqb (u "openmensa") (u "day")) with false.
  change (str_eqb (u "canteen") (u "day")) with false.
  change (str_eqb (u "name") (u "day")) with false. cbv iota.
  rewrite filter_flat_map.
  induction days as [|d days IH]; [reflexivity|].
  cbn [flat_map]. rewrite flat_map_app, day_subtree_days, IH. reflexivity.
Qed.

Lemma day_elements_count (days : list Day) :
  length (flat_map day_elements days) = dated_days days.
Proof.
  unfold dated_days. induction days as [|d days IH]; [reflexivity|].
  cbn [flat_map filter]. rewrite length_app, IH. unfold day_elements, has_date.
  destruct (date d) as [dt|]; [|reflexivity]. destruct (is_empty dt); reflexivity.
Qed.

Lemma isoformat_nonempty (d : pydate) : is_empty (isoformat d) = false.
Proof.
  unfold isoformat. destruct (zero_pad 4 (str_of_Z (d_year d))); reflexivity.
Qed.

(** A day of a parsed page has a date exactly when the date of its header
    is a date of the calendar, and the date is never the empty string. *)
Lemma parsed_day_date (now_year : Z) (text : str) (d : Day) :
  In d (parse_text_blocks now_year text) -> has_date d = is_some (date d).
Proof.
  unfold parse_text_blocks. rewrite in_map_iff. intros (hg & <- & _).
  unfold parse_day, has_date. cbn [date].
  destruct (strptime_dmY _) as [dt|]; [|reflexivity].
  simpl. rewrite isoformat_nonempty. reflexivity.
Qed.

Lemma day_elements_dates (days : list Day) :
  (forall d, In d days -> has_date d = is_some (date d)) ->
  map (fun e => attribute (u "date") (el_attrib e)) (flat_map day_elements days)
  = flat_map (fun d => opt_list (date d)) days.
Proof.
  intro H. induction days as [|d days IH]; [reflexivity|].
  cbn [flat_map]. rewrite map_app, IH by (intros x Hx; apply H; right; exact Hx).
  f_equal. specialize (H d (or_introl eq_refl)). unfold day_elements, has_date in *.
  destruct (date d) as [dt|]; [|reflexivity].
  destruct (is_empty dt); [discriminate | reflexivity].
Qed.

(** ** The exit code *)

Lemma main_exit_code (now_year : Z) (text : str) :
  exit_code (main now_year (Some text)) =
  if (length (parse_text_blocks now_year text) =? 0)%nat then 3
  else if (dated_days (parse_text_blocks now_year text) <? 4)%nat then 4 else 0.
Proof.
  unfold main. destruct (length _ =? 0)%nat; [reflexivity|].
  destruct (dated_days _ <? 4)%nat; reflexivity.
Qed.

Lemma exit_code_cases (days : list Day) (code : Z) :
  code = (if (length days =? 0)%nat then 3
          else if (dated_days days <? 4)%nat then 4 else 0) ->
  (code = 3 <-> days = [])
  /\ (code = 4 <-> days <> [] /\ (dated_days days < 4)%nat)
  /\ (code = 0 <-> (4 <= dated_days days)%nat).
Proof.
  intros ->. assert (Hle : (dated_days days <= length days)%nat) by apply filter_length_le.
  destruct days as [|d days].
  - unfold dated_days in *. simpl in *.
    repeat split; intros; try discriminate; try reflexivity; try lia; intuition congruence.
  - change (length (d :: days) =? 0)%nat with false. cbv iota.
    destruct (dated_days (d :: days) <? 4)%nat eqn:L;
      [apply Nat.ltb_lt in L | apply Nat.ltb_ge in L];
      repeat split; intros; try discriminate; try reflexivity; try lia;
      intuition (discriminate || lia).
Qed.

Lemma main_feed (now_year : Z) (text : str) :
  parse_text_blocks now_year text <> [] ->
  feed (main now_year (Some text))
  = Some (build_openmensa_xml canteen_title (parse_text_blocks now_year text)).
Proof.
  intro H. unfold main. destruct (parse_text_blocks now_year text) as [|d days]; [congruence|].
  change (length (d :: days) =? 0)%nat with false. cbv iota.
  destruct (dated_days (d :: days) <? 4)%nat; reflexivity.
Qed.

(** ** The date-range pattern *)

Lemma greedy_fail_head (A : Type) (p : char -> bool) (lo : nat) (hi : option nat)
  (k : nat -> str -> option A) (n : nat) (c : char) (s : str) :
  p c = false -> (1 <= lo)%nat -> greedy p lo hi k n (c :: s) = None.
Proof.
  intros Hc Hlo. simpl. rewrite Hc. destruct lo; [lia | reflexivity].
Qed.

Lemma run_exact_head (p : char -> bool) (a : str) (c : char) (rest : str) :
  all_in p a -> p c = false -> run p (a ++ c :: rest) = length a.
Proof. intros Ha Hc. apply run_exact; assumption. Qed.

(** A bounded repetition in front of a character outside its class. *)
Lemma step_between (A : Type) (p : char -> bool) (lo hi : nat)
  (k : nat -> str -> option A) (n : nat) (a : str) (c : char) (rest : str) :
  all_in p a -> (lo <= length a <= hi)%nat -> p c = false ->
  (forall n' x s', p x = true -> k n' (x :: s') = None) ->
  greedy p lo (Some hi) k n (a ++ c :: rest) = k (n + length a)%nat (c :: rest).
Proof.
  intros Ha Hlen Hc Hk. rewrite greedy_det by exact Hk.
  rewrite (run_exact_head p a c rest Ha Hc). cbn [cap].
  replace (Nat.min hi (length a)) with (length a) by lia.
  replace (lo <=? length a)%nat with true by (symmetry; apply Nat.leb_le; lia).
  rewrite skipn_length_app. reflexivity.
Qed.

(** A starred repetition in front of a character outside its class. *)
Lemma step_star (A : Type) (p : char -> bool)
  (k : nat -> str -> option A) (n : nat) (a : str) (c : char) (rest : str) :
  all_in p a -> p c = false ->
  (forall n' x s', p x = true -> k n' (x :: s') = None) ->
  greedy p 0 None k n (a ++ c :: rest) = k (n + length a)%nat (c :: rest).
Proof.
  intros Ha Hc Hk. rewrite greedy_det by exact Hk.
  rewrite (run_exact_head p a c rest Ha Hc). cbn [cap Nat.leb].
  rewrite skipn_length_app. reflexivity.
Qed.

(** A repetition of exactly [h] characters. *)
Lemma step_exact (A : Type) (p : char -> bool) (h : nat)
  (k : nat -> str -> option A) (n : nat) (a rest : str) :
  all_in p a -> length a = h ->
  greedy p h (Some h) k n (a ++ rest) = k (n + h)%nat rest.
Proof.
  intros Ha Hlen. rewrite greedy_exact.
  pose proof (run_prefix p a rest Ha) as Hr.
  replace (h <=? run p (a ++ rest))%nat with true by (symmetry; apply Nat.leb_le; lia).
  rewrite <- Hlen, skipn_length_app. reflexivity.
Qed.

Lemma step_lit (A : Type) (c : char) (k : nat -> str -> option A) (n : nat) (rest : str) :
  greedy (chr_eqb c) 1 (Some 1%nat) k n (c :: rest) = k (S n) rest.
Proof. rewrite greedy_one, chr_eqb_refl. reflexivity. Qed.

Lemma lit_fails (A : Type) (p : char -> bool) (c : char) (k : nat -> str -> option A) :
  p c = false ->
  forall n' x s', p x = true -> greedy (chr_eqb c) 1 (Some 1%nat) k n' (x :: s') = None.
Proof.
  intros Hc n' x s' Hx. rewrite greedy_one.
  rewrite (class_not_chr' p c x Hc Hx). reflexivity.
Qed.

Ltac step_between_at :=
  match goal with
  | |- context [greedy ?p ?lo (Some ?hi) ?k ?n (?a ++ ?c :: ?r)] =>
      rewrite (step_between _ p lo hi k n a c r)
  end.

Ltac step_star_at :=
  match goal with
  | |- context [greedy ?p 0%nat None ?k ?n (?a ++ ?c :: ?r)] =>
      rewrite (step_star _ p k n a c r)
  end.

Ltac step_exact_at :=
  match goal with
  | |- context [greedy ?p ?h (Some ?h) ?k ?n (?a ++ ?r)] =>
      rewrite (step_exact _ p h k n a r)
  end.

Ltac step_lit_at :=
  match goal with
  | |- context [greedy (chr_eqb ?c) 1%nat (Some 1%nat) ?k ?n (?c :: ?r)] =>
      rewrite (step_lit _ c k n r)
  end.

Lemma year_range_re_no_bos : no_bos year_range_re.
Proof. repeat constructor; discriminate. Qed.

Lemma length_dmy_text (d m y : str) :
  length (dmy_text d m y) = (S (S (length d + length m)) + length y)%nat.
Proof. unfold dmy_text. rewrite length_app. simpl. rewrite length_app. simpl. lia. Qed.

Lemma range_at_run (b : bool) (s d1 m1 y1 : str) :
  range_at s d1 m1 y1 ->
  exists n sp1 sp2,
    rx_run year_range_re b 0 s [] [] = Some (n, [sp1; sp2])
    /\ sp1 = (0%nat, length (dmy_text d1 m1 y1)).
Proof.
  intros (ws1 & ws2 & d2 & m2 & y2 & rest & -> & H1 & H2 & Hw1 & Hw2).
  destruct H1 as ((Ld1 & Dd1) & (Lm1 & Dm1) & (Ly1 & Dy1)).
  destruct H2 as ((Ld2 & Dd2) & (Lm2 & Dm2) & (Ly2 & Dy2)).
  assert (Hd2 : exists x t, d2 = x :: t /\ is_digit x = true).
  { destruct Dd2 as [|x t Hx _]; [simpl in Ld2; lia | exists x, t; auto]. }
  destruct Hd2 as (x2 & t2 & Ed2 & Hx2).
  assert (Es : dmy_text d1 m1 y1 ++ ws1 ++ ch "-" :: ws2 ++ dmy_text d2 m2 y2 ++ rest
               = d1 ++ ch "." :: m1 ++ ch "." :: y1 ++ ws1 ++ ch "-" :: ws2
                    ++ d2 ++ ch "." :: m2 ++ ch "." :: y2 ++ rest).
  { unfold dmy_text. rewrite <- (app_assoc d1). cbn [app]. rewrite <- (app_assoc m1).
    cbn [app]. rewrite <- (app_assoc d2). cbn [app]. rewrite <- (app_assoc m2).
    reflexivity. }
  rewrite Es. clear Es.
  do 3 eexists. split.
  - unfold year_range_re, dmy_re, day_month_re, between, star, lit, one.
    cbn [app rx_run].
    step_between_at; [| assumption | lia | reflexivity | apply (lit_fails _ is_digit); reflexivity].
    step_lit_at.
    step_between_at; [| assumption | lia | reflexivity | apply (lit_fails _ is_digit); reflexivity].
    step_lit_at.
    step_exact_at; [| assumption | lia].
    step_star_at; [| assumption | reflexivity | apply (lit_fails _ is_space); reflexivity].
    step_lit_at.
    rewrite Ed2 at 1. cbn [app].
    step_star_at; [| assumption | apply digit_not_space, Hx2
                  | intros n' x s' Hx; apply greedy_fail_head; [apply space_not_digit, Hx | lia]].
    change (x2 :: t2 ++ ch "." :: m2 ++ ch "." :: y2 ++ rest)
      with ((x2 :: t2) ++ ch "." :: m2 ++ ch "." :: y2 ++ rest).
    rewrite <- Ed2.
    step_between_at; [| assumption | lia | reflexivity | apply (lit_fails _ is_digit); reflexivity].
    step_lit_at.
    step_between_at; [| assumption | lia | reflexivity | apply (lit_fails _ is_digit); reflexivity].
    step_lit_at.
    step_exact_at; [| assumption | lia].
    cbn [rev app]. reflexivity.
  - rewrite length_dmy_text. f_equal. lia.
Qed.

(** A text that starts with a date range is matched, and the first group
    is the first date. *)
Lemma range_at_match (b : bool) (s d1 m1 y1 : str) :
  range_at s d1 m1 y1 ->
  exists n gs, rx_at year_range_re b s = Some (n, gs) /\ nth 0 gs [] = dmy_text d1 m1 y1.
Proof.
  intro H. destruct (range_at_run b s d1 m1 y1 H) as (n & sp1 & sp2 & Hrun & ->).
  unfold rx_at. rewrite Hrun. eexists. eexists. split; [reflexivity|].
  cbn [map nth fst snd]. unfold substr. cbn [skipn]. rewrite Nat.sub_0_r.
  destruct H as (ws1 & ws2 & d2 & m2 & y2 & rest & -> & _).
  rewrite firstn_app, firstn_all, Nat.sub_diag. cbn [firstn]. apply app_nil_r.
Qed.

Lemma accepts_dmy (r : regex) (b : bool) (n : nat) (s : str) (depth : nat) :
  accepts (dmy_re ++ r) b n s depth ->
  exists d m y s' n',
    s = dmy_text d m y ++ s' /\ date_shaped d m y /\ accepts r b n' s' depth.
Proof.
  unfold dmy_re, day_month_re, between, lit, one. cbn [app accepts cap].
  intros (j1 & H1 & j2 & H2 & j3 & H3 & j4 & H4 & j5 & H5 & Hr).
  destruct (take_in_run is_digit s j1) as (E1 & D1 & L1); [lia|].
  destruct (one_in_run _ _ _ H2) as (c2 & t2 & E2 & Hc2 & -> & T2). rewrite T2 in *.
  destruct (take_in_run is_digit t2 j3) as (E3 & D3 & L3); [lia|].
  destruct (one_in_run _ _ _ H4) as (c4 & t4 & E4 & Hc4 & -> & T4). rewrite T4 in *.
  destruct (take_in_run is_digit t4 j5) as (E5 & D5 & L5); [lia|].
  apply chr_eqb_eq in Hc2, Hc4. subst c2 c4.
  exists (firstn j1 s), (firstn j3 t2), (firstn j5 t4), (skipn j5 t4). eexists.
  split; [|split; [|exact Hr]].
  - unfold dmy_text. rewrite <- (app_assoc (firstn j1 s)). cbn [app].
    rewrite <- (app_assoc (firstn j3 t2)). cbn [app].
    rewrite <- E5, <- E4, <- E3, <- E2. exact E1.
  - unfold date_shaped, digits_between. rewrite L1, L3, L5.
    repeat split; try assumption; lia.
Qed.

Lemma accepts_star (p : char -> bool) (r : regex) (b : bool) (n : nat) (s : str) (depth : nat) :
  accepts (star p :: r) b n s depth ->
  exists ws s' n', s = ws ++ s' /\ all_in p ws /\ accepts r b n' s' depth.
Proof.
  unfold star. cbn [accepts cap]. intros (j & Hj & Hr).
  destruct (take_in_run p s j) as (E & D & L); [lia|].
  exists (firstn j s), (skipn j s). eexists. repeat split; [exact E | exact D | exact Hr].
Qed.

Lemma accepts_lit (c : char) (r : regex) (b : bool) (n : nat) (s : str) (depth : nat) :
  accepts (lit c :: r) b n s depth ->
  exists s' n', s = c :: s' /\ accepts r b n' s' depth.
Proof.
  unfold lit, one. cbn [accepts cap]. intros (j & Hj & Hr).
  destruct (one_in_run _ _ _ Hj) as (x & t & E & Hx & -> & T). rewrite T in Hr.
  apply chr_eqb_eq in Hx. subst x. exists t. eexists. split; [exact E | exact Hr].
Qed.

Lemma accepts_open (r : regex) (b : bool) (n : nat) (s : str) (depth : nat) :
  accepts (GroupOpen :: r) b n s depth -> accepts r b n s (S depth).
Proof. intro H. exact H. Qed.

Lemma accepts_close (r : regex) (b : bool) (n : nat) (s : str) (depth : nat) :
  accepts (GroupClose :: r) b n s (S depth) -> accepts r b n s depth.
Proof. intro H. exact H. Qed.

(** What the date-range pattern accepts is a date range. *)
Lemma range_accepted (s : str) :
  accepts year_range_re true 0 s 0 -> exists d m y, range_at s d m y.
Proof.
  unfold year_range_re. intro H.
  change ([GroupOpen] ++ dmy_re ++ [GroupClose; star is_space; lit (ch "-"); star is_space; GroupOpen]
            ++ dmy_re ++ [GroupClose])
    with (GroupOpen :: dmy_re ++ GroupClose :: star is_space :: lit (ch "-") :: star is_space
            :: GroupOpen :: dmy_re ++ [GroupClose]) in H.
  apply accepts_open in H.
  apply accepts_dmy in H. destruct H as (d1 & m1 & y1 & s1 & n1 & -> & Hs1 & H).
  apply accepts_close in H.
  apply accepts_star in H. destruct H as (ws1 & s2 & n2 & -> & Hw1 & H).
  apply accepts_lit in H. destruct H as (s3 & n3 & -> & H).
  apply accepts_star in H. destruct H as (ws2 & s4 & n4 & -> & Hw2 & H).
  apply accepts_open in H.
  apply accepts_dmy in H. destruct H as (d2 & m2 & y2 & rest & n5 & -> & Hs2 & _).
  exists d1, m1, y1, ws1, ws2, d2, m2, y2, rest.
  split; [reflexivity|]. split; [exact Hs1|]. split; [exact Hs2|]. split; assumption.
Qed.

Lemma range_at_iff (s : str) :
  rx_at year_range_re true s <> None <-> exists d m y, range_at s d m y.
Proof.
  split.
  - intro H. apply rx_at_accepts in H. apply range_accepted, H.
  - intros (d & m & y & H). destruct (range_at_match true s d m y H) as (n & gs & E & _).
    congruence.
Qed.

(** ** [extract_year_from_text] *)

Lemma extract_year_first_range (now_year : Z) (pre s d1 m1 y1 : str) :
  range_at s d1 m1 y1 ->
  (forall p q, pre = p ++ q -> q <> [] -> no_range_at (q ++ s)) ->
  extract_year_from_text now_year (pre ++ s) = year_of_date_text now_year (dmy_text d1 m1 y1).
Proof.
  intros Hr Hbefore. destruct (range_at_match true s d1 m1 y1 Hr) as (n & gs & Hm & Hg).
  unfold extract_year_from_text, re_search.
  rewrite (re_search_go_first year_range_re true pre s (n, gs) year_range_re_no_bos Hm).
  - unfold group, mk_match. cbn [m_groups snd pred]. rewrite Hg. reflexivity.
  - intros p q Hpq Hq. destruct (rx_at year_range_re true (q ++ s)) eqn:E; [|reflexivity].
    exfalso. assert (Hne : rx_at year_range_re true (q ++ s) <> None) by congruence.
    apply range_at_iff in Hne. destruct Hne as (d & m & y & Hrange).
    apply (Hbefore p q Hpq Hq d m y Hrange).
Qed.

Lemma extract_year_no_range (now_year : Z) (text : str) :
  (forall p q, text = p ++ q -> no_range_at q) ->
  extract_year_from_text now_year text = now_year.
Proof.
  intro H. unfold extract_year_from_text, re_search.
  rewrite (proj2 (re_search_go_none year_range_re true text year_range_re_no_bos));
    [reflexivity|].
  intros pre suf Hs. destruct (rx_at year_range_re true suf) eqn:E; [|reflexivity].
  exfalso. assert (Hne : rx_at year_range_re true suf <> None) by congruence.
  apply range_at_iff in Hne. destruct Hne as (d & m & y & Hrange).
  apply (H pre suf Hs d m y Hrange).
Qed.

(** ** [strptime] on ASCII digits *)

Lemma ascii_digit_cases (c : char) :
  is_ascii_digit c = true -> In c [48; 49; 50; 51; 52; 53; 54; 55; 56; 57]%N.
Proof.
  unfold is_ascii_digit. intro H. apply andb_true_iff in H. destruct H as [H1 H2].
  apply N.leb_le in H1. apply N.leb_le in H2. simpl.
  assert (E : (c = 48 \/ c = 49 \/ c = 50 \/ c = 51 \/ c = 52 \/ c = 53 \/ c = 54
               \/ c = 55 \/ c = 56 \/ c = 57)%N) by lia.
  intuition.
Qed.

Ltac each_ascii_digit H :=
  apply ascii_digit_cases in H; simpl in H;
  repeat (destruct H as [H | H]; [symmetry in H; subst|]); [..| contradiction].

Section StrptimeFields.
Variable R : Type.
Variable K : Z -> str -> option R.

(** The directive [%d] followed by a dot reads a day from 1 to 31. *)
Lemma day_alternatives (d rest : str) :
  (1 <= length d <= 2)%nat -> all_in is_ascii_digit d ->
  first_some (fun ds => match expect_dot (snd ds) with
                        | None => None
                        | Some s1 => K (fst ds) s1
                        end) (alts_d (d ++ ch "." :: rest))
  = if (1 <=? digits_value d) && (digits_value d <=? 31)
    then K (digits_value d) rest else None.
Proof.
  intros Hlen Hd. destruct d as [|a [|b [|c d]]]; simpl in Hlen; try lia.
  - inversion Hd as [|? ? Ha _]; subst. each_ascii_digit Ha;
      vm_compute; try reflexivity; destruct (K _ rest); reflexivity.
  - inversion Hd as [|? ? Ha Hd']; subst. inversion Hd' as [|? ? Hb _]; subst.
    each_ascii_digit Ha; each_ascii_digit Hb;
      vm_compute; try reflexivity; destruct (K _ rest); reflexivity.
Qed.

(** The directive [%m] followed by a dot reads a month from 1 to 12. *)
Lemma month_alternatives (m rest : str) :
  (1 <= length m <= 2)%nat -> all_in is_ascii_digit m ->
  first_some (fun ms => match expect_dot (snd ms) with
                        | None => None
                        | Some s2 => K (fst ms) s2
                        end) (alts_m (m ++ ch "." :: rest))
  = if (1 <=? digits_value m) && (digits_value m <=? 12)
    then K (digits_value m) rest else None.
Proof.
  intros Hlen Hm. destruct m as [|a [|b [|c m]]]; simpl in Hlen; try lia.
  - inversion Hm as [|? ? Ha _]; subst. each_ascii_digit Ha;
      vm_compute; try reflexivity; destruct (K _ rest); reflexivity.
  - inversion Hm as [|? ? Ha Hm']; subst. inversion Hm' as [|? ? Hb _]; subst.
    each_ascii_digit Ha; each_ascii_digit Hb;
      vm_compute; try reflexivity; destruct (K _ rest); reflexivity.
Qed.
End StrptimeFields.

Lemma digit_Z_ascii (c : char) : is_ascii_digit c = true -> digit_Z c = Z.of_N c - 48.
Proof.
  intro H. unfold digit_Z. rewrite (ascii_digit_decimal c H).
  unfold is_ascii_digit in H. apply andb_true_iff in H. destruct H as [H _].
  apply N.leb_le in H. lia.
Qed.

(** The directive [%Y] reads a year of four digits. *)
Lemma year_field (y : str) :
  length y = 4%nat -> all_in is_ascii_digit y -> read_Y y = Some (digits_value y).
Proof.
  intros Hlen Hy. destruct y as [|a [|b [|c [|d [|e y]]]]]; simpl in Hlen; try lia.
  inversion Hy as [|? ? Ha Hy1]; subst. inversion Hy1 as [|? ? Hb Hy2]; subst.
  inversion Hy2 as [|? ? Hc Hy3]; subst. inversion Hy3 as [|? ? Hd _]; subst.
  unfold read_Y. rewrite !ascii_digit_is_digit by assumption. cbn [andb].
  rewrite !digit_Z_ascii by assumption. unfold digits_value. cbn [fold_left].
  f_equal. lia.
Qed.

Lemma days_in_month_bound (y m : Z) : 28 <= days_in_month y m <= 31.
Proof.
  unfold days_in_month. destruct (m =? 2); [destruct (is_leap y); lia|].
  destruct ((m =? 4) || (m =? 6) || (m =? 9) || (m =? 11)); lia.
Qed.

Lemma make_date_some (y m d : Z) :
  make_date y m d = Some {| d_year := y; d_month := m; d_day := d |} <-> calendar_date y m d.
Proof.
  unfold make_date, calendar_date.
  destruct ((1 <=? y) && (y <=? 9999) && (1 <=? m) && (m <=? 12) && (1 <=? d)
            && (d <=? days_in_month y m)) eqn:C.
  - repeat (apply andb_true_iff in C; destruct C as [C ?]).
    repeat match goal with H : (_ <=? _) = true |- _ => apply Z.leb_le in H end.
    split; [intros _; lia | reflexivity].
  - split; [discriminate|]. intro H. exfalso.
    assert (C' : (1 <=? y) && (y <=? 9999) && (1 <=? m) && (m <=? 12) && (1 <=? d)
                 && (d <=? days_in_month y m) = true).
    { repeat (apply andb_true_iff; split); apply Z.leb_le; lia. }
    congruence.
Qed.

Lemma make_date_none (y m d : Z) : ~ calendar_date y m d -> make_date y m d = None.
Proof.
  intro H. destruct (make_date y m d) as [dt|] eqn:E; [|reflexivity]. exfalso. apply H.
  apply make_date_some. rewrite E. unfold make_date in E.
  destruct (_ && _); [injection E as <-; reflexivity | discriminate].
Qed.

(** On a date written with ASCII digits, [strptime] is the date
    constructor applied to the three numbers. *)
Lemma strptime_ascii_date (d m y : str) :
  ascii_date d m y ->
  strptime_dmY (dmy_text d m y)
  = make_date (digits_value y) (digits_value m) (digits_value d).
Proof.
  intros (((Ld & _) & (Lm & _) & (Ly & _)) & Hd & Hm & Hy).
  unfold strptime_dmY, strptime_fields, dmy_text.
  rewrite (day_alternatives _
             (fun dv s1 =>
                first_some (fun ms => match expect_dot (snd ms) with
                                      | None => None
                                      | Some s2 =>
                                          match read_Y s2 with
                                          | Some yv => Some (yv, fst ms, dv)
                                          | None => None
                                          end
                                      end) (alts_m s1)) d _ Ld Hd).
  pose proof (days_in_month_bound (digits_value y) (digits_value m)) as Hb.
  destruct ((1 <=? digits_value d) && (digits_value d <=? 31)) eqn:Ed.
  - rewrite (month_alternatives _
               (fun mv s2 => match read_Y s2 with
                             | Some yv => Some (yv, mv, digits_value d)
                             | None => None
                             end) m y Lm Hm).
    destruct ((1 <=? digits_value m) && (digits_value m <=? 12)) eqn:Em.
    + rewrite (year_field y) by (lia || assumption). reflexivity.
    + symmetry. apply make_date_none. intros (_ & H & _).
      apply andb_false_iff in Em. destruct Em as [Em | Em]; apply Z.leb_gt in Em; lia.
  - symmetry. apply make_date_none. intros (_ & _ & H).
    apply andb_false_iff in Ed. destruct Ed as [Ed | Ed]; apply Z.leb_gt in Ed; lia.
Qed.

(* ===================================================================== *)
(** * The headers, the entries, the prices and the text of the feed *)
(* ===================================================================== *)

(** ** Repetitions, read backwards *)

Lemma rep_inv (A : Type) (p : char -> bool) (lo : nat) (hi : option nat)
  (k : nat -> str -> option A) (n : nat) (s : str) (r : A) :
  greedy p lo hi k n s = Some r ->
  exists a rest,
    s = a ++ rest /\ all_in p a /\ (lo <= length a <= cap hi (length a))%nat
    /\ k (n + length a)%nat rest = Some r.
Proof.
  intro H. apply greedy_inv in H. destruct H as (j & Hj & Hk).
  assert (Hr : (j <= run p s)%nat) by (pose proof (cap_le hi (run p s)); lia).
  destruct (take_in_run p s j Hr) as (E & Ha & L).
  exists (firstn j s), (skipn j s). rewrite L. repeat split; try assumption; try lia.
  destruct hi as [h|]; simpl in *; lia.
Qed.

Lemma lit_inv (A : Type) (c : char) (k : nat -> str -> option A) (n : nat) (s : str) (r : A) :
  greedy (chr_eqb c) 1 (Some 1%nat) k n s = Some r ->
  exists rest, s = c :: rest /\ k (S n) rest = Some r.
Proof.
  rewrite greedy_one. destruct s as [|x rest]; [discriminate|].
  destruct (chr_eqb c x) eqn:E; [|discriminate]. apply chr_eqb_eq in E. subst x.
  intro H. exists rest. split; [reflexivity | exact H].
Qed.

Lemma substr_middle (a b c : str) :
  substr (a ++ b ++ c) (length a) (length a + length b) = b.
Proof.
  unfold substr. rewrite skipn_length_app.
  replace (length a + length b - length a)%nat with (length b) by lia.
  rewrite firstn_app, Nat.sub_diag, firstn_all. simpl. apply app_nil_r.
Qed.

Lemma substr_at (s a b c : str) (n1 n2 : nat) :
  s = a ++ b ++ c -> n1 = length a -> n2 = (n1 + length b)%nat -> substr s n1 n2 = b.
Proof. intros -> -> ->. apply substr_middle. Qed.

Ltac len_solve := repeat first [rewrite length_app | progress simpl]; lia.

(** ** The day header *)

Lemma day_header_re_no_bos : no_bos day_header_re.
Proof. repeat constructor; discriminate. Qed.

(** A match of the header pattern is a day header; its groups are the
    weekday and the day and month with their dots. *)
Lemma header_match (b : bool) (s : str) (n : nat) (gs : list str) :
  rx_at day_header_re b s = Some (n, gs) ->
  exists wd dd mm rest,
    header_at s wd dd mm rest
    /\ gs = [wd; dd ++ ch "." :: mm ++ [ch "."]]
    /\ (n + length rest = length s)%nat /\ rest = skipn n s /\ (0 < n)%nat.
Proof.
  unfold rx_at. destruct (rx_run day_header_re b 0 s [] []) as [[e sp]|] eqn:R; [|discriminate].
  intro H. injection H as <- <-.
  unfold day_header_re, lits, star, plus, between, lit, one in R. simpl map in R. simpl app in R.
  cbn [rx_run] in R.
  apply lit_inv in R. destruct R as (s1 & -> & R).
  apply lit_inv in R. destruct R as (s2 & -> & R).
  apply lit_inv in R. destruct R as (s3 & -> & R).
  apply lit_inv in R. destruct R as (s4 & -> & R).
  apply rep_inv in R. destruct R as (ws1 & s5 & -> & Hw1 & _ & R).
  apply rep_inv in R. destruct R as (wd & s6 & -> & Hwd & Lwd & R).
  apply lit_inv in R. destruct R as (s7 & -> & R).
  apply rep_inv in R. destruct R as (ws2 & s8 & -> & Hw2 & _ & R).
  apply rep_inv in R. destruct R as (dd & s9 & -> & Hdd & Ldd & R).
  apply lit_inv in R. destruct R as (s10 & -> & R).
  apply rep_inv in R. destruct R as (mm & s11 & -> & Hmm & Lmm & R).
  apply lit_inv in R. destruct R as (rest & -> & R).
  simpl in R. injection R as <- <-.
  cbn [cap] in Lwd, Ldd, Lmm.
  exists wd, dd, mm, rest. split; [|split; [|split; [|split]]].
  - exists ws1, ws2. split; [reflexivity|]. split; [exact Hw1|].
    split; [destruct wd; [simpl in Lwd; lia | discriminate]|].
    split; [exact Hwd|]. split; [exact Hw2|].
    split; split; try assumption; lia.
  - cbn [map fst snd]. f_equal; [|f_equal].
    + apply (substr_at _ (u "####" ++ ws1) wd
               (ch "," :: ws2 ++ dd ++ ch "." :: mm ++ ch "." :: rest)).
      * rewrite <- app_assoc. reflexivity.
      * len_solve.
      * lia.
    + apply (substr_at _ (u "####" ++ ws1 ++ wd ++ ch "," :: ws2)
               (dd ++ ch "." :: mm ++ [ch "."]) rest).
      * simpl. rewrite <- !app_assoc. simpl. rewrite <- !app_assoc. reflexivity.
      * len_solve.
      * len_solve.
  - len_solve.
  - match goal with |- _ = skipn ?n ?l => 
      replace l with ((u "####" ++ ws1 ++ wd ++ ch "," :: ws2 ++ dd ++ ch "." :: mm ++ [ch "."]) ++ rest);
      [replace n with (length (u "####" ++ ws1 ++ wd ++ ch "," :: ws2 ++ dd ++ ch "." :: mm ++ [ch "."]))|]
    end.
    + rewrite skipn_length_app. reflexivity.
    + len_solve.
    + simpl. rewrite <- !app_assoc. simpl. rewrite <- !app_assoc. simpl. rewrite <- !app_assoc. reflexivity.
  - lia.
Qed.

(** ** Patterns, read forwards *)

Lemma accepts_rep (p : char -> bool) (lo : nat) (hi : option nat) (r : regex)
  (b : bool) (n : nat) (a rest : str) (depth : nat) :
  all_in p a -> (lo <= length a <= cap hi (length a))%nat ->
  accepts r b (n + length a)%nat rest depth ->
  accepts (Rep p lo hi :: r) b n (a ++ rest) depth.
Proof.
  intros Ha Hl Hr. cbn [accepts]. exists (length a). split.
  - pose proof (run_prefix p a rest Ha). destruct hi as [h|]; simpl in *; lia.
  - rewrite skipn_length_app. exact Hr.
Qed.

Lemma accepts_one (c : char) (r : regex) (b : bool) (n : nat) (rest : str) (depth : nat) :
  accepts r b (n + 1)%nat rest depth -> accepts (lit c :: r) b n (c :: rest) depth.
Proof.
  intro H. unfold lit, one.
  apply (accepts_rep (chr_eqb c) 1 (Some 1%nat) r b n [c] rest depth).
  - constructor; [apply chr_eqb_refl | constructor].
  - simpl. lia.
  - exact H.
Qed.

Lemma accepts_opened (r : regex) (b : bool) (n : nat) (s : str) (depth : nat) :
  accepts r b n s (S depth) -> accepts (GroupOpen :: r) b n s depth.
Proof. intro H. exact H. Qed.

Lemma accepts_closed (r : regex) (b : bool) (n : nat) (s : str) (depth : nat) :
  accepts r b n s depth -> accepts (GroupClose :: r) b n s (S depth).
Proof. intro H. exact H. Qed.

Lemma header_accepted (s wd dd mm rest : str) :
  header_at s wd dd mm rest -> rx_at day_header_re true s <> None.
Proof.
  intros (ws1 & ws2 & -> & Hw1 & Hwd0 & Hwd & Hw2 & [Ld Hd] & [Lm Hm]).
  apply rx_at_accepts.
  unfold day_header_re, lits, star, plus, between. simpl map. simpl app.
  do 4 apply accepts_one.
  apply accepts_rep; [exact Hw1 | simpl; lia|]. apply accepts_opened.
  apply accepts_rep; [exact Hwd | destruct wd; [congruence | simpl; lia]|]. apply accepts_closed.
  apply accepts_one.
  apply accepts_rep; [exact Hw2 | simpl; lia|]. apply accepts_opened.
  apply accepts_rep; [exact Hd | cbn [cap]; lia|].
  apply accepts_one.
  apply accepts_rep; [exact Hm | cbn [cap]; lia|].
  apply accepts_one. apply accepts_closed. exact I.
Qed.

Lemma header_at_iff (s : str) :
  rx_at day_header_re true s <> None <-> exists wd dd mm rest, header_at s wd dd mm rest.
Proof.
  split.
  - destruct (rx_at day_header_re true s) as [[n gs]|] eqn:E; [|congruence]. intros _.
    apply header_match in E. destruct E as (wd & dd & mm & rest & H & _).
    exists wd, dd, mm, rest. exact H.
  - intros (wd & dd & mm & rest & H). apply (header_accepted _ _ _ _ _ H).
Qed.

Lemma no_header_none (s : str) : no_header_at s <-> rx_at day_header_re true s = None.
Proof.
  split.
  - intro H. destruct (rx_at day_header_re true s) eqn:E; [|reflexivity].
    assert (Hn : rx_at day_header_re true s <> None) by congruence.
    apply header_at_iff in Hn. destruct Hn as (wd & dd & mm & rest & Hh).
    exfalso. exact (H _ _ _ _ Hh).
  - intros E wd dd mm rest Hh. apply (header_accepted _ _ _ _ _ Hh). exact E.
Qed.

(** ** The matches of a pattern that matches no empty text *)

Section Pieces.
Variable r : regex.
Hypothesis r_no_bos : no_bos r.
Hypothesis r_nonempty : forall b s gs, rx_at r b s <> Some (O, gs).

Lemma pieces_no_match (s : str) :
  (forall pre suf, s = pre ++ suf -> rx_at r true suf = None) ->
  forall b gap, re_pieces_go r b 0 gap s = [Gap (rev gap ++ s)].
Proof.
  induction s as [|c s IH]; intros H b gap; cbn [re_pieces_go].
  - rewrite (rx_at_no_bos r b [] r_no_bos), (H [] [] eq_refl), app_nil_r.  reflexivity.
  - rewrite (rx_at_no_bos r b (c :: s) r_no_bos), (H [] (c :: s) eq_refl).
    rewrite IH.
    + simpl. rewrite <- app_assoc. reflexivity.
    + intros pre suf E. apply (H (c :: pre) suf). simpl. rewrite E. reflexivity.
Qed.

Lemma pieces_skip (s : str) :
  forall j gap, (j <= length s)%nat ->
    re_pieces_go r false j gap s = re_pieces_go r false 0 gap (skipn j s).
Proof.
  induction s as [|c s IH]; intros j gap Hj.
  - simpl in Hj. assert (j = O) by lia. subst j. reflexivity.
  - destruct j as [|j]; [reflexivity|]. cbn [re_pieces_go skipn]. apply IH. simpl in Hj. lia.
Qed.

Lemma pieces_first_match (pre suf : str) (j : nat) (gs : list str) :
  rx_at r true suf = Some (S j, gs) ->
  (forall p q, pre = p ++ q -> q <> [] -> rx_at r true (q ++ suf) = None) ->
  forall b gap,
    re_pieces_go r b 0 gap (pre ++ suf)
    = Gap (rev gap ++ pre) :: Hit (firstn (S j) suf) gs
        :: re_pieces_go r false 0 [] (skipn (S j) suf).
Proof.
  intros Hm. induction pre as [|c pre IH]; intros Hbefore b gap.
  - simpl app. rewrite app_nil_r. destruct suf as [|x suf].
    + apply rx_at_bound in Hm. simpl in Hm. lia.
    + cbn [re_pieces_go]. rewrite (rx_at_no_bos r b (x :: suf) r_no_bos), Hm.
      rewrite pieces_skip by (apply rx_at_bound in Hm; simpl in Hm; lia). reflexivity.
  - simpl app. cbn [re_pieces_go].
    rewrite (rx_at_no_bos r b (c :: pre ++ suf) r_no_bos).
    pose proof (Hbefore [] (c :: pre) eq_refl) as E0. simpl app in E0.
    rewrite E0 by discriminate.
    rewrite IH.
    + simpl. rewrite <- app_assoc. reflexivity.
    + intros p q E Hq. apply (Hbefore (c :: p) q); [simpl; rewrite E; reflexivity | exact Hq].
Qed.

(** The pieces of a text: one gap when the pattern matches nowhere, and
    otherwise the gap before the leftmost match, the match, and the
    pieces of the text after it. *)
Lemma pieces_shape (s : str) (b : bool) (gap : str) :
  ((forall pre suf, s = pre ++ suf -> rx_at r true suf = None)
   /\ re_pieces_go r b 0 gap s = [Gap (rev gap ++ s)])
  \/ exists pre h rest gs,
       s = pre ++ h ++ rest /\ h <> []
       /\ rx_at r true (h ++ rest) = Some (length h, gs)
       /\ (forall p q, pre = p ++ q -> q <> [] -> rx_at r true (q ++ h ++ rest) = None)
       /\ re_pieces_go r b 0 gap s
          = Gap (rev gap ++ pre) :: Hit h gs :: re_pieces_go r false 0 [] rest.
Proof.
  destruct (re_search_go r true s) as [m|] eqn:E.
  - right. apply re_search_go_some in E; [|exact r_no_bos].
    destruct E as (pre & suf & [n gs] & Hs & Hm & _ & Hbefore).
    destruct n as [|j]; [exfalso; exact (r_nonempty _ _ _ Hm)|].
    pose proof (rx_at_bound _ _ _ _ _ Hm) as Hb.
    exists pre, (firstn (S j) suf), (skipn (S j) suf), gs.
    rewrite firstn_skipn, firstn_length_le by exact Hb.
    split; [exact Hs|]. split; [destruct suf; [simpl in Hb; lia | discriminate]|].
    split; [exact Hm|]. split; [exact Hbefore|].
    rewrite Hs. apply pieces_first_match; assumption.
  - left. pose proof (proj1 (re_search_go_none r true s r_no_bos) E) as H.
    split; [exact H | apply pieces_no_match; exact H].
Qed.

(** Each match is followed by the text up to the next match, or up to
    the end of the text. *)
Lemma hits_with_gap_found (s : str) :
  forall b gap gs t,
    In (gs, t) (hits_with_gap (re_pieces_go r b 0 gap s)) ->
    exists pre h post,
      s = pre ++ h ++ t ++ post
      /\ rx_at r true (h ++ t ++ post) = Some (length h, gs)
      /\ (forall p q, t = p ++ q -> q <> [] -> rx_at r true (q ++ post) = None)
      /\ (post = [] \/ rx_at r true post <> None).
Proof.
  remember (length s) as n eqn:Hn. revert s Hn.
  induction n as [n IH] using lt_wf_ind. intros s Hn b gap gs t Hin.
  destruct (pieces_shape s b gap) as [[_ E] | (pre & h & rest & gs0 & Hs & Hh & Hm & _ & E)];
    rewrite E in Hin; [simpl in Hin; contradiction|].
  destruct (pieces_shape rest false [])
    as [[Hnone E'] | (pre' & h' & rest' & gs' & Hs' & Hh' & Hm' & Hbefore' & E')].
  - rewrite E' in Hin. simpl in Hin. destruct Hin as [Hin | []].
    injection Hin as <- <-. exists pre, h, []. rewrite app_nil_r.
    split; [exact Hs|]. split; [exact Hm|]. split; [|left; reflexivity].
    intros p q Et _. rewrite app_nil_r. apply (Hnone p q Et).
  - assert (Hin' : (gs, t) = (gs0, pre')
                   \/ In (gs, t) (hits_with_gap (re_pieces_go r false 0 [] rest))).
    { rewrite E' in Hin |- *. simpl in Hin |- *. destruct Hin as [Hin | Hin]; [left | right].
      - symmetry. exact Hin.
      - exact Hin. }
    destruct Hin' as [Hin' | Hin'].
    + injection Hin' as -> ->. exists pre, h, (h' ++ rest').
      split; [rewrite Hs, Hs'; reflexivity|].
      split; [rewrite <- Hs'; exact Hm|]. split; [exact Hbefore'|].
      right. rewrite Hm'. discriminate.
    + assert (Hlen : (length rest < n)%nat).
      { subst n s. rewrite !length_app. destruct h; [congruence | simpl; lia]. }
      destruct (IH _ Hlen rest eq_refl false [] gs t Hin')
        as (pre2 & h2 & post2 & Hs2 & Hm2 & Hno2 & Hp2).
      exists (pre ++ h ++ pre2), h2, post2.
      split; [rewrite Hs, Hs2, <- !app_assoc; reflexivity|].
      split; [exact Hm2|]. split; [exact Hno2 | exact Hp2].
Qed.

(** There is no match exactly when the pattern matches nowhere. *)
Lemma hits_with_gap_none (s : str) (b : bool) (gap : str) :
  hits_with_gap (re_pieces_go r b 0 gap s) = []
  <-> forall pre suf, s = pre ++ suf -> rx_at r true suf = None.
Proof.
  destruct (pieces_shape s b gap) as [[Hnone E] | (pre & h & rest & gs0 & Hs & Hh & Hm & _ & E)];
    rewrite E.
  - split; [intros _; exact Hnone | reflexivity].
  - split.
    + destruct (pieces_shape rest false []) as [[_ E'] | (? & ? & ? & ? & _ & _ & _ & _ & E')];
        rewrite E'; simpl; discriminate.
    + intro H. rewrite (H pre (h ++ rest) Hs) in Hm. discriminate.
Qed.
End Pieces.

(** ** Strings without white space *)

Lemma lstrip_no_space (s : str) :
  Forall (fun c => is_space c = false) s -> lstrip s = s.
Proof. intro H. destruct H as [|c s Hc Hs]; simpl; [reflexivity | rewrite Hc; reflexivity]. Qed.

Lemma strip_no_space (s : str) :
  Forall (fun c => is_space c = false) s -> strip s = s.
Proof.
  intro H. unfold strip, rstrip. rewrite (lstrip_no_space s H).
  rewrite lstrip_no_space; [apply rev_involutive|].
  apply Forall_rev. exact H.
Qed.

Lemma letter_not_space (c : char) : is_letter c = true -> is_space c = false.
Proof.
  intro H. destruct (is_space c) eqn:E; [|reflexivity].
  unfold is_space in E. rewrite existsb_chr_In in E. unfold space_chars in E. simpl in E.
  repeat (destruct E as [<- | E]; [vm_compute in H; discriminate|]). contradiction.
Qed.

Lemma dot_not_space : is_space (ch ".") = false.
Proof. reflexivity. Qed.

Lemma dot_not_digit : is_digit (ch ".") = false.
Proof. vm_compute. reflexivity. Qed.

Lemma digit_not_dot (c : char) : is_digit c = true -> chr_eqb c (ch ".") = false.
Proof. intro H. apply (class_not_chr is_digit _ _ dot_not_digit H). Qed.

Lemma header_groups_stripped (wd dd mm : str) :
  all_in is_letter wd -> all_in is_digit dd -> all_in is_digit mm ->
  strip wd = wd /\ strip (dd ++ ch "." :: mm ++ [ch "."]) = dd ++ ch "." :: mm ++ [ch "."].
Proof.
  intros Hw Hd Hm. split; apply strip_no_space.
  - eapply Forall_impl; [|exact Hw]. apply letter_not_space.
  - apply Forall_app. split; [eapply Forall_impl; [|exact Hd]; apply digit_not_space|].
    constructor; [reflexivity|]. apply Forall_app.
    split; [eapply Forall_impl; [|exact Hm]; apply digit_not_space | repeat constructor].
Qed.

(** ** Each Day and its header *)

Lemma day_header_nonempty (b : bool) (s : str) (gs : list str) :
  rx_at day_header_re b s <> Some (O, gs).
Proof. intro H. apply header_match in H. destruct H as (? & ? & ? & ? & _ & _ & _ & _ & H). lia. Qed.

Lemma parsed_day_header (now_year : Z) (text : str) (d : Day) :
  In d (parse_text_blocks now_year text) ->
  exists pre h wd dd mm block post,
    text = pre ++ h ++ block ++ post
    /\ header_at (h ++ block ++ post) wd dd mm (block ++ post)
    /\ no_header_in block post
    /\ (post = [] \/ ~ no_header_at post)
    /\ d = parse_day (extract_year_from_text now_year text)
                     ([wd; dd ++ ch "." :: mm ++ [ch "."]], block).
Proof.
  unfold parse_text_blocks. rewrite in_map_iff. intros ([gs t] & <- & Hin).
  unfold re_pieces in Hin.
  apply (hits_with_gap_found day_header_re day_header_re_no_bos day_header_nonempty) in Hin.
  destruct Hin as (pre & h & post & Hs & Hm & Hno & Hp).
  destruct (header_match _ _ _ _ Hm) as (wd & dd & mm & rest & Hh & -> & _ & Hr & _).
  rewrite skipn_length_app in Hr. subst rest.
  exists pre, h, wd, dd, mm, t, post.
  split; [exact Hs|]. split; [exact Hh|]. split; [|split; [|reflexivity]].
  - intros p q E Hq. apply no_header_none. apply (Hno p q E Hq).
  - destruct Hp as [Hp | Hp]; [left; exact Hp | right].
    intro H. apply no_header_none in H. contradiction.
Qed.

Lemma parse_day_header (y : Z) (wd dd mm block : str) :
  all_in is_letter wd -> all_in is_digit dd -> all_in is_digit mm ->
  parse_day y ([wd; dd ++ ch "." :: mm ++ [ch "."]], block)
  = {| date := option_map isoformat (strptime_dmY (header_date_text dd mm y));
       weekday := wd;
       meals := flat_map (fun ent => opt_list (parse_entry ent))
                         (re_split entry_sep_re (strip block)) |}.
Proof.
  intros Hw Hd Hm. destruct (header_groups_stripped wd dd mm Hw Hd Hm) as [E1 E2].
  unfold parse_day. cbn [fst snd nth]. rewrite E1, E2. unfold header_date_text.
  rewrite <- app_assoc. simpl app. rewrite <- app_assoc. reflexivity.
Qed.

(** ** [strptime] on the date of a header *)

Lemma first_some_inv (A B : Type) (f : A -> option B) (l : list A) (r : B) :
  first_some f l = Some r -> exists x, In x l /\ f x = Some r.
Proof.
  induction l as [|x l IH]; simpl; [discriminate|].
  destruct (f x) as [y|] eqn:E.
  - intro H. injection H as <-. exists x. split; [left; reflexivity | exact E].
  - intro H. destruct (IH H) as (z & Hz & Ez). exists z. split; [right; exact Hz | exact Ez].
Qed.

Lemma in_list_if (A : Type) (c : bool) (x y : A) :
  In y (if c then [x] else []) -> c = true /\ y = x.
Proof. destruct c; simpl; [intros [H|[]]; auto | intros []]. Qed.

(** The alternatives of [%d] on one or two digits followed by a dot: the
    ones that stop at the dot have read the number. *)
Lemma day_alternative (dd rest : str) (v : Z) (s1 t : str) :
  digits_between 1 2 dd ->
  In (v, s1) (alts_d (dd ++ ch "." :: rest)) -> expect_dot s1 = Some t ->
  v = int_of_digits dd /\ t = rest.
Proof.
  intros [Hlen Hd] Hin Hdot. destruct dd as [|a [|b [|c dd]]]; simpl in Hlen; try lia.
  - simpl app in Hin. unfold alts_d in Hin.
    change (in_range "0" "1" (ch ".")) with false in Hin.
    change (in_range "1" "9" (ch ".")) with false in Hin.
    change (is_digit (ch ".")) with false in Hin.
    rewrite !andb_false_r in Hin. simpl app in Hin. rewrite app_nil_r in Hin.
    apply in_list_if in Hin. destruct Hin as [_ Hin]. injection Hin as -> ->.
    simpl in Hdot. injection Hdot as <-. split; [|reflexivity].
    unfold int_of_digits. simpl. lia.
  - inversion Hd as [|? ? Ha Hd']; subst. inversion Hd' as [|? ? Hb _]; subst.
    simpl app in Hin. unfold alts_d in Hin.
    assert (Ea : chr_eqb a (ch " ") = false).
    { destruct (chr_eqb a (ch " ")) eqn:E; [|reflexivity].
      apply chr_eqb_eq in E. subst a. vm_compute in Ha. discriminate. }
    rewrite Ea in Hin. cbn [andb] in Hin. rewrite app_nil_r in Hin.
    repeat (apply in_app_or in Hin; destruct Hin as [Hin | Hin]);
      apply in_list_if in Hin; destruct Hin as [Hc Hin]; injection Hin as -> ->.
    + apply andb_true_iff in Hc. destruct Hc as [Hc _]. apply chr_eqb_eq in Hc. subst a.
      simpl in Hdot. injection Hdot as <-. split; [|reflexivity].
      unfold int_of_digits. simpl. change (digit_Z (ch "3")) with 3. lia.
    + simpl in Hdot. injection Hdot as <-. split; [|reflexivity].
      unfold int_of_digits. simpl. lia.
    + apply andb_true_iff in Hc. destruct Hc as [Hc _]. apply chr_eqb_eq in Hc. subst a.
      simpl in Hdot. injection Hdot as <-. split; [|reflexivity].
      unfold int_of_digits. simpl. change (digit_Z (ch "0")) with 0. lia.
    + unfold expect_dot in Hdot. rewrite (digit_not_dot b Hb) in Hdot. discriminate.
Qed.

Lemma month_alternative (mm rest : str) (v : Z) (s1 t : str) :
  digits_between 1 2 mm ->
  In (v, s1) (alts_m (mm ++ ch "." :: rest)) -> expect_dot s1 = Some t ->
  v = int_of_digits mm /\ t = rest.
Proof.
  intros [Hlen Hd] Hin Hdot. destruct mm as [|a [|b [|c mm]]]; simpl in Hlen; try lia.
  - simpl app in Hin. unfold alts_m in Hin.
    change (in_range "0" "2" (ch ".")) with false in Hin.
    change (in_range "1" "9" (ch ".")) with false in Hin.
    rewrite !andb_false_r in Hin. simpl app in Hin.
    apply in_list_if in Hin. destruct Hin as [_ Hin]. injection Hin as -> ->.
    simpl in Hdot. injection Hdot as <-. split; [|reflexivity].
    unfold int_of_digits. simpl. lia.
  - inversion Hd as [|? ? Ha Hd']; subst. inversion Hd' as [|? ? Hb _]; subst.
    simpl app in Hin. unfold alts_m in Hin.
    repeat (apply in_app_or in Hin; destruct Hin as [Hin | Hin]);
      apply in_list_if in Hin; destruct Hin as [Hc Hin]; injection Hin as -> ->.
    + apply andb_true_iff in Hc. destruct Hc as [Hc _]. apply chr_eqb_eq in Hc. subst a.
      simpl in Hdot. injection Hdot as <-. split; [|reflexivity].
      unfold int_of_digits. simpl. change (digit_Z (ch "1")) with 1. lia.
    + apply andb_true_iff in Hc. destruct Hc as [Hc _]. apply chr_eqb_eq in Hc. subst a.
      simpl in Hdot. injection Hdot as <-. split; [|reflexivity].
      unfold int_of_digits. simpl. change (digit_Z (ch "0")) with 0. lia.
    + unfold expect_dot in Hdot. rewrite (digit_not_dot b Hb) in Hdot. discriminate.
Qed.

(** The fields that [strptime] reads from the date of a header are the
    numbers of the header and the year read from the text after them. *)
Lemma header_date_fields (dd mm ys : str) (y mo da : Z) :
  digits_between 1 2 dd -> digits_between 1 2 mm ->
  strptime_fields (dd ++ ch "." :: mm ++ ch "." :: ys) = Some (y, mo, da) ->
  read_Y ys = Some y /\ mo = int_of_digits mm /\ da = int_of_digits dd.
Proof.
  intros Hd Hm H. unfold strptime_fields in H.
  apply first_some_inv in H. destruct H as ([v s1] & Hin & H). cbn [fst snd] in H.
  destruct (expect_dot s1) as [t|] eqn:E1; [|discriminate].
  destruct (day_alternative dd _ v s1 t Hd Hin E1) as [-> ->].
  apply first_some_inv in H. destruct H as ([w s2] & Hin2 & H). cbn [fst snd] in H.
  destruct (expect_dot s2) as [t2|] eqn:E2; [|discriminate].
  destruct (month_alternative mm _ w s2 t2 Hm Hin2 E2) as [-> ->].
  destruct (read_Y ys) as [yv|]; [|discriminate].
  injection H as <- <- <-. auto.
Qed.

(** ** [str] of a number *)

Lemma digits_value_snoc (ds : str) (c : char) :
  digits_value (ds ++ [c]) = 10 * digits_value ds + (Z.of_N c - 48).
Proof. unfold digits_value. rewrite fold_left_app. reflexivity. Qed.

(** The digits of [n]: their value is [n], and their number is the least
    that can write [n]. *)
Lemma dec_digits_go_spec (fuel : nat) :
  forall n acc,
    (n < 2 ^ N.of_nat fuel)%N ->
    exists ds,
      dec_digits_go fuel n acc = ds ++ acc
      /\ all_in is_ascii_digit ds
      /\ digits_value ds = Z.of_N n
      /\ Z.of_N n < 10 ^ Z.of_nat (length ds)
      /\ (length ds = 1%nat \/ 10 ^ (Z.of_nat (length ds) - 1) <= Z.of_N n).
Proof.
  induction fuel as [|f IH]; intros n acc Hn.
  - simpl in Hn. assert (n = 0%N) by lia. subst n. exists []. simpl.
    split; [reflexivity|]. split; [constructor|]. split; [reflexivity|]. split; [lia | right; simpl; lia].
  - cbn [dec_digits_go]. destruct (n <? 10)%N eqn:E.
    + apply N.ltb_lt in E. exists [(48 + n mod 10)%N].
      rewrite (N.mod_small n 10 E).
      split; [reflexivity|]. split; [repeat constructor; apply digit_char_ok; exact E|].
      split; [unfold digits_value; cbn [fold_left]; lia|].
      split; [cbn [length]; change (10 ^ Z.of_nat 1) with 10; lia | left; reflexivity].
    + apply N.ltb_ge in E.
      assert (Hdiv : (n / 10 < 2 ^ N.of_nat f)%N).
      { rewrite Nat2N.inj_succ, N.pow_succ_r' in Hn.
        apply N.Div0.div_lt_upper_bound. lia. }
      destruct (IH (n / 10)%N ((48 + n mod 10)%N :: acc) Hdiv) as (ds & Eds & Hds & Hv & Hlt & Hge).
      exists (ds ++ [(48 + n mod 10)%N]).
      assert (Hmod : (n mod 10 < 10)%N) by (apply N.mod_lt; lia).
      split; [rewrite Eds, <- app_assoc; reflexivity|].
      split; [apply Forall_app; split; [exact Hds | repeat constructor; apply digit_char_ok; exact Hmod]|].
      pose proof (N.div_mod n 10 ltac:(lia)) as Hdm.
      assert (Hz : Z.of_N n = 10 * Z.of_N (n / 10) + Z.of_N (n mod 10)) by lia.
      split; [rewrite digits_value_snoc, Hv; lia|].
      rewrite length_app. simpl length.
      replace (Z.of_nat (length ds + 1)) with (Z.succ (Z.of_nat (length ds))) by lia.
      rewrite Z.pow_succ_r by lia.
      split; [lia|]. right.
      replace (Z.succ (Z.of_nat (length ds)) - 1) with (Z.of_nat (length ds)) by lia.
      destruct Hge as [Hge | Hge].
      * rewrite Hge. change (10 ^ Z.of_nat 1) with 10. clear - E. lia.
      * replace (Z.of_nat (length ds)) with (Z.succ (Z.of_nat (length ds) - 1)) by lia.
        rewrite Z.pow_succ_r.
        { pose proof (N2Z.is_nonneg (n mod 10)) as Hr. revert Hge Hz Hr.
          generalize (10 ^ (Z.of_nat (length ds) - 1)) (Z.of_N (n / 10)) (Z.of_N (n mod 10))
                     (Z.of_N n).
          intros; lia. }
        destruct ds; [|cbn [length]; lia].
        exfalso. unfold digits_value in Hv. cbn [fold_left] in Hv. clear - Hv E Hz Hmod. lia.
Qed.

Lemma dec_digits_spec (n : N) :
  all_in is_ascii_digit (dec_digits n)
  /\ digits_value (dec_digits n) = Z.of_N n
  /\ Z.of_N n < 10 ^ Z.of_nat (length (dec_digits n))
  /\ (length (dec_digits n) = 1%nat \/ 10 ^ (Z.of_nat (length (dec_digits n)) - 1) <= Z.of_N n).
Proof.
  unfold dec_digits.
  destruct (dec_digits_go_spec (S (N.to_nat (N.log2 n))) n []) as (ds & E & H).
  - rewrite Nat2N.inj_succ, N2Nat.id. destruct (N.eq_dec n 0) as [-> | Hn]; [reflexivity|].
    apply N.log2_spec. lia.
  - rewrite E, app_nil_r. exact H.
Qed.

(** A number of four digits is between 1000 and 9999. *)
Lemma str_of_Z_four_digits (y v : Z) :
  read_Y (str_of_Z y) = Some v -> v = y /\ 1000 <= y <= 9999.
Proof.
  unfold str_of_Z. destruct (y <? 0) eqn:Ey.
  - destruct (dec_digits (Z.to_N (- y))) as [|a [|b [|c [|d l]]]]; simpl; discriminate.
  - apply Z.ltb_ge in Ey. intro H.
    destruct (dec_digits_spec (Z.to_N y)) as (Hd & Hv & Hlt & Hge).
    assert (Hlen : length (dec_digits (Z.to_N y)) = 4%nat).
    { destruct (dec_digits (Z.to_N y)) as [|a [|b [|c [|d [|e l]]]]]; try discriminate H.
      reflexivity. }
    rewrite (year_field _ Hlen Hd) in H. injection H as <-.
    rewrite Hlen in Hlt, Hge. rewrite Z2N.id in * by lia.
    split; [exact Hv|]. destruct Hge as [Hge | Hge]; [discriminate|].
    change (10 ^ (Z.of_nat 4 - 1)) with 1000 in Hge. change (10 ^ Z.of_nat 4) with 10000 in Hlt. lia.
Qed.

Lemma str_of_Z_length_4 (y : Z) : 1000 <= y <= 9999 -> length (str_of_Z y) = 4%nat.
Proof.
  intro H. unfold str_of_Z. destruct (y <? 0) eqn:Ey; [apply Z.ltb_lt in Ey; lia|].
  destruct (dec_digits_spec (Z.to_N y)) as (_ & _ & Hlt & Hge).
  rewrite Z2N.id in * by lia.
  remember (length (dec_digits (Z.to_N y))) as n eqn:En.
  destruct Hge as [Hge | Hge].
  - rewrite Hge in Hlt. simpl in Hlt. lia.
  - destruct (Nat.lt_trichotomy n 4) as [Hn | [Hn | Hn]]; [|exact Hn|].
    + assert (10 ^ Z.of_nat n <= 10 ^ 3) by (apply Z.pow_le_mono_r; lia). lia.
    + assert (10 ^ 4 <= 10 ^ (Z.of_nat n - 1)) by (apply Z.pow_le_mono_r; lia). lia.
Qed.

(** ** The ISO form of a date *)

Lemma isoformat_shape (y mo da : Z) :
  1000 <= y <= 9999 -> 1 <= mo <= 12 -> 1 <= da <= 31 ->
  isoformat {| d_year := y; d_month := mo; d_day := da |}
  = str_of_Z y ++ u "-" ++ two_digits mo ++ u "-" ++ two_digits da.
Proof.
  intros Hy Hm Hd. unfold isoformat. cbn [d_year d_month d_day].
  assert (EA : zero_pad 4 (str_of_Z y) = str_of_Z y).
  { pose proof (str_of_Z_length_4 y Hy) as L. unfold zero_pad. rewrite L. reflexivity. }
  assert (EB : zero_pad 2 (str_of_Z mo) = two_digits mo).
  { assert (E : mo = 1 \/ mo = 2 \/ mo = 3 \/ mo = 4 \/ mo = 5 \/ mo = 6 \/ mo = 7 \/ mo = 8
                \/ mo = 9 \/ mo = 10 \/ mo = 11 \/ mo = 12) by lia.
    repeat (destruct E as [-> | E]; [reflexivity|]). subst mo. reflexivity. }
  assert (EC : zero_pad 2 (str_of_Z da) = two_digits da).
  { assert (E : da = 1 \/ da = 2 \/ da = 3 \/ da = 4 \/ da = 5 \/ da = 6 \/ da = 7 \/ da = 8
                \/ da = 9 \/ da = 10 \/ da = 11 \/ da = 12 \/ da = 13 \/ da = 14 \/ da = 15
                \/ da = 16 \/ da = 17 \/ da = 18 \/ da = 19 \/ da = 20 \/ da = 21 \/ da = 22
                \/ da = 23 \/ da = 24 \/ da = 25 \/ da = 26 \/ da = 27 \/ da = 28 \/ da = 29
                \/ da = 30 \/ da = 31) by lia.
    repeat (destruct E as [-> | E]; [reflexivity|]). subst da. reflexivity. }
  rewrite EA, EB, EC. reflexivity.
Qed.

Lemma make_date_inv (y m d : Z) (x : pydate) :
  make_date y m d = Some x ->
  x = {| d_year := y; d_month := m; d_day := d |} /\ calendar_date y m d.
Proof.
  intro H. assert (E : x = {| d_year := y; d_month := m; d_day := d |}).
  { unfold make_date in H. destruct (_ && _); [injection H as <-; reflexivity | discriminate]. }
  split; [exact E|]. apply make_date_some. rewrite H, E. reflexivity.
Qed.

(** The date of a Day: the day and the month of its header in the year of
    the page, which has four digits. *)
Lemma header_date (dd mm : str) (y : Z) (x : pydate) :
  digits_between 1 2 dd -> digits_between 1 2 mm ->
  strptime_dmY (header_date_text dd mm y) = Some x ->
  1000 <= y <= 9999
  /\ calendar_date y (int_of_digits mm) (int_of_digits dd)
  /\ x = {| d_year := y; d_month := int_of_digits mm; d_day := int_of_digits dd |}.
Proof.
  intros Hd Hm H. unfold strptime_dmY, header_date_text in H.
  destruct (strptime_fields _) as [[[yv mo] da]|] eqn:F; [|discriminate].
  apply (header_date_fields dd mm _ yv mo da Hd Hm) in F. destruct F as (Hy & -> & ->).
  apply str_of_Z_four_digits in Hy. destruct Hy as [-> Hy].
  apply make_date_inv in H. destruct H as [-> Hc]. auto.
Qed.

Lemma int_of_digits_ascii (ds : str) :
  all_in is_ascii_digit ds -> int_of_digits ds = digits_value ds.
Proof.
  unfold int_of_digits, digits_value. generalize 0.
  induction ds as [|c ds IH]; intros acc H; [reflexivity|].
  inversion H as [|? ? Hc Hds]; subst. cbn [fold_left].
  rewrite (digit_Z_ascii c Hc). apply IH. exact Hds.
Qed.

(** On a header written with ASCII digits, in a year of four digits,
    [strptime] succeeds exactly on the dates of the calendar. *)
Lemma header_date_ascii (dd mm : str) (y : Z) :
  digits_between 1 2 dd -> digits_between 1 2 mm ->
  all_in is_ascii_digit dd -> all_in is_ascii_digit mm -> 1000 <= y <= 9999 ->
  strptime_dmY (header_date_text dd mm y)
  = make_date y (int_of_digits mm) (int_of_digits dd).
Proof.
  intros Hd Hm Ad Am Hy.
  assert (Ey : str_of_Z y = dec_digits (Z.to_N y)).
  { unfold str_of_Z. destruct (y <? 0) eqn:E; [apply Z.ltb_lt in E; lia | reflexivity]. }
  destruct (dec_digits_spec (Z.to_N y)) as (Hds & Hv & _). rewrite <- Ey in Hds, Hv.
  rewrite Z2N.id in Hv by lia.
  assert (Ha : ascii_date dd mm (str_of_Z y)).
  { split; [|auto]. split; [exact Hd|]. split; [exact Hm|]. split.
    - rewrite (str_of_Z_length_4 y Hy). lia.
    - eapply Forall_impl; [|exact Hds]. apply ascii_digit_is_digit. }
  unfold header_date_text. change (dd ++ ch "." :: mm ++ ch "." :: str_of_Z y)
    with (dmy_text dd mm (str_of_Z y)).
  rewrite (strptime_ascii_date _ _ _ Ha), Hv, !int_of_digits_ascii by assumption. reflexivity.
Qed.

Lemma header_parts (s wd dd mm rest : str) :
  header_at s wd dd mm rest ->
  all_in is_letter wd /\ digits_between 1 2 dd /\ digits_between 1 2 mm.
Proof. intros (ws1 & ws2 & _ & _ & _ & Hw & _ & Hd & Hm). auto. Qed.

(** ** [strip] twice *)

Lemma lstrip_headed (s : str) :
  match lstrip s with c :: _ => is_space c = false | [] => True end.
Proof.
  induction s as [|c s IH]; simpl; [exact I|].
  destruct (is_space c) eqn:E; [exact IH | exact E].
Qed.

Lemma lstrip_fix (x : str) :
  match x with c :: _ => is_space c = false | [] => True end -> lstrip x = x.
Proof. destruct x as [|c t]; simpl; [reflexivity | intros ->; reflexivity]. Qed.

Lemma lstrip_idem (s : str) : lstrip (lstrip s) = lstrip s.
Proof. apply lstrip_fix, lstrip_headed. Qed.

Lemma rstrip_idem (s : str) : rstrip (rstrip s) = rstrip s.
Proof. unfold rstrip. rewrite rev_involutive, lstrip_idem. reflexivity. Qed.

Lemma rstrip_prefix (x : str) : exists ws, x = rstrip x ++ ws.
Proof.
  unfold rstrip. destruct (lstrip_suffix (rev x)) as [ws E].
  exists (rev ws). rewrite <- rev_app_distr, <- E, rev_involutive. reflexivity.
Qed.

Lemma strip_headed (s : str) :
  match strip s with c :: _ => is_space c = false | [] => True end.
Proof.
  unfold strip. pose proof (lstrip_headed s) as H.
  destruct (rstrip_prefix (lstrip s)) as [ws E].
  destruct (rstrip (lstrip s)) as [|c t]; [exact I|].
  rewrite E in H. exact H.
Qed.

Lemma strip_idem (s : str) : strip (strip s) = strip s.
Proof.
  unfold strip at 1. rewrite (lstrip_fix (strip s)) by apply strip_headed.
  unfold strip. apply rstrip_idem.
Qed.

Lemma stripped_strip (s : str) : strip s <> [] -> stripped (strip s).
Proof. intro H. split; [exact H | apply strip_idem]. Qed.

(** ** The header line of an entry *)

Lemma entry_header_match (s : str) (n : nat) (gs : list str) :
  rx_at entry_header_re true s = Some (n, gs) ->
  exists h nl rest,
    s = h ++ nl ++ rest /\ h <> [] /\ all_in not_newline h
    /\ nl <> [] /\ all_in (chr_eqb LF) nl /\ gs = [h] /\ skipn n s = rest.
Proof.
  unfold rx_at. destruct (rx_run entry_header_re true 0 s [] []) as [[e sp]|] eqn:R; [|discriminate].
  intro H. injection H as <- <-.
  unfold entry_header_re, plus in R. cbn [rx_run andb Nat.eqb] in R.
  apply rep_inv in R. destruct R as (h & s1 & -> & Hh & Lh & R).
  apply rep_inv in R. destruct R as (nl & rest & -> & Hnl & Lnl & R).
  simpl in R. injection R as <- <-.
  exists h, nl, rest. split; [reflexivity|].
  split; [destruct h; [simpl in Lh; lia | discriminate]|]. split; [exact Hh|].
  split; [destruct nl; [simpl in Lnl; lia | discriminate]|]. split; [exact Hnl|]. split.
  - cbn [map fst snd]. f_equal. apply (substr_at _ [] h (nl ++ rest)); reflexivity.
  - rewrite app_assoc, <- length_app. apply skipn_length_app.
Qed.

Lemma not_newline_LF (h : str) : all_in not_newline h -> ~ In LF h.
Proof.
  intros H Hin. unfold all_in in H. rewrite Forall_forall in H. apply H in Hin.
  vm_compute in Hin. discriminate.
Qed.

(** An entry that gives a meal has a header line, which gives the raw
    category, and a body. *)
Lemma parse_entry_parts (ent : str) (m : Meal) :
  parse_entry ent = Some m ->
  exists cat_raw body,
    stripped cat_raw /\ ~ In LF cat_raw
    /\ (exists t, strip ent = cat_raw ++ t)
    /\ build_meal cat_raw body = Some m.
Proof.
  unfold parse_entry. destruct (is_empty (strip ent)) eqn:Ee; [discriminate|].
  unfold re_match. destruct (rx_at entry_header_re true (strip ent)) as [[n gs]|] eqn:R;
    [|discriminate].
  cbn [option_map]. unfold group, mk_match. cbn [m_groups m_rest fst snd pred].
  intro H. exists (strip (nth 0 gs [])), (strip (skipn n (strip ent))).
  apply entry_header_match in R.
  destruct R as (h & nl & rest & Es & Hh0 & Hh & _ & _ & -> & _). cbn [nth].
  destruct h as [|c t]; [congruence|].
  assert (Hc : is_space c = false).
  { pose proof (strip_headed ent) as Hl. rewrite Es in Hl. exact Hl. }
  destruct (strip_head c t Hc) as [t' Et].
  split; [apply stripped_strip; rewrite Et; discriminate|].
  split; [intro Hin; apply strip_incl in Hin; exact (not_newline_LF _ Hh Hin)|].
  split; [|exact H].
  assert (E : exists ws, c :: t = strip (c :: t) ++ ws).
  { unfold strip. rewrite (lstrip_head c t Hc). apply rstrip_prefix. }
  destruct E as [ws E]. exists (ws ++ nl ++ rest).
  transitivity ((strip (c :: t) ++ ws) ++ nl ++ rest);
    [rewrite <- E; exact Es | rewrite <- app_assoc; reflexivity].
Qed.

(** ** The texts of a meal *)

Lemma body_line_stripped (body ln : str) :
  In ln (body_lines body) ->
  stripped ln /\ Forall (fun c => is_linebreak c = false) ln.
Proof.
  unfold body_lines. rewrite filter_In, in_map_iff.
  intros [(raw & <- & Hraw) Hne]. split.
  - apply stripped_strip. intro E. rewrite E in Hne. discriminate.
  - apply (splitlines_go_no_break body [] false raw (Forall_nil _)) in Hraw.
    rewrite Forall_forall in *. intros c Hc. apply Hraw. apply strip_incl. exact Hc.
Qed.

Lemma split_on_fields (p : char -> bool) (s f : str) :
  In f (split_on p s) -> Forall (fun c => p c = false) f.
Proof.
  revert f. induction s as [|c s IH]; intros f Hin; simpl in Hin.
  - destruct Hin as [<- | []]. constructor.
  - destruct (p c) eqn:E.
    + destruct Hin as [<- | Hin]; [constructor | apply IH; exact Hin].
    + destruct (split_on p s) as [|h t] eqn:Es.
      * destruct Hin as [<- | []]. repeat constructor. exact E.
      * destruct Hin as [<- | Hin].
        -- constructor; [exact E | apply IH; left; reflexivity].
        -- apply IH. right. exact Hin.
Qed.

Lemma clean_part_facts (g a : str) :
  In a (clean_parts g) ->
  stripped a /\ (forall c, In c a -> In c g /\ is_slash_or_comma c = false).
Proof.
  unfold clean_parts. rewrite filter_In, in_map_iff.
  intros [(f & <- & Hf) Hne]. split.
  - apply stripped_strip. intro E. rewrite E in Hne. discriminate.
  - intros c Hc. apply strip_incl in Hc. split.
    + apply (split_on_incl _ _ _ _ Hf Hc).
    + pose proof (split_on_fields _ _ _ Hf) as H. rewrite Forall_forall in H. apply H, Hc.
Qed.

Lemma contains_letter_false (g : str) (c : char) :
  contains_letter g = false -> In c g -> is_letter c = false.
Proof.
  unfold contains_letter. intros H Hc. destruct (is_letter c) eqn:E; [|reflexivity].
  assert (existsb is_letter g = true) by (apply existsb_exists; exists c; auto). congruence.
Qed.

Lemma hauptgericht_stripped : stripped (u "Hauptgericht") /\ ~ In LF (u "Hauptgericht").
Proof.
  split; [split; [discriminate | reflexivity]|].
  simpl. intro H. repeat (destruct H as [H | H]; [discriminate|]). exact H.
Qed.

Lemma notes_sources (cat_raw body : str) (m : Meal) (n : str) :
  build_meal cat_raw body = Some m -> In n (notes m) ->
  (exists g, In g (re_findall paren_re (cat_raw ++ u " " ++ body))
             /\ contains_letter g = true /\ In n (clean_parts g))
  \/ In n (skipn 1 (body_lines body)).
Proof.
  intros Hm Hn. destruct (build_meal_fields _ _ _ Hm) as (nm & rest & Hl & _ & _ & En & _ & _).
  rewrite En, fold_add_residual in Hn. apply in_app_or in Hn. destruct Hn as [Hn | Hn].
  - left. rewrite label_notes_spec in Hn. apply in_flat_map in Hn.
    destruct Hn as (g & Hg & Hn). exists g. split; [exact Hg|].
    destruct (contains_letter g); [auto | contradiction].
  - right. apply first_occurrences_in in Hn. destruct Hn as [Hn _].
    apply filter_In in Hn. rewrite Hl. exact (proj1 Hn).
Qed.

Lemma allergen_sources (cat_raw body : str) (m : Meal) (a : str) :
  build_meal cat_raw body = Some m -> In a (allergens m) ->
  exists g, In g (re_findall paren_re (cat_raw ++ u " " ++ body))
            /\ contains_letter g = false /\ In a (clean_parts g).
Proof.
  intros Hm Ha. destruct (build_meal_fields _ _ _ Hm) as (nm & rest & _ & _ & _ & _ & Ea & _).
  rewrite Ea, label_allergens_spec in Ha. apply in_flat_map in Ha.
  destruct Ha as (g & Hg & Ha). exists g. split; [exact Hg|].
  destruct (contains_letter g); [contradiction | auto].
Qed.

(** Each meal of a parsed page is built from a raw category and a body. *)
Lemma parsed_meal_parts (now_year : Z) (text : str) (d : Day) (m : Meal) :
  In d (parse_text_blocks now_year text) -> In m (meals d) ->
  exists cat_raw body,
    stripped cat_raw /\ ~ In LF cat_raw /\ build_meal cat_raw body = Some m.
Proof.
  unfold parse_text_blocks. rewrite in_map_iff. intros (hg & <- & _) Hm.
  unfold parse_day in Hm. cbn [meals] in Hm. apply in_flat_map in Hm.
  destruct Hm as (ent & _ & Hm). destruct (parse_entry ent) as [m'|] eqn:E; [|contradiction].
  destruct Hm as [<- | []].
  destruct (parse_entry_parts ent m' E) as (cat_raw & body & H1 & H2 & _ & H3).
  exists cat_raw, body. auto.
Qed.

(** ** Grouping by category *)

Lemma str_in_app (x : str) (a b : list str) : str_in x (a ++ b) = str_in x a || str_in x b.
Proof. unfold str_in. apply existsb_app. Qed.

Lemma str_in_false (x : str) (l : list str) : str_in x l = false <-> ~ In x l.
Proof.
  rewrite <- str_in_In. destruct (str_in x l); split; congruence.
Qed.

Lemma first_occurrences_snoc (l : list str) :
  forall seen k,
    first_occurrences seen (l ++ [k])
    = first_occurrences seen l ++ (if str_in k (seen ++ l) then [] else [k]).
Proof.
  induction l as [|x l IH]; intros seen k.
  - simpl. rewrite app_nil_r. destruct (str_in k seen); reflexivity.
  - simpl app. cbn [first_occurrences]. destruct (str_in x seen) eqn:Ex.
    + rewrite IH. f_equal.
      rewrite !str_in_app. unfold str_in at 4. cbn [existsb]. fold (str_in k l).
      destruct (str_eqb k x) eqn:Ek; [|reflexivity].
      apply str_eqb_eq in Ek. subst x. rewrite Ex. reflexivity.
    + rewrite IH. simpl app. f_equal. f_equal.
      rewrite <- app_assoc. reflexivity.
Qed.

Lemma first_occurrences_keys (l : list str) (k : str) :
  In k (first_occurrences [] l) <-> In k l.
Proof.
  split.
  - intro H. apply first_occurrences_in in H. tauto.
  - intro H. destruct (first_occurrences_complete l [] k H) as [[] | H']. exact H'.
Qed.

Lemma setdefault_append_map (F : str -> list Meal) (k : str) (m : Meal) (keys : list str) :
  NoDup keys ->
  setdefault_append k m (map (fun k' => (k', F k')) keys)
  = map (fun k' => (k', F k' ++ (if str_eqb k k' then [m] else []))) keys
      ++ (if str_in k keys then [] else [(k, [m])]).
Proof.
  induction keys as [|k' keys IH]; intro Hnd; [reflexivity|].
  inversion Hnd as [|? ? Hk' Hnd']; subst.
  cbn [map setdefault_append]. unfold str_in. cbn [existsb]. fold (str_in k keys).
  destruct (str_eqb k k') eqn:E.
  - apply str_eqb_eq in E. subst k'. cbn [orb]. rewrite app_nil_r. f_equal.
    apply map_ext_in. intros x Hx.
    destruct (str_eqb k x) eqn:Ex; [|rewrite app_nil_r; reflexivity].
    apply str_eqb_eq in Ex. subst x. contradiction.
  - cbn [orb]. rewrite (IH Hnd'), app_nil_r. reflexivity.
Qed.

Lemma group_meals_snoc (ms : list Meal) (m : Meal) :
  group_meals (ms ++ [m]) = setdefault_append (category m) m (group_meals ms).
Proof. unfold group_meals. rewrite fold_left_app. reflexivity. Qed.

(** The dictionary of the groups: the categories at their first
    occurrence, each with its meals in their order. *)
Lemma group_meals_spec (ms : list Meal) :
  group_meals ms
  = map (fun k => (k, meals_of_category k ms)) (categories_in_order ms).
Proof.
  induction ms as [|m ms IH] using rev_ind; [reflexivity|].
  rewrite group_meals_snoc, IH.
  rewrite (setdefault_append_map (fun k => meals_of_category k ms))
    by apply first_occurrences_nodup.
  unfold categories_in_order. rewrite map_app. cbn [map].
  rewrite first_occurrences_snoc. cbn [app]. rewrite map_app. f_equal.
  - apply map_ext. intro k. unfold meals_of_category. rewrite filter_app. cbn [filter].
    reflexivity.
  - assert (E : str_in (category m) (first_occurrences [] (map category ms))
                = str_in (category m) (map category ms)).
    { apply eq_true_iff_eq. rewrite !str_in_In. apply first_occurrences_keys. }
    rewrite E. destruct (str_in (category m) (map category ms)) eqn:Ein; [reflexivity|].
    cbn [map]. f_equal. f_equal. unfold meals_of_category. rewrite filter_app. cbn [filter].
    rewrite str_eqb_refl. rewrite filter_none; [reflexivity|].
    intros x Hx. destruct (str_eqb (category x) (category m)) eqn:Ex; [|reflexivity].
    apply str_eqb_eq in Ex. apply str_in_false in Ein. exfalso. apply Ein.
    rewrite <- Ex. apply in_map. exact Hx.
Qed.

Lemma setdefault_append_perm (k : str) (m : Meal) (groups : list (str * list Meal)) :
  Permutation (flat_map snd (setdefault_append k m groups)) (flat_map snd groups ++ [m]).
Proof.
  induction groups as [|[k' l] g IH]; [apply Permutation_refl|].
  cbn [setdefault_append]. destruct (str_eqb k k'); cbn [flat_map snd].
  - rewrite <- !app_assoc. apply Permutation_app_head. apply Permutation_app_comm.
  - rewrite <- app_assoc. apply Permutation_app_head. exact IH.
Qed.

(** Grouping keeps every meal, once. *)
Lemma group_meals_perm (ms : list Meal) : Permutation (flat_map snd (group_meals ms)) ms.
Proof.
  induction ms as [|m ms IH] using rev_ind; [apply Permutation_refl|].
  rewrite group_meals_snoc.
  eapply Permutation_trans; [apply setdefault_append_perm|].
  apply Permutation_app_tail. exact IH.
Qed.

(** ** The elements of the feed *)

Lemma meal_children_leaves (m : Meal) (c : element) :
  In c (el_children (meal_element m)) ->
  exists tag a t, c = Element tag a t [] /\ In tag [u "name"; u "note"; u "price"].
Proof.
  unfold meal_element. cbn [el_children app]. intros [<- | Hc].
  { exists (u "name"). do 2 eexists. split; [reflexivity | left; reflexivity]. }
  apply in_app_or in Hc. destruct Hc as [Hc | Hc].
  { apply in_map_iff in Hc. destruct Hc as (n & <- & _). exists (u "note"). do 2 eexists.
    split; [reflexivity | right; left; reflexivity]. }
  apply in_app_or in Hc. destruct Hc as [Hc | Hc].
  { apply in_map_iff in Hc. destruct Hc as (n & <- & _). exists (u "note"). do 2 eexists.
    split; [reflexivity | right; left; reflexivity]. }
  unfold price_elements in Hc. apply in_flat_map in Hc. destruct Hc as ([r [v|]] & _ & Hc);
    simpl in Hc; [|contradiction].
  destruct Hc as [<- | []]. exists (u "price"). do 2 eexists.
  split; [reflexivity | right; right; left; reflexivity].
Qed.

Lemma meal_subtree_filter (m : Meal) :
  filter (has_tag "meal") (subtree (meal_element m)) = [meal_element m].
Proof.
  assert (E : subtree (meal_element m)
              = meal_element m :: flat_map subtree (el_children (meal_element m)))
    by reflexivity.
  rewrite E. cbn [filter]. change (has_tag "meal" (meal_element m)) with true. cbv iota.
  f_equal. apply filter_none. intros e He. apply in_flat_map in He.
  destruct He as (c & Hc & He). apply meal_children_leaves in Hc.
  destruct Hc as (tag & a & t & -> & Htag). rewrite leaf_subtree in He.
  destruct He as [<- | []]. rewrite has_tag_element.
  simpl in Htag. destruct Htag as [<- | [<- | [<- | []]]]; reflexivity.
Qed.

Lemma category_subtree_filter (g : str * list Meal) :
  filter (has_tag "meal") (subtree (category_element g)) = map meal_element (snd g).
Proof.
  unfold category_element. cbn [subtree filter]. rewrite has_tag_element.
  change (str_eqb (u "category") (u "meal")) with false. cbv iota.
  rewrite flat_map_concat_map, map_map, <- flat_map_concat_map, filter_flat_map.
  induction (snd g) as [|m ms IH]; [reflexivity|].
  cbn [flat_map map]. rewrite meal_subtree_filter, IH. reflexivity.
Qed.

Lemma day_subtree_filter (d : Day) :
  flat_map (fun x => filter (has_tag "meal") (subtree x)) (day_elements d)
  = if has_date d then map meal_element (flat_map snd (group_meals (meals d))) else [].
Proof.
  unfold day_elements, has_date. destruct (date d) as [dt|]; [|reflexivity].
  destruct (is_empty dt); [reflexivity|]. cbn [negb flat_map subtree filter].
  rewrite has_tag_element. change (str_eqb (u "day") (u "meal")) with false. cbv iota.
  rewrite app_nil_r.
  rewrite flat_map_concat_map, map_map, <- flat_map_concat_map, filter_flat_map.
  induction (group_meals (meals d)) as [|g gs IH]; [reflexivity|].
  cbn [flat_map]. rewrite map_app, category_subtree_filter, IH. reflexivity.
Qed.

(** The [meal] elements of the feed, in document order. *)
Lemma feed_meals (canteen_name : str) (days : list Day) :
  meal_elements (openmensa_tree canteen_name days)
  = map meal_element
        (flat_map (fun d => flat_map snd (group_meals (meals d))) (filter has_date days)).
Proof.
  unfold meal_elements, openmensa_tree. cbn [subtree flat_map app].
  rewrite app_nil_r. cbn [filter]. rewrite !has_tag_element.
  change (str_eqb (u "openmensa") (u "meal")) with false.
  change (str_eqb (u "canteen") (u "meal")) with false.
  change (str_eqb (u "name") (u "meal")) with false. cbv iota.
  rewrite filter_flat_map.
  induction days as [|d days IH]; [reflexivity|].
  cbn [flat_map filter]. rewrite flat_map_app, day_subtree_filter, IH.
  destruct (has_date d); [|reflexivity].
  cbn [flat_map]. rewrite map_app. reflexivity.
Qed.

(** ** Rounding to the nearest integer *)

Lemma rne_div_near (a b q : Z) :
  0 < b -> 2 * Z.abs (a - q * b) < b -> rne_div a b = q.
Proof.
  intros Hb H. unfold rne_div.
  pose proof (Z.div_mod a b ltac:(lia)) as E.
  pose proof (Z.mod_pos_bound a b Hb) as Hr.
  remember (a / b) as d. remember (a mod b) as r.
  assert (Hd : d = q \/ d = q - 1) by nia.
  destruct (2 * r <? b) eqn:C1; [apply Z.ltb_lt in C1; nia|].
  apply Z.ltb_ge in C1.
  destruct (b <? 2 * r) eqn:C2; [apply Z.ltb_lt in C2; nia|].
  apply Z.ltb_ge in C2. exfalso. nia.
Qed.

Lemma rne_div_error (a b : Z) : 0 < b -> 2 * Z.abs (b * rne_div a b - a) <= b.
Proof.
  intros Hb. unfold rne_div.
  pose proof (Z.div_mod a b ltac:(lia)) as E.
  pose proof (Z.mod_pos_bound a b Hb) as Hr.
  remember (a / b) as d. remember (a mod b) as r.
  destruct (2 * r <? b) eqn:C1; [apply Z.ltb_lt in C1; nia|].
  apply Z.ltb_ge in C1.
  destruct (b <? 2 * r) eqn:C2; [apply Z.ltb_lt in C2; nia|].
  apply Z.ltb_ge in C2. destruct (Z.even d); nia.
Qed.

Lemma floor_log2_ratio_small (n b : Z) :
  b = 1 \/ b = 10 \/ b = 100 -> 0 < n < b * 2 ^ 46 -> floor_log2_ratio n b <= 45.
Proof.
  intros Hb [H0 H]. unfold floor_log2_ratio.
  assert (L : forall c, n < 2 ^ c -> 0 <= c -> Z.log2 n < c).
  { intros c Hc _. apply Z.log2_lt_pow2; [exact H0 | exact Hc]. }
  assert (P46 : 2 ^ 46 = 70368744177664) by reflexivity.
  destruct Hb as [-> | [-> | ->]].
  - change (Z.log2 1) with 0. rewrite Z.sub_0_r.
    assert (Z.log2 n < 46) by (apply L; lia).
    destruct (0 <=? Z.log2 n); destruct (_ <=? _); lia.
  - change (Z.log2 10) with 3.
    assert (Hl : Z.log2 n < 50) by (apply L; [change (2 ^ 50) with 1125899906842624|]; lia).
    destruct (0 <=? Z.log2 n - 3) eqn:E0.
    + destruct (10 * 2 ^ (Z.log2 n - 3) <=? n) eqn:A; [|lia]. apply Z.leb_le in A.
      destruct (Z.eq_dec (Z.log2 n) 49) as [E | E]; [|lia].
      rewrite E in A. change (2 ^ (49 - 3)) with (2 ^ 46) in A. lia.
    + apply Z.leb_gt in E0. destruct (_ <=? _); lia.
  - change (Z.log2 100) with 6.
    assert (Hl : Z.log2 n < 53) by (apply L; [change (2 ^ 53) with 9007199254740992|]; lia).
    destruct (0 <=? Z.log2 n - 6) eqn:E0.
    + destruct (100 * 2 ^ (Z.log2 n - 6) <=? n) eqn:A; [|lia]. apply Z.leb_le in A.
      destruct (Z.eq_dec (Z.log2 n) 52) as [E | E]; [|lia].
      rewrite E in A. change (2 ^ (52 - 6)) with (2 ^ 46) in A. lia.
    + apply Z.leb_gt in E0. destruct (_ <=? _); lia.
Qed.

(** A number of units, tenths or hundredths ([b] is 1, 10 or 100) below
    [2^46], read as a float and formatted with two decimal places, is
    rendered as the number of its hundredths. *)
Lemma format_2f_fraction (n b : Z) :
  b = 1 \/ b = 10 \/ b = 100 -> 0 <= n < b * 2 ^ 46 ->
  format_2f (binary64_round false n b)
  = dec_digits (Z.to_N (n * (100 / b) / 100)) ++ u "." ++ two_digits (n * (100 / b) mod 100).
Proof.
  intros Hb [H0 H]. unfold binary64_round. destruct (n =? 0) eqn:En.
  - apply Z.eqb_eq in En. subst n. reflexivity.
  - apply Z.eqb_neq in En.
    pose proof (floor_log2_ratio_small n b Hb ltac:(lia)) as Hf.
    remember (Z.max (floor_log2_ratio n b - 52) (-1074)) as e eqn:Ee.
    assert (He : -1074 <= e <= -7) by lia.
    assert (Hs : scaled_rne n b e = rne_div (n * 2 ^ (- e)) b).
    { unfold scaled_rne. destruct (0 <=? e) eqn:C; [apply Z.leb_le in C; lia | reflexivity]. }
    rewrite Hs. clear Hs Ee Hf.
    remember (- e - 1) as k eqn:Ek.
    assert (Hk : 6 <= k) by lia.
    assert (E2 : 2 ^ (- e) = 2 * 2 ^ k).
    { replace (- e) with (Z.succ k) by lia. apply Z.pow_succ_r. lia. }
    assert (HP : 64 <= 2 ^ k).
    { change 64 with (2 ^ 6). apply Z.pow_le_mono_r; lia. }
    rewrite E2. remember (2 ^ k) as P eqn:EP.
    assert (Hb0 : 0 < b) by lia.
    pose proof (rne_div_error (n * (2 * P)) b Hb0) as Herr.
    remember (rne_div (n * (2 * P)) b) as m eqn:Em.
    remember (100 / b) as d eqn:Ed.
    assert (Hd : b * d = 100 /\ 0 < d).
    { destruct Hb as [-> | [-> | ->]]; subst d; split; reflexivity. }
    assert (Herr' : 2 * Z.abs (100 * m - n * d * (2 * P)) <= 100) by nia.
    assert (Hm : 0 < m) by nia.
    assert (Hh : forall m' e', (m', e') = (if m =? 2 ^ 53 then (2 ^ 52, e + 1) else (m, e)) ->
                 0 < m' /\ e' <= 971 /\ scaled_rne (m' * 100) 1 (- e') = n * d).
    { intros m' e' E. destruct (m =? 2 ^ 53) eqn:C; injection E as -> ->.
      - apply Z.eqb_eq in C. split; [reflexivity|]. split; [lia|].
        unfold scaled_rne. destruct (0 <=? - (e + 1)) eqn:C0; [|apply Z.leb_gt in C0; lia].
        replace (- (e + 1)) with k by lia. rewrite <- EP.
        apply rne_div_near; [lia|]. rewrite C in Herr'.
        change (2 ^ 53) with (2 * 2 ^ 52) in Herr'. lia.
      - split; [exact Hm|]. split; [lia|].
        unfold scaled_rne. destruct (0 <=? - e) eqn:C0; [|apply Z.leb_gt in C0; lia].
        rewrite E2. apply rne_div_near; [lia|]. lia. }
    destruct (if m =? 2 ^ 53 then (2 ^ 52, e + 1) else (m, e)) as [m' e'] eqn:Eme.
    destruct (Hh m' e' eq_refl) as (Hm' & He' & Hn). cbn [fst snd].
    destruct (971 <? e') eqn:C1; [apply Z.ltb_lt in C1; lia|].
    destruct (m' =? 0) eqn:C2; [apply Z.eqb_eq in C2; lia|].
    unfold format_2f. rewrite Hn. reflexivity.
Qed.

(** ** The digits of a number *)

Lemma ascii_digit_range (c : char) : is_ascii_digit c = true -> 48 <= Z.of_N c <= 57.
Proof.
  unfold is_ascii_digit. intro H. apply andb_true_iff in H. destruct H as [H1 H2].
  apply N.leb_le in H1. apply N.leb_le in H2. lia.
Qed.

Lemma digits_value_app (a b : str) :
  digits_value (a ++ b) = digits_value a * 10 ^ Z.of_nat (length b) + digits_value b.
Proof.
  revert a. induction b as [|c b IH] using rev_ind; intro a.
  - rewrite app_nil_r. simpl. unfold digits_value at 3. simpl. lia.
  - rewrite app_assoc, !digits_value_snoc, IH, length_app. simpl length.
    replace (Z.of_nat (length b + 1)) with (Z.succ (Z.of_nat (length b))) by lia.
    rewrite Z.pow_succ_r by lia. ring.
Qed.

Lemma digits_value_bound (ds : str) :
  all_in is_ascii_digit ds -> 0 <= digits_value ds < 10 ^ Z.of_nat (length ds).
Proof.
  induction ds as [|c ds IH] using rev_ind; intro H.
  - unfold digits_value. simpl. lia.
  - apply Forall_app in H. destruct H as [Hds Hc]. inversion Hc as [|? ? Hc' _]; subst.
    apply ascii_digit_range in Hc'. specialize (IH Hds).
    rewrite digits_value_snoc, length_app. simpl length.
    replace (Z.of_nat (length ds + 1)) with (Z.succ (Z.of_nat (length ds))) by lia.
    rewrite Z.pow_succ_r by lia. lia.
Qed.

Lemma digits_value_cons (c : char) (ds : str) :
  digits_value (c :: ds) = (Z.of_N c - 48) * 10 ^ Z.of_nat (length ds) + digits_value ds.
Proof.
  change (c :: ds) with ([c] ++ ds). rewrite digits_value_app.
  unfold digits_value at 1. simpl fold_left. lia.
Qed.

(** Two strings of digits of the same length and value are equal. *)
Lemma digits_value_inj (a b : str) :
  all_in is_ascii_digit a -> all_in is_ascii_digit b -> length a = length b ->
  digits_value a = digits_value b -> a = b.
Proof.
  revert b. induction a as [|c a IH]; intros [|d b] Ha Hb Hl Hv; try discriminate Hl;
    [reflexivity|].
  inversion Ha as [|? ? Hc Ha']; subst. inversion Hb as [|? ? Hd Hb']; subst.
  injection Hl as Hl. rewrite !digits_value_cons, Hl in Hv.
  pose proof (digits_value_bound a Ha') as Ba. pose proof (digits_value_bound b Hb') as Bb.
  rewrite Hl in Ba. apply ascii_digit_range in Hc, Hd.
  assert (Hp : 0 < 10 ^ Z.of_nat (length b)) by (apply Z.pow_pos_nonneg; lia).
  assert (E : Z.of_N c = Z.of_N d) by nia.
  assert (Ev : digits_value a = digits_value b) by nia.
  apply N2Z.inj in E. subst d. f_equal. apply (IH b Ha' Hb' Hl Ev).
Qed.

Lemma pow10_length (n : Z) (i j : nat) :
  (i = 1%nat \/ 10 ^ (Z.of_nat i - 1) <= n) -> n < 10 ^ Z.of_nat i ->
  (j = 1%nat \/ 10 ^ (Z.of_nat j - 1) <= n) -> n < 10 ^ Z.of_nat j ->
  0 <= n -> (0 < i)%nat -> (0 < j)%nat -> i = j.
Proof.
  intros Hi1 Hi2 Hj1 Hj2 Hn Hi Hj.
  destruct (Nat.lt_trichotomy i j) as [L | [E | L]]; [exfalso | exact E | exfalso].
  - assert (P : 10 ^ Z.of_nat i <= 10 ^ (Z.of_nat j - 1)) by (apply Z.pow_le_mono_r; lia).
    destruct Hj1 as [Hj1 | Hj1]; lia.
  - assert (P : 10 ^ Z.of_nat j <= 10 ^ (Z.of_nat i - 1)) by (apply Z.pow_le_mono_r; lia).
    destruct Hi1 as [Hi1 | Hi1]; lia.
Qed.

(** [str(int(a))] is [a] for a number written without leading zero. *)
Lemma dec_digits_of_value (a : str) :
  all_in is_ascii_digit a -> no_leading_zero a ->
  dec_digits (Z.to_N (digits_value a)) = a.
Proof.
  intros Ha [-> | (c & t & -> & Hc)]; [reflexivity|].
  destruct (dec_digits_spec (Z.to_N (digits_value (c :: t)))) as (Hd & Hv & Hlt & Hge).
  pose proof (digits_value_bound (c :: t) Ha) as Hb.
  rewrite Z2N.id in * by lia.
  apply digits_value_inj; try assumption.
  assert (Hne : (0 < length (dec_digits (Z.to_N (digits_value (c :: t)))))%nat).
  { destruct (dec_digits_ok (Z.to_N (digits_value (c :: t)))) as [Hn _].
    destruct (dec_digits _); [congruence | simpl; lia]. }
  apply (pow10_length (digits_value (c :: t))); try assumption; try lia; [|simpl; lia].
  right. rewrite digits_value_cons. cbn [length].
  replace (Z.of_nat (S (length t)) - 1) with (Z.of_nat (length t)) by lia.
  inversion Ha as [|? ? Hc' Ht]; subst. pose proof (digits_value_bound t Ht) as Bt.
  apply ascii_digit_range in Hc'.
  assert (Z.of_N c <> 48) by (intro E; apply Hc; apply N2Z.inj; exact E).
  assert (Hp : 0 < 10 ^ Z.of_nat (length t)) by (apply Z.pow_pos_nonneg; lia).
  nia.
Qed.

(** The two decimal places of an amount written with at most two. *)
Lemma two_digits_padded (b : str) :
  all_in is_ascii_digit b -> (length b <= 2)%nat ->
  two_digits (digits_value b * 10 ^ (2 - Z.of_nat (length b)))
  = b ++ repeat (ch "0") (2 - length b).
Proof.
  intros Hb Hl. destruct b as [|x [|y [|z b]]]; [reflexivity | | |simpl in Hl; lia].
  - inversion Hb as [|? ? Hx _]; subst. apply ascii_digit_range in Hx.
    unfold two_digits, digits_value. cbn [fold_left length repeat Nat.sub app].
    change (10 ^ (2 - Z.of_nat 1)) with 10.
    replace ((10 * 0 + (Z.of_N x - 48)) * 10 / 10) with (Z.of_N x - 48)
      by (apply Z.div_unique with (r := 0); lia).
    replace ((10 * 0 + (Z.of_N x - 48)) * 10 mod 10) with 0
      by (apply Z.mod_unique with (q := Z.of_N x - 48); lia).
    f_equal. lia.
  - inversion Hb as [|? ? Hx Hb']; subst. inversion Hb' as [|? ? Hy _]; subst.
    apply ascii_digit_range in Hx, Hy.
    unfold two_digits, digits_value. cbn [fold_left length repeat Nat.sub app].
    change (10 ^ (2 - Z.of_nat 2)) with 1. rewrite Z.mul_1_r.
    replace ((10 * (10 * 0 + (Z.of_N x - 48)) + (Z.of_N y - 48)) / 10) with (Z.of_N x - 48)
      by (apply Z.div_unique with (r := Z.of_N y - 48); lia).
    replace ((10 * (10 * 0 + (Z.of_N x - 48)) + (Z.of_N y - 48)) mod 10) with (Z.of_N y - 48)
      by (apply Z.mod_unique with (q := Z.of_N x - 48); lia).
    f_equal; [|f_equal]; lia.
Qed.

(** An amount with at most two decimal places and up to thirteen digits
    before them is rendered with its own digits, and zeros for the decimal
    places that it has not. *)
Lemma format_2f_decimal_float (a b : str) :
  all_in is_ascii_digit a -> (length a <= 13)%nat ->
  all_in is_ascii_digit b -> (length b <= 2)%nat ->
  format_2f (decimal_float a b)
  = dec_digits (Z.to_N (digits_value a)) ++ ch "." :: b ++ repeat (ch "0") (2 - length b).
Proof.
  intros Ha La Hb Lb.
  pose proof (digits_value_bound a Ha) as Ba. pose proof (digits_value_bound b Hb) as Bb.
  assert (P : 10 ^ Z.of_nat (length a) <= 10 ^ 13) by (apply Z.pow_le_mono_r; lia).
  change (10 ^ 13) with 10000000000000 in P.
  assert (P46 : 2 ^ 46 = 70368744177664) by reflexivity.
  pose proof (digits_value_app a b) as E.
  pose proof (two_digits_padded b Hb Lb) as T.
  unfold decimal_float, binary64_of_decimal.
  destruct b as [|x [|y [|z b]]]; [| | |simpl in Lb; lia]; cbn [length] in *.
  - change (0 <=? - Z.of_nat 0) with true. cbv iota. change (10 ^ (- Z.of_nat 0)) with 1.
    change (10 ^ Z.of_nat 0) with 1 in *. change (10 ^ (2 - Z.of_nat 0)) with 100 in T.
    rewrite format_2f_fraction by (auto; lia).
    change (100 / 1) with 100. rewrite E, <- T.
    assert (E0 : digits_value [] = 0) by reflexivity.
    replace ((digits_value a * 1 + digits_value []) * 1 * 100 / 100) with (digits_value a)
      by (apply Z.div_unique with (r := 0); lia).
    replace ((digits_value a * 1 + digits_value []) * 1 * 100 mod 100)
      with (digits_value [] * 100)
      by (apply Z.mod_unique with (q := digits_value a); lia).
    reflexivity.
  - change (0 <=? - Z.of_nat 1) with false. cbv iota. change (10 ^ (- - Z.of_nat 1)) with 10.
    change (10 ^ Z.of_nat 1) with 10 in *. change (10 ^ (2 - Z.of_nat 1)) with 10 in T.
    rewrite format_2f_fraction by (auto; lia).
    change (100 / 10) with 10. rewrite E, <- T.
    replace ((digits_value a * 10 + digits_value [x]) * 10 / 100) with (digits_value a)
      by (apply Z.div_unique with (r := digits_value [x] * 10); lia).
    replace ((digits_value a * 10 + digits_value [x]) * 10 mod 100)
      with (digits_value [x] * 10)
      by (apply Z.mod_unique with (q := digits_value a); lia).
    reflexivity.
  - change (0 <=? - Z.of_nat 2) with false. cbv iota. change (10 ^ (- - Z.of_nat 2)) with 100.
    change (10 ^ Z.of_nat 2) with 100 in *. change (10 ^ (2 - Z.of_nat 2)) with 1 in T.
    rewrite format_2f_fraction by (auto; lia).
    change (100 / 100) with 1. rewrite E, <- T.
    replace ((digits_value a * 100 + digits_value [x; y]) * 1 / 100) with (digits_value a)
      by (apply Z.div_unique with (r := digits_value [x; y]); lia).
    replace ((digits_value a * 100 + digits_value [x; y]) * 1 mod 100)
      with (digits_value [x; y] * 1)
      by (apply Z.mod_unique with (q := digits_value a); lia).
    reflexivity.
Qed.

(** ** The text of a price *)

Lemma lstrip_app_headed (a : str) (d : char) (v : str) :
  is_space d = false -> lstrip (a ++ d :: v) = lstrip a ++ d :: v.
Proof.
  intro Hd. induction a as [|c a IH]; simpl; [rewrite Hd; reflexivity|].
  destruct (is_space c); [exact IH | reflexivity].
Qed.

Lemma rstrip_incl (t : str) (c : char) : In c (rstrip t) -> In c t.
Proof.
  intro H. destruct (rstrip_prefix t) as [ws E]. rewrite E. apply in_or_app. left. exact H.
Qed.

(** [strip] leaves a text that starts and ends with other characters than
    white space, and strips what follows it on the right. *)
Lemma strip_core_tail (c : char) (x : str) (d : char) (t : str) :
  is_space c = false -> is_space d = false ->
  strip ((c :: x ++ [d]) ++ t) = (c :: x ++ [d]) ++ rstrip t.
Proof.
  intros Hc Hd. unfold strip.
  assert (El : lstrip ((c :: x ++ [d]) ++ t) = (c :: x ++ [d]) ++ t)
    by (apply (lstrip_head c _ Hc)).
  rewrite El. unfold rstrip.
  assert (Er : rev ((c :: x ++ [d]) ++ t) = rev t ++ d :: rev (c :: x)).
  { rewrite rev_app_distr. f_equal.
    change (c :: x ++ [d]) with ((c :: x) ++ [d]). rewrite rev_app_distr. reflexivity. }
  rewrite Er, (lstrip_app_headed (rev t) d (rev (c :: x)) Hd), rev_app_distr. f_equal.
  change (d :: rev (c :: x)) with ([d] ++ rev (c :: x)). rewrite rev_app_distr, rev_involutive.
  reflexivity.
Qed.

Lemma remove_char_app (c : char) (a b : str) :
  remove_char c (a ++ b) = remove_char c a ++ remove_char c b.
Proof. unfold remove_char. apply filter_app. Qed.

Lemma replace_char_app (x y : char) (a b : str) :
  replace_char x y (a ++ b) = replace_char x y a ++ replace_char x y b.
Proof. unfold replace_char. apply map_app. Qed.

Lemma digits_no_char (a : str) (x : char) :
  all_in is_ascii_digit a -> is_ascii_digit x = false -> ~ In x a.
Proof. intros Ha Hx. apply (all_in_not_In is_ascii_digit x a Hx Ha). Qed.

(** The text of a part made of digits, commas and dots and followed by a
    text without them. *)
Lemma price_text_body (x t : str) :
  x <> [] ->
  (forall c, In c x -> is_ascii_digit c = true \/ c = ch "," \/ c = ch ".") ->
  unit_text t ->
  exists t', price_text (x ++ t) = replace_char (ch ",") (ch ".") x ++ t'
             /\ forall c, In c t' -> In c t.
Proof.
  intros Hx0 Hx Ht.
  assert (Hs : forall c, In c x -> is_space c = false /\ c <> euro /\ c <> ch " ").
  { intros c Hc. destruct (Hx c Hc) as [H | [-> | ->]].
    - split; [apply ascii_digit_not_space; exact H|].
      split; intro E; subst c; discriminate H.
    - split; [reflexivity | split; discriminate].
    - split; [reflexivity | split; discriminate]. }
  assert (Hr : forall y, In y (remove_char (ch " ") (remove_char euro (rstrip t))) -> In y t).
  { intros y Hy. apply remove_char_incl, remove_char_incl, rstrip_incl in Hy. exact Hy. }
  assert (Estrip : strip (x ++ t) = x ++ rstrip t).
  { destruct x as [|c x]; [congruence|].
    destruct (Hs c (or_introl eq_refl)) as (Sc & _).
    destruct x as [|c2 x2].
    - unfold strip. assert (El : lstrip ([c] ++ t) = [c] ++ t) by (apply (lstrip_head c _ Sc)).
      rewrite El. unfold rstrip. rewrite rev_app_distr. change (rev [c]) with [c].
      rewrite (lstrip_app_headed (rev t) c [] Sc), rev_app_distr. reflexivity.
    - assert (Hne : c2 :: x2 <> []) by discriminate.
      destruct (exists_last Hne) as (y & d & E). rewrite E.
      assert (Sd : is_space d = false).
      { apply (Hs d). right. rewrite E. apply in_or_app. right. left. reflexivity. }
      apply (strip_core_tail c y d t Sc Sd). }
  unfold price_text. rewrite Estrip, !remove_char_app.
  rewrite (remove_char_absent euro x) by (intro H; apply Hs in H; tauto).
  rewrite (remove_char_absent (ch " ") x) by (intro H; apply Hs in H; tauto).
  rewrite replace_char_app.
  rewrite (replace_char_absent (ch ",") (ch ".")
             (remove_char (ch " ") (remove_char euro (rstrip t))))
    by (intro Hin; apply Hr, Ht in Hin; destruct Hin as (_ & _ & Hin & _); congruence).
  exists (remove_char (ch " ") (remove_char euro (rstrip t))). split; [reflexivity | exact Hr].
Qed.

Lemma unit_text_span (x t' t : str) :
  all_in is_digit_or_dot x -> (forall c, In c t' -> In c t) -> unit_text t ->
  fst (span is_digit_or_dot (x ++ t')) = x.
Proof.
  intros Hx Hin Ht. rewrite (span_exact is_digit_or_dot x t' Hx); [reflexivity|].
  destruct t' as [|c t'']; [exact I|].
  destruct (Ht c (Hin c (or_introl eq_refl))) as (Hd & Hdot & _).
  unfold is_digit_or_dot. rewrite Hd. cbn [orb].
  destruct (chr_eqb c (ch ".")) eqn:E; [|reflexivity]. apply chr_eqb_eq in E. contradiction.
Qed.

Lemma number_digit_or_dot (a b : str) :
  all_in is_ascii_digit a -> all_in is_ascii_digit b ->
  all_in is_digit_or_dot (a ++ ch "." :: b).
Proof.
  intros Ha Hb. apply Forall_app. split; [|constructor; [reflexivity|]].
  - revert Ha. apply Forall_impl. intros c Hc. unfold is_digit_or_dot.
    rewrite (ascii_digit_is_digit c Hc). reflexivity.
  - revert Hb. apply Forall_impl. intros c Hc. unfold is_digit_or_dot.
    rewrite (ascii_digit_is_digit c Hc). reflexivity.
Qed.

Lemma number_no_LF (a b t : str) (sep : char) :
  all_in is_ascii_digit a -> all_in is_ascii_digit b ->
  sep = ch "," \/ sep = ch "." -> unit_text t -> ~ In LF (a ++ sep :: b ++ t).
Proof.
  intros Ha Hb Hsep Ht Hin. apply in_app_or in Hin. destruct Hin as [Hin | [Hin | Hin]].
  - exact (digits_no_char a LF Ha eq_refl Hin).
  - destruct Hsep as [-> | ->]; discriminate.
  - apply in_app_or in Hin. destruct Hin as [Hin | Hin].
    + exact (digits_no_char b LF Hb eq_refl Hin).
    + apply Ht in Hin. destruct Hin as (_ & _ & _ & Hin). congruence.
Qed.

(** A number with a comma or a dot and the text after it, a unit for
    instance, give the float nearest to the number. *)
Lemma normalize_price_number (a b t : str) (sep : char) :
  a <> [] -> all_in is_ascii_digit a -> all_in is_ascii_digit b ->
  sep = ch "," \/ sep = ch "." -> unit_text t ->
  normalize_price (a ++ sep :: b ++ t) = Some (decimal_float a b).
Proof.
  intros Ha0 Ha Hb Hsep Ht.
  rewrite normalize_price_digits_dots;
    [|destruct a; [congruence | discriminate] | apply number_no_LF; assumption].
  assert (E : a ++ sep :: b ++ t = (a ++ sep :: b) ++ t)
    by (rewrite <- app_assoc; reflexivity).
  destruct (price_text_body (a ++ sep :: b) t) as (t' & Ep & Hin);
    [destruct a; discriminate | | exact Ht |].
  { unfold all_in in *. rewrite Forall_forall in Ha, Hb. intros x Hx.
    apply in_app_or in Hx. destruct Hx as [Hx | [<- | Hx]]; [left; auto | right; tauto | left; auto]. }
  assert (Er : replace_char (ch ",") (ch ".") (a ++ sep :: b) = a ++ ch "." :: b).
  { unfold replace_char. rewrite map_app. cbn [map].
    fold (replace_char (ch ",") (ch ".") a). fold (replace_char (ch ",") (ch ".") b).
    rewrite !replace_char_absent by (apply digits_no_char; [assumption | reflexivity]).
    destruct Hsep as [-> | ->]; reflexivity. }
  rewrite E, Ep, Er, (unit_text_span _ t' t (number_digit_or_dot a b Ha Hb) Hin Ht).
  apply (float_of_decimal_number a b Ha0 Ha Hb).
Qed.

(** [float] refuses a number with two dots. *)
Lemma float_of_two_dots (a b c : str) :
  all_in is_ascii_digit a -> all_in is_ascii_digit b -> all_in is_ascii_digit c ->
  float_of_str (a ++ ch "." :: b ++ ch "." :: c) = None.
Proof.
  intros Ha Hb Hc.
  assert (Hp : all_in is_plain (a ++ ch "." :: b ++ ch "." :: c)).
  { apply Forall_app. split; [apply ascii_digits_plain; exact Ha|].
    constructor; [reflexivity|]. apply (plain_number b c Hb Hc). }
  rewrite (float_of_plain _ _ (map_opt_ascii _ Hp) Hp). unfold parse_float_body.
  destruct (parse_float_body_words _ Hp) as (-> & -> & ->). cbn [orb].
  rewrite (span_exact is_ascii_digit a (ch "." :: b ++ ch "." :: c) Ha) by reflexivity.
  rewrite chr_eqb_refl.
  rewrite (span_exact is_ascii_digit b (ch "." :: c) Hb) by reflexivity.
  destruct (a ++ b); reflexivity.
Qed.


(** [float] of a number without decimal places. *)
Lemma float_of_integer (a : str) :
  a <> [] -> all_in is_ascii_digit a -> float_of_str a = Some (decimal_float a []).
Proof.
  intros Hne Ha. pose proof (ascii_digits_plain a Ha) as Hp.
  rewrite (float_of_plain _ _ (map_opt_ascii _ Hp) Hp). unfold parse_float_body.
  destruct (parse_float_body_words _ Hp) as (-> & -> & ->). cbn [orb].
  rewrite <- (app_nil_r a) at 1. rewrite (span_exact is_ascii_digit a [] Ha) by exact I.
  cbn [app]. rewrite app_nil_r. destruct a as [|c a]; [congruence|].
  unfold decimal_float. rewrite app_nil_r. reflexivity.
Qed.

(** A number without separator and the text after it give the float of the
    number. *)
Lemma normalize_price_integer (a t : str) :
  a <> [] -> all_in is_ascii_digit a -> unit_text t ->
  normalize_price (a ++ t) = Some (decimal_float a []).
Proof.
  intros Ha0 Ha Ht.
  assert (Hlf : ~ In LF (a ++ t)).
  { intro Hin. apply in_app_or in Hin. destruct Hin as [Hin | Hin].
    - exact (digits_no_char a LF Ha eq_refl Hin).
    - apply Ht in Hin. destruct Hin as (_ & _ & _ & Hin). congruence. }
  rewrite normalize_price_digits_dots; [|destruct a; [congruence | discriminate] | exact Hlf].
  destruct (price_text_body a t) as (t' & Ep & Hin); [exact Ha0 | | exact Ht |].
  { unfold all_in in Ha. rewrite Forall_forall in Ha. intros x Hx. left. auto. }
  rewrite replace_char_absent in Ep by (apply digits_no_char; [assumption | reflexivity]).
  assert (Hdd : all_in is_digit_or_dot a).
  { revert Ha. apply Forall_impl. intros c Hc. unfold is_digit_or_dot.
    rewrite (ascii_digit_is_digit c Hc). reflexivity. }
  rewrite Ep, (unit_text_span _ t' t Hdd Hin Ht).
  apply (float_of_integer a Ha0 Ha).
Qed.

(** ** White space at the ends *)

Lemma linebreak_is_space (c : char) : is_linebreak c = true -> is_space c = true.
Proof.
  unfold is_linebreak. rewrite existsb_chr_In. unfold linebreak_chars. simpl.
  intro H. repeat (destruct H as [<- | H]; [reflexivity|]). contradiction.
Qed.

Lemma rstrip_spaces_suffix (s : str) : exists ws, s = rstrip s ++ ws /\ all_in is_space ws.
Proof.
  unfold rstrip. destruct (lstrip_spaces_suffix (rev s)) as (ws & E & Hws).
  exists (rev ws). split; [|apply all_in_rev; exact Hws].
  rewrite <- rev_app_distr, <- E, rev_involutive. reflexivity.
Qed.

Lemma strip_spaces_around (s : str) :
  exists ws1 ws2, s = ws1 ++ strip s ++ ws2 /\ all_in is_space ws1 /\ all_in is_space ws2.
Proof.
  destruct (lstrip_spaces_suffix s) as (ws1 & E1 & H1).
  destruct (rstrip_spaces_suffix (lstrip s)) as (ws2 & E2 & H2).
  exists ws1, ws2. split; [|auto]. unfold strip. rewrite <- E2. exact E1.
Qed.

(** [strip] keeps the characters that are no white space. *)
Lemma strip_keeps (s : str) (c : char) : In c s -> is_space c = false -> In c (strip s).
Proof.
  intros Hin Hc. destruct (strip_spaces_around s) as (ws1 & ws2 & E & H1 & H2).
  rewrite E in Hin. unfold all_in in *. rewrite Forall_forall in H1, H2.
  apply in_app_or in Hin. destruct Hin as [Hin | Hin]; [apply H1 in Hin; congruence|].
  apply in_app_or in Hin. destruct Hin as [Hin | Hin]; [exact Hin|].
  apply H2 in Hin. congruence.
Qed.

(** A stripped text ends with a character that is no white space. *)
Lemma strip_last (s : str) :
  strip s = [] \/ exists y d, strip s = y ++ [d] /\ is_space d = false.
Proof.
  unfold strip, rstrip. pose proof (lstrip_headed (rev (lstrip s))) as H.
  destruct (lstrip (rev (lstrip s))) as [|d l]; [left; reflexivity | right].
  exists (rev l), d. split; [reflexivity | exact H].
Qed.

(** ** The lines of a text *)

Lemma splitlines_go_keeps (s : str) :
  forall line after_cr c,
    In c (rev line ++ s) -> is_linebreak c = false ->
    exists ln, In ln (splitlines_go line after_cr s) /\ In c ln.
Proof.
  induction s as [|x s IH]; intros line after_cr c Hin Hc.
  - rewrite app_nil_r in Hin. simpl. destruct line as [|y line]; [contradiction|].
    exists (rev (y :: line)). split; [left; reflexivity | exact Hin].
  - simpl. destruct (after_cr && chr_eqb x LF) eqn:E.
    + apply andb_true_iff in E. destruct E as [_ E]. apply chr_eqb_eq in E. subst x.
      apply IH; [|exact Hc]. apply in_app_or in Hin. apply in_or_app.
      destruct Hin as [Hin | [Hin | Hin]]; [left; exact Hin | | right; exact Hin].
      subst c. discriminate Hc.
    + destruct (is_linebreak x) eqn:Ex.
      * apply in_app_or in Hin. destruct Hin as [Hin | [Hin | Hin]].
        -- exists (rev line). split; [left; reflexivity | exact Hin].
        -- subst c. congruence.
        -- destruct (IH [] (chr_eqb x CR) c Hin Hc) as (ln & Hln & Hcl).
           exists ln. split; [right; exact Hln | exact Hcl].
      * apply (IH (x :: line) false c); [|exact Hc].
        simpl. rewrite <- app_assoc. exact Hin.
Qed.

(** A text with a character that is no white space has a line that is not
    blank. *)
Lemma body_lines_nonempty (body : str) (c : char) :
  In c body -> is_space c = false -> body_lines body <> [].
Proof.
  intros Hin Hc.
  assert (Hb : is_linebreak c = false).
  { destruct (is_linebreak c) eqn:E; [|reflexivity].
    apply linebreak_is_space in E. congruence. }
  destruct (splitlines_go_keeps body [] false c Hin Hb) as (ln & Hln & Hcl).
  assert (H : In (strip ln) (body_lines body)).
  { unfold body_lines. apply filter_In. split; [apply in_map; exact Hln|].
    pose proof (strip_keeps ln c Hcl Hc) as Hs. destruct (strip ln); [contradiction | reflexivity]. }
  intro E. rewrite E in H. contradiction.
Qed.

(** ** Entries *)

Lemma not_newline_false (c : char) : not_newline c = false -> c = LF.
Proof.
  unfold not_newline. intro H. apply negb_false_iff in H. apply chr_eqb_eq in H. exact H.
Qed.

Lemma all_LF_last (nl : str) :
  nl <> [] -> all_in (chr_eqb LF) nl -> exists nl', nl = nl' ++ [LF].
Proof.
  intros Hne H. destruct (exists_last Hne) as (nl' & x & ->). exists nl'.
  apply Forall_app in H. destruct H as [_ H]. inversion H as [|? ? Hx _]; subst.
  apply chr_eqb_eq in Hx. subst x. reflexivity.
Qed.

Lemma all_LF_head (nl : str) :
  nl <> [] -> all_in (chr_eqb LF) nl -> exists nl', nl = LF :: nl'.
Proof.
  intros Hne H. destruct nl as [|x nl']; [congruence|]. exists nl'.
  inversion H as [|? ? Hx _]; subst. apply chr_eqb_eq in Hx. subst x. reflexivity.
Qed.

Lemma accepts_bos (r : regex) (s : str) (depth : nat) :
  accepts r true 0 s depth -> accepts (Bos :: r) true 0 s depth.
Proof. intro H. cbn [accepts]. auto. Qed.

(** The header pattern matches a text with a line feed whose first
    character is none. *)
Lemma entry_header_found (c : char) (t : str) :
  c <> LF -> In LF t -> rx_at entry_header_re true (c :: t) <> None.
Proof.
  intros Hc Hin. apply rx_at_accepts. unfold entry_header_re, plus.
  apply accepts_bos. apply accepts_opened.
  pose proof (span_app not_newline (c :: t)) as Es.
  pose proof (span_fst_all not_newline (c :: t)) as Hh.
  destruct (snd (span not_newline (c :: t))) as [|x rest] eqn:Er.
  - exfalso. rewrite app_nil_r in Es. rewrite Es in Hh.
    apply not_newline_LF in Hh. apply Hh. right. exact Hin.
  - apply span_snd_head in Er as Hx. apply not_newline_false in Hx. subst x.
    rewrite <- Es.
    apply (accepts_rep not_newline 1 None).
    + exact Hh.
    + cbn [cap]. split; [|lia].
      destruct (fst (span not_newline (c :: t))) eqn:Ef; [|simpl; lia].
      simpl in Es. injection Es as E _. congruence.
    + apply accepts_closed.
      apply (accepts_rep (chr_eqb LF) 1 None _ _ _ [LF] rest).
      * repeat constructor.
      * simpl. lia.
      * exact I.
Qed.

(** From a stripped entry with a line feed, [parse_entry] gives a meal. *)
Lemma parse_entry_some (ent : str) :
  In LF (strip ent) -> parse_entry ent <> None.
Proof.
  intro Hin. unfold parse_entry.
  destruct (strip ent) as [|c t] eqn:Es; [contradiction|]. cbn [is_empty].
  assert (Sc : is_space c = false).
  { pose proof (strip_headed ent) as H. rewrite Es in H. exact H. }
  assert (Hc : c <> LF) by (intro E; subst c; discriminate Sc).
  assert (Ht : In LF t) by (destruct Hin as [E | H]; [congruence | exact H]).
  pose proof (entry_header_found c t Hc Ht) as Hm. unfold re_match.
  destruct (rx_at entry_header_re true (c :: t)) as [[n gs]|] eqn:R; [|congruence].
  cbn [option_map]. unfold group, mk_match. cbn [m_groups m_rest fst snd pred].
  apply entry_header_match in R.
  destruct R as (h & nl & rest & E & _ & _ & Hnl0 & Hnl & _ & ->).
  unfold build_meal.
  destruct (strip_last ent) as [E0 | (y & d & Ey & Sd)]; [congruence|].
  rewrite Es, E in Ey.
  assert (Hd : In d rest).
  { destruct rest as [|r0 rest'].
    - exfalso. rewrite app_nil_r in Ey.
      destruct (all_LF_last nl Hnl0 Hnl) as (nl' & ->).
      rewrite app_assoc in Ey. apply app_inj_tail in Ey. destruct Ey as [_ Ey].
      subst d. discriminate Sd.
    - assert (Hne : r0 :: rest' <> []) by discriminate.
      destruct (exists_last Hne) as (r' & z & Ez). rewrite Ez in Ey |- *.
      rewrite !app_assoc in Ey. apply app_inj_tail in Ey. destruct Ey as [_ Ey].
      subst z. apply in_or_app. right. left. reflexivity. }
  pose proof (body_lines_nonempty (strip rest) d (strip_keeps rest d Hd Sd) Sd) as Hb.
  destruct (body_lines (strip rest)); [congruence | discriminate].
Qed.

(** The header line of an entry that gives a meal. *)
Lemma parse_entry_header (ent : str) (m : Meal) :
  parse_entry ent = Some m ->
  exists h t, strip ent = h ++ LF :: t /\ h <> [] /\ ~ In LF h
              /\ category m = normalize_category (strip h).
Proof.
  unfold parse_entry. destruct (is_empty (strip ent)); [discriminate|].
  unfold re_match. destruct (rx_at entry_header_re true (strip ent)) as [[n gs]|] eqn:R;
    [|discriminate].
  cbn [option_map]. unfold group, mk_match. cbn [m_groups m_rest fst snd pred].
  intro H. apply entry_header_match in R.
  destruct R as (h & nl & rest & E & Hh0 & Hh & Hnl0 & Hnl & -> & _).
  destruct (all_LF_head nl Hnl0 Hnl) as (nl' & ->).
  exists h, (nl' ++ rest). split; [exact E|]. split; [exact Hh0|].
  split; [apply not_newline_LF; exact Hh|].
  apply build_meal_fields in H. destruct H as (_ & _ & _ & Hc & _). exact Hc.
Qed.

(** ** Contiguous parts *)

Lemma part_of_refl (s : str) : part_of s s.
Proof. exists [], []. rewrite app_nil_r. reflexivity. Qed.

Lemma part_of_trans (a b c : str) : part_of a b -> part_of b c -> part_of a c.
Proof.
  intros (p1 & q1 & ->) (p2 & q2 & ->). exists (p2 ++ p1), (q1 ++ q2).
  rewrite <- !app_assoc. reflexivity.
Qed.

Lemma part_of_middle (pre x post : str) : part_of x (pre ++ x ++ post).
Proof. exists pre, post. reflexivity. Qed.

Lemma part_of_strip (s : str) : part_of (strip s) s.
Proof. destruct (strip_segment s) as (ws1 & ws2 & E). exists ws1, ws2. exact E. Qed.

Lemma part_of_skipn (n : nat) (s : str) : part_of (skipn n s) s.
Proof. exists (firstn n s), []. rewrite app_nil_r. symmetry. apply firstn_skipn. Qed.

Lemma part_of_concat (A : Type) (f : A -> str) (l : list A) (x : A) :
  In x l -> part_of (f x) (concat (map f l)).
Proof.
  intro H. apply in_split in H. destruct H as (l1 & l2 & ->).
  rewrite map_app, concat_app. cbn [map concat]. apply part_of_middle.
Qed.

(** The fields of a split are parts of the text. *)
Lemma part_of_split (r : regex) (s t : str) : In t (re_split r s) -> part_of t s.
Proof.
  unfold re_split, gaps. rewrite in_flat_map. intros ([g | h gs] & Hin & Ht); simpl in Ht.
  - destruct Ht as [<- | []].
    pose proof (part_of_concat piece piece_text _ (Gap g) Hin) as H.
    rewrite pieces_partition in H. exact H.
  - contradiction.
Qed.

(** The lines of a text are parts of it. *)
Lemma splitlines_go_part (s : str) :
  forall line after_cr ln,
    (after_cr = true -> line = []) ->
    In ln (splitlines_go line after_cr s) -> part_of ln (rev line ++ s).
Proof.
  induction s as [|x s IH]; intros line after_cr ln Hcr Hin; simpl in Hin.
  - destruct line as [|y line]; [contradiction|]. destruct Hin as [<- | []].
    rewrite app_nil_r. apply part_of_refl.
  - destruct (after_cr && chr_eqb x LF) eqn:E.
    + apply andb_true_iff in E. destruct E as [E _]. rewrite (Hcr E) in *.
      apply (IH [] false ln) in Hin; [|discriminate].
      destruct Hin as (p & q & Es). simpl in Es. exists (x :: p), q. simpl. rewrite Es. reflexivity.
    + destruct (is_linebreak x).
      * destruct Hin as [<- | Hin].
        -- exists [], (x :: s). reflexivity.
        -- apply (IH [] (chr_eqb x CR) ln) in Hin; [|reflexivity].
           destruct Hin as (p & q & Es). simpl in Es.
           exists (rev line ++ x :: p), q. rewrite Es, <- app_assoc. reflexivity.
      * apply (IH (x :: line) false ln) in Hin; [|discriminate].
        simpl in Hin. rewrite <- app_assoc in Hin. exact Hin.
Qed.

Lemma split_on_parts (p : char -> bool) (s : str) :
  (exists h t post, split_on p s = h :: t /\ s = h ++ post)
  /\ forall f, In f (split_on p s) -> part_of f s.
Proof.
  induction s as [|c s [(h & t & post & Es & Eh) IH]].
  - split; [exists [], [], []; split; reflexivity|].
    intros f [<- | []]. apply part_of_refl.
  - cbn [split_on]. destruct (p c).
    + split; [exists [], (split_on p s), (c :: s); split; reflexivity|].
      intros f [<- | Hf]; [exists [], (c :: s); reflexivity|].
      destruct (IH f Hf) as (pre & post' & E). exists (c :: pre), post'. rewrite E. reflexivity.
    + rewrite Es. split; [exists (c :: h), t, post; split; [reflexivity | rewrite Eh; reflexivity]|].
      intros f [<- | Hf].
      * exists [], post. rewrite Eh. reflexivity.
      * assert (Hin : In f (split_on p s)) by (rewrite Es; right; exact Hf).
        destruct (IH f Hin) as (pre & post' & E). exists (c :: pre), post'. rewrite E. reflexivity.
Qed.

(** A cleaned part of a group is a contiguous part of the group. *)
Lemma part_of_clean (g n : str) : In n (clean_parts g) -> part_of n g.
Proof.
  unfold clean_parts. intro H. apply filter_In in H. destruct H as [H _].
  apply in_map_iff in H. destruct H as (f & <- & Hf).
  apply (part_of_trans _ f); [apply part_of_strip|].
  apply (proj2 (split_on_parts is_slash_or_comma g) f Hf).
Qed.

Lemma starts_with_app (x post : str) : starts_with x (x ++ post) = true.
Proof.
  induction x as [|a x IH]; [reflexivity|]. cbn [app starts_with].
  rewrite chr_eqb_refl. exact IH.
Qed.

Lemma part_of_occurs (x s : str) : part_of x s -> occurs_in x s = true.
Proof.
  intros (pre & post & ->). induction pre as [|c pre IH].
  - cbn [app]. destruct (x ++ post) eqn:E; cbn [occurs_in]; rewrite <- E, starts_with_app;
      reflexivity.
  - cbn [app occurs_in]. rewrite IH. apply orb_true_r.
Qed.

Lemma part_of_body_line (body ln : str) : In ln (body_lines body) -> part_of ln body.
Proof.
  unfold body_lines. rewrite filter_In, in_map_iff. intros [(raw & <- & Hraw) _].
  apply (part_of_trans _ raw); [apply part_of_strip|].
  apply (splitlines_go_part body [] false raw) in Hraw; [exact Hraw | discriminate].
Qed.

(** The raw category and the body of a meal are parts of its entry. *)
Lemma parse_entry_texts (ent : str) (m : Meal) :
  parse_entry ent = Some m ->
  exists cat_raw body,
    part_of cat_raw ent /\ part_of body ent /\ build_meal cat_raw body = Some m.
Proof.
  unfold parse_entry. destruct (is_empty (strip ent)); [discriminate|].
  unfold re_match. destruct (rx_at entry_header_re true (strip ent)) as [[n gs]|] eqn:R;
    [|discriminate].
  cbn [option_map]. unfold group, mk_match. cbn [m_groups m_rest fst snd pred].
  intro H. apply entry_header_match in R.
  destruct R as (h & nl & rest & E & _ & _ & _ & _ & -> & Er). cbn [nth] in H.
  exists (strip h), (strip (skipn n (strip ent))). split; [|split; [|exact H]].
  - apply (part_of_trans _ h); [apply part_of_strip|].
    apply (part_of_trans _ (strip ent)); [|apply part_of_strip].
    exists [], (nl ++ rest). exact E.
  - apply (part_of_trans _ (skipn n (strip ent))); [apply part_of_strip|].
    apply (part_of_trans _ (strip ent)); [apply part_of_skipn | apply part_of_strip].
Qed.

Lemma parsed_meal_texts (now_year : Z) (text : str) (d : Day) (m : Meal) :
  In d (parse_text_blocks now_year text) -> In m (meals d) ->
  exists cat_raw body,
    part_of cat_raw text /\ part_of body text /\ build_meal cat_raw body = Some m.
Proof.
  unfold parse_text_blocks. rewrite in_map_iff. intros ([gs t] & <- & Hin) Hm.
  unfold re_pieces in Hin.
  apply (hits_with_gap_found day_header_re day_header_re_no_bos day_header_nonempty) in Hin.
  destruct Hin as (pre & h & post & Hs & _).
  assert (Ht : part_of t text).
  { rewrite Hs. exists (pre ++ h), post. rewrite <- app_assoc. reflexivity. }
  unfold parse_day in Hm. cbn [meals snd] in Hm. apply in_flat_map in Hm.
  destruct Hm as (ent & He & Hm). destruct (parse_entry ent) as [m'|] eqn:E; [|contradiction].
  destruct Hm as [<- | []].
  assert (Hent : part_of ent text).
  { apply (part_of_trans _ (strip t)); [apply (part_of_split _ _ _ He)|].
    apply (part_of_trans _ t); [apply part_of_strip | exact Ht]. }
  destruct (parse_entry_texts ent m' E) as (cat_raw & body & H1 & H2 & H3).
  exists cat_raw, body. split; [|split; [|exact H3]].
  - apply (part_of_trans _ ent); assumption.
  - apply (part_of_trans _ ent); assumption.
Qed.

(** ** The separator of the entries *)






(** ** The matches of a pattern, one after the other *)

Section Scan.
Variable r : regex.
Hypothesis r_no_bos : no_bos r.
Hypothesis r_nonempty : forall b s gs, rx_at r b s <> Some (O, gs).

Lemma hits_scanned (s : str) :
  forall b gap, scanned r s (hits_with_gap (re_pieces_go r b 0 gap s)).
Proof.
  remember (length s) as n eqn:Hn. revert s Hn.
  induction n as [n IH] using lt_wf_ind. intros s Hn b gap.
  destruct (pieces_shape r r_no_bos r_nonempty s b gap)
    as [[Hnone E] | (pre & h & rest & gs & Hs & Hh & Hm & Hbefore & E)]; rewrite E.
  - apply scanned_none. exact Hnone.
  - destruct (pieces_shape r r_no_bos r_nonempty rest false [])
      as [[Hnone' E'] | (pre' & h' & rest' & gs' & Hs' & Hh' & Hm' & Hbefore' & E')];
      rewrite E'.
    + cbn [hits_with_gap]. rewrite Hs. rewrite <- (app_nil_r rest) at 1.
      rewrite <- (app_nil_r rest) in Hm, Hbefore.
      apply scanned_hit; [exact Hbefore | exact Hm | | left; reflexivity |].
      * intros p q Et _. rewrite app_nil_r. apply (Hnone' p q Et).
      * apply scanned_none. intros p q Epq. symmetry in Epq. apply app_eq_nil in Epq.
        destruct Epq as [_ ->]. apply (Hnone' rest []). rewrite app_nil_r. reflexivity.
    + assert (Hlen : (length (h' ++ rest') < n)%nat).
      { subst n s rest. rewrite !length_app. destruct h; [congruence | simpl; lia]. }
      pose proof (IH _ Hlen (h' ++ rest') eq_refl false []) as Hrec.
      assert (Ep : re_pieces_go r false 0 [] (h' ++ rest')
                   = Gap [] :: Hit h' gs' :: re_pieces_go r false 0 [] rest').
      { destruct h' as [|c0 h'0] eqn:Eh'; [congruence|]. rewrite <- Eh' in *.
        assert (Hl : length h' = S (length h'0)) by (rewrite Eh'; reflexivity).
        rewrite Hl in Hm'.
        pose proof (pieces_first_match r r_no_bos [] (h' ++ rest')
                      (length h'0) gs' Hm') as Hp.
        rewrite <- Hl in Hp.
        rewrite firstn_app, Nat.sub_diag, firstn_all, skipn_length_app in Hp.
        simpl in Hp. rewrite app_nil_r in Hp. apply Hp.
        intros p q Epq Hq. symmetry in Epq. apply app_eq_nil in Epq. tauto. }
      rewrite Ep in Hrec.
      change (hits_with_gap (Gap (rev gap ++ pre) :: Hit h gs
                               :: Gap (rev [] ++ pre') :: Hit h' gs'
                               :: re_pieces_go r false 0 [] rest'))
        with ((gs, rev [] ++ pre')
                :: hits_with_gap (Gap [] :: Hit h' gs' :: re_pieces_go r false 0 [] rest')).
      simpl rev. simpl app at 1. rewrite Hs, Hs'.
      rewrite Hs' in Hm, Hbefore.
      apply scanned_hit; [exact Hbefore | exact Hm | exact Hbefore' | | exact Hrec].
      right. rewrite Hm'. discriminate.
Qed.
End Scan.

Lemma scanned_page_days (y : Z) (s : str) (l : list (list str * str)) :
  scanned day_header_re s l -> page_days y s (map (parse_day y) l).
Proof.
  intro H. induction H as [s Hnone | pre h gs t post l Hbefore Hm Hin Hpost _ IH].
  - apply page_days_none. intros pre suf E. apply no_header_none. apply (Hnone pre suf E).
  - destruct (header_match _ _ _ _ Hm) as (wd & dd & mm & rest & Hh & -> & _ & Hr & _).
    rewrite skipn_length_app in Hr. subst rest.
    destruct (header_parts _ _ _ _ _ Hh) as (Hw & [_ Hdd] & [_ Hmm]).
    cbn [map].
    match goal with
    | |- page_days _ _ (?d :: _) =>
        replace d with (day_of_header y wd dd mm t)
          by (symmetry; apply (parse_day_header y wd dd mm t Hw Hdd Hmm))
    end.
    apply (@page_days_header y pre h wd dd mm t post).
    + intros p q E Hq. apply no_header_none. apply (Hbefore p q E Hq).
    + exact Hh.
    + intros p q E Hq. apply no_header_none. apply (Hin p q E Hq).
    + destruct Hpost as [Hp | Hp]; [left; exact Hp | right]. apply header_at_iff. exact Hp.
    + exact IH.
Qed.

(** ** The writer of [tostring] *)

Lemma xmlcharrefreplace_app (a b : str) :
  xmlcharrefreplace (a ++ b) = xmlcharrefreplace a ++ xmlcharrefreplace b.
Proof. apply flat_map_app. Qed.

Lemma xmlcharrefreplace_flat_map (A : Type) (f : A -> str) (l : list A) :
  xmlcharrefreplace (flat_map f l) = flat_map (fun x => xmlcharrefreplace (f x)) l.
Proof.
  induction l as [|x l IH]; [reflexivity|].
  cbn [flat_map]. rewrite xmlcharrefreplace_app, IH. reflexivity.
Qed.

Lemma xmlcharrefreplace_plain (s : str) :
  (forall c, In c s -> is_surrogate c = false) -> xmlcharrefreplace s = s.
Proof.
  intro H. induction s as [|c s IH]; [reflexivity|].
  unfold xmlcharrefreplace in *. cbn [flat_map]. rewrite (H c (or_introl eq_refl)).
  cbn [app]. f_equal. apply IH. intros x Hx. apply H. right. exact Hx.
Qed.

Lemma small_not_surrogate (c : char) : (c < 256)%N -> is_surrogate c = false.
Proof.
  intro H. unfold is_surrogate. destruct (55296 <=? c)%N eqn:E; [|reflexivity].
  apply N.leb_le in E. lia.
Qed.

(** A text of the script, in ASCII or Latin-1, passes the writer as it is. *)
Lemma xmlcharrefreplace_u (s : string) : xmlcharrefreplace (u s) = u s.
Proof.
  apply xmlcharrefreplace_plain. intros c Hc. unfold u in Hc.
  apply in_map_iff in Hc. destruct Hc as (a & <- & _).
  apply small_not_surrogate. apply N_ascii_bounded.
Qed.

Lemma xmlcharrefreplace_digits (s : str) :
  all_in is_ascii_digit s -> xmlcharrefreplace s = s.
Proof.
  intro H. apply xmlcharrefreplace_plain. intros c Hc.
  unfold all_in in H. rewrite Forall_forall in H. apply H in Hc.
  apply small_not_surrogate. unfold is_ascii_digit in Hc.
  apply andb_prop in Hc. destruct Hc as [_ Hc]. apply N.leb_le in Hc. lia.
Qed.

(** ** The text of a float *)

Lemma format_2f_nonempty (x : pyfloat) : format_2f x <> [].
Proof.
  destruct x as [neg m e | neg |]; [| destruct neg; discriminate | discriminate].
  unfold format_2f. destruct neg; [discriminate|]. cbn [app].
  destruct (dec_digits_ok (Z.to_N (scaled_rne (m * 100) 1 (- e) / 100))) as [H _].
  destruct (dec_digits _); [congruence | discriminate].
Qed.

Lemma two_digits_ascii (n : Z) : 0 <= n < 100 -> all_in is_ascii_digit (two_digits n).
Proof.
  intro H.
  assert (H1 : 0 <= n / 10 < 10)
    by (split; [apply Z.div_pos; lia | apply Z.div_lt_upper_bound; lia]).
  pose proof (Z.mod_pos_bound n 10 ltac:(lia)) as H2.
  unfold two_digits. repeat constructor; apply digit_char_ok; lia.
Qed.

(** The text of a float is made of ASCII digits and of the characters of
    "-", "." "inf" and "nan". *)
Lemma format_2f_chars (x : pyfloat) (c : char) :
  In c (format_2f x) -> is_ascii_digit c = true \/ In c (u "-.infa").
Proof.
  intro Hc.
  assert (Hd : forall w : str, all_in is_ascii_digit w -> In c w -> is_ascii_digit c = true).
  { intros w Hw Hin. unfold all_in in Hw. rewrite Forall_forall in Hw. apply Hw. exact Hin. }
  destruct x as [neg m e | neg |].
  - unfold format_2f in Hc. apply in_app_or in Hc. destruct Hc as [Hc | Hc].
    { destruct neg; [|contradiction]. destruct Hc as [<- | []]. right. left. reflexivity. }
    apply in_app_or in Hc. destruct Hc as [Hc | Hc].
    { left. apply (Hd _ (proj2 (dec_digits_ok _)) Hc). }
    apply in_app_or in Hc. destruct Hc as [Hc | Hc].
    { destruct Hc as [<- | []]. right. right. left. reflexivity. }
    left. apply (Hd (two_digits (scaled_rne (m * 100) 1 (- e) mod 100))); [|exact Hc].
    apply two_digits_ascii. apply Z.mod_pos_bound. lia.
  - right. destruct neg; simpl in Hc; simpl; tauto.
  - right. simpl in Hc; simpl; tauto.
Qed.

Lemma escape_cdata_plain (s : str) :
  (forall c, In c s -> c <> ch "&" /\ c <> ch "<" /\ c <> ch ">") -> escape_cdata s = s.
Proof.
  intro H. induction s as [|c s IH]; [reflexivity|].
  unfold escape_cdata in *. cbn [flat_map].
  destruct (H c (or_introl eq_refl)) as (H1 & H2 & H3).
  apply chr_eqb_neq in H1, H2, H3. rewrite H1, H2, H3. cbn [app]. f_equal.
  apply IH. intros x Hx. apply H. right. exact Hx.
Qed.

(** The text of a float has no character that needs an escape or a
    character reference. *)
Lemma format_2f_plain (x : pyfloat) : written_text (format_2f x) = format_2f x.
Proof.
  unfold written_text.
  assert (E : escape_cdata (format_2f x) = format_2f x).
  { apply escape_cdata_plain. intros c Hc. apply format_2f_chars in Hc.
    destruct Hc as [Hc | Hc].
    - repeat split; intro E; subst c; discriminate Hc.
    - simpl in Hc. repeat split; intro E; subst c;
        repeat (destruct Hc as [Hc | Hc]; [discriminate Hc|]); exact Hc. }
  rewrite E. apply xmlcharrefreplace_plain. intros c Hc. apply format_2f_chars in Hc.
  apply small_not_surrogate. destruct Hc as [Hc | Hc].
  - unfold is_ascii_digit in Hc. apply andb_prop in Hc. destruct Hc as [_ Hc].
    apply N.leb_le in Hc. lia.
  - simpl in Hc. repeat (destruct Hc as [<- | Hc]; [reflexivity|]). contradiction.
Qed.

(** ** The text of the elements *)

Lemma flat_map_map (A B C : Type) (f : A -> B) (g : B -> list C) (l : list A) :
  flat_map g (map f l) = flat_map (fun x => g (f x)) l.
Proof. induction l as [|x l IH]; simpl; [reflexivity | rewrite IH; reflexivity]. Qed.

Lemma flat_map_ext_in (A B : Type) (f g : A -> list B) (l : list A) :
  (forall x, In x l -> f x = g x) -> flat_map f l = flat_map g l.
Proof.
  intro H. induction l as [|x l IH]; simpl; [reflexivity|].
  rewrite (H x) by (left; reflexivity). rewrite IH; [reflexivity|].
  intros y Hy. apply H. right. exact Hy.
Qed.

Lemma flat_map_nested (A B C : Type) (f : A -> list B) (g : B -> list C) (l : list A) :
  flat_map g (flat_map f l) = flat_map (fun x => flat_map g (f x)) l.
Proof.
  induction l as [|x l IH]; [reflexivity|].
  cbn [flat_map]. rewrite flat_map_app, IH. reflexivity.
Qed.

Lemma written_text_leaf (tag : string) (t : str) :
  xmlcharrefreplace (serialize_xml [] (Element (u tag) [] t [])) = text_element tag t.
Proof.
  unfold text_element, full_text_element, written_text. destruct t as [|c t].
  - cbn [serialize_xml is_empty andb flat_map app].
    rewrite !xmlcharrefreplace_app, !xmlcharrefreplace_u. reflexivity.
  - cbn [serialize_xml is_empty andb flat_map app].
    rewrite !xmlcharrefreplace_app, !xmlcharrefreplace_u. reflexivity.
Qed.

Lemma written_price (role : str) (x : pyfloat) :
  xmlcharrefreplace
    (serialize_xml [] (Element (u "price") [(u "role", role)] (format_2f x) []))
  = price_text_element role x.
Proof.
  pose proof (format_2f_nonempty x) as H. pose proof (format_2f_plain x) as P.
  unfold price_text_element, written_attribute. unfold written_text in P.
  cbn [serialize_xml flat_map]. unfold write_attrib. cbn [fst snd].
  destruct (is_empty (format_2f x)) eqn:E; [destruct (format_2f x); [congruence | discriminate E]|].
  cbn [andb]. rewrite !xmlcharrefreplace_app, P, !xmlcharrefreplace_u.
  change (xmlcharrefreplace [dquote]) with [dquote].
  change (xmlcharrefreplace []) with (@nil char).
  simpl. rewrite <- ?app_assoc. reflexivity.
Qed.

Lemma serialize_parent (ns tag : str) (attrib : list (str * str)) (c : element)
  (cs : list element) :
  serialize_xml ns (Element tag attrib [] (c :: cs))
  = u "<" ++ tag ++ ns ++ flat_map write_attrib attrib ++ u ">"
      ++ flat_map (serialize_xml []) (c :: cs) ++ u "</" ++ tag ++ u ">".
Proof. reflexivity. Qed.

Lemma written_parent (ns tag : str) (attrib : list (str * str)) (c : element)
  (cs : list element) :
  xmlcharrefreplace (serialize_xml ns (Element tag attrib [] (c :: cs)))
  = xmlcharrefreplace (u "<" ++ tag ++ ns ++ flat_map write_attrib attrib ++ u ">")
      ++ flat_map (fun e => xmlcharrefreplace (serialize_xml [] e)) (c :: cs)
      ++ xmlcharrefreplace (u "</" ++ tag ++ u ">").
Proof.
  rewrite serialize_parent.
  rewrite !xmlcharrefreplace_app, !xmlcharrefreplace_flat_map, <- ?app_assoc. reflexivity.
Qed.

(** The text of a meal element. *)
Lemma written_meal (m : Meal) :
  xmlcharrefreplace (serialize_xml [] (meal_element m)) = meal_text m.
Proof.
  unfold meal_element, meal_text. cbn [app].
  rewrite written_parent. cbn [flat_map app].
  rewrite (written_text_leaf "name" (name m)).
  rewrite !flat_map_app, !flat_map_map.
  assert (E3 : flat_map (fun e => xmlcharrefreplace (serialize_xml [] e))
                        (price_elements (prices m))
               = flat_map (fun rv => match snd rv with
                                     | Some x => price_text_element (fst rv) x
                                     | None => []
                                     end) (prices m)).
  { unfold price_elements. induction (prices m) as [|[r v] ps IH]; [reflexivity|].
    cbn [flat_map fst snd]. rewrite flat_map_app, IH. f_equal.
    destruct v as [x|]; [|reflexivity]. cbn [flat_map]. rewrite app_nil_r.
    apply written_price. }
  rewrite E3.
  rewrite (flat_map_ext _ _ (fun n => written_text_leaf "note" n)).
  rewrite (flat_map_ext _ _ (fun c => written_text_leaf "note" (u "Allergene: " ++ c))).
  rewrite !xmlcharrefreplace_app, !xmlcharrefreplace_u.
  simpl. rewrite <- ?app_assoc. reflexivity.
Qed.

Lemma written_category (g : str * list Meal) :
  snd g <> [] ->
  xmlcharrefreplace (serialize_xml [] (category_element g)) = category_text g.
Proof.
  intro Hne. unfold category_element, category_text, written_attribute.
  destruct (snd g) as [|m ms] eqn:E; [congruence|]. cbn [map].
  rewrite written_parent.
  change (m :: ms) with (snd (fst g, m :: ms)) at 1. cbn [snd].
  change (meal_element m :: map meal_element ms) with (map meal_element (m :: ms)).
  rewrite flat_map_map, (flat_map_ext _ _ written_meal).
  cbn [flat_map]. unfold write_attrib. cbn [fst snd].
  rewrite !xmlcharrefreplace_app, !xmlcharrefreplace_u, !app_nil_r.
  change (xmlcharrefreplace [dquote]) with [dquote].
  change (xmlcharrefreplace []) with (@nil char).
  simpl. rewrite <- ?app_assoc. reflexivity.
Qed.

Lemma group_nonempty (ms : list Meal) (g : str * list Meal) :
  In g (group_meals ms) -> snd g <> [].
Proof.
  rewrite group_meals_spec, in_map_iff. intros (k & <- & Hk). cbn [snd].
  unfold categories_in_order in Hk. apply (proj1 (first_occurrences_keys _ _)) in Hk.
  apply in_map_iff in Hk. destruct Hk as (m & Ec & Hm).
  assert (Hin : In m (meals_of_category k ms)).
  { unfold meals_of_category. apply filter_In. split; [exact Hm|]. rewrite Ec. apply str_eqb_refl. }
  intro E. rewrite E in Hin. contradiction.
Qed.

Lemma group_meals_nonempty (m : Meal) (ms : list Meal) : group_meals (m :: ms) <> [].
Proof.
  rewrite group_meals_spec. unfold categories_in_order. cbn [map first_occurrences str_in existsb].
  discriminate.
Qed.

Lemma written_day (d : Day) :
  flat_map (fun e => xmlcharrefreplace (serialize_xml [] e)) (day_elements d) = day_text d.
Proof.
  unfold day_elements, day_text, written_attribute.
  destruct (date d) as [dt|] eqn:Ed; [|reflexivity].
  destruct (is_empty dt); [reflexivity|]. cbn [flat_map]. rewrite app_nil_r.
  destruct (meals d) as [|m ms] eqn:Em.
  - cbn [group_meals fold_left map serialize_xml is_empty andb flat_map].
    unfold write_attrib. cbn [fst snd].
    rewrite !xmlcharrefreplace_app, !xmlcharrefreplace_u, !app_nil_r.
    change (xmlcharrefreplace [dquote]) with [dquote].
    change (xmlcharrefreplace []) with (@nil char).
    simpl. rewrite <- ?app_assoc. reflexivity.
  - pose proof (group_meals_nonempty m ms) as Hg.
    assert (Hc : forall g, In g (group_meals (m :: ms)) ->
                 xmlcharrefreplace (serialize_xml [] (category_element g)) = category_text g).
    { intros g Hin. apply written_category. apply (group_nonempty _ g Hin). }
    assert (Es : flat_map category_text (group_meals (m :: ms))
                 = flat_map (fun k => category_text (k, meals_of_category k (m :: ms)))
                            (categories_in_order (m :: ms))).
    { rewrite group_meals_spec, flat_map_map. reflexivity. }
    rewrite <- Es.
    destruct (group_meals (m :: ms)) as [|g gs] eqn:Eg; [congruence|]. cbn [map].
    rewrite written_parent.
    change (category_element g :: map category_element gs)
      with (map category_element (g :: gs)).
    rewrite flat_map_map, (flat_map_ext_in _ _ _ _ (g :: gs) Hc).
    cbn [flat_map]. unfold write_attrib. cbn [fst snd].
    rewrite !xmlcharrefreplace_app, !xmlcharrefreplace_u, !app_nil_r.
    change (xmlcharrefreplace [dquote]) with [dquote].
    change (xmlcharrefreplace []) with (@nil char).
    simpl. rewrite <- ?app_assoc. reflexivity.
Qed.

(** The text of the feed, for every name and all Days. *)
Lemma written_feed (canteen_name : str) (days : list Day) :
  build_openmensa_xml canteen_name days = feed_text canteen_name days.
Proof.
  unfold build_openmensa_xml, tostring, openmensa_tree, feed_text.
  rewrite !xmlcharrefreplace_app, written_parent. cbn [flat_map]. rewrite app_nil_r.
  rewrite written_parent. cbn [flat_map].
  rewrite (written_text_leaf "name" canteen_name).
  rewrite flat_map_nested, (flat_map_ext _ _ written_day).
  unfold write_attrib. cbn [fst snd].
  change (escape_attrib NAMESPACE) with NAMESPACE.
  change (escape_attrib (u "2.1")) with (u "2.1").
  unfold NAMESPACE.
  rewrite !xmlcharrefreplace_app, !xmlcharrefreplace_u, !app_nil_r.
  change (xmlcharrefreplace [dquote]) with [dquote].
  change (xmlcharrefreplace [LF]) with [LF].
  change (xmlcharrefreplace []) with (@nil char).
  simpl. rewrite <- ?app_assoc. reflexivity.
Qed.

(** ** The feed of a parsed page *)

Lemma escape_attrib_plain (s : str) :
  (forall c, In c s -> is_ascii_digit c = true \/ c = ch "-") -> escape_attrib s = s.
Proof.
  intro H. induction s as [|c s IH]; [reflexivity|].
  unfold escape_attrib in *. cbn [flat_map].
  assert (Hc : chr_eqb c (ch "&") = false /\ chr_eqb c (ch "<") = false
               /\ chr_eqb c (ch ">") = false /\ chr_eqb c dquote = false
               /\ chr_eqb c CR = false /\ chr_eqb c LF = false /\ chr_eqb c 9%N = false).
  { destruct (H c (or_introl eq_refl)) as [Hd | ->]; [|repeat split; reflexivity].
    repeat split; apply chr_eqb_neq; intro E; subst c; discriminate Hd. }
  destruct Hc as (H1 & H2 & H3 & H4 & H5 & H6 & H7).
  rewrite H1, H2, H3, H4, H5, H6, H7. cbn [app]. f_equal.
  apply IH. intros x Hx. apply H. right. exact Hx.
Qed.

(** The date of a parsed Day is written as it is, and is not empty. *)
Lemma parsed_date_plain (now_year : Z) (text : str) (d : Day) (dt : str) :
  In d (parse_text_blocks now_year text) -> date d = Some dt ->
  written_attribute dt = dt /\ dt <> [].
Proof.
  intros Hd Hdt.
  destruct (parsed_day_header now_year text d Hd)
    as (pre & h & wd & dd & mm & block & post & _ & Hh & _ & _ & ->).
  destruct (header_parts _ _ _ _ _ Hh) as (Hw & Hdd & Hmm).
  rewrite (parse_day_header _ wd dd mm block Hw (proj2 Hdd) (proj2 Hmm)) in Hdt.
  cbn [date] in Hdt.
  destruct (strptime_dmY _) as [x|] eqn:S; [|discriminate]. injection Hdt as <-.
  destruct (header_date dd mm _ x Hdd Hmm S) as (Hy & Hc & ->).
  destruct Hc as (_ & Hmo & Hda).
  pose proof (days_in_month_bound (extract_year_from_text now_year text) (int_of_digits mm)) as Hb.
  rewrite isoformat_shape by lia.
  assert (Hchars : forall c,
            In c (str_of_Z (extract_year_from_text now_year text) ++ u "-"
                    ++ two_digits (int_of_digits mm) ++ u "-" ++ two_digits (int_of_digits dd)) ->
            is_ascii_digit c = true \/ c = ch "-").
  { intros c Hc.
    assert (Hy' : all_in is_ascii_digit (str_of_Z (extract_year_from_text now_year text))).
    { unfold str_of_Z. destruct (_ <? 0) eqn:E; [apply Z.ltb_lt in E; lia|].
      apply dec_digits_ok. }
    pose proof (two_digits_ascii (int_of_digits mm) ltac:(lia)) as Hm'.
    pose proof (two_digits_ascii (int_of_digits dd) ltac:(lia)) as Hd'.
    unfold all_in in *. rewrite Forall_forall in Hy', Hm', Hd'.
    apply in_app_or in Hc. destruct Hc as [Hc | Hc]; [left; auto|].
    apply in_app_or in Hc. destruct Hc as [[<- | []] | Hc]; [right; reflexivity|].
    apply in_app_or in Hc. destruct Hc as [Hc | Hc]; [left; auto|].
    apply in_app_or in Hc. destruct Hc as [[<- | []] | Hc]; [right; reflexivity | left; auto]. }
  split.
  - unfold written_attribute. rewrite (escape_attrib_plain _ Hchars).
    apply xmlcharrefreplace_plain. intros c Hc. apply small_not_surrogate.
    destruct (Hchars c Hc) as [H | ->]; [|reflexivity].
    unfold is_ascii_digit in H. apply andb_prop in H. destruct H as [_ H].
    apply N.leb_le in H. lia.
  - pose proof (str_of_Z_length_4 _ Hy) as L.
    destruct (str_of_Z (extract_year_from_text now_year text)); [discriminate L | discriminate].
Qed.

(** The name and the notes of a parsed meal are not empty, and its roles
    are those of the script. *)
Lemma parsed_meal_nonempty (now_year : Z) (text : str) (d : Day) (m : Meal) :
  In d (parse_text_blocks now_year text) -> In m (meals d) ->
  name m <> [] /\ (forall n, In n (notes m) -> n <> [])
  /\ map fst (prices m) = [u "students"; u "employees"; u "others"].
Proof.
  intros Hd Hm.
  destruct (parsed_meal_parts _ _ _ _ Hd Hm) as (cat_raw & body & _ & _ & Hb).
  destruct (build_meal_fields _ _ _ Hb) as (nm & rest & Hl & _ & En & _ & _ & Ep).
  split; [|split].
  - assert (Hin : In nm (body_lines body)) by (rewrite Hl; left; reflexivity).
    apply body_lines_facts in Hin. rewrite En. tauto.
  - intros n Hn. destruct (notes_sources _ _ _ _ Hb Hn) as [(g & _ & _ & Hg) | Hln].
    + apply (clean_part_facts g n Hg).
    + apply in_skipn in Hln. apply (body_lines_facts body n Hln).
  - rewrite Ep. reflexivity.
Qed.

Lemma undated_day_elements (days : list Day) :
  dated_days days = 0%nat -> flat_map day_elements days = [].
Proof.
  intro H. pose proof (day_elements_count days) as L. rewrite H in L.
  destruct (flat_map day_elements days); [reflexivity | discriminate L].
Qed.

(* ===================================================================== *)
(** * The claims of the specification *)
(* ===================================================================== *)

(** Claim C1, as stated, fails: on a page with four day headers of which one
    is the 30th of February, four days are scanned but the tally of the
    sufficiency check is three, and the run ends with exit code 4. *)
Lemma sufficiency_tally_counterexample :
  let days := parse_text_blocks 2024 four_days_page in
  map date days = [Some (u "2024-01-01"); Some (u "2024-01-02"); Some (u "2024-01-03"); None]
  /\ length days = 4%nat
  /\ dated_days days = 3%nat
  /\ dated_days days <> length days
  /\ exit_code (main 2024 (Some four_days_page)) = 4.
Proof. vm_compute. repeat split; try reflexivity. discriminate. Qed.

(** Claim C1, amended.  A Day whose header date fails to parse has no date;
    it is left out of the rendered feed, whose day elements are those of the
    Days with a date, in order, and it is left out of the tally of the
    sufficiency check as well, which counts the Days with a date: the tally
    is the number of day elements of the feed.  Exit code 4 is given when at
    least one Day was scanned and fewer than four have a date, and the feed
    is written all the same; a Day without date counts only for the check
    that any Day was scanned (exit code 3). *)
Theorem undated_days_left_out_of_feed_and_tally :
  forall now_year text,
    let days := parse_text_blocks now_year text in
    let root := openmensa_tree canteen_title days in
    map (fun e => attribute (u "date") (el_attrib e)) (day_elements_of root)
      = flat_map (fun d => opt_list (date d)) days
    /\ dated_days days = length (filter (fun d => is_some (date d)) days)
    /\ dated_days days = length (day_elements_of root)
    /\ (exit_code (main now_year (Some text)) = 3 <-> days = [])
    /\ (exit_code (main now_year (Some text)) = 4 <->
          days <> [] /\ (dated_days days < 4)%nat)
    /\ (exit_code (main now_year (Some text)) = 0 <-> (4 <= dated_days days)%nat)
    /\ (days <> [] ->
        feed (main now_year (Some text)) = Some (build_openmensa_xml canteen_title days)).
Proof.
  intros now_year text days root.
  assert (Hd : forall d, In d days -> has_date d = is_some (date d))
    by (intros d Hin; apply (parsed_day_date now_year text d Hin)).
  unfold root. rewrite feed_day_elements.
  split; [apply day_elements_dates, Hd|]. split.
  { unfold dated_days. f_equal. apply filter_ext_in. exact Hd. }
  split; [symmetry; apply day_elements_count|].
  pose proof (exit_code_cases days _ (main_exit_code now_year text)) as (H3 & H4 & H0).
  split; [exact H3|]. split; [exact H4|]. split; [exact H0|].
  apply main_feed.
Qed.

Lemma undated_days_left_out_of_feed_and_tally_witness :
  let days := parse_text_blocks 2024 four_days_page in
  map (fun e => attribute (u "date") (el_attrib e))
      (day_elements_of (openmensa_tree canteen_title days))
    = [u "2024-01-01"; u "2024-01-02"; u "2024-01-03"]
  /\ exit_code (main 2024 (Some four_days_page)) = 4.
Proof.
  intro days.
  destruct (undated_days_left_out_of_feed_and_tally 2024 four_days_page)
    as (Hdates & _ & _ & _ & H4 & _ & _).
  split.
  - fold days in Hdates. rewrite Hdates. vm_compute. reflexivity.
  - apply H4. split; [vm_compute; discriminate | vm_compute; lia].
Defined.

Lemma tails_suffix (pre p q : str) : pre = p ++ q -> In q (tails pre).
Proof.
  revert pre. induction p as [|c p IH]; intros pre ->; simpl.
  - destruct q; left; reflexivity.
  - right. apply IH. reflexivity.
Qed.

Lemma no_range_before_spec (pre s : str) :
  no_range_before pre s = true ->
  forall p q, pre = p ++ q -> q <> [] -> no_range_at (q ++ s).
Proof.
  unfold no_range_before. rewrite forallb_forall. intros H p q Hpq Hq d m y Hr.
  specialize (H q (tails_suffix pre p q Hpq)). destruct q as [|c q]; [congruence|].
  cbn [is_empty orb] in H. apply negb_true_iff in H.
  assert (Hne : rx_at year_range_re true ((c :: q) ++ s) <> None)
    by (apply range_at_iff; exists d, m, y; exact Hr).
  destruct (rx_at year_range_re true ((c :: q) ++ s)); [discriminate | congruence].
Qed.

Lemma year_of_calendar_date (now_year : Z) (d m y : str) :
  ascii_date d m y ->
  (calendar_date (digits_value y) (digits_value m) (digits_value d) ->
   year_of_date_text now_year (dmy_text d m y) = digits_value y)
  /\ (~ calendar_date (digits_value y) (digits_value m) (digits_value d) ->
      year_of_date_text now_year (dmy_text d m y) = now_year).
Proof.
  intro H. unfold year_of_date_text. rewrite (strptime_ascii_date d m y H). split; intro Hc.
  - apply make_date_some in Hc. rewrite Hc. reflexivity.
  - rewrite (make_date_none _ _ _ Hc). reflexivity.
Qed.

(** Claim C2.  When the first date range of the text, "D1.M1.Y - D2.M2.Y2"
    with optional white space around the hyphen, starts with a date of the
    calendar written day first, [extract_year_from_text] returns the year Y
    of that date; when the text has no date range, and when the first date
    of its first date range cannot be parsed, it returns the current year. *)
Theorem year_of_first_date_range :
  forall now_year,
    (forall pre s d1 m1 y1,
       range_at s d1 m1 y1 ->
       (forall p q, pre = p ++ q -> q <> [] -> no_range_at (q ++ s)) ->
       ascii_date d1 m1 y1 ->
       calendar_date (digits_value y1) (digits_value m1) (digits_value d1) ->
       extract_year_from_text now_year (pre ++ s) = digits_value y1)
    /\ (forall text,
          (forall p q, text = p ++ q -> no_range_at q) ->
          extract_year_from_text now_year text = now_year)
    /\ (forall pre s d1 m1 y1,
          range_at s d1 m1 y1 ->
          (forall p q, pre = p ++ q -> q <> [] -> no_range_at (q ++ s)) ->
          strptime_dmY (dmy_text d1 m1 y1) = None ->
          extract_year_from_text now_year (pre ++ s) = now_year)
    /\ (forall d m y,
          ascii_date d m y ->
          (strptime_dmY (dmy_text d m y) = None <->
           ~ calendar_date (digits_value y) (digits_value m) (digits_value d))).
Proof.
  intro now_year. split; [|split; [|split]].
  - intros pre s d1 m1 y1 Hr Hfirst Ha Hc.
    rewrite (extract_year_first_range now_year pre s d1 m1 y1 Hr Hfirst).
    apply (proj1 (year_of_calendar_date now_year d1 m1 y1 Ha) Hc).
  - apply extract_year_no_range.
  - intros pre s d1 m1 y1 Hr Hfirst Hn.
    rewrite (extract_year_first_range now_year pre s d1 m1 y1 Hr Hfirst).
    unfold year_of_date_text. rewrite Hn. reflexivity.
  - intros d m y Ha. rewrite (strptime_ascii_date d m y Ha). split.
    + intros Hn Hc. apply make_date_some in Hc. congruence.
    + apply make_date_none.
Qed.

Lemma year_of_first_date_range_witness :
  extract_year_from_text 2030 (u "KW1 01.02.2024 - 05.02.2024 Mensa") = 2024
  /\ extract_year_from_text 2030 (u "KW1 30.02.2024 - 05.03.2024 Mensa") = 2030
  /\ extract_year_from_text 2030 (u "Mensa 1.2.") = 2030.
Proof.
  destruct (year_of_first_date_range 2030) as (Hvalid & Hnone & Hbad & Hcal).
  assert (Hshape : forall d m y, length d = 2%nat -> length m = 2%nat -> length y = 4%nat ->
            all_in is_ascii_digit d -> all_in is_ascii_digit m -> all_in is_ascii_digit y ->
            ascii_date d m y).
  { intros d m y Ld Lm Ly Hd Hm Hy. repeat split; try assumption; try lia;
      eapply Forall_impl; try eassumption; apply ascii_digit_is_digit. }
  assert (Hrange : forall d1 m1 y1 d2 m2 y2 rest,
            ascii_date d1 m1 y1 -> ascii_date d2 m2 y2 ->
            range_at (dmy_text d1 m1 y1 ++ u " " ++ ch "-" :: u " " ++ dmy_text d2 m2 y2 ++ rest)
                     d1 m1 y1).
  { intros d1 m1 y1 d2 m2 y2 rest (H1 & _) (H2 & _).
    exists (u " "), (u " "), d2, m2, y2, rest.
    split; [reflexivity|]. split; [exact H1|]. split; [exact H2|].
    split; repeat constructor. }
  split; [|split].
  - apply (Hvalid (u "KW1 ") (u "01.02.2024 - 05.02.2024 Mensa") (u "01") (u "02") (u "2024")).
    + apply (Hrange (u "01") (u "02") (u "2024") (u "05") (u "02") (u "2024") (u " Mensa"));
        apply Hshape; try reflexivity; repeat constructor.
    + apply no_range_before_spec. vm_compute. reflexivity.
    + apply Hshape; try reflexivity; repeat constructor.
    + vm_compute. intuition discriminate.
  - apply (Hbad (u "KW1 ") (u "30.02.2024 - 05.03.2024 Mensa") (u "30") (u "02") (u "2024")).
    + apply (Hrange (u "30") (u "02") (u "2024") (u "05") (u "03") (u "2024") (u " Mensa"));
        apply Hshape; try reflexivity; repeat constructor.
    + apply no_range_before_spec. vm_compute. reflexivity.
    + apply Hcal; [apply Hshape; try reflexivity; repeat constructor|].
      vm_compute. intros (_ & _ & _ & H). apply H. reflexivity.
  - apply Hnone. intros p q Hpq.
    pose proof (no_range_before_spec (u "Mensa 1.2.") [] eq_refl p q) as H.
    rewrite app_nil_r in H. destruct q as [|c q].
    + intros d m y (ws1 & ws2 & d2 & m2 & y2 & rest & E & _).
      unfold dmy_text in E. destruct d; discriminate E.
    + apply H; [exact Hpq | discriminate].
Defined.

(** Claim C3.  The prices of a meal with a price line are read from the
    stripped, non-empty parts of the line between slashes: the first part
    gives the price of students, the second that of employees and the third
    that of others, and a fourth or later part is not read.  The line
    "a,b€ / c,d€" gives students the float nearest to a.b, employees the
    float nearest to c.d, and nothing to others; a part without any digit
    gives an absent price. *)
Theorem prices_follow_slash_positions :
  forall cat_raw body m line,
    build_meal cat_raw body = Some m ->
    find_price_line (body_lines body) = Some line ->
    prices m = [ (u "students", nth_price (slash_parts line) 0);
                 (u "employees", nth_price (slash_parts line) 1);
                 (u "others", nth_price (slash_parts line) 2) ]
    /\ (forall p1 p2 p3 more,
          slash_parts line = p1 :: p2 :: p3 :: more ->
          prices m = [ (u "students", normalize_price p1);
                       (u "employees", normalize_price p2);
                       (u "others", normalize_price p3) ])
    /\ (forall a b c d,
          a <> [] -> c <> [] ->
          all_in is_ascii_digit a -> all_in is_ascii_digit b ->
          all_in is_ascii_digit c -> all_in is_ascii_digit d ->
          line = amount_token a b ++ u " / " ++ amount_token c d ->
          prices m = [ (u "students", Some (decimal_float a b));
                       (u "employees", Some (decimal_float c d));
                       (u "others", None) ])
    /\ (forall i p,
          nth_error (slash_parts line) i = Some p ->
          (forall x, In x p -> is_digit x = false) ->
          nth_price (slash_parts line) i = None).
Proof.
  intros cat_raw body m line Hm Hline.
  destruct (build_meal_fields _ _ _ Hm) as (nm & rest & _ & _ & _ & _ & _ & Hp).
  pose proof (find_price_line_in _ _ Hline) as Hin. apply body_lines_facts in Hin.
  destruct Hin as [Hne Hlf].
  rewrite Hline, (parse_prices_line line Hne) in Hp.
  split; [exact Hp|]. split; [|split].
  - intros p1 p2 p3 more E. rewrite Hp, E. reflexivity.
  - intros a b c d Ha0 Hc0 Ha Hb Hc Hd E. rewrite Hp, E.
    rewrite (slash_parts_two_tokens a b c d) by assumption.
    unfold nth_price. cbn [nth_error].
    rewrite !normalize_price_token by assumption. reflexivity.
  - intros i p Hi Hnd. unfold nth_price. rewrite Hi.
    apply normalize_price_no_digit; [|exact Hnd].
    intro Hc. apply Hlf. apply nth_error_In in Hi.
    apply (slash_parts_chars line p LF Hi Hc).
Qed.

Lemma prices_follow_slash_positions_witness :
  let line := amount_token (u "3") (u "50") ++ u " / " ++ amount_token (u "5") (u "20") in
  let body := u "Schnitzel" ++ [LF] ++ line in
  exists m, build_meal (u "Essen 1") body = Some m
    /\ prices m = [ (u "students", Some (decimal_float (u "3") (u "50")));
                    (u "employees", Some (decimal_float (u "5") (u "20")));
                    (u "others", None) ]
    /\ format_2f (decimal_float (u "3") (u "50")) = u "3.50".
Proof.
  intros line body.
  destruct (build_meal (u "Essen 1") body) as [m|] eqn:E; [|vm_compute in E; discriminate].
  exists m. split; [reflexivity|]. split; [|vm_compute; reflexivity].
  assert (Hline : find_price_line (body_lines body) = Some line) by (vm_compute; reflexivity).
  destruct (prices_follow_slash_positions (u "Essen 1") body m line E Hline)
    as (_ & _ & H & _).
  apply (H (u "3") (u "50") (u "5") (u "20")); try discriminate;
    try (repeat constructor); reflexivity.
Defined.



(** Claim C5, as stated, fails: in a group without letters an empty part
    gives no allergen code, so the group "(2,,3)", which has three parts,
    gives two codes. *)
Lemma allergen_parts_counterexample :
  ~ (forall cat_raw body m,
       build_meal cat_raw body = Some m ->
       allergens m =
       flat_map (fun g => if contains_letter g then []
                          else map strip (split_on is_slash_or_comma g))
                (re_findall paren_re (cat_raw ++ u " " ++ body))).
Proof.
  intro H.
  destruct (build_meal (u "Suppe") (u "Eintopf (2,,3)")) as [m|] eqn:E;
    [|vm_compute in E; discriminate].
  specialize (H _ _ _ E). vm_compute in E. injection E as <-.
  vm_compute in H. discriminate.
Qed.

(** Claim C5, amended.  Every group that the scan of the raw category
    header, a blank and the body finds is a non-empty text between
    parentheses without a closing parenthesis.  A group is split at slashes
    and commas and its parts are stripped; a group without a letter of
    [A-Za-zÄÖÜäöüß] gives one allergen code for each non-empty part, and
    a group with such a letter gives one note for each non-empty part.
    The allergen codes of the meal are the codes of the groups, in order,
    and its notes start with the notes of the groups, in order. *)
Theorem groups_are_codes_or_notes :
  forall cat_raw body m,
    build_meal cat_raw body = Some m ->
    let text := cat_raw ++ u " " ++ body in
    let groups := re_findall paren_re text in
    (forall g, In g groups ->
       g <> [] /\ ~ In (ch ")") g
       /\ exists pre post, text = pre ++ ch "(" :: g ++ ch ")" :: post)
    /\ allergens m =
       flat_map (fun g => if contains_letter g then [] else clean_parts g) groups
    /\ exists residual,
         notes m =
         flat_map (fun g => if contains_letter g then clean_parts g else []) groups
           ++ residual.
Proof.
  intros cat_raw body m Hm text groups.
  destruct (build_meal_fields _ _ _ Hm) as (nm & rest & _ & _ & _ & Hn & Ha & _).
  split; [intros g Hg; apply paren_groups_found; exact Hg|]. split.
  - rewrite Ha. apply label_allergens_spec.
  - rewrite Hn, fold_add_residual, label_notes_spec. eexists. reflexivity.
Qed.

Lemma groups_are_codes_or_notes_witness :
  exists m, build_meal (u "Essen 1") (u "Auflauf (A, C, G) mit Gouda (2,3)") = Some m
    /\ allergens m = [u "2"; u "3"]
    /\ exists residual, notes m = [u "A"; u "C"; u "G"] ++ residual.
Proof.
  destruct (build_meal (u "Essen 1") (u "Auflauf (A, C, G) mit Gouda (2,3)")) as [m|] eqn:E;
    [|vm_compute in E; discriminate].
  exists m. split; [reflexivity|].
  destruct (groups_are_codes_or_notes _ _ _ E) as (_ & Ha & residual & Hn).
  split; [rewrite Ha; vm_compute; reflexivity|].
  exists residual. rewrite Hn. f_equal.
Defined.

(** Claim C6, as stated, fails: the notes taken from the parenthesized
    groups are not compared with one another, so a group text that occurs
    twice is noted twice. *)
Lemma notes_duplicates_counterexample :
  exists m, build_meal (u "Suppe") (u "Eintopf (bio) (bio)") = Some m
            /\ notes m = [u "bio"; u "bio"]
            /\ ~ NoDup (notes m).
Proof.
  eexists. split; [vm_compute; reflexivity|]. split; [reflexivity|].
  simpl. intro H. inversion H as [|x l Hx _]. apply Hx. left. reflexivity.
Qed.

(** Claim C6, amended.  The notes of a meal entry are the notes taken from
    the parenthesized groups, followed by the residual lines in their
    original order: the body lines after the name that are neither equal to
    the price line nor made only of digits, white space, commas, slashes and
    parentheses, each kept at its first occurrence and only when it is not
    among the group notes.  The residual part has no duplicate and shares no
    string with the group notes. *)
Theorem notes_are_groups_then_residual_lines :
  forall cat_raw body m,
    build_meal cat_raw body = Some m ->
    let group_notes := label_notes (re_findall paren_re (cat_raw ++ u " " ++ body)) in
    let price_line := find_price_line (body_lines body) in
    let candidates := filter (residual_candidate price_line) (skipn 1 (body_lines body)) in
    exists residual,
      notes m = group_notes ++ residual
      /\ residual = first_occurrences group_notes candidates
      /\ subseq residual candidates
      /\ NoDup residual
      /\ (forall x, In x residual -> ~ In x group_notes)
      /\ (forall x, In x candidates -> In x (notes m)).
Proof.
  intros cat_raw body m Hm group_notes price_line candidates.
  destruct (build_meal_fields _ _ _ Hm) as (nm & rest & Hl & _ & _ & Hn & _ & _).
  assert (Hc : notes m = group_notes ++ first_occurrences group_notes candidates).
  { subst candidates price_line group_notes. rewrite Hn, fold_add_residual, Hl. reflexivity. }
  exists (first_occurrences group_notes candidates).
  split; [exact Hc|]. split; [reflexivity|]. split; [apply first_occurrences_subseq|].
  split; [apply first_occurrences_nodup|]. split.
  - intros x Hx. apply (first_occurrences_in _ _ _ Hx).
  - intros x Hx. rewrite Hc. apply in_or_app.
    apply first_occurrences_complete. exact Hx.
Qed.

Lemma notes_are_groups_then_residual_lines_witness :
  let body := u "Eintopf (bio)" ++ [LF] ++ u "2, 3" ++ [LF] ++ u "regional" ++ [LF]
                ++ u "bio" ++ [LF] ++ u "2,10 " ++ [euro] ++ [LF] ++ u "regional" in
  exists m, build_meal (u "Suppe") body = Some m
    /\ notes m = [u "bio"] ++ [u "regional"].
Proof.
  intro body.
  destruct (build_meal (u "Suppe") body) as [m|] eqn:E; [|vm_compute in E; discriminate].
  exists m. split; [reflexivity|].
  destruct (notes_are_groups_then_residual_lines (u "Suppe") body m E)
    as (residual & Hn & Hr & _).
  rewrite Hn, Hr. vm_compute. reflexivity.
Defined.

(** Claim C7.  When the raw category header starts with the word "essen" in
    any casing, followed by optional white space and a digit, the category
    of the meal is "Hauptgericht"; otherwise it is the raw header itself. *)
Theorem category_of_numbered_essen :
  forall cat_raw body m,
    build_meal cat_raw body = Some m ->
    (essen_numbered cat_raw -> category m = u "Hauptgericht")
    /\ (~ essen_numbered cat_raw -> category m = cat_raw).
Proof.
  intros cat_raw body m Hm.
  destruct (build_meal_fields _ _ _ Hm) as (nm & rest & _ & Hc & _).
  rewrite Hc. unfold normalize_category. split; intro H.
  - apply essen_match_iff in H. rewrite H. reflexivity.
  - destruct (is_some (re_match essen_re cat_raw)) eqn:E; [|reflexivity].
    apply essen_match_iff in E. contradiction.
Qed.

Lemma category_of_numbered_essen_witness :
  (exists m, build_meal (u "eSSEN 3") (u "Nudeln") = Some m
             /\ category m = u "Hauptgericht")
  /\ (exists m, build_meal (u "Suppe") (u "Nudeln") = Some m
                /\ category m = u "Suppe").
Proof.
  split.
  - destruct (build_meal (u "eSSEN 3") (u "Nudeln")) as [m|] eqn:E;
      [|vm_compute in E; discriminate].
    exists m. split; [reflexivity|].
    apply (proj1 (category_of_numbered_essen (u "eSSEN 3") (u "Nudeln") m E)).
    exists (ch "e"), (ch "S"), (ch "S"), (ch "E"), (ch "N"), [ch " "], (ch "3"), [].
    split; [reflexivity|]. unfold same_letter.
    repeat (split; [vm_compute; tauto|]). split; [repeat constructor | reflexivity].
  - destruct (build_meal (u "Suppe") (u "Nudeln")) as [m|] eqn:E;
      [|vm_compute in E; discriminate].
    exists m. split; [reflexivity|].
    apply (proj2 (category_of_numbered_essen (u "Suppe") (u "Nudeln") m E)).
    intro H. apply essen_match_iff in H. vm_compute in H. discriminate.
Defined.

(** The prices of the meals of a parsed page are never negative. *)
Lemma parsed_prices_nonnegative (now_year : Z) (text : str) (d : Day) (m : Meal)
  (role : str) (x : pyfloat) :
  In d (parse_text_blocks now_year text) -> In m (meals d) ->
  In (role, Some x) (prices m) -> nonnegative x.
Proof.
  intros Hd Hm Hx. destruct (parsed_meal_build _ _ _ _ Hd Hm) as (cat_raw & body & Hb).
  apply (build_meal_prices_nonneg cat_raw body m role x Hb Hx).
Qed.

(** Claim C8.  The claim holds for the prices that are finite floats (see
    [parsed_prices_nonnegative], [normalize_price_minus] and
    [format_2f_two_decimals]), but a price with 310 digits before the comma
    overflows to infinity: the meal has a price for students, and the feed
    renders it as "inf", which has no decimal places. *)
Theorem overflowing_price_rendered_inf :
  exists d m e,
    parse_text_blocks 2024 overflow_page = [d]
    /\ meals d = [m]
    /\ prices m = [ (u "students", Some (Inf false));
                    (u "employees", None); (u "others", None) ]
    /\ meal_elements (openmensa_tree canteen_title [d]) = [e]
    /\ price_texts e = [u "inf"]
    /\ ~ two_decimals (u "inf").
Proof.
  do 3 eexists. split; [vm_compute; reflexivity|]. split; [reflexivity|].
  split; [reflexivity|]. split; [vm_compute; reflexivity|]. split; [reflexivity|].
  apply inf_not_two_decimals.
Qed.

(** ** Structural identity *)

Lemma list_identical_eq (A : Type) (same : A -> A -> bool) (l1 l2 : list A) :
  (forall x y, same x y = true -> x = y) ->
  list_identical same l1 l2 = true -> l1 = l2.
Proof.
  intro Hs. revert l2. induction l1 as [|x l1 IH]; intros [|y l2] H; simpl in H;
    try discriminate; [reflexivity|].
  apply andb_true_iff in H. destruct H as [H1 H2].
  rewrite (Hs x y H1), (IH l2 H2). reflexivity.
Qed.

Lemma option_identical_eq (A : Type) (same : A -> A -> bool) (o1 o2 : option A) :
  (forall x y, same x y = true -> x = y) ->
  option_identical same o1 o2 = true -> o1 = o2.
Proof.
  intro Hs. destruct o1 as [x|], o2 as [y|]; simpl; intro H; try discriminate;
    [rewrite (Hs x y H)|]; reflexivity.
Qed.

Lemma str_eqb_true (a b : str) : str_eqb a b = true -> a = b.
Proof. apply str_eqb_eq. Qed.

Lemma float_identical_eq (x y : pyfloat) : float_identical x y = true -> x = y.
Proof.
  destruct x as [n1 m1 e1 | n1 |], y as [n2 m2 e2 | n2 |]; simpl; intro H;
    try discriminate; try reflexivity.
  - apply andb_true_iff in H. destruct H as [H He].
    apply andb_true_iff in H. destruct H as [Hn Hm].
    apply eqb_prop in Hn. apply Z.eqb_eq in Hm. apply Z.eqb_eq in He. congruence.
  - apply eqb_prop in H. congruence.
Qed.

Lemma price_identical_eq (p q : str * option pyfloat) : price_identical p q = true -> p = q.
Proof.
  destruct p as [r1 v1], q as [r2 v2]. unfold price_identical. simpl. intro H.
  apply andb_true_iff in H. destruct H as [Hr Hv]. apply str_eqb_true in Hr.
  apply (option_identical_eq _ float_identical _ _ float_identical_eq) in Hv. congruence.
Qed.

Lemma meal_identical_eq (m1 m2 : Meal) : meal_identical m1 m2 = true -> m1 = m2.
Proof.
  destruct m1 as [c1 n1 no1 a1 p1], m2 as [c2 n2 no2 a2 p2]. unfold meal_identical. simpl.
  intro H. repeat (apply andb_true_iff in H; destruct H as [H ?]).
  apply str_eqb_true in H.
  repeat match goal with
         | E : str_eqb _ _ = true |- _ => apply str_eqb_true in E
         | E : list_identical str_eqb _ _ = true |- _ =>
             apply (list_identical_eq _ str_eqb _ _ str_eqb_true) in E
         | E : list_identical price_identical _ _ = true |- _ =>
             apply (list_identical_eq _ price_identical _ _ price_identical_eq) in E
         end.
  congruence.
Qed.

Lemma day_identical_eq (d1 d2 : Day) : day_identical d1 d2 = true -> d1 = d2.
Proof.
  destruct d1 as [dt1 w1 ms1], d2 as [dt2 w2 ms2]. unfold day_identical. simpl.
  intro H. repeat (apply andb_true_iff in H; destruct H as [H ?]).
  apply (option_identical_eq _ str_eqb _ _ str_eqb_true) in H.
  repeat match goal with
         | E : str_eqb _ _ = true |- _ => apply str_eqb_true in E
         | E : list_identical meal_identical _ _ = true |- _ =>
             apply (list_identical_eq _ meal_identical _ _ meal_identical_eq) in E
         end.
  congruence.
Qed.

(** Claim C9.  The Feed Builder is a function of the canteen name and the
    Day sequence alone: on two Day sequences that are structurally identical
    (the same dates, weekdays and meals, field by field and in the same
    order) and the same canteen name it returns the same string, character
    by character.  The string is the text [feed_text] of its arguments,
    whatever they are, so that the order of the elements and the form of
    the numbers are fixed by the arguments: the day elements come in the
    order of the sequence, the categories of a day in the order in which
    they first occur among its meals, the meals of a category in their
    order, and in a meal the name, the notes, the allergen codes and the
    prices in the order of the price dictionary, each price being the text
    that ["{:.2f}"] gives for its value. *)
Theorem feed_builder_deterministic :
  forall name1 name2 days1 days2,
    str_eqb name1 name2 = true ->
    list_identical day_identical days1 days2 = true ->
    build_openmensa_xml name1 days1 = build_openmensa_xml name2 days2
    /\ str_eqb (build_openmensa_xml name1 days1) (build_openmensa_xml name2 days2) = true
    /\ build_openmensa_xml name1 days1 = feed_text name1 days1
    /\ build_openmensa_xml name2 days2 = feed_text name2 days2.
Proof.
  intros name1 name2 days1 days2 Hn Hd.
  apply str_eqb_true in Hn.
  apply (list_identical_eq _ day_identical _ _ day_identical_eq) in Hd.
  rewrite !written_feed. subst. split; [reflexivity|].
  split; [apply str_eqb_refl | split; reflexivity].
Qed.

Lemma feed_builder_deterministic_witness :
  let days1 := parse_text_blocks 2030 sample_page in
  let days2 := parse_text_blocks 1999 (sample_page ++ [LF]) in
  (build_openmensa_xml canteen_title days1 = build_openmensa_xml canteen_title days2
   /\ str_eqb (build_openmensa_xml canteen_title days1)
              (build_openmensa_xml canteen_title days2) = true
   /\ build_openmensa_xml canteen_title days1 = feed_text canteen_title days1
   /\ build_openmensa_xml canteen_title days2 = feed_text canteen_title days2)
  /\ map (fun d => map name (meals d)) days1
     = [[u "Schnitzel (A, C)"; u "Linsensuppe (2,3)"; u "Nudeln"]; [u "Eintopf"]]
  /\ feed_text (u "M") (firstn 1 days1)
     = u "<?xml version='1.0' encoding='utf-8'?>" ++ [LF]
         ++ u "<openmensa xmlns=" ++ [dquote] ++ u "http://openmensa.org/open-mensa-v2"
         ++ [dquote] ++ u " version=" ++ [dquote] ++ u "2.1" ++ [dquote]
         ++ u "><canteen><name>M</name><day date=" ++ [dquote] ++ u "2024-01-01" ++ [dquote]
         ++ u "><category name=" ++ [dquote] ++ u "Hauptgericht" ++ [dquote]
         ++ u "><meal><name>Schnitzel (A, C)</name><note>A</note><note>C</note><price role="
         ++ [dquote] ++ u "students" ++ [dquote] ++ u ">3.50</price><price role="
         ++ [dquote] ++ u "employees" ++ [dquote] ++ u ">5.20</price></meal>"
         ++ u "<meal><name>Nudeln</name></meal></category><category name="
         ++ [dquote] ++ u "Suppe" ++ [dquote]
         ++ u "><meal><name>Linsensuppe (2,3)</name><note>mit Brot</note>"
         ++ u "<note>Allergene: 2</note><note>Allergene: 3</note><price role="
         ++ [dquote] ++ u "students" ++ [dquote] ++ u ">2.10</price></meal>"
         ++ u "</category></day></canteen></openmensa>".
Proof.
  intros days1 days2. split; [|split; vm_compute; reflexivity].
  apply (feed_builder_deterministic canteen_title canteen_title days1 days2);
    vm_compute; reflexivity.
Defined.

(** Claim C10.  In the feed built from a parsed page every meal element is
    the element of a meal of the page, whose price dictionary has the roles
    students, employees and others in this order.  The price children of
    the element are exactly those of the roles whose price is present, in
    this order, each with its role and with the text of its value; a role
    whose price is absent has no child.  The element is written with its
    children in this order. *)
Theorem price_children_in_role_order :
  forall now_year text canteen_name e,
    In e (meal_elements (openmensa_tree canteen_name (parse_text_blocks now_year text))) ->
    exists d m s em o,
      In d (parse_text_blocks now_year text) /\ In m (meals d) /\ e = meal_element m
      /\ prices m = [(u "students", s); (u "employees", em); (u "others", o)]
      /\ price_roles e
         = (if is_some s then [u "students"] else [])
             ++ (if is_some em then [u "employees"] else [])
             ++ (if is_some o then [u "others"] else [])
      /\ price_texts e
         = opt_list (option_map format_2f s) ++ opt_list (option_map format_2f em)
             ++ opt_list (option_map format_2f o)
      /\ subseq (price_roles e) role_order
      /\ xmlcharrefreplace (serialize_xml [] e) = meal_text m.
Proof.
  intros now_year text canteen_name e He.
  destruct (feed_meal_elements _ _ _ He) as (d & m & Hd & Hm & ->).
  destruct (parsed_meal_build _ _ _ _ Hd Hm) as (cat_raw & body & Hb).
  destruct (build_meal_fields _ _ _ Hb) as (nm & rest & _ & _ & _ & _ & _ & Hp).
  unfold parse_prices in Hp.
  match type of Hp with _ = [(_, nth_price ?ps 0); _; _] => set (parts := ps) in Hp end.
  exists d, m, (nth_price parts 0), (nth_price parts 1), (nth_price parts 2).
  split; [exact Hd|]. split; [exact Hm|]. split; [reflexivity|]. split; [exact Hp|].
  rewrite meal_price_roles, meal_price_texts, Hp. cbn [flat_map snd fst].
  split; [|split; [|split; [|apply written_meal]]].
  - destruct (nth_price _ 0), (nth_price _ 1), (nth_price _ 2); reflexivity.
  - destruct (nth_price _ 0), (nth_price _ 1), (nth_price _ 2); reflexivity.
  - unfold role_order.
    destruct (nth_price _ 0), (nth_price _ 1), (nth_price _ 2); simpl;
      repeat (first [apply subseq_keep | apply subseq_skip | apply subseq_nil]).
Qed.

Lemma price_children_in_role_order_witness :
  let text := u "#### Montag, 1.1." ++ [LF] ++ u "Mensa" ++ [LF] ++ u "* ##### Essen 1" ++ [LF]
                ++ u "Schnitzel" ++ [LF] ++ u "3,50 " ++ [euro] ++ u " / x / 6,10 " ++ [euro] in
  exists e, meal_elements (openmensa_tree (u "Mensa") (parse_text_blocks 2024 text)) = [e]
            /\ price_roles e = [u "students"; u "others"]
            /\ price_texts e = [u "3.50"; u "6.10"]
            /\ exists d m s em o,
                 In d (parse_text_blocks 2024 text) /\ In m (meals d) /\ e = meal_element m
                 /\ prices m = [(u "students", s); (u "employees", em); (u "others", o)]
                 /\ price_roles e
                    = (if is_some s then [u "students"] else [])
                        ++ (if is_some em then [u "employees"] else [])
                        ++ (if is_some o then [u "others"] else [])
                 /\ price_texts e
                    = opt_list (option_map format_2f s) ++ opt_list (option_map format_2f em)
                        ++ opt_list (option_map format_2f o)
                 /\ subseq (price_roles e) role_order
                 /\ xmlcharrefreplace (serialize_xml [] e) = meal_text m.
Proof.
  intro text. eexists. split; [vm_compute; reflexivity|]. split; [vm_compute; reflexivity|].
  split; [vm_compute; reflexivity|].
  apply (price_children_in_role_order 2024 text (u "Mensa")).
  vm_compute. left. reflexivity.
Defined.

(* ===================================================================== *)
(** * Further properties of the script *)
(* ===================================================================== *)

(** Property X1.  The Days that [parse_text_blocks] returns are those of
    the day headers of the page, in the order of the page: the leftmost
    header, "####", a word of letters, a comma and a day and a month with
    their dots, gives the first Day, whose weekday is the word, whose date
    is read from the day and the month of the header and the year of the
    page, and whose meals are the entries of the block that follows the
    header up to the next header or to the end of the page; the text from
    the next header on gives the other Days in the same way. *)
Theorem days_follow_the_headers :
  forall now_year text,
    page_days (extract_year_from_text now_year text) text (parse_text_blocks now_year text).
Proof.
  intros now_year text. unfold parse_text_blocks, re_pieces.
  apply scanned_page_days.
  apply (hits_scanned day_header_re day_header_re_no_bos day_header_nonempty).
Qed.

(** Property X2.  The date of a Day, when it has one, is the ISO form of a
    date of the calendar: the four digits of the year of the page, and the
    month and the day of the header in two digits each.  A Day has no date
    when the year of the page has not four digits.  On a header written with
    ASCII digits, in a year of four digits, the Day has a date exactly when
    day and month are a date of the calendar of that year. *)
Theorem day_dates_are_calendar_dates :
  forall now_year text d,
    In d (parse_text_blocks now_year text) ->
    let y := extract_year_from_text now_year text in
    exists pre suf wd dd mm rest,
      text = pre ++ suf /\ header_at suf wd dd mm rest /\ weekday d = wd
      /\ (forall dt, date d = Some dt ->
            1000 <= y <= 9999
            /\ calendar_date y (int_of_digits mm) (int_of_digits dd)
            /\ dt = str_of_Z y ++ u "-" ++ two_digits (int_of_digits mm)
                      ++ u "-" ++ two_digits (int_of_digits dd)
            /\ length dt = 10%nat)
      /\ (all_in is_ascii_digit dd -> all_in is_ascii_digit mm -> 1000 <= y <= 9999 ->
          (date d <> None <-> calendar_date y (int_of_digits mm) (int_of_digits dd))).
Proof.
  intros now_year text d Hd y.
  destruct (parsed_day_header now_year text d Hd)
    as (pre & h & wd & dd & mm & block & post & Ht & Hh & _ & _ & ->).
  destruct (header_parts _ _ _ _ _ Hh) as (Hw & Hdd & Hmm).
  rewrite (parse_day_header _ wd dd mm block Hw (proj2 Hdd) (proj2 Hmm)). fold y.
  exists pre, (h ++ block ++ post), wd, dd, mm, (block ++ post).
  split; [exact Ht|]. split; [exact Hh|]. split; [reflexivity|]. cbn [date]. split.
  - intros dt E. destruct (strptime_dmY (header_date_text dd mm y)) as [x|] eqn:S; [|discriminate].
    injection E as <-. destruct (header_date dd mm y x Hdd Hmm S) as (Hy & Hc & ->).
    split; [exact Hy|]. split; [exact Hc|].
    destruct Hc as (_ & Hmo & Hda).
    pose proof (days_in_month_bound y (int_of_digits mm)) as Hb.
    rewrite isoformat_shape by lia. split; [reflexivity|].
    rewrite !length_app, (str_of_Z_length_4 y Hy). reflexivity.
  - intros Ad Am Hy. rewrite (header_date_ascii dd mm y Hdd Hmm Ad Am Hy). split.
    + intro H. destruct (make_date y _ _) as [x|] eqn:M; [|simpl in H; congruence].
      apply make_date_inv in M. tauto.
    + intro Hc. apply make_date_some in Hc. rewrite Hc. discriminate.
Qed.

Lemma day_dates_are_calendar_dates_witness :
  let d := nth 1 (parse_text_blocks 2030 new_year_page)
               {| date := None; weekday := []; meals := [] |} in
  let y := extract_year_from_text 2030 new_year_page in
  (exists pre suf wd dd mm rest,
     new_year_page = pre ++ suf /\ header_at suf wd dd mm rest /\ weekday d = wd
     /\ (forall dt, date d = Some dt ->
           1000 <= y <= 9999
           /\ calendar_date y (int_of_digits mm) (int_of_digits dd)
           /\ dt = str_of_Z y ++ u "-" ++ two_digits (int_of_digits mm)
                     ++ u "-" ++ two_digits (int_of_digits dd)
           /\ length dt = 10%nat)
     /\ (all_in is_ascii_digit dd -> all_in is_ascii_digit mm -> 1000 <= y <= 9999 ->
         (date d <> None <-> calendar_date y (int_of_digits mm) (int_of_digits dd))))
  /\ weekday d = u "Donnerstag" /\ date d = Some (u "2024-01-02").
Proof.
  intros d y. split.
  - apply (day_dates_are_calendar_dates 2030 new_year_page d).
    vm_compute. right. left. reflexivity.
  - vm_compute. split; reflexivity.
Defined.

(** Property X3.  [parse_text_blocks] returns no Day exactly when no day
    header starts anywhere in the page, and that is when [main] ends with
    exit code 3; it writes no feed then.  A page without the character "#"
    is such a page. *)
Theorem no_day_without_header :
  forall now_year text,
    (parse_text_blocks now_year text = []
     <-> forall pre suf, text = pre ++ suf -> no_header_at suf)
    /\ (exit_code (main now_year (Some text)) = 3
        <-> forall pre suf, text = pre ++ suf -> no_header_at suf)
    /\ (exit_code (main now_year (Some text)) = 3 -> feed (main now_year (Some text)) = None)
    /\ (~ In (ch "#") text -> parse_text_blocks now_year text = []).
Proof.
  intros now_year text.
  assert (H : parse_text_blocks now_year text = []
              <-> forall pre suf, text = pre ++ suf -> no_header_at suf).
  { unfold parse_text_blocks, re_pieces.
    pose proof (hits_with_gap_none day_header_re day_header_re_no_bos day_header_nonempty
                  text true []) as Hn.
    split.
    - intros E pre suf Ht. apply no_header_none. apply map_eq_nil in E.
      exact (proj1 Hn E pre suf Ht).
    - intro Hno. rewrite (proj2 Hn); [reflexivity|].
      intros pre suf Ht. apply no_header_none. apply (Hno pre suf Ht). }
  pose proof (exit_code_cases _ _ (main_exit_code now_year text)) as (H3 & _ & _).
  split; [exact H|]. split; [rewrite H3; exact H|]. split.
  - intro E. apply H3 in E. unfold main. rewrite E. reflexivity.
  - intro Hno. apply H. intros pre suf Ht wd dd mm rest (ws1 & ws2 & Hs & _).
    apply Hno. rewrite Ht, Hs. apply in_or_app. right. left. reflexivity.
Qed.



(** Property X5.  An entry gives a meal exactly when its text, stripped,
    has a line feed, that is a header line and at least one more line; an
    entry of one line is skipped.  The category of the meal comes from the
    header line, the text before the first line feed. *)
Theorem entry_gives_meal_iff_it_has_two_lines :
  forall ent,
    (parse_entry ent <> None <-> In LF (strip ent))
    /\ (forall m, parse_entry ent = Some m ->
          exists h t, strip ent = h ++ LF :: t /\ h <> [] /\ ~ In LF h
                      /\ category m = normalize_category (strip h)).
Proof.
  intro ent. split; [split|].
  - destruct (parse_entry ent) as [m|] eqn:E; [|congruence]. intros _.
    destruct (parse_entry_header ent m E) as (h & t & Es & _).
    rewrite Es. apply in_or_app. right. left. reflexivity.
  - apply parse_entry_some.
  - apply parse_entry_header.
Qed.

(** Property X6.  Every meal of a parsed page has a name and a category
    that are not empty and have no white space at either end; the name
    contains no line boundary and the category no line feed. *)
Theorem meal_names_and_categories_are_stripped :
  forall now_year text d m,
    In d (parse_text_blocks now_year text) -> In m (meals d) ->
    stripped (name m)
    /\ (forall c, In c (name m) -> is_linebreak c = false)
    /\ stripped (category m)
    /\ ~ In LF (category m).
Proof.
  intros now_year text d m Hd Hm.
  destruct (parsed_meal_parts _ _ _ _ Hd Hm) as (cat_raw & body & Hc & Hlf & Hb).
  destruct (build_meal_fields _ _ _ Hb) as (nm & rest & Hl & Ec & En & _).
  assert (Hin : In nm (body_lines body)) by (rewrite Hl; left; reflexivity).
  apply body_line_stripped in Hin. destruct Hin as [Hs Hbr].
  rewrite En, Ec. split; [exact Hs|]. split; [rewrite Forall_forall in Hbr; exact Hbr|].
  unfold normalize_category. destruct (is_some _); [exact hauptgericht_stripped | auto].
Qed.

Lemma meal_names_and_categories_are_stripped_witness :
  let m := nth 1 (meals (nth 0 (parse_text_blocks 2030 sample_page)
                             {| date := None; weekday := []; meals := [] |}))
               {| category := []; name := []; notes := []; allergens := []; prices := [] |} in
  stripped (name m)
  /\ (forall c, In c (name m) -> is_linebreak c = false)
  /\ stripped (category m)
  /\ ~ In LF (category m).
Proof.
  intro m.
  apply (meal_names_and_categories_are_stripped 2030 sample_page
           (nth 0 (parse_text_blocks 2030 sample_page)
                {| date := None; weekday := []; meals := [] |}) m).
  - vm_compute. left. reflexivity.
  - vm_compute. right. left. reflexivity.
Defined.

(** Property X7.  No note and no allergen code of a parsed meal is empty or
    has white space at either end.  An allergen code contains no letter of
    [A-Za-zÄÖÜäöüß], no slash, no comma and no closing parenthesis. *)
Theorem notes_and_allergen_codes_are_stripped :
  forall now_year text d m,
    In d (parse_text_blocks now_year text) -> In m (meals d) ->
    (forall n, In n (notes m) -> stripped n)
    /\ (forall a, In a (allergens m) ->
          stripped a
          /\ forall c, In c a ->
               is_letter c = false /\ c <> ch "/" /\ c <> ch "," /\ c <> ch ")").
Proof.
  intros now_year text d m Hd Hm.
  destruct (parsed_meal_parts _ _ _ _ Hd Hm) as (cat_raw & body & _ & _ & Hb). split.
  - intros n Hn. destruct (notes_sources _ _ _ _ Hb Hn) as [(g & _ & _ & Hg) | Hl].
    + apply (clean_part_facts g n Hg).
    + apply in_skipn in Hl. apply (body_line_stripped body n Hl).
  - intros a Ha. destruct (allergen_sources _ _ _ _ Hb Ha) as (g & Hg & Hno & Hin).
    destruct (clean_part_facts g a Hin) as [Hs Hc]. split; [exact Hs|].
    intros c Hca. destruct (Hc c Hca) as [Hcg Hsep].
    split; [apply (contains_letter_false g c Hno Hcg)|].
    apply paren_groups_found in Hg. destruct Hg as (_ & Hrp & _).
    repeat split; intro E; subst c; try discriminate Hsep. exact (Hrp Hcg).
Qed.

Lemma notes_and_allergen_codes_are_stripped_witness :
  let m := nth 1 (meals (nth 0 (parse_text_blocks 2030 sample_page)
                             {| date := None; weekday := []; meals := [] |}))
               {| category := []; name := []; notes := []; allergens := []; prices := [] |} in
  (forall n, In n (notes m) -> stripped n)
  /\ (forall a, In a (allergens m) ->
        stripped a
        /\ forall c, In c a ->
             is_letter c = false /\ c <> ch "/" /\ c <> ch "," /\ c <> ch ")").
Proof.
  intro m.
  apply (notes_and_allergen_codes_are_stripped 2030 sample_page
           (nth 0 (parse_text_blocks 2030 sample_page)
                {| date := None; weekday := []; meals := [] |}) m).
  - vm_compute. left. reflexivity.
  - vm_compute. right. left. reflexivity.
Defined.

(** Property X8.  The texts of a meal of a parsed page come from the page:
    the header line and the body of its entry are contiguous parts of the
    page, the name is a contiguous part of the body, and the category is
    "Hauptgericht" or the header line.  A note is a contiguous part of the
    body or of a parenthesized group with a letter, and an allergen code a
    contiguous part of a parenthesized group without letter, the groups
    being those of the header line, one blank and the body put together.
    Such a group can start in the header line and end in the body: the
    note then has the blank where the page has the end of the line, and is
    no part of the page. *)
Theorem meal_texts_are_parts_of_the_page :
  forall now_year text d m,
    In d (parse_text_blocks now_year text) -> In m (meals d) ->
    exists cat_raw body,
      part_of cat_raw text /\ part_of body text
      /\ part_of (name m) body /\ part_of (name m) text
      /\ (category m = u "Hauptgericht" \/ category m = cat_raw)
      /\ (forall n, In n (notes m) ->
            part_of n body
            \/ exists g pre post,
                 cat_raw ++ u " " ++ body = pre ++ ch "(" :: g ++ ch ")" :: post
                 /\ contains_letter g = true /\ part_of n g)
      /\ (forall a, In a (allergens m) ->
            exists g pre post,
              cat_raw ++ u " " ++ body = pre ++ ch "(" :: g ++ ch ")" :: post
              /\ contains_letter g = false /\ part_of a g).
Proof.
  intros now_year text d m Hd Hm.
  destruct (parsed_meal_texts _ _ _ _ Hd Hm) as (cat_raw & body & Hc & Hb & Hbm).
  destruct (build_meal_fields _ _ _ Hbm) as (nm & rest & Hl & Ec & En & _).
  exists cat_raw, body.
  assert (Hname : part_of (name m) body).
  { rewrite En. apply part_of_body_line. rewrite Hl. left. reflexivity. }
  split; [exact Hc|]. split; [exact Hb|]. split; [exact Hname|].
  split; [apply (part_of_trans _ body); assumption|]. split; [|split].
  - rewrite Ec. unfold normalize_category. destruct (is_some _); [left | right]; reflexivity.
  - intros n Hn. destruct (notes_sources _ _ _ _ Hbm Hn) as [(g & Hg & Hlet & Hng) | Hln].
    + right. apply paren_groups_found in Hg. destruct Hg as (_ & _ & pre & post & E).
      exists g, pre, post. split; [exact E|]. split; [exact Hlet|].
      apply part_of_clean. exact Hng.
    + left. apply part_of_body_line. apply in_skipn in Hln. exact Hln.
  - intros a Ha. destruct (allergen_sources _ _ _ _ Hbm Ha) as (g & Hg & Hlet & Hag).
    apply paren_groups_found in Hg. destruct Hg as (_ & _ & pre & post & E).
    exists g, pre, post. split; [exact E|]. split; [exact Hlet|].
    apply part_of_clean. exact Hag.
Qed.

Lemma meal_texts_are_parts_of_the_page_witness :
  let m := nth 0 (meals (nth 0 (parse_text_blocks 2030 split_group_page)
                             {| date := None; weekday := []; meals := [] |}))
               {| category := []; name := []; notes := []; allergens := []; prices := [] |} in
  (exists cat_raw body,
     part_of cat_raw split_group_page /\ part_of body split_group_page
     /\ part_of (name m) body /\ part_of (name m) split_group_page
     /\ (category m = u "Hauptgericht" \/ category m = cat_raw)
     /\ (forall n, In n (notes m) ->
           part_of n body
           \/ exists g pre post,
                cat_raw ++ u " " ++ body = pre ++ ch "(" :: g ++ ch ")" :: post
                /\ contains_letter g = true /\ part_of n g)
     /\ (forall a, In a (allergens m) ->
           exists g pre post,
             cat_raw ++ u " " ++ body = pre ++ ch "(" :: g ++ ch ")" :: post
             /\ contains_letter g = false /\ part_of a g))
  /\ category m = u "Suppe (mit" /\ name m = u "Reis) Linsen"
  /\ notes m = [u "mit Reis"]
  /\ ~ part_of (u "mit Reis") split_group_page.
Proof.
  intro m. split; [|split; [|split; [|split]]]; try (vm_compute; reflexivity).
  - apply (meal_texts_are_parts_of_the_page 2030 split_group_page
             (nth 0 (parse_text_blocks 2030 split_group_page)
                  {| date := None; weekday := []; meals := [] |}) m).
    + vm_compute. left. reflexivity.
    + vm_compute. left. reflexivity.
  - intro H. apply part_of_occurs in H. vm_compute in H. discriminate H.
Defined.

(** Property X9.  A price printed with a comma or a dot and at most two
    decimal places, up to thirteen digits before them and no leading zero,
    whatever text without digit, dot, comma and line feed follows it (a
    blank and the euro sign, for instance), is read by [normalize_price] as
    the nearest float, and the feed renders that float with the digits that
    were printed, a dot between them, and zeros for the decimal places that
    were not printed. *)
Theorem printed_price_is_rendered_with_its_digits :
  forall a b sep t,
    a <> [] -> all_in is_ascii_digit a -> (length a <= 13)%nat -> no_leading_zero a ->
    all_in is_ascii_digit b -> (length b <= 2)%nat ->
    sep = ch "," \/ sep = ch "." -> unit_text t ->
    let rendered := a ++ ch "." :: b ++ repeat (ch "0") (2 - length b) in
    normalize_price (a ++ sep :: b ++ t) = Some (decimal_float a b)
    /\ format_2f (decimal_float a b) = rendered
    /\ price_elements [(u "students", normalize_price (a ++ sep :: b ++ t))]
       = [Element (u "price") [(u "role", u "students")] rendered []].
Proof.
  intros a b sep t Ha0 Ha La Hz Hb Lb Hsep Ht rendered.
  assert (En : normalize_price (a ++ sep :: b ++ t) = Some (decimal_float a b))
    by (apply normalize_price_number; assumption).
  assert (Ef : format_2f (decimal_float a b) = rendered).
  { rewrite (format_2f_decimal_float a b Ha La Hb Lb), (dec_digits_of_value a Ha Hz).
    reflexivity. }
  split; [exact En|]. split; [exact Ef|].
  rewrite En. unfold price_elements. cbn [flat_map snd fst app]. rewrite Ef. reflexivity.
Qed.

Lemma printed_price_is_rendered_with_its_digits_witness :
  (normalize_price (u "3,50 " ++ [euro]) = Some (decimal_float (u "3") (u "50"))
   /\ format_2f (decimal_float (u "3") (u "50")) = u "3.50"
   /\ price_elements [(u "students", normalize_price (u "3,50 " ++ [euro]))]
      = [Element (u "price") [(u "role", u "students")] (u "3.50") []])
  /\ (normalize_price (u "12.5 EUR") = Some (decimal_float (u "12") (u "5"))
      /\ format_2f (decimal_float (u "12") (u "5")) = u "12.50"
      /\ price_elements [(u "students", normalize_price (u "12.5 EUR"))]
         = [Element (u "price") [(u "role", u "students")] (u "12.50") []]).
Proof.
  split.
  - apply (printed_price_is_rendered_with_its_digits (u "3") (u "50") (ch ",") (u " " ++ [euro])).
    + discriminate.
    + repeat constructor.
    + simpl. lia.
    + right. exists (ch "3"), []. split; [reflexivity | discriminate].
    + repeat constructor.
    + simpl. lia.
    + left. reflexivity.
    + intros c [<- | [<- | []]]; repeat split; try discriminate; vm_compute; reflexivity.
  - apply (printed_price_is_rendered_with_its_digits (u "12") (u "5") (ch ".") (u " EUR")).
    + discriminate.
    + repeat constructor.
    + simpl. lia.
    + right. exists (ch "1"), [ch "2"]. split; [reflexivity | discriminate].
    + repeat constructor.
    + simpl. lia.
    + right. reflexivity.
    + intros c [<- | [<- | [<- | [<- | []]]]]; repeat split; try discriminate;
        vm_compute; reflexivity.
Defined.

(** Property X10.  A price printed without separator, up to thirteen
    digits without leading zero, followed by a text without digit, dot,
    comma and line feed, is rendered with two zeros after the dot. *)
Theorem price_without_decimals_gets_two_zeros :
  forall a t,
    a <> [] -> all_in is_ascii_digit a -> (length a <= 13)%nat -> no_leading_zero a ->
    unit_text t ->
    normalize_price (a ++ t) = Some (decimal_float a [])
    /\ format_2f (decimal_float a []) = a ++ u ".00".
Proof.
  intros a t Ha0 Ha La Hz Ht. split; [apply normalize_price_integer; assumption|].
  rewrite (format_2f_decimal_float a [] Ha La (Forall_nil _)) by (simpl; lia).
  rewrite (dec_digits_of_value a Ha Hz). reflexivity.
Qed.

Lemma price_without_decimals_gets_two_zeros_witness :
  normalize_price (u "3" ++ u " " ++ [euro]) = Some (decimal_float (u "3") [])
  /\ format_2f (decimal_float (u "3") []) = u "3" ++ u ".00".
Proof.
  apply (price_without_decimals_gets_two_zeros (u "3") (u " " ++ [euro])).
  - discriminate.
  - repeat constructor.
  - simpl. lia.
  - right. exists (ch "3"), []. split; [reflexivity | discriminate].
  - intros c [<- | [<- | []]]; repeat split; try discriminate; vm_compute; reflexivity.
Defined.

(** Property X11.  A part of a price line that starts, after stripping,
    with another character than a digit, a dot, a comma, a blank or the
    euro sign gives no price: the text "ab 3,50" for instance, or a number
    with a sign. *)
Theorem part_starting_with_text_gives_no_price :
  forall c t,
    is_space c = false -> c <> euro -> is_digit c = false -> c <> ch "." -> c <> ch "," ->
    ~ In LF t ->
    normalize_price (c :: t) = None.
Proof.
  intros c t Sc Hce Hcd Hcdot Hcc Hlf.
  assert (Hlf' : ~ In LF (c :: t)).
  { intros [E | H]; [subst c; discriminate Sc | contradiction]. }
  rewrite normalize_price_digits_dots; [|discriminate | exact Hlf'].
  destruct (strip_head c t Sc) as (t' & E). unfold price_text. rewrite E.
  unfold remove_char. cbn [filter].
  assert (E1 : chr_eqb c euro = false) by (apply chr_eqb_neq; exact Hce).
  assert (E2 : chr_eqb c (ch " ") = false).
  { apply chr_eqb_neq. intro H. subst c. discriminate Sc. }
  assert (E3 : chr_eqb c (ch ",") = false) by (apply chr_eqb_neq; exact Hcc).
  assert (E4 : chr_eqb c (ch ".") = false) by (apply chr_eqb_neq; exact Hcdot).
  rewrite E1. cbn [negb filter]. rewrite E2. cbn [negb]. unfold replace_char. cbn [map].
  rewrite E3. cbn [span]. unfold is_digit_or_dot. rewrite Hcd, E4. reflexivity.
Qed.

Lemma part_starting_with_text_gives_no_price_witness :
  normalize_price (ch "a" :: u "b 3,50") = None.
Proof.
  apply (part_starting_with_text_gives_no_price (ch "a") (u "b 3,50"));
    try discriminate; try reflexivity.
  simpl. intro H. repeat (destruct H as [H | H]; [discriminate|]). exact H.
Defined.

(** Property X12.  A number with two separators, such as "1.234,50" with a
    dot for the thousands, gives no price: both separators become dots,
    and [float] refuses the result. *)
Theorem number_with_two_separators_gives_no_price :
  forall a b c sep1 sep2 t,
    all_in is_ascii_digit a -> all_in is_ascii_digit b -> all_in is_ascii_digit c ->
    sep1 = ch "," \/ sep1 = ch "." -> sep2 = ch "," \/ sep2 = ch "." -> unit_text t ->
    normalize_price (a ++ sep1 :: b ++ sep2 :: c ++ t) = None.
Proof.
  intros a b c sep1 sep2 t Ha Hb Hc H1 H2 Ht.
  assert (E : a ++ sep1 :: b ++ sep2 :: c ++ t = (a ++ sep1 :: b ++ sep2 :: c) ++ t).
  { rewrite <- app_assoc. simpl. rewrite <- app_assoc. reflexivity. }
  assert (Hx : forall x, In x (a ++ sep1 :: b ++ sep2 :: c) ->
               is_ascii_digit x = true \/ x = ch "," \/ x = ch ".").
  { unfold all_in in *. rewrite Forall_forall in Ha, Hb, Hc. intros x Hin.
    apply in_app_or in Hin. destruct Hin as [Hin | [<- | Hin]]; [left; auto | right; tauto|].
    apply in_app_or in Hin. destruct Hin as [Hin | [<- | Hin]];
      [left; auto | right; tauto | left; auto]. }
  assert (Hlf : ~ In LF ((a ++ sep1 :: b ++ sep2 :: c) ++ t)).
  { intro Hin. apply in_app_or in Hin. destruct Hin as [Hin | Hin].
    - apply Hx in Hin. destruct Hin as [Hin | [Hin | Hin]]; discriminate.
    - apply Ht in Hin. destruct Hin as (_ & _ & _ & Hin). congruence. }
  rewrite E, normalize_price_digits_dots; [|destruct a; discriminate | exact Hlf].
  destruct (price_text_body (a ++ sep1 :: b ++ sep2 :: c) t) as (t' & Ep & Hin);
    [destruct a; discriminate | exact Hx | exact Ht|].
  assert (Er : replace_char (ch ",") (ch ".") (a ++ sep1 :: b ++ sep2 :: c)
               = a ++ ch "." :: b ++ ch "." :: c).
  { unfold replace_char. rewrite map_app. cbn [map]. rewrite map_app. cbn [map].
    fold (replace_char (ch ",") (ch ".") a). fold (replace_char (ch ",") (ch ".") b).
    fold (replace_char (ch ",") (ch ".") c).
    rewrite !replace_char_absent by (apply digits_no_char; [assumption | reflexivity]).
    destruct H1 as [-> | ->], H2 as [-> | ->]; reflexivity. }
  rewrite Ep, Er.
  assert (Hdd : all_in is_digit_or_dot (a ++ ch "." :: b ++ ch "." :: c)).
  { apply Forall_app. split.
    - revert Ha. apply Forall_impl. intros x Hxd. unfold is_digit_or_dot.
      rewrite (ascii_digit_is_digit x Hxd). reflexivity.
    - constructor; [reflexivity|]. apply (number_digit_or_dot b c Hb Hc). }
  rewrite (unit_text_span _ t' t Hdd Hin Ht).
  apply (float_of_two_dots a b c Ha Hb Hc).
Qed.

Lemma number_with_two_separators_gives_no_price_witness :
  normalize_price (u "1" ++ ch "." :: u "234" ++ ch "," :: u "50" ++ u " " ++ [euro]) = None.
Proof.
  apply (number_with_two_separators_gives_no_price
           (u "1") (u "234") (u "50") (ch ".") (ch ",") (u " " ++ [euro])).
  - repeat constructor.
  - repeat constructor.
  - repeat constructor.
  - right. reflexivity.
  - left. reflexivity.
  - intros c [<- | [<- | []]]; repeat split; try discriminate; vm_compute; reflexivity.
Defined.

(** Property X13.  [build_openmensa_xml] groups the meals of a day by
    category: the day element has one category element for each category,
    in the order in which the categories first occur among the meals of
    the day, no category twice, and each category element holds the meals
    of its category in their order. *)
Theorem day_element_groups_meals_by_category :
  forall d dt,
    date d = Some dt -> dt <> [] ->
    day_elements d
    = [Element (u "day") [(u "date", dt)] []
         (map (fun k => Element (u "category") [(u "name", k)] []
                          (map meal_element (meals_of_category k (meals d))))
              (categories_in_order (meals d)))]
    /\ NoDup (categories_in_order (meals d))
    /\ (forall k, In k (categories_in_order (meals d))
                  <-> exists m, In m (meals d) /\ category m = k).
Proof.
  intros d dt Hd Hne. split; [|split].
  - unfold day_elements. rewrite Hd. destruct dt as [|c dt]; [congruence|].
    cbn [is_empty]. rewrite group_meals_spec, map_map. reflexivity.
  - apply first_occurrences_nodup.
  - intro k. unfold categories_in_order. rewrite first_occurrences_keys, in_map_iff.
    split; intros (m & H1 & H2); exists m; auto.
Qed.

Lemma day_element_groups_meals_by_category_witness :
  let d := nth 0 (parse_text_blocks 2030 sample_page)
               {| date := None; weekday := []; meals := [] |} in
  day_elements d
  = [Element (u "day") [(u "date", u "2024-01-01")] []
       (map (fun k => Element (u "category") [(u "name", k)] []
                        (map meal_element (meals_of_category k (meals d))))
            (categories_in_order (meals d)))]
  /\ NoDup (categories_in_order (meals d))
  /\ (forall k, In k (categories_in_order (meals d))
                <-> exists m, In m (meals d) /\ category m = k).
Proof.
  intro d. apply (day_element_groups_meals_by_category d (u "2024-01-01")).
  - vm_compute. reflexivity.
  - discriminate.
Defined.

(** Property X14.  The feed renders every meal of every Day that has a date
    exactly once, and no meal of a Day without date: its meal elements are,
    up to their order, the renderings of those meals. *)
Theorem feed_renders_each_dated_meal_once :
  forall canteen_name days,
    Permutation (meal_elements (openmensa_tree canteen_name days))
                (map meal_element (flat_map meals (filter has_date days)))
    /\ length (meal_elements (openmensa_tree canteen_name days))
       = length (flat_map meals (filter has_date days)).
Proof.
  intros canteen_name days.
  assert (P : Permutation (meal_elements (openmensa_tree canteen_name days))
                          (map meal_element (flat_map meals (filter has_date days)))).
  { rewrite feed_meals. apply Permutation_map.
    induction (filter has_date days) as [|d ds IH]; [apply Permutation_refl|].
    cbn [flat_map]. apply Permutation_app; [apply group_meals_perm | exact IH]. }
  split; [exact P|]. rewrite (Permutation_length P). apply length_map.
Qed.

(** Property X15.  The feed that [main] writes for a parsed page is the
    text [feed_text] of the title of the canteen and of the Days of the
    page.  In it no name and no note of a meal is an empty element: a meal
    element is written with its name, its notes and a note "Allergene: ..."
    for each allergen code, each with its text, and with a price element
    for each price that is present, whose role is written as it is and
    whose text is the one that ["{:.2f}"] gives for the value.  The date of
    a day element is written as it is, and is not empty. *)
Theorem feed_of_parsed_page_is_feed_text :
  forall now_year text,
    let days := parse_text_blocks now_year text in
    (days <> [] ->
     feed (main now_year (Some text)) = Some (feed_text canteen_title days))
    /\ (forall d m, In d days -> In m (meals d) ->
          xmlcharrefreplace (serialize_xml [] (meal_element m))
          = u "<meal>" ++ full_text_element "name" (name m)
              ++ flat_map (full_text_element "note") (notes m)
              ++ flat_map (fun c => full_text_element "note" (u "Allergene: " ++ c))
                          (allergens m)
              ++ flat_map (fun rv => match snd rv with
                                     | Some x =>
                                         u "<price role=" ++ [dquote] ++ fst rv ++ [dquote]
                                           ++ u ">" ++ format_2f x ++ u "</price>"
                                     | None => []
                                     end) (prices m)
              ++ u "</meal>")
    /\ (forall d dt, In d days -> date d = Some dt ->
          written_attribute dt = dt /\ dt <> []).
Proof.
  intros now_year text days. split; [|split].
  - intro Hne. unfold days in *. rewrite (main_feed now_year text Hne). f_equal.
    apply written_feed.
  - intros d m Hd Hm. rewrite written_meal. unfold meal_text.
    destruct (parsed_meal_nonempty now_year text d m Hd Hm) as (Hn & Hnotes & Hroles).
    assert (E1 : text_element "name" (name m) = full_text_element "name" (name m)).
    { unfold text_element. destruct (name m); [congruence | reflexivity]. }
    assert (E2 : flat_map (text_element "note") (notes m)
                 = flat_map (full_text_element "note") (notes m)).
    { apply flat_map_ext_in. intros n Hin. unfold text_element.
      destruct n; [exfalso; apply (Hnotes [] Hin); reflexivity | reflexivity]. }
    assert (E3 : flat_map (fun rv => match snd rv with
                                     | Some x => price_text_element (fst rv) x
                                     | None => []
                                     end) (prices m)
                 = flat_map (fun rv => match snd rv with
                                       | Some x =>
                                           u "<price role=" ++ [dquote] ++ fst rv ++ [dquote]
                                             ++ u ">" ++ format_2f x ++ u "</price>"
                                       | None => []
                                       end) (prices m)).
    { apply flat_map_ext_in. intros rv Hin. destruct rv as [r [x|]]; [|reflexivity].
      cbn [fst snd]. unfold price_text_element.
      assert (Hr : In r (map fst (prices m))) by (apply in_map_iff; exists (r, Some x); auto).
      rewrite Hroles in Hr. destruct Hr as [<- | [<- | [<- | []]]]; reflexivity. }
    rewrite E1, E2, E3. reflexivity.
  - intros d dt Hd Hdt. apply (parsed_date_plain now_year text d dt Hd Hdt).
Qed.

Lemma feed_of_parsed_page_is_feed_text_witness :
  let days := parse_text_blocks 2030 new_year_page in
  let m := nth 1 (meals (nth 0 (parse_text_blocks 2030 sample_page)
                             {| date := None; weekday := []; meals := [] |}))
               {| category := []; name := []; notes := []; allergens := []; prices := [] |} in
  feed (main 2030 (Some new_year_page)) = Some (feed_text canteen_title days)
  /\ feed_text (u "Mensa") days
     = u "<?xml version='1.0' encoding='utf-8'?>" ++ [LF]
         ++ u "<openmensa xmlns=" ++ [dquote] ++ u "http://openmensa.org/open-mensa-v2"
         ++ [dquote] ++ u " version=" ++ [dquote] ++ u "2.1" ++ [dquote]
         ++ u "><canteen><name>Mensa</name><day date=" ++ [dquote] ++ u "2024-12-30"
         ++ [dquote] ++ u " /><day date=" ++ [dquote] ++ u "2024-01-02" ++ [dquote]
         ++ u " /></canteen></openmensa>"
  /\ xmlcharrefreplace (serialize_xml [] (meal_element m))
     = u "<meal><name>Linsensuppe (2,3)</name><note>mit Brot</note>"
         ++ u "<note>Allergene: 2</note><note>Allergene: 3</note><price role="
         ++ [dquote] ++ u "students" ++ [dquote] ++ u ">2.10</price></meal>".
Proof.
  intros days m.
  split; [|split; [vm_compute; reflexivity|]].
  - apply (proj1 (feed_of_parsed_page_is_feed_text 2030 new_year_page)). discriminate.
  - rewrite (proj1 (proj2 (feed_of_parsed_page_is_feed_text 2030 sample_page))
               (nth 0 (parse_text_blocks 2030 sample_page)
                    {| date := None; weekday := []; meals := [] |}) m).
    + vm_compute. reflexivity.
    + vm_compute. left. reflexivity.
    + vm_compute. right. left. reflexivity.
Defined.

(** Property X16.  When no Day has a date, the feed has no day element: it
    is the feed of no Day at all, the declaration, the root element and the
    canteen with its name.  This is the feed that [main] writes, with exit
    code 4, for a page whose headers all have dates that cannot be parsed. *)
Theorem feed_without_dated_day_is_empty_feed :
  forall canteen_name days,
    canteen_name <> [] -> dated_days days = 0%nat ->
    build_openmensa_xml canteen_name days = feed_text canteen_name []
    /\ build_openmensa_xml canteen_name days = build_openmensa_xml canteen_name [].
Proof.
  intros canteen_name days Hn H0.
  assert (E : build_openmensa_xml canteen_name days = build_openmensa_xml canteen_name []).
  { unfold build_openmensa_xml, openmensa_tree. rewrite (undated_day_elements days H0).
    reflexivity. }
  split; [|exact E]. rewrite E. apply written_feed.
Qed.

Lemma feed_without_dated_day_is_empty_feed_witness :
  let days := parse_text_blocks 2030 (u "#### Montag, 30.2." ++ [LF] ++ u "#### Dienstag, 31.2.") in
  (build_openmensa_xml canteen_title days = feed_text canteen_title []
   /\ build_openmensa_xml canteen_title days = build_openmensa_xml canteen_title [])
  /\ length days = 2%nat
  /\ exit_code (main 2030 (Some (u "#### Montag, 30.2." ++ [LF] ++ u "#### Dienstag, 31.2."))) = 4.
Proof.
  intro days. split; [|vm_compute; split; reflexivity].
  apply (feed_without_dated_day_is_empty_feed canteen_title days).
  - discriminate.
  - vm_compute. reflexivity.
Defined.
